(** * VMControl: replay buffers with goal relabeling, and the evaluation loop

    A shallow embedding of
    - [rlkit/data_management/obs_dict_replay_buffer.py]: the three replay
      buffers [ObsDictRelabelingBuffer], [imgObsDictRelabelingBuffer] and
      [newstateObsDictRelabelingBuffer];
    - [ISE_7202/eval.py]: [run_evaluation].

    Conventions of the embedding.
    - A Python [int] is a [Z]; [%] on a non-zero modulus is [Z.modulo]
      (both take the sign of the divisor), and [% 0] raises.
    - A numpy array of shape [(n, d)] is a list of [n] rows, a row being a
      list of [d] scalars.  The scalar type [V] is a parameter: the model
      does not represent dtypes, so a cell holds the value that was stored,
      up to numpy's conversion to the dtype of the array.
    - A Python [dict] with string keys is a [gmap string _].
    - A Python exception is a value of [exn]; a computation that may raise
      returns a [result].
    - A Python [float] is the rational it denotes, and every arithmetic
      operation on floats rounds its exact result with a rounding operator
      [rnd] (a parameter, see [Section FloatArith]).
    - [np.random] is a tape of raw draws read through a cursor. *)

From Stdlib Require Import ZArith QArith Qround Qabs Lia Lqa String.
From stdpp Require Import gmap strings list list_numbers.

Local Open Scope Z_scope.

(** ** Exceptions and results *)

Inductive exn : Type :=
| AssertionError (message : string)
| IndexError
| KeyError (key : string)
| TypeError
| ValueError
| ZeroDivisionError
| UnboundLocalError (name : string)
| NotImplementedError (message : string)
| EOFError.

Inductive result (A : Type) : Type :=
| Raise (e : exn)
| Return (a : A).
Arguments Raise {A} e.
Arguments Return {A} a.

#[global] Instance result_ret : MRet result := @Return.
#[global] Instance result_bind : MBind result := λ A B f m,
  match m with
  | Raise e => Raise e
  | Return a => f a
  end.
#[global] Instance result_fmap : FMap result := λ A B f m,
  match m with
  | Raise e => Raise e
  | Return a => Return (f a)
  end.

(** [assert cond, message] *)
Definition py_assert (cond : bool) (message : string) : result unit :=
  if cond then Return tt else Raise (AssertionError message).

(** A [for] loop whose body may raise: the state is threaded from left to
    right and the first exception leaves the loop. *)
Fixpoint foldM {A S : Type} (body : S → A → result S) (s : S) (l : list A)
  : result S :=
  match l with
  | [] => Return s
  | x :: l' => s' ← body s x; foldM body s' l'
  end.

(** ** Python sequences and numpy arrays *)

(** [range(a, b)] and [np.arange(a, b)]. *)
Definition py_range (a b : Z) : list Z := seqZ a (b - a).

(** The position that index [i] denotes in a sequence of length [n]:
    negative indices count from the end, anything else out of range raises
    [IndexError]. *)
Definition py_index (n : nat) (i : Z) : result nat :=
  if bool_decide (0 ≤ i < Z.of_nat n) then Return (Z.to_nat i)
  else if bool_decide (- Z.of_nat n ≤ i < 0) then Return (Z.to_nat (i + Z.of_nat n))
  else Raise IndexError.

(** [l[i]] *)
Definition getitem {A} (l : list A) (i : Z) : result A :=
  k ← py_index (length l) i;
  match l !! k with
  | Some x => Return x
  | None => Raise IndexError
  end.

(** [l[i] = x] on a Python list. *)
Definition list_setitem {A} (l : list A) (i : Z) (x : A) : result (list A) :=
  k ← py_index (length l) i;
  Return (<[k := x]> l).

(** One bound of a slice, as [slice.indices] normalises it for a sequence
    of length [n]. *)
Definition slice_bound (n : nat) (i : Z) : Z :=
  if bool_decide (i < 0) then Z.max 0 (i + Z.of_nat n) else Z.min i (Z.of_nat n).

(** First position and number of positions of [start:stop]. *)
Definition slice_indices (n : nat) (start stop : Z) : nat * nat :=
  let s := slice_bound n start in
  let e := slice_bound n stop in
  (Z.to_nat s, Z.to_nat (e - s)).

(** [l[start:stop]] *)
Definition getslice {A} (l : list A) (start stop : Z) : list A :=
  let '(s, m) := slice_indices (length l) start stop in
  take m (drop s l).

(** [d[key]] on a dict. *)
Definition dict_getitem {A} (d : gmap string A) (key : string) : result A :=
  match d !! key with
  | Some x => Return x
  | None => Raise (KeyError key)
  end.

(** ['sub' in s] *)
Definition str_contains (sub s : string) : bool :=
  match String.index 0 sub s with
  | Some _ => true
  | None => false
  end.

(** A row of an array: a flat array of scalars. *)
Abbreviation Row V := (list V) (only parsing).

Section Arrays.
Context {V : Type}.

(** A two-dimensional numpy array of shape [(length rows, ncols)]. *)
Record ndarray : Type := NdArray { ncols : nat; rows : list (Row V) }.

(** Broadcasting a row of values to a row of width [d]: the widths agree,
    or the value has a single column, which is repeated. *)
Definition broadcast_row (d : nat) (v : Row V) : result (Row V) :=
  if bool_decide (length v = d) then Return v
  else match v with
       | [x] => Return (replicate d x)
       | _ => Raise ValueError
       end.

(** [arr[i] = v] *)
Definition setitem_row (arr : ndarray) (i : Z) (v : Row V) : result ndarray :=
  k ← py_index (length (rows arr)) i;
  r ← broadcast_row (ncols arr) v;
  Return (NdArray (ncols arr) (<[k := r]> (rows arr))).

(** [arr[start:stop] = vals] (also written [arr[start:stop, :] = vals]):
    the rows of [vals] are broadcast to the width of [arr]; their number
    is the number of rows of the slice, or one. *)
Definition setitem_slice (arr : ndarray) (start stop : Z) (vals : list (Row V))
  : result ndarray :=
  let '(s, m) := slice_indices (length (rows arr)) start stop in
  rs ← mapM (broadcast_row (ncols arr)) vals;
  if bool_decide (length rs = m)
  then Return (NdArray (ncols arr) (list_inserts s rs (rows arr)))
  else match rs with
       | [r] => Return (NdArray (ncols arr) (list_inserts s (replicate m r) (rows arr)))
       | _ => Raise ValueError
       end.

(** [arr[indices]] with an integer array of indices: a fresh array. *)
Definition take_rows (arr : ndarray) (indices : list Z) : result ndarray :=
  rs ← mapM (getitem (rows arr)) indices;
  Return (NdArray (ncols arr) rs).

(** [np.zeros((n, d))] and [np.ones((n, d))] *)
Definition np_full (x : V) (n : Z) (d : nat) : result ndarray :=
  if bool_decide (n < 0) then Raise ValueError
  else Return (NdArray d (replicate (Z.to_nat n) (replicate d x))).

(** [arr[key]] with a string [key]: the arrays of the buffers have no
    named fields, and only integers, slices and integer or boolean arrays
    are valid indices. *)
Definition getitem_key (arr : ndarray) (key : string) : result ndarray :=
  Raise IndexError.
End Arrays.
Arguments ndarray V : clear implicits.

(** ** Floats, scalars, randomness *)

(** The rounding of the float arithmetic: an operation on floats returns
    [rnd] of its exact result.  With [rnd] the identity the arithmetic is
    exact; binary64 is a rounding to 53 significant bits. *)
Class FloatRounding := rnd : Q → Q.

Section FloatArith.
Context `{FloatRounding}.

(** [x + y] and [x * y] on floats. *)
Definition float_add (x y : Q) : Q := rnd (x + y).
Definition float_mul (x y : Q) : Q := rnd (x * y).
(** The conversion of an [int] operand in mixed arithmetic. *)
Definition float_of_int (n : Z) : Q := rnd (inject_Z n).
(** [int(x)]: truncation towards zero. *)
Definition int_of_float (x : Q) : Z := Z.quot (Qnum x) (Z.pos (Qden x)).
(** [n * x] with [n] an [int] and [x] a float. *)
Definition int_mul_float (n : Z) (x : Q) : Q := float_mul (float_of_int n) x.
End FloatArith.

(** What the model needs of the scalars stored in the arrays. *)
Class Scalar (V : Type) := {
  zero : V;
  one : V;
  (** [np.uint8(x * 255.0)] *)
  unnormalize_scalar : V → V;
  (** [np.float64(x) / 255.0] *)
  normalize_scalar : V → V;
  (** the integer that an entry of a discrete action denotes *)
  as_int : V → Z;
}.

(** [np.random]: a tape of raw draws and a cursor on it. *)
Record Rng : Type := { tape : nat → Z; cursor : nat }.

(** [np.random.randint(low, high)]: one integer of [[low, high)]. *)
Definition randint (low high : Z) (g : Rng) : result (Z * Rng) :=
  if bool_decide (high ≤ low) then Raise ValueError
  else Return (low + tape g (cursor g) `mod` (high - low),
               {| tape := tape g; cursor := S (cursor g) |}).

(** [n] successive draws. *)
Fixpoint randint_list (low high : Z) (n : nat) (g : Rng) : result (list Z * Rng) :=
  match n with
  | O => Return ([], g)
  | S n' =>
      '(x, g1) ← randint low high g;
      '(xs, g2) ← randint_list low high n' g1;
      Return (x :: xs, g2)
  end.

(** [np.random.randint(low, high, size)] *)
Definition randint_array (low high size : Z) (g : Rng) : result (list Z * Rng) :=
  if bool_decide (size < 0) then Raise ValueError
  else if bool_decide (high ≤ low) then Raise ValueError
  else randint_list low high (Z.to_nat size) g.

(** [np.random.choice(a, size, replace=True)] *)
Definition random_choice (a : list Z) (size : Z) (g : Rng) : result (list Z * Rng) :=
  if bool_decide (size < 0) then Raise ValueError
  else if bool_decide (a = [] ∧ size ≠ 0) then Raise ValueError
  else if bool_decide (size = 0) then Return ([], g)
  else
    '(ks, g') ← randint_list 0 (Z.of_nat (length a)) (Z.to_nat size) g;
    xs ← mapM (getitem a) ks;
    Return (xs, g').

(** ** The environment *)

Inductive Space : Type :=
| Discrete (n : nat)          (** [gym.spaces.Discrete(n)] *)
| Box (low_size : nat).       (** a box space; [low_size] is [space.low.size] *)

(** An observation: a dict from keys to flat arrays. *)
Abbreviation Obs V := (gmap string (Row V)) (only parsing).

Section Environment.
Context {V : Type}.

(** The part of the goal-conditioned environment that the buffers use. *)
Record Env : Type := {
  (** [isinstance(env.observation_space, Dict)] *)
  observation_space_is_Dict : bool;
  (** [env.observation_space.spaces[key].low.size] *)
  observation_spaces : gmap string nat;
  action_space : Space;
  (** [env.compute_rewards], when the environment has it *)
  compute_rewards : option (list (Row V) → gmap string (list (Row V)) → list (Row V));
  (** [env.compute_reward(achieved_goal, desired_goal, None)] *)
  compute_reward : Row V → Row V → V;
  (** [env.sample_goals(n)] *)
  sample_goals : Z → gmap string (list (Row V));
}.

(** A path, as the samplers hand it to [add_path]. *)
Record Path : Type := {
  observations : list (Obs V);
  actions : list (Row V);
  rewards : list (Row V);
  next_observations : list (Obs V);
  terminals : list (Row V);
}.
End Environment.
Arguments Env V : clear implicits.
Arguments Path V : clear implicits.

(** ** Helpers of the module *)

Section Helpers.
Context {V : Type} `{Scalar V}.

(** [flatten_n]: [np.asarray(xs).reshape((xs.shape[0], -1))].  Rows are
    flat in the model, so this is the identity on a list of rows. *)
Definition flatten_n (xs : list (Row V)) : list (Row V) := xs.

(** [flatten_dict]: a list of dicts becomes a dict of arrays. *)
Definition flatten_dict (dicts : list (Obs V)) (keys : list string)
  : result (gmap string (list (Row V))) :=
  foldM (λ acc key,
           column ← mapM (λ d, dict_getitem d key) dicts;
           Return (<[key := flatten_n column]> acc))
        ∅ keys.

Definition unnormalize_image (image : list (Row V)) : list (Row V) :=
  map (map unnormalize_scalar) image.

Definition normalize_image (image : list (Row V)) : list (Row V) :=
  map (map normalize_scalar) image.

(** [preprocess_obs_dict]: images are saved as bytes. *)
Definition preprocess_obs_dict (obs_dict : gmap string (list (Row V)))
  : gmap string (list (Row V)) :=
  map_imap (λ obs_key obs,
              Some (if str_contains "image" obs_key
                    then unnormalize_image obs else obs)) obs_dict.

(** [postprocess_obs_dict]: the inverse change of representation, on
    the arrays of a batch. *)
Definition postprocess_obs_dict (obs_dict : gmap string (ndarray V))
  : gmap string (ndarray V) :=
  map_imap (λ obs_key obs,
              Some (if str_contains "image" obs_key
                    then NdArray (ncols obs) (normalize_image (rows obs))
                    else obs)) obs_dict.

(** [np.eye(n)[a]] for one integer [a]. *)
Definition eye_row (n : nat) (a : Z) : result (Row V) :=
  k ← py_index n a;
  Return (<[k := one]> (replicate n zero)).

(** [np.eye(n)[actions].reshape((-1, n))]: one row per entry. *)
Definition one_hot (n : nat) (actions : list (Row V)) : result (list (Row V)) :=
  mapM (λ a, eye_row n (as_int a)) (concat actions).
End Helpers.

(** ** [ObsDictRelabelingBuffer] *)

Module ObsDict.
Section Buffer.
Context {V : Type} `{Scalar V} `{FloatRounding}.

Record Buffer : Type := {
  internal_keys : list string;
  goal_keys : list string;
  max_size : Z;
  env : Env V;
  fraction_goals_rollout_goals : Q;
  fraction_goals_env_goals : Q;
  ob_keys_to_save : list string;
  observation_key : string;
  desired_goal_key : string;
  achieved_goal_key : string;
  _action_dim : nat;
  _actions : ndarray V;
  _terminals : ndarray V;
  _obs : gmap string (ndarray V);
  _next_obs : gmap string (ndarray V);
  _top : Z;
  _size : Z;
  _idx_to_future_obs_idx : list (option (list Z));
}.

(** The keys under which observations are stored:
    [self.ob_keys_to_save + self.internal_keys]. *)
Definition saved_keys (b : Buffer) : list string :=
  ob_keys_to_save b ++ internal_keys b.

(** The loop of [__init__] that allocates [_obs[key]] and
    [_next_obs[key]]. *)
Definition allocate_obs (e : Env V) (max_size : Z) (keys : list string)
  : result (gmap string (ndarray V) * gmap string (ndarray V)) :=
  foldM (λ '(obs, next_obs) key,
           _ ← py_assert (bool_decide (is_Some (observation_spaces e !! key)))
                 ("Key not found in the observation space: " +:+ key);
           d ← dict_getitem (observation_spaces e) key;
           a ← np_full zero max_size d;
           a' ← np_full zero max_size d;
           Return (<[key := a]> obs, <[key := a']> next_obs))
        (∅, ∅) keys.

Definition __init__ (max_size : Z) (e : Env V)
    (fraction_goals_rollout_goals fraction_goals_env_goals : Q)
    (internal_keys goal_keys : option (list string))
    (observation_key desired_goal_key achieved_goal_key : string)
  : result Buffer :=
  let internal_keys := default [] internal_keys in
  let goal_keys := default [] goal_keys in
  let goal_keys :=
    if bool_decide (desired_goal_key ∈ goal_keys) then goal_keys
    else goal_keys ++ [desired_goal_key] in
  _ ← py_assert (observation_space_is_Dict e)
        "isinstance(env.observation_space, Dict)";
  _ ← py_assert (Qle_bool 0 fraction_goals_rollout_goals)
        "0 <= fraction_goals_rollout_goals";
  _ ← py_assert (Qle_bool 0 fraction_goals_env_goals)
        "0 <= fraction_goals_env_goals";
  _ ← py_assert
        (Qle_bool 0 (float_add fraction_goals_rollout_goals fraction_goals_env_goals))
        "0 <= fraction_goals_rollout_goals + fraction_goals_env_goals";
  _ ← py_assert
        (Qle_bool (float_add fraction_goals_rollout_goals fraction_goals_env_goals) 1)
        "fraction_goals_rollout_goals + fraction_goals_env_goals <= 1";
  let ob_keys_to_save := [observation_key; desired_goal_key; achieved_goal_key] in
  let action_dim :=
    match action_space e with
    | Discrete n => n
    | Box low_size => low_size
    end in
  acts ← np_full zero max_size action_dim;
  terms ← np_full zero max_size 1;
  '(obs, next_obs) ← allocate_obs e max_size (ob_keys_to_save ++ internal_keys);
  Return {|
    internal_keys := internal_keys;
    goal_keys := goal_keys;
    max_size := max_size;
    env := e;
    fraction_goals_rollout_goals := fraction_goals_rollout_goals;
    fraction_goals_env_goals := fraction_goals_env_goals;
    ob_keys_to_save := ob_keys_to_save;
    observation_key := observation_key;
    desired_goal_key := desired_goal_key;
    achieved_goal_key := achieved_goal_key;
    _action_dim := action_dim;
    _actions := acts;
    _terminals := terms;
    _obs := obs;
    _next_obs := next_obs;
    _top := 0;
    _size := 0;
    _idx_to_future_obs_idx := replicate (Z.to_nat max_size) None;
  |}.

Definition add_sample (b : Buffer) : result Buffer :=
  Raise (NotImplementedError "Only use add_path").

Definition num_steps_can_sample (b : Buffer) : Z := _size b.

(** The arrays that [add_path] writes. *)
Record Storage : Type := {
  s_actions : ndarray V;
  s_terminals : ndarray V;
  s_obs : gmap string (ndarray V);
  s_next_obs : gmap string (ndarray V);
}.

(** [xs[path_slice]], or [xs] itself where the code takes the whole
    array of the path ([path_slice] is [None]). *)
Definition cut_path (path_slice : option (Z * Z)) (xs : list (Row V))
  : list (Row V) :=
  match path_slice with
  | Some (lo, hi) => getslice xs lo hi
  | None => xs
  end.

(** The body of the loop over the saved keys:
    [self._obs[key][buffer_slice] = obs[key][path_slice]] and the same
    for [_next_obs]; [path_slice] is [None] for the whole array. *)
Definition store_obs_slice (obs next_obs : gmap string (list (Row V)))
    (buffer_slice : Z * Z) (path_slice : option (Z * Z))
    (st : Storage) (key : string) : result Storage :=
  let cut := cut_path path_slice in
  vals ← dict_getitem obs key;
  arr ← dict_getitem (s_obs st) key;
  arr' ← setitem_slice arr buffer_slice.1 buffer_slice.2 (cut vals);
  nvals ← dict_getitem next_obs key;
  narr ← dict_getitem (s_next_obs st) key;
  narr' ← setitem_slice narr buffer_slice.1 buffer_slice.2 (cut nvals);
  Return {| s_actions := s_actions st; s_terminals := s_terminals st;
            s_obs := <[key := arr']> (s_obs st);
            s_next_obs := <[key := narr']> (s_next_obs st) |}.

(** One pair [(buffer_slice, path_slice)]: the actions, the terminals,
    then every saved key. *)
Definition store_slice (keys : list string)
    (acts terms : list (Row V)) (obs next_obs : gmap string (list (Row V)))
    (st : Storage) (slices : (Z * Z) * option (Z * Z)) : result Storage :=
  let '(buffer_slice, path_slice) := slices in
  let cut := cut_path path_slice in
  a ← setitem_slice (s_actions st) buffer_slice.1 buffer_slice.2 (cut acts);
  t ← setitem_slice (s_terminals st) buffer_slice.1 buffer_slice.2 (cut terms);
  foldM (store_obs_slice obs next_obs buffer_slice path_slice)
        {| s_actions := a; s_terminals := t;
           s_obs := s_obs st; s_next_obs := s_next_obs st |}
        keys.

(** [for i in range(lo, hi): self._idx_to_future_obs_idx[i] = future i] *)
Definition set_future (lo hi : Z) (future : Z → list Z)
    (idx : list (option (list Z))) : result (list (option (list Z))) :=
  foldM (λ idx i, list_setitem idx i (Some (future i))) idx (py_range lo hi).

(** The first statements of [add_path] on the actions: [flatten_n], and
    the one-hot encoding when the action space is discrete. *)
Definition encode_actions (b : Buffer) (acts : list (Row V))
  : result (list (Row V)) :=
  let acts := flatten_n acts in
  match action_space (env b) with
  | Discrete _ => one_hot (_action_dim b) acts
  | Box _ => Return acts
  end.

Definition add_path (b : Buffer) (path : Path V) : result Buffer :=
  let obs := observations path in
  let acts := actions path in
  let rews := rewards path in
  let next_obs := next_observations path in
  let terms := terminals path in
  let path_len := Z.of_nat (length rews) in
  acts ← encode_actions b acts;
  obs ← flatten_dict obs (saved_keys b);
  next_obs ← flatten_dict next_obs (saved_keys b);
  let obs := preprocess_obs_dict obs in
  let next_obs := preprocess_obs_dict next_obs in
  let st := {| s_actions := _actions b; s_terminals := _terminals b;
               s_obs := _obs b; s_next_obs := _next_obs b |} in
  '(st, idx) ←
    (if bool_decide (max_size b ≤ _top b + path_len) then
       let num_pre_wrap_steps := max_size b - _top b in
       let pre_wrap_buffer_slice := (_top b, _top b + num_pre_wrap_steps) in
       let pre_wrap_path_slice := (0, num_pre_wrap_steps) in
       let num_post_wrap_steps := path_len - num_pre_wrap_steps in
       let post_wrap_buffer_slice := (0, num_post_wrap_steps) in
       let post_wrap_path_slice := (num_pre_wrap_steps, path_len) in
       st ← foldM (store_slice (saved_keys b) acts terms obs next_obs) st
              [(pre_wrap_buffer_slice, Some pre_wrap_path_slice);
               (post_wrap_buffer_slice, Some post_wrap_path_slice)];
       idx ← set_future (_top b) (max_size b)
               (λ i, py_range i (max_size b) ++ py_range 0 num_post_wrap_steps)
               (_idx_to_future_obs_idx b);
       idx ← set_future 0 num_post_wrap_steps
               (λ i, py_range i num_post_wrap_steps) idx;
       Return (st, idx)
     else
       let slc := (_top b, _top b + path_len) in
       st ← store_slice (saved_keys b) acts terms obs next_obs st (slc, None);
       idx ← set_future (_top b) (_top b + path_len)
               (λ i, py_range i (_top b + path_len))
               (_idx_to_future_obs_idx b);
       Return (st, idx));
  _ ← (if bool_decide (max_size b = 0) then Raise ZeroDivisionError else Return tt);
  Return {|
    internal_keys := internal_keys b;
    goal_keys := goal_keys b;
    max_size := max_size b;
    env := env b;
    fraction_goals_rollout_goals := fraction_goals_rollout_goals b;
    fraction_goals_env_goals := fraction_goals_env_goals b;
    ob_keys_to_save := ob_keys_to_save b;
    observation_key := observation_key b;
    desired_goal_key := desired_goal_key b;
    achieved_goal_key := achieved_goal_key b;
    _action_dim := _action_dim b;
    _actions := s_actions st;
    _terminals := s_terminals st;
    _obs := s_obs st;
    _next_obs := s_next_obs st;
    _top := (_top b + path_len) `mod` max_size b;
    _size := Z.min (_size b + path_len) (max_size b);
    _idx_to_future_obs_idx := idx;
  |}.

Definition _sample_indices (b : Buffer) (batch_size : Z) (g : Rng)
  : result (list Z * Rng) :=
  randint_array 0 (_size b) batch_size g.

(** [{key: arrays[key][indices] for key in self.ob_keys_to_save}] *)
Definition batch_dict (arrays : gmap string (ndarray V)) (keys : list string)
    (indices : list Z) : result (gmap string (ndarray V)) :=
  foldM (λ acc key,
           arr ← dict_getitem arrays key;
           sub ← take_rows arr indices;
           Return (<[key := sub]> acc))
        ∅ keys.

Definition _batch_obs_dict (b : Buffer) (indices : list Z) :=
  batch_dict (_obs b) (ob_keys_to_save b) indices.

Definition _batch_next_obs_dict (b : Buffer) (indices : list Z) :=
  batch_dict (_next_obs b) (ob_keys_to_save b) indices.

(** [d[key][start:stop] = vals] for an array held in a dict. *)
Definition dict_setitem_slice (d : gmap string (ndarray V)) (key : string)
    (start stop : Z) (vals : list (Row V)) : result (gmap string (ndarray V)) :=
  arr ← dict_getitem d key;
  arr' ← setitem_slice arr start stop vals;
  Return (<[key := arr']> d).

(** The three arrays whose goal entries [random_batch] overwrites. *)
Record Goals : Type := {
  resampled_goals : ndarray V;
  new_obs_dict : gmap string (ndarray V);
  new_next_obs_dict : gmap string (ndarray V);
}.

(** The loop over [self.goal_keys] that writes [source goal_key] into
    [start:stop] of both dicts. *)
Definition relabel_goal_keys (keys : list string) (start stop : Z)
    (source : string → result (list (Row V)))
    (od nod : gmap string (ndarray V))
  : result (gmap string (ndarray V) * gmap string (ndarray V)) :=
  foldM (λ '(od, nod) goal_key,
           vals ← source goal_key;
           od ← dict_setitem_slice od goal_key start stop vals;
           vals ← source goal_key;
           nod ← dict_setitem_slice nod goal_key start stop vals;
           Return (od, nod))
        (od, nod) keys.

(** The loop that picks one future observation index for each of the
    last [num_future_goals] sampled indices. *)
Definition pick_future_obs_idxs (b : Buffer) (last_indices : list Z) (g : Rng)
  : result (list Z * Rng) :=
  foldM (λ '(future_obs_idxs, g) i,
           entry ← getitem (_idx_to_future_obs_idx b) i;
           possible_future_obs_idxs ←
             match entry with
             | Some l => Return l
             | None => Raise TypeError
             end;
           let num_options := Z.of_nat (length possible_future_obs_idxs) in
           '(next_obs_i, g) ← randint 0 num_options g;
           j ← getitem possible_future_obs_idxs next_obs_i;
           Return (future_obs_idxs ++ [j], g))
        ([], g) last_indices.

(** The batch that [random_batch] returns. *)
Record Batch : Type := {
  batch_observations : ndarray V;
  batch_actions : ndarray V;
  batch_rewards : list (Row V);
  batch_terminals : ndarray V;
  batch_next_observations : ndarray V;
  batch_resampled_goals : ndarray V;
  batch_indices : list Z;
}.

(** The numbers of goals of each kind in a batch:
    [int(batch_size * self.fraction_goals_env_goals)],
    [int(batch_size * self.fraction_goals_rollout_goals)] and
    [batch_size - (num_env_goals + num_rollout_goals)]. *)
Definition num_env_goals (b : Buffer) (batch_size : Z) : Z :=
  int_of_float (int_mul_float batch_size (fraction_goals_env_goals b)).
Definition num_rollout_goals (b : Buffer) (batch_size : Z) : Z :=
  int_of_float (int_mul_float batch_size (fraction_goals_rollout_goals b)).
Definition num_future_goals (b : Buffer) (batch_size : Z) : Z :=
  batch_size - (num_env_goals b batch_size + num_rollout_goals b batch_size).

Definition random_batch (b : Buffer) (batch_size : Z) (g : Rng)
  : result (Batch * Rng) :=
  '(indices, g) ← _sample_indices b batch_size g;
  stored_goals ← dict_getitem (_next_obs b) (desired_goal_key b);
  resampled ← take_rows stored_goals indices;
  let num_env_goals := num_env_goals b batch_size in
  let num_rollout_goals := num_rollout_goals b batch_size in
  let num_future_goals := num_future_goals b batch_size in
  od ← _batch_obs_dict b indices;
  nod ← _batch_next_obs_dict b indices;
  let goals := {| resampled_goals := resampled; new_obs_dict := od;
                  new_next_obs_dict := nod |} in
  goals ←
    (if bool_decide (num_env_goals > 0) then
       let env_goals := sample_goals (env b) num_env_goals in
       let env_goals := preprocess_obs_dict env_goals in
       let last_env_goal_idx := num_rollout_goals + num_env_goals in
       vals ← dict_getitem env_goals (desired_goal_key b);
       resampled ← setitem_slice (resampled_goals goals)
                     num_rollout_goals last_env_goal_idx vals;
       '(od, nod) ← relabel_goal_keys (goal_keys b)
                      num_rollout_goals last_env_goal_idx
                      (dict_getitem env_goals)
                      (new_obs_dict goals) (new_next_obs_dict goals);
       Return {| resampled_goals := resampled; new_obs_dict := od;
                 new_next_obs_dict := nod |}
     else Return goals);
  '(goals, g) ←
    (if bool_decide (num_future_goals > 0) then
       let n := Z.of_nat (length indices) in
       '(future_obs_idxs, g) ←
         pick_future_obs_idxs b (getslice indices (- num_future_goals) n) g;
       achieved ← dict_getitem (_next_obs b) (achieved_goal_key b);
       vals ← take_rows achieved future_obs_idxs;
       resampled ← setitem_slice (resampled_goals goals)
                     (- num_future_goals) n (rows vals);
       '(od, nod) ← relabel_goal_keys (goal_keys b) (- num_future_goals) n
                      (λ goal_key,
                         arr ← dict_getitem (_next_obs b) goal_key;
                         rows <$> take_rows arr future_obs_idxs)
                      (new_obs_dict goals) (new_next_obs_dict goals);
       Return ({| resampled_goals := resampled; new_obs_dict := od;
                  new_next_obs_dict := nod |}, g)
     else Return (goals, g));
  let od := <[desired_goal_key b := resampled_goals goals]> (new_obs_dict goals) in
  let nod :=
    <[desired_goal_key b := resampled_goals goals]> (new_next_obs_dict goals) in
  let od := postprocess_obs_dict od in
  let nod := postprocess_obs_dict nod in
  resampled ← dict_getitem nod (desired_goal_key b);
  new_actions ← take_rows (_actions b) indices;
  new_rewards ←
    match compute_rewards (env b) with
    | Some f => Return (f (rows new_actions) (rows <$> nod))
    | None =>
        ones ← np_full one batch_size 1;
        r ← foldM (λ new_rewards i,
                     ag ← dict_getitem nod (achieved_goal_key b);
                     ag_i ← getitem (rows ag) i;
                     dg ← dict_getitem nod (desired_goal_key b);
                     dg_i ← getitem (rows dg) i;
                     setitem_row new_rewards i [compute_reward (env b) ag_i dg_i])
                  ones (py_range 0 batch_size);
        Return (rows r)
    end;
  let new_rewards := map (λ x, [x]) (concat new_rewards) in
  new_obs ← dict_getitem od (observation_key b);
  new_next_obs ← dict_getitem nod (observation_key b);
  terms ← take_rows (_terminals b) indices;
  Return ({| batch_observations := new_obs;
             batch_actions := new_actions;
             batch_rewards := new_rewards;
             batch_terminals := terms;
             batch_next_observations := new_next_obs;
             batch_resampled_goals := resampled;
             batch_indices := indices |}, g).
End Buffer.
Arguments Buffer V : clear implicits.
Arguments Storage V : clear implicits.
Arguments Goals V : clear implicits.
Arguments Batch V : clear implicits.
End ObsDict.

(** ** Commands that keep their state when they raise

    The two buffers with [add_sample] mutate [self] statement by
    statement; an exception leaves the mutations made so far in place.  A
    command is a function from the state to an outcome and the state that
    is left. *)

Definition Exec (S A : Type) : Type := S → result A * S.

#[global] Instance exec_ret {S} : MRet (Exec S) := λ A a s, (Return a, s).
#[global] Instance exec_bind {S} : MBind (Exec S) := λ A B f m s,
  match m s with
  | (Raise e, s') => (Raise e, s')
  | (Return a, s') => f a s'
  end.

Section ExecOps.
Context {S : Type}.

Definition get : Exec S S := λ s, (Return s, s).
Definition put (s : S) : Exec S unit := λ _, (Return tt, s).
(** A computation that does not touch the state. *)
Definition lift {A} (r : result A) : Exec S A := λ s, (r, s).
(** [raise e] *)
Definition raise {A} (e : exn) : Exec S A := λ s, (Raise e, s).
(** [try: body / except Exception as e: handler e] *)
Definition try_except {A} (body : Exec S A) (handler : exn → Exec S A)
  : Exec S A := λ s,
  match body s with
  | (Raise e, s') => handler e s'
  | (Return a, s') => (Return a, s')
  end.

(** The control of a loop body: go on to the next element or [break]. *)
Inductive Flow : Type := Continue | Break.

(** [for x in l: body x], where the body may [break]. *)
Fixpoint for_each {A} (l : list A) (body : A → Exec S Flow) : Exec S unit :=
  match l with
  | [] => mret tt
  | x :: l' =>
      c ← body x;
      match c with
      | Continue => for_each l' body
      | Break => mret tt
      end
  end.
End ExecOps.

(** What [print] writes. *)
Inductive Printed (V : Type) : Type :=
| PrintText (text : string)
| PrintException (text : string) (e : exn)
| PrintInt (format : string) (n : Z)
| PrintValue (value : Row V).
Arguments PrintText {V} text.
Arguments PrintException {V} text e.
Arguments PrintInt {V} format n.
Arguments PrintValue {V} value.

(** ** [imgObsDictRelabelingBuffer] *)

Module ImgObsDict.
Section Buffer.
Context {V : Type} `{Scalar V} `{FloatRounding}.

(** The environment that renders the relabeled transitions:
    [get_resample_step(states, kactions, kgoals)] yields tuples
    [(obs_before, r, d, obs_after)]. *)
Record RerenderingEnv : Type := {
  get_resample_step :
    list (Row V) → list (Row V) → list (Row V) → list (Row V * Row V * Row V * Row V);
}.

Record Buffer : Type := {
  k : Z;
  t_fn : option (Row V → Row V);
  internal_keys : list string;
  goal_keys : list string;
  max_size : Z;
  env : Env V;
  fraction_goals_rollout_goals : Q;
  fraction_goals_env_goals : Q;
  ob_keys_to_save : list string;
  observation_key : string;
  desired_goal_key : string;
  achieved_goal_key : string;
  _action_dim : nat;
  _actions : ndarray V;
  _terminals : ndarray V;
  _rewards : ndarray V;
  _obs : ndarray V;
  _next_obs : ndarray V;
  _top : Z;
  _size : Z;
  rerendering_env : RerenderingEnv;
}.

(** The state of a run: the buffer, the random generator and what has
    been printed. *)
Record World : Type := {
  self : Buffer;
  rng : Rng;
  stdout : list (Printed V);
}.

Definition __init__ (max_size : Z) (e : Env V) (rerendering_env : RerenderingEnv)
    (k : Z) (fraction_goals_rollout_goals fraction_goals_env_goals : Q)
    (internal_keys goal_keys : option (list string))
    (observation_key desired_goal_key achieved_goal_key : string)
    (t_fn : option (Row V → Row V))
  : result Buffer :=
  let internal_keys := default [] internal_keys in
  let goal_keys := default [] goal_keys in
  let goal_keys :=
    if bool_decide (desired_goal_key ∈ goal_keys) then goal_keys
    else goal_keys ++ [desired_goal_key] in
  _ ← py_assert (observation_space_is_Dict e)
        "isinstance(env.observation_space, Dict)";
  _ ← py_assert (Qle_bool 0 fraction_goals_rollout_goals)
        "0 <= fraction_goals_rollout_goals";
  _ ← py_assert (Qle_bool 0 fraction_goals_env_goals)
        "0 <= fraction_goals_env_goals";
  _ ← py_assert
        (Qle_bool 0 (float_add fraction_goals_rollout_goals fraction_goals_env_goals))
        "0 <= fraction_goals_rollout_goals + fraction_goals_env_goals";
  _ ← py_assert
        (Qle_bool (float_add fraction_goals_rollout_goals fraction_goals_env_goals) 1)
        "fraction_goals_rollout_goals + fraction_goals_env_goals <= 1";
  let ob_keys_to_save :=
    [observation_key; desired_goal_key; achieved_goal_key; "save_state"] in
  let action_dim :=
    match action_space e with
    | Discrete n => n
    | Box low_size => low_size
    end in
  acts ← np_full zero max_size action_dim;
  terms ← np_full zero max_size 1;
  rews ← np_full zero max_size 1;
  d ← dict_getitem (observation_spaces e) "observation";
  obs ← np_full zero max_size d;
  next_obs ← np_full zero max_size d;
  Return {|
    k := k;
    t_fn := t_fn;
    internal_keys := internal_keys;
    goal_keys := goal_keys;
    max_size := max_size;
    env := e;
    fraction_goals_rollout_goals := fraction_goals_rollout_goals;
    fraction_goals_env_goals := fraction_goals_env_goals;
    ob_keys_to_save := ob_keys_to_save;
    observation_key := observation_key;
    desired_goal_key := desired_goal_key;
    achieved_goal_key := achieved_goal_key;
    _action_dim := action_dim;
    _actions := acts;
    _terminals := terms;
    _rewards := rews;
    _obs := obs;
    _next_obs := next_obs;
    _top := 0;
    _size := 0;
    rerendering_env := rerendering_env;
  |}.

(** Assignments to the attributes that change after construction. *)
Definition with_arrays (b : Buffer) (acts terms rews obs next_obs : ndarray V)
  : Buffer :=
  {| k := k b; t_fn := t_fn b; internal_keys := internal_keys b;
     goal_keys := goal_keys b; max_size := max_size b; env := env b;
     fraction_goals_rollout_goals := fraction_goals_rollout_goals b;
     fraction_goals_env_goals := fraction_goals_env_goals b;
     ob_keys_to_save := ob_keys_to_save b;
     observation_key := observation_key b;
     desired_goal_key := desired_goal_key b;
     achieved_goal_key := achieved_goal_key b;
     _action_dim := _action_dim b;
     _actions := acts; _terminals := terms; _rewards := rews;
     _obs := obs; _next_obs := next_obs;
     _top := _top b; _size := _size b;
     rerendering_env := rerendering_env b |}.

Definition with_pointers (b : Buffer) (top size : Z) : Buffer :=
  {| k := k b; t_fn := t_fn b; internal_keys := internal_keys b;
     goal_keys := goal_keys b; max_size := max_size b; env := env b;
     fraction_goals_rollout_goals := fraction_goals_rollout_goals b;
     fraction_goals_env_goals := fraction_goals_env_goals b;
     ob_keys_to_save := ob_keys_to_save b;
     observation_key := observation_key b;
     desired_goal_key := desired_goal_key b;
     achieved_goal_key := achieved_goal_key b;
     _action_dim := _action_dim b;
     _actions := _actions b; _terminals := _terminals b;
     _rewards := _rewards b; _obs := _obs b; _next_obs := _next_obs b;
     _top := top; _size := size;
     rerendering_env := rerendering_env b |}.

Definition set_self (b : Buffer) : Exec World unit := λ w,
  (Return tt, {| self := b; rng := rng w; stdout := stdout w |}).

(** [print(x)] *)
Definition print (x : Printed V) : Exec World unit := λ w,
  (Return tt, {| self := self w; rng := rng w; stdout := stdout w ++ [x] |}).

(** [self.<array>[self._top] = value] *)
Definition store (array : Buffer → ndarray V)
    (update : Buffer → ndarray V → Buffer) (value : Row V) : Exec World unit :=
  w ← get;
  a ← lift (setitem_row (array (self w)) (_top (self w)) value);
  set_self (update (self w) a).

Definition _advance : Exec World unit :=
  w ← get;
  let b := self w in
  _ ← (if bool_decide (max_size b = 0) then raise ZeroDivisionError else mret tt);
  let top := (_top b + 1) `mod` max_size b in
  let size := if bool_decide (_size b < max_size b) then _size b + 1 else _size b in
  set_self (with_pointers b top size).

Definition add_sample (obs action reward terminal next_obs : Row V)
  : Exec World unit :=
  _ ← store _actions
        (λ b a, with_arrays b a (_terminals b) (_rewards b) (_obs b) (_next_obs b))
        action;
  _ ← store _rewards
        (λ b a, with_arrays b (_actions b) (_terminals b) a (_obs b) (_next_obs b))
        reward;
  _ ← store _terminals
        (λ b a, with_arrays b (_actions b) a (_rewards b) (_obs b) (_next_obs b))
        terminal;
  _ ← try_except
        (_ ← store _obs
               (λ b a, with_arrays b (_actions b) (_terminals b) (_rewards b) a (_next_obs b))
               obs;
         store _next_obs
               (λ b a, with_arrays b (_actions b) (_terminals b) (_rewards b) (_obs b) a)
               next_obs)
        (λ e,
           w ← get;
           _ ← print (PrintException "[DEBUG] Ran into exception:" e);
           _ ← print (PrintInt "[INFO] self._top = %d" (_top (self w)));
           _ ← print (PrintText "[INFO] obs");
           _ ← print (PrintValue obs);
           _ ← print (PrintText "[INFO] next_obs");
           _ ← print (PrintValue next_obs);
           _ ← print (PrintText "[INFO] terminal");
           _ ← print (PrintValue terminal);
           raise e);
  _advance.

Definition num_steps_can_sample (b : Buffer) : Z := _size b.

(** [np.random.choice(a, size, replace=True)] on the generator of the
    world. *)
Definition choice (a : list Z) (size : Z) : Exec World (list Z) := λ w,
  match random_choice a size (rng w) with
  | Raise e => (Raise e, w)
  | Return (xs, g) =>
      (Return xs, {| self := self w; rng := g; stdout := stdout w |})
  end.

(** The arrays and lists that the relabeling loop of [add_path] fills. *)
Record Relabel : Type := {
  r_states : list (Row V);
  r_kactions : ndarray V;
  r_kgoals : ndarray V;
  r_sampled_idx : list Z;
}.

(** The body of the first loop of [add_path]: the sample of step [i]. *)
Definition add_original (path : Path V) (i : Z) : Exec World Flow :=
  o ← lift (d ← getitem (observations path) i; dict_getitem d "observation");
  a ← lift (getitem (actions path) i);
  r ← lift (getitem (rewards path) i);
  t ← lift (getitem (terminals path) i);
  o' ← lift (d ← getitem (next_observations path) i; dict_getitem d "observation");
  _ ← add_sample o a r t o';
  mret Continue.

(** The body of the loop over [enumerate(selected_idx)]. *)
Definition relabel_fill (path : Path V) (k : Z) (i : Z) (acc : Relabel)
    (j_idx : nat * Z) : result Relabel :=
  let '(j, sampled_goal_idx) := j_idx in
  s ← (d ← getitem (observations path) i; dict_getitem d "save_state");
  a ← getitem (actions path) i;
  ka ← setitem_row (r_kactions acc) (i * k + Z.of_nat j) a;
  g ← (d ← getitem (observations path) sampled_goal_idx;
       dict_getitem d "achieved_goal");
  kg ← setitem_row (r_kgoals acc) (i * k + Z.of_nat j) g;
  Return {| r_states := r_states acc ++ [s]; r_kactions := ka; r_kgoals := kg;
            r_sampled_idx := r_sampled_idx acc ++ [sampled_goal_idx] |}.

(** The body of the second loop of [add_path]: the goals of step [i]. *)
Definition relabel_step (path : Path V) (path_len k : Z) (i : Z) (acc : Relabel)
  : Exec World (Flow * Relabel) :=
  if bool_decide (i = path_len - 1) then mret (Break, acc)
  else
    selected_idx ← choice (py_range (i + 1) path_len) k;
    acc ← lift (foldM (relabel_fill path k i) acc
                  (imap (λ j x, (j, x)) selected_idx));
    mret (Continue, acc).

(** The second loop of [add_path]. *)
Fixpoint relabel_loop (path : Path V) (path_len k : Z) (l : list Z)
    (acc : Relabel) : Exec World Relabel :=
  match l with
  | [] => mret acc
  | i :: l' =>
      '(c, acc) ← relabel_step path path_len k i acc;
      match c with
      | Continue => relabel_loop path path_len k l' acc
      | Break => mret acc
      end
  end.

(** The body of the last loop of [add_path]: the sample rendered for the
    relabeled transition number [i]. *)
Definition add_rendered (path : Path V) (acc : Relabel)
    (i_tupl : Z * (Row V * Row V * Row V * Row V)) : Exec World Flow :=
  let '(i, tupl) := i_tupl in
  let '(obs_before, r, d, obs_after) := tupl in
  w ← get;
  f ← lift (match t_fn (self w) with
            | Some f => Return f
            | None => Raise TypeError
            end);
  let obs_before := f obs_before in
  let obs_after := f obs_after in
  ka ← lift (getitem (rows (r_kactions acc)) i);
  _ ← (if bool_decide (k (self w) = 0) then raise ZeroDivisionError
       else mret tt);
  t ← lift (getitem (terminals path) (i `div` k (self w)));
  _ ← add_sample obs_before ka r t obs_after;
  mret Continue.

Definition add_path (path : Path V) : Exec World unit :=
  let obs := observations path in
  let acts := actions path in
  let rews := rewards path in
  let path_len := Z.of_nat (length rews) in
  _ ← for_each (py_range 0 path_len) (add_original path);
  w ← get;
  let k := k (self w) in
  a0 ← lift (getitem acts 0);
  kactions ← lift (np_full zero (path_len * k) (length a0));
  g0 ← lift (d ← getitem obs 0; dict_getitem d "achieved_goal");
  kgoals ← lift (np_full zero (path_len * k) (length g0));
  acc ← relabel_loop path path_len k (py_range 0 path_len)
          {| r_states := []; r_kactions := kactions; r_kgoals := kgoals;
             r_sampled_idx := [] |};
  w ← get;
  let out := get_resample_step (rerendering_env (self w))
               (r_states acc) (rows (r_kactions acc)) (rows (r_kgoals acc)) in
  for_each (imap (λ i tupl, (Z.of_nat i, tupl)) out) (add_rendered path acc).

Definition _sample_indices (b : Buffer) (batch_size : Z) (g : Rng)
  : result (list Z * Rng) :=
  randint_array 0 (_size b) batch_size g.

(** The batch that [random_batch] returns. *)
Record Batch : Type := {
  batch_observations : ndarray V;
  batch_actions : ndarray V;
  batch_rewards : ndarray V;
  batch_terminals : ndarray V;
  batch_next_observations : ndarray V;
}.

Definition random_batch (b : Buffer) (batch_size : Z) (g : Rng)
  : result (Batch * Rng) :=
  '(indices, g) ← randint_array 0 (_size b) batch_size g;
  o ← take_rows (_obs b) indices;
  a ← take_rows (_actions b) indices;
  r ← take_rows (_rewards b) indices;
  t ← take_rows (_terminals b) indices;
  o' ← take_rows (_next_obs b) indices;
  Return ({| batch_observations := o; batch_actions := a; batch_rewards := r;
             batch_terminals := t; batch_next_observations := o' |}, g).

(** [{key: self._obs[key][indices] for key in self.ob_keys_to_save}], on
    the array [_obs] of this class. *)
Definition _batch_obs_dict (b : Buffer) (indices : list Z)
  : result (gmap string (ndarray V)) :=
  foldM (λ acc key,
           arr ← getitem_key (_obs b) key;
           sub ← take_rows arr indices;
           Return (<[key := sub]> acc))
        ∅ (ob_keys_to_save b).

Definition _batch_next_obs_dict (b : Buffer) (indices : list Z)
  : result (gmap string (ndarray V)) :=
  foldM (λ acc key,
           arr ← getitem_key (_next_obs b) key;
           sub ← take_rows arr indices;
           Return (<[key := sub]> acc))
        ∅ (ob_keys_to_save b).

(** [terminate_episode]: [pass] *)
Definition terminate_episode (b : Buffer) : Buffer := b.
End Buffer.
Arguments Buffer V : clear implicits.
Arguments World V : clear implicits.
Arguments RerenderingEnv V : clear implicits.
Arguments Batch V : clear implicits.
End ImgObsDict.

(** [for x in l: s = body s x], where the body may raise or [break]. *)
Fixpoint for_break {A S : Type} (body : S → A → result (Flow * S)) (s : S)
    (l : list A) : result S :=
  match l with
  | [] => Return s
  | x :: l' =>
      '(c, s') ← body s x;
      match c with
      | Continue => for_break body s' l'
      | Break => Return s'
      end
  end.

(** ** [newstateObsDictRelabelingBuffer] *)

Module NewStateObsDict.
Section Buffer.
Context {V : Type} `{Scalar V} `{FloatRounding}.

Record Buffer : Type := {
  k : Z;
  t_fn : option (Row V → Row V);
  internal_keys : list string;
  goal_keys : list string;
  max_size : Z;
  env : Env V;
  fraction_goals_rollout_goals : Q;
  fraction_goals_env_goals : Q;
  ob_keys_to_save : list string;
  observation_key : string;
  desired_goal_key : string;
  achieved_goal_key : string;
  _action_dim : nat;
  _actions : ndarray V;
  _terminals : ndarray V;
  _rewards : ndarray V;
  _obs : ndarray V;
  _next_obs : ndarray V;
  _top : Z;
  _size : Z;
  _idx_to_future_obs_idx : list (option (list Z));
}.

Definition __init__ (max_size : Z) (e : Env V)
    (k : Z) (fraction_goals_rollout_goals fraction_goals_env_goals : Q)
    (internal_keys goal_keys : option (list string))
    (observation_key desired_goal_key achieved_goal_key : string)
    (t_fn : option (Row V → Row V))
  : result Buffer :=
  let internal_keys := default [] internal_keys in
  let goal_keys := default [] goal_keys in
  let goal_keys :=
    if bool_decide (desired_goal_key ∈ goal_keys) then goal_keys
    else goal_keys ++ [desired_goal_key] in
  _ ← py_assert (observation_space_is_Dict e)
        "isinstance(env.observation_space, Dict)";
  _ ← py_assert (Qle_bool 0 fraction_goals_rollout_goals)
        "0 <= fraction_goals_rollout_goals";
  _ ← py_assert (Qle_bool 0 fraction_goals_env_goals)
        "0 <= fraction_goals_env_goals";
  _ ← py_assert
        (Qle_bool 0 (float_add fraction_goals_rollout_goals fraction_goals_env_goals))
        "0 <= fraction_goals_rollout_goals + fraction_goals_env_goals";
  _ ← py_assert
        (Qle_bool (float_add fraction_goals_rollout_goals fraction_goals_env_goals) 1)
        "fraction_goals_rollout_goals + fraction_goals_env_goals <= 1";
  let ob_keys_to_save :=
    [observation_key; desired_goal_key; achieved_goal_key; "save_state"] in
  let action_dim :=
    match action_space e with
    | Discrete n => n
    | Box low_size => low_size
    end in
  acts ← np_full zero max_size action_dim;
  terms ← np_full zero max_size 1;
  rews ← np_full zero max_size 1;
  d ← dict_getitem (observation_spaces e) "observation";
  obs ← np_full zero max_size (d + 3);
  next_obs ← np_full zero max_size (d + 3);
  Return {|
    k := k;
    t_fn := t_fn;
    internal_keys := internal_keys;
    goal_keys := goal_keys;
    max_size := max_size;
    env := e;
    fraction_goals_rollout_goals := fraction_goals_rollout_goals;
    fraction_goals_env_goals := fraction_goals_env_goals;
    ob_keys_to_save := ob_keys_to_save;
    observation_key := observation_key;
    desired_goal_key := desired_goal_key;
    achieved_goal_key := achieved_goal_key;
    _action_dim := action_dim;
    _actions := acts;
    _terminals := terms;
    _rewards := rews;
    _obs := obs;
    _next_obs := next_obs;
    _top := 0;
    _size := 0;
    _idx_to_future_obs_idx := replicate (Z.to_nat max_size) None;
  |}.

(** The attributes that [add_sample] assigns. *)
Definition with_storage (b : Buffer) (acts terms rews obs next_obs : ndarray V)
    (top size : Z) : Buffer :=
  {| k := k b; t_fn := t_fn b; internal_keys := internal_keys b;
     goal_keys := goal_keys b; max_size := max_size b; env := env b;
     fraction_goals_rollout_goals := fraction_goals_rollout_goals b;
     fraction_goals_env_goals := fraction_goals_env_goals b;
     ob_keys_to_save := ob_keys_to_save b;
     observation_key := observation_key b;
     desired_goal_key := desired_goal_key b;
     achieved_goal_key := achieved_goal_key b;
     _action_dim := _action_dim b;
     _actions := acts; _terminals := terms; _rewards := rews;
     _obs := obs; _next_obs := next_obs;
     _top := top; _size := size;
     _idx_to_future_obs_idx := _idx_to_future_obs_idx b |}.

Definition _advance (b : Buffer) : result Buffer :=
  _ ← (if bool_decide (max_size b = 0) then Raise ZeroDivisionError else Return tt);
  let top := (_top b + 1) `mod` max_size b in
  let size := if bool_decide (_size b < max_size b) then _size b + 1 else _size b in
  Return (with_storage b (_actions b) (_terminals b) (_rewards b) (_obs b)
            (_next_obs b) top size).

Definition add_sample (b : Buffer) (obs action reward terminal next_obs : Row V)
  : result Buffer :=
  acts ← setitem_row (_actions b) (_top b) action;
  rews ← setitem_row (_rewards b) (_top b) reward;
  terms ← setitem_row (_terminals b) (_top b) terminal;
  o ← setitem_row (_obs b) (_top b) obs;
  o' ← setitem_row (_next_obs b) (_top b) next_obs;
  _advance (with_storage b acts terms rews o o' (_top b) (_size b)).

Definition num_steps_can_sample (b : Buffer) : Z := _size b.

(** [d[key]] for the dict at position [i] of a list of observations. *)
Definition obs_at (l : list (Obs V)) (i : Z) (key : string) : result (Row V) :=
  d ← getitem l i; dict_getitem d key.

(** One relabeled sample of [add_path]: the body of the loop over
    [selected_idx]. *)
Definition add_relabeled (path : Path V) (i : Z) (b : Buffer)
    (sampled_goal_idx : Z) : result Buffer :=
  a ← getitem (actions path) i;
  g ← obs_at (next_observations path) sampled_goal_idx "achieved_goal";
  o ← obs_at (observations path) i "observation";
  let o_before := o ++ g in
  o' ← obs_at (next_observations path) i "observation";
  let o_after := o' ++ g in
  ag ← obs_at (next_observations path) i "achieved_goal";
  let rew := compute_reward (env b) ag g in
  t ← getitem (terminals path) i;
  add_sample b o_before a [rew] t o_after.

(** The body of the loop of [add_path] over the steps of the path. *)
Definition add_path_body (path : Path V) (path_len : Z)
  : Buffer * Rng → Z → result (Flow * (Buffer * Rng)) :=
  λ '(b, g) i,
    let obs := observations path in
    let acts := actions path in
    let rews := rewards path in
    let next_obs := next_observations path in
    let terms := terminals path in
    o ← obs_at obs i "observation";
    dg ← obs_at obs i "desired_goal";
    a ← getitem acts i;
    r ← getitem rews i;
    t ← getitem terms i;
    o' ← obs_at next_obs i "observation";
    dg' ← obs_at next_obs i "desired_goal";
    b ← add_sample b (o ++ dg) a r t (o' ++ dg');
    if bool_decide (i = path_len - 1) then Return (Break, (b, g))
    else
      '(selected_idx, g) ← random_choice (py_range (i + 1) path_len) (k b) g;
      b ← foldM (add_relabeled path i) b selected_idx;
      Return (Continue, (b, g)).

Definition add_path (b : Buffer) (path : Path V) (g : Rng)
  : result (Buffer * Rng) :=
  let rews := rewards path in
  let path_len := Z.of_nat (length rews) in
  for_break (add_path_body path path_len) (b, g) (py_range 0 path_len).

Definition _sample_indices (b : Buffer) (batch_size : Z) (g : Rng)
  : result (list Z * Rng) :=
  randint_array 0 (_size b) batch_size g.

(** The batch that [random_batch] returns. *)
Record Batch : Type := {
  batch_observations : ndarray V;
  batch_actions : ndarray V;
  batch_rewards : ndarray V;
  batch_terminals : ndarray V;
  batch_next_observations : ndarray V;
}.

Definition random_batch (b : Buffer) (batch_size : Z) (g : Rng)
  : result (Batch * Rng) :=
  '(indices, g) ← randint_array 0 (_size b) batch_size g;
  o ← take_rows (_obs b) indices;
  a ← take_rows (_actions b) indices;
  r ← take_rows (_rewards b) indices;
  t ← take_rows (_terminals b) indices;
  o' ← take_rows (_next_obs b) indices;
  Return ({| batch_observations := o; batch_actions := a; batch_rewards := r;
             batch_terminals := t; batch_next_observations := o' |}, g).

(** [{key: self._obs[key][indices] for key in self.ob_keys_to_save}], on
    the array [_obs] of this class. *)
Definition _batch_obs_dict (b : Buffer) (indices : list Z)
  : result (gmap string (ndarray V)) :=
  foldM (λ acc key,
           arr ← getitem_key (_obs b) key;
           sub ← take_rows arr indices;
           Return (<[key := sub]> acc))
        ∅ (ob_keys_to_save b).

Definition _batch_next_obs_dict (b : Buffer) (indices : list Z)
  : result (gmap string (ndarray V)) :=
  foldM (λ acc key,
           arr ← getitem_key (_next_obs b) key;
           sub ← take_rows arr indices;
           Return (<[key := sub]> acc))
        ∅ (ob_keys_to_save b).

(** [terminate_episode]: [pass] *)
Definition terminate_episode (b : Buffer) : Buffer := b.
End Buffer.
Arguments Buffer V : clear implicits.
Arguments Batch V : clear implicits.
End NewStateObsDict.

(** ** [eval.py]: the evaluation loop *)

Module Eval.
Section Evaluation.
Context {V : Type}.
(** The states of the simulated environment and of the agent, and the
    actions of the agent. *)
Context {E G A : Type}.

(** The calls that [run_evaluation] makes to the outside, in the order in
    which it makes them.  A call is recorded when it is made; a call that
    raises ends the run, so that a call followed by another one has
    returned. *)
Inductive Event : Type :=
| Print (text : string)
| Reset
| GetAction (observation : Row V)
| Input (prompt : string)
| Step (action : A)
| Render.

(** The simulator, the policy and the user.  Each of them may raise. *)
Record Externals : Type := {
  (** [wrap_environment(env, args)], from the training script *)
  wrap_environment : E → result E;
  (** [env.reset()] *)
  env_reset : E → result (Obs V * E);
  (** [env.step(action)]: the observation of [(obs, reward, terminate, _)] *)
  env_step : E → A → result (Obs V * E);
  (** [env.render()] *)
  env_render : E → result E;
  (** [agent.get_action(observation)[0]] *)
  get_action : G → Row V → result (A * G);
  (** the lines that the user types: [input] returns the next one *)
  user : nat → result string;
}.

Record World : Type := {
  env : E;
  agent : G;
  (** the local variable [obs]; [None] before its first assignment *)
  obs : option (Obs V);
  (** the number of lines read from the user *)
  lines_read : nat;
  trace : list Event;
}.

Context (x : Externals).

Definition log (ev : Event) : Exec World unit := λ w,
  (Return tt,
   {| env := env w; agent := agent w; obs := obs w; lines_read := lines_read w;
      trace := trace w ++ [ev] |}).

Definition set_env (e : E) : Exec World unit := λ w,
  (Return tt,
   {| env := e; agent := agent w; obs := obs w; lines_read := lines_read w;
      trace := trace w |}).

Definition set_agent (a : G) : Exec World unit := λ w,
  (Return tt,
   {| env := env w; agent := a; obs := obs w; lines_read := lines_read w;
      trace := trace w |}).

Definition set_obs (o : Obs V) : Exec World unit := λ w,
  (Return tt,
   {| env := env w; agent := agent w; obs := Some o; lines_read := lines_read w;
      trace := trace w |}).

Definition line_read : Exec World unit := λ w,
  (Return tt,
   {| env := env w; agent := agent w; obs := obs w; lines_read := S (lines_read w);
      trace := trace w |}).

(** [print(text)] *)
Definition do_print (text : string) : Exec World unit := log (Print text).

(** [obs = env.reset()] *)
Definition do_reset : Exec World unit :=
  w ← get;
  _ ← log Reset;
  '(o, e) ← lift (env_reset x (env w));
  _ ← set_env e;
  set_obs o.

(** [action = agent.get_action(obs['observation'])[0]] *)
Definition do_get_action : Exec World A :=
  w ← get;
  o ← lift (match obs w with
            | None => Raise (UnboundLocalError "obs")
            | Some o => Return o
            end);
  r ← lift (dict_getitem o "observation");
  _ ← log (GetAction r);
  '(a, g) ← lift (get_action x (agent w) r);
  _ ← set_agent g;
  mret a.

(** [input(prompt)] *)
Definition do_input (prompt : string) : Exec World string :=
  w ← get;
  _ ← log (Input prompt);
  line ← lift (user x (lines_read w));
  _ ← line_read;
  mret line.

(** [obs, reward, terminate, _ = env.step(action)] *)
Definition do_step (action : A) : Exec World unit :=
  w ← get;
  _ ← log (Step action);
  '(o, e) ← lift (env_step x (env w) action);
  _ ← set_env e;
  set_obs o.

(** [env.render()] *)
Definition do_render : Exec World unit :=
  w ← get;
  _ ← log Render;
  e ← lift (env_render x (env w));
  set_env e.

(** The body of the loop of [run_evaluation]. *)
Definition iteration (episode_length : Z) (i : Z) : Exec World Flow :=
  _ ← (if bool_decide (episode_length = 0) then raise ZeroDivisionError
       else mret tt);
  _ ← (if bool_decide (i `mod` episode_length = 0) then
         _ ← do_print "Reset Episode";
         do_reset
       else mret tt);
  action ← do_get_action;
  _ ← do_input "press enter to take action...";
  _ ← do_step action;
  _ ← do_render;
  mret Continue.

Definition run_evaluation : Exec World unit :=
  w ← get;
  e ← lift (wrap_environment x (env w));
  _ ← set_env e;
  let training_steps := 150 in
  let episode_length := 50 in
  for_each (py_range 0 training_steps) (iteration episode_length).
End Evaluation.
Arguments Event V A : clear implicits.
Arguments Externals V E G A : clear implicits.
Arguments World V E G A : clear implicits.
End Eval.

(** * The other functions of the repository *)

(** ** Binary64 arithmetic

    Rounding to the nearest number with 53 significant bits, ties to
    even, on the rationals.  The exponent is not bounded: overflow and
    gradual underflow are not modelled, so this is binary64 on the range
    of its normal numbers. *)

Module Binary64.
(** The integer part of the binary logarithm of a positive rational. *)
Definition ilog2 (x : Q) : Z :=
  let k := Z.log2 (Qnum x) - Z.log2 (Z.pos (Qden x)) in
  if Qle_bool (2 ^ k) x then k else k - 1.

(** The nearest integer, the even one of two that are as near. *)
Definition round_half_even (x : Q) : Z :=
  let f := Qfloor x in
  match (x - inject_Z f ?= 1 # 2)%Q with
  | Lt => f
  | Gt => f + 1
  | Eq => if Z.even f then f else f + 1
  end.

(** A positive rational, rounded to 53 significant bits. *)
Definition round_pos (x : Q) : Q :=
  let e := ilog2 x - 52 in
  Qred (inject_Z (round_half_even (x / 2 ^ e)) * 2 ^ e).

Definition round64 (x : Q) : Q :=
  match (x ?= 0)%Q with
  | Eq => 0
  | Gt => round_pos x
  | Lt => - round_pos (- x)
  end.

Definition binary64 : FloatRounding := round64.
End Binary64.

(** ** The representation of images: [normalize_image],
    [unnormalize_image], [preprocess_obs_dict], [postprocess_obs_dict]

    The arrays carry their [dtype], which the two conversions assert, and
    their entries are numbers: bytes are the integers from [0] to [255]. *)

Module Images.
(** The types of the arrays that the buffers allocate
    ([np.uint8], [np.float32]) and of the floats of the batches. *)
Inductive dtype : Type := uint8 | float32 | float64.

#[global] Instance dtype_eq_dec : EqDecision dtype.
Proof. solve_decision. Defined.

Record tarray : Type := TArray { dtype_of : dtype; entries : list (list Q) }.

Section Conversions.
Context `{FloatRounding}.
(** The rounding of [float32] arithmetic. *)
Context (rnd32 : Q → Q).

(** [np.uint8(x)] of a float: the integer part, which is the byte itself
    for [0 <= x < 256].  Outside that range the result of the cast depends
    on the platform; here it is taken modulo [256], and nothing below
    relies on it. *)
Definition cast_uint8 (x : Q) : Q := inject_Z (int_of_float x `mod` 256).

(** [x * 255.0] in the arithmetic of the type of the array. *)
Definition scale (t : dtype) (x : Q) : Q :=
  match t with
  | float32 => rnd32 (x * 255)
  | _ => rnd (x * 255)
  end.

(** [normalize_image]:
    [assert image.dtype == np.uint8; np.float64(image) / 255.0] *)
Definition normalize_image (image : tarray) : result tarray :=
  _ ← py_assert (bool_decide (dtype_of image = uint8)) "image.dtype == np.uint8";
  Return (TArray float64 (map (map (λ x, rnd (x / 255))) (entries image))).

(** [unnormalize_image]:
    [assert image.dtype != np.uint8; np.uint8(image * 255.0)] *)
Definition unnormalize_image (image : tarray) : result tarray :=
  _ ← py_assert (bool_decide (dtype_of image ≠ uint8)) "image.dtype != np.uint8";
  Return (TArray uint8
            (map (map (λ x, cast_uint8 (scale (dtype_of image) x)))
               (entries image))).

(** The body of the loops of [preprocess_obs_dict] and
    [postprocess_obs_dict]: the entry is converted when its key contains
    ['image'] and its value is not [None]. *)
Definition convert (f : tarray → result tarray)
    (obs_dict : gmap string (option tarray)) (item : string * option tarray)
  : result (gmap string (option tarray)) :=
  let '(obs_key, obs) := item in
  if str_contains "image" obs_key then
    match obs with
    | Some image => image' ← f image; Return (<[obs_key := Some image']> obs_dict)
    | None => Return obs_dict
    end
  else Return obs_dict.

(** [preprocess_obs_dict]: the dict is updated in place over its own
    items. *)
Definition preprocess_obs_dict (obs_dict : gmap string (option tarray))
  : result (gmap string (option tarray)) :=
  foldM (convert unnormalize_image) obs_dict (map_to_list obs_dict).

Definition postprocess_obs_dict (obs_dict : gmap string (option tarray))
  : result (gmap string (option tarray)) :=
  foldM (convert normalize_image) obs_dict (map_to_list obs_dict).

(** The type of the arrays that [ObsDictRelabelingBuffer.__init__]
    allocates for a key: [np.float32], and [np.uint8] when
    [key.startswith('image')]. *)
Definition obs_dtype (key : string) : dtype :=
  if String.prefix "image" key then uint8 else float32.

(** [np.zeros((n, d), dtype=t)] *)
Definition np_zeros (n : Z) (d : nat) (t : dtype) : result tarray :=
  if bool_decide (n < 0) then Raise ValueError
  else Return (TArray t (replicate (Z.to_nat n) (replicate d 0%Q))).

(** [arr[indices]]: a fresh array of the same type. *)
Definition take_rows (arr : tarray) (indices : list Z) : result tarray :=
  rs ← mapM (getitem (entries arr)) indices;
  Return (TArray (dtype_of arr) rs).
End Conversions.
End Images.

(** ** [eval.py]: [load_trained_policy] and [main] *)

Module EvalMain.
(** [os.path.join] of [posixpath]: a component that starts with a slash
    replaces what precedes it; otherwise it is appended, after a slash
    unless the path is empty or ends with one. *)
Definition ends_with_sep (path : string) : bool :=
  match String.get (String.length path - 1) path with
  | Some c => bool_decide (String c EmptyString = "/")
  | None => false
  end.

Definition join_step (path b : string) : string :=
  if String.prefix "/" b then b
  else if bool_decide (path = EmptyString) || ends_with_sep path then path +:+ b
  else path +:+ "/" +:+ b.

Definition os_path_join (a : string) (p : list string) : string :=
  fold_left join_step p a.

Section Main.
Context {V E G A : Type}.

(** The calls that [main] makes to the outside, in order; the calls of
    [run_evaluation] are those of its own trace. *)
Inductive Call : Type :=
| GetGymEnvironment
| Load (path : string)
| PrintLine (text : string)
| RunEvaluation (calls : list (Eval.Event V A))
| Close.

Record Externals : Type := {
  (** [get_gym_environment(args)], from the training script *)
  get_gym_environment : result E;
  (** [str(Path(__file__).resolve().parent)] *)
  root_path : string;
  (** [torch.load(path)] *)
  load : string → result G;
  (** [evaluation_env.close()] *)
  env_close : E → result E;
  (** the simulator, the policy and the user of [run_evaluation] *)
  run : Eval.Externals V E G A;
}.

Record World : Type := {
  calls : list Call;
  (** the number of lines read from the user *)
  lines : nat;
}.

Context (x : Externals).

Definition log (c : Call) : Exec World unit := λ w,
  (Return tt, {| calls := calls w ++ [c]; lines := lines w |}).

(** [load_trained_policy(args)], with [name] for [args.name] *)
Definition load_trained_policy (name : string) : Exec World G :=
  let POLICY_NAME := "trained_policy.pt" in
  let path := os_path_join (root_path x) ["networks"; name; POLICY_NAME] in
  _ ← log (Load path);
  lift (load x path).

(** [run_evaluation(args, env, agent)], on the state of the caller: what
    the run does is recorded whether it returns or raises. *)
Definition do_run_evaluation (e : E) (agent : G) : Exec World E := λ w,
  let '(r, w') :=
    Eval.run_evaluation (run x)
      {| Eval.env := e; Eval.agent := agent; Eval.obs := None;
         Eval.lines_read := lines w; Eval.trace := [] |} in
  let w'' := {| calls := calls w ++ [RunEvaluation (Eval.trace w')];
                lines := Eval.lines_read w' |} in
  match r with
  | Raise err => (Raise err, w'')
  | Return _ => (Return (Eval.env w'), w'')
  end.

(** [main(args)] *)
Definition main (name : string) : Exec World unit :=
  _ ← log GetGymEnvironment;
  evaluation_env ← lift (get_gym_environment x);
  policy ← load_trained_policy name;
  _ ← log (PrintLine "[DEBUG] Loaded all, ready to run simulation");
  evaluation_env ← do_run_evaluation evaluation_env policy;
  _ ← log Close;
  _ ← lift (env_close x evaluation_env);
  mret tt.
End Main.
Arguments Call V A : clear implicits.
Arguments Externals V E G A : clear implicits.
Arguments World V A : clear implicits.
End EvalMain.

(** ** [demo_rlbench.py]: random actions for at most 100 steps *)

Module Demo.
Section Demo.
(** The states of the simulator and the actions. *)
Context {S A : Type}.

(** The calls of [main] to the simulator and to the random generator; a
    step that returns is recorded with its value of [terminate]. *)
Inductive Call : Type :=
| Launch
| GetTask
| ResetTask
| Normal
| Step (action : A)
| Stepped (terminate : Z).

Record Externals : Type := {
  (** [Environment(action_mode)] and [env.launch()] *)
  launch : result S;
  (** [env.get_task(StackBlocks)] *)
  get_task : S → result S;
  (** [task.reset()] *)
  task_reset : S → result S;
  (** [np.random.normal(size=env.action_shape)]: the draws, by number *)
  random_normal : nat → A;
  (** [task.step(action)]: [terminate], with [False] as [0] and [True]
      as [1] *)
  task_step : S → A → result (Z * S);
}.

Record World : Type := {
  draws : nat;
  calls : list Call;
}.

(** The variables of the loop: the simulator, [terminate] and
    [step_num]. *)
Record Locals : Type := {
  task : S;
  terminate : Z;
  step_num : Z;
}.

Context (x : Externals).

Definition log (c : Call) : Exec World unit := λ w,
  (Return tt, {| draws := draws w; calls := calls w ++ [c] |}).

(** One draw of the generator. *)
Definition normal : Exec World A := λ w,
  (Return (random_normal x (draws w)),
   {| draws := Datatypes.S (draws w); calls := calls w ++ [Normal] |}).

(** [while cond: body] on the variables [l], with the number of turns
    bounded by [fuel]: [None] when the fuel runs out before the loop
    ends. *)
Fixpoint while (fuel : nat) (cond : Locals → bool)
    (body : Locals → Exec World Locals) (l : Locals)
  : Exec World (option Locals) :=
  if cond l then
    match fuel with
    | O => mret None
    | Datatypes.S fuel' => l' ← body l; while fuel' cond body l'
    end
  else mret (Some l).

(** The body of the loop:
    [obs, reward, terminate = task.step(np.random.normal(...))] and
    [step_num += 1]. *)
Definition step_body (l : Locals) : Exec World Locals :=
  action ← normal;
  _ ← log (Step action);
  '(t, s') ← lift (task_step x (task l) action);
  _ ← log (Stepped t);
  mret {| task := s'; terminate := t; step_num := step_num l + 1 |}.

(** [main()], the loop with [fuel] turns at most *)
Definition main (fuel : nat) : Exec World (option Locals) :=
  _ ← log Launch;
  s ← lift (launch x);
  _ ← log GetTask;
  s ← lift (get_task x s);
  _ ← log ResetTask;
  s ← lift (task_reset x s);
  while fuel
    (λ l, bool_decide (step_num l < 100) && bool_decide (terminate l = 0))
    step_body
    {| task := s; terminate := 0; step_num := 0 |}.
End Demo.
Arguments Call A : clear implicits.
Arguments Externals S A : clear implicits.
Arguments World A : clear implicits.
Arguments Locals S : clear implicits.
End Demo.

(** ** Notions used to state the properties *)

(** The array [a] with [vals] written from row [s] on. *)
Definition patch {V} (s : nat) (vals : list (Row V)) (a : ndarray V) : ndarray V :=
  NdArray (ncols a) (list_inserts s vals (rows a)).

(** The array [a] of [m] rows with [vals] written from row [top] on, going
    on from row [0] when the last row is passed. *)
Definition circ_patch {V} (m top : nat) (vals : list (Row V)) (a : ndarray V)
  : ndarray V :=
  if bool_decide (m ≤ top + length vals)%nat
  then patch 0 (drop (m - top) vals) (patch top (take (m - top) vals) a)
  else patch top vals a.

(** The column of a list of observations under [key]. *)
Definition column {V} (key : string) (dicts : list (Obs V)) : list (Row V) :=
  (λ d : Obs V, default [] (d !! key)) <$> dicts.

(** The index of the slot that step [j] of a path goes to, when the path is
    written from [top] in arrays of [m] rows. *)
Definition slot_of (top m : Z) (j : nat) : Z := (top + Z.of_nat j) `mod` m.

(** The slots of steps [j], [j + 1], ..., [n - 1] of a path of [n] steps
    written from [top], in write order. *)
Definition future_slots (top m : Z) (n j : nat) : list Z :=
  slot_of top m <$> seq j (n - j).

(** The list that [add_path] stores in [_idx_to_future_obs_idx[i]] for a
    path of [n] steps written from [top]: in the branch that wraps,
    [np.hstack((np.arange(i, max_size), np.arange(0, num_post_wrap_steps)))]
    before the wrap and [np.arange(i, num_post_wrap_steps)] after it; in the
    other branch [np.arange(i, top + n)]. *)
Definition code_future (top m n i : Z) : list Z :=
  if bool_decide (m ≤ top + n) then
    let num_post_wrap_steps := n - (m - top) in
    if bool_decide (top ≤ i) then py_range i m ++ py_range 0 num_post_wrap_steps
    else py_range i num_post_wrap_steps
  else py_range i (top + n).

(** The list [idx'] is [idx] after the lists of future indices of a path of
    [n] steps written from [top] have been stored. *)
Definition future_written (top m : Z) (n : nat)
    (idx idx' : list (option (list Z))) : Prop :=
  length idx' = length idx ∧
  (∀ j, (j < n)%nat →
     idx' !! Z.to_nat (slot_of top m j) =
       Some (Some (code_future top m (Z.of_nat n) (slot_of top m j)))) ∧
  (∀ i : nat, (∀ j, (j < n)%nat → i ≠ Z.to_nat (slot_of top m j)) →
     idx' !! i = idx !! i).

(** The slot of transition number [g] in arrays of [m] rows that are
    written around from row [0]. *)
Definition position (m : Z) (g : nat) : Z := Z.of_nat g `mod` m.

(** A path that has been added, with its actions as [add_path] encoded
    them. *)
Abbreviation Added V := (Path V * list (Row V))%type (only parsing).

Module ObsDictSpec.
Section Spec.
Context {V : Type} `{Scalar V} `{FloatRounding}.
Import ObsDict.

(** What [preprocess_obs_dict] makes of one row stored under [key]. *)
Definition prep (key : string) (r : Row V) : Row V :=
  if str_contains "image" key then map unnormalize_scalar r else r.

(** The column of a list of observations under [key], as
    [preprocess_obs_dict] leaves it. *)
Definition pcolumn (key : string) (dicts : list (Obs V)) : list (Row V) :=
  prep key <$> column key dicts.

(** The values of a path of [n] steps under [key] fit the arrays of
    [key] in the storage [st0], which have [m] rows. *)
Definition key_fits (obs next_obs : gmap string (list (Row V)))
    (n m : nat) (st0 : Storage V) (key : string) : Prop :=
  ∃ vals a nvals na,
    obs !! key = Some vals ∧ s_obs st0 !! key = Some a ∧
    next_obs !! key = Some nvals ∧ s_next_obs st0 !! key = Some na ∧
    length (rows a) = m ∧ length (rows na) = m ∧
    length vals = n ∧ length nvals = n ∧
    Forall (λ r, length r = ncols a) vals ∧
    Forall (λ r, length r = ncols na) nvals.

(** The storage [st'] is [st0] with the [m]-row arrays written around
    from row [top]: the state that both branches of [add_path] reach. *)
Definition stored (obs next_obs : gmap string (list (Row V)))
    (keys : list string) (acts terms : list (Row V)) (m top : Z)
    (st0 st' : Storage V) : Prop :=
  s_actions st' = circ_patch (Z.to_nat m) (Z.to_nat top) acts (s_actions st0) ∧
  s_terminals st' = circ_patch (Z.to_nat m) (Z.to_nat top) terms (s_terminals st0) ∧
  (∀ key, s_obs st' !! key =
     if decide (key ∈ keys)
     then circ_patch (Z.to_nat m) (Z.to_nat top) (default [] (obs !! key))
            <$> s_obs st0 !! key
     else s_obs st0 !! key) ∧
  (∀ key, s_next_obs st' !! key =
     if decide (key ∈ keys)
     then circ_patch (Z.to_nat m) (Z.to_nat top) (default [] (next_obs !! key))
            <$> s_next_obs st0 !! key
     else s_next_obs st0 !! key).

(** The slot that step [j] of a path written from the write pointer of
    [b] goes to. *)
Definition slot (b : Buffer V) (j : nat) : nat :=
  Z.to_nat (slot_of (_top b) (max_size b) j).

(** The shape of a buffer as [__init__] allocates it: every array has
    [max_size] rows, the saved keys have their arrays, and the write
    pointer is inside the arrays. *)
Record shaped (b : Buffer V) : Prop := {
  shaped_top : 0 ≤ _top b < max_size b;
  shaped_actions : length (rows (_actions b)) = Z.to_nat (max_size b);
  shaped_terminals : length (rows (_terminals b)) = Z.to_nat (max_size b);
  shaped_obs : ∀ key, key ∈ saved_keys b →
    ∃ a, _obs b !! key = Some a ∧ length (rows a) = Z.to_nat (max_size b);
  shaped_next_obs : ∀ key, key ∈ saved_keys b →
    ∃ a, _next_obs b !! key = Some a ∧ length (rows a) = Z.to_nat (max_size b);
  shaped_future : length (_idx_to_future_obs_idx b) = Z.to_nat (max_size b);
}.

(** Every dict of [dicts] has a row under [key], as wide as [a]. *)
Definition column_fits (dicts : list (Obs V)) (key : string) (a : ndarray V) : Prop :=
  Forall (λ d : Obs V, ∃ r, d !! key = Some r ∧ length r = ncols a) dicts.

(** A path of [n] transitions whose arrays have the widths of the arrays
    of the buffer; [acts] are its actions as [add_path] encodes them. *)
Record fits (b : Buffer V) (path : Path V) (n : nat) (acts : list (Row V))
  : Prop := {
  fits_rewards : length (rewards path) = n;
  fits_observations : length (observations path) = n;
  fits_next_observations : length (next_observations path) = n;
  fits_terminals : length (terminals path) = n;
  fits_encode : encode_actions b (actions path) = Return acts;
  fits_actions : length acts = n;
  fits_actions_width : Forall (λ r, length r = ncols (_actions b)) acts;
  fits_terminals_width :
    Forall (λ r, length r = ncols (_terminals b)) (terminals path);
  fits_obs : ∀ key a, key ∈ saved_keys b → _obs b !! key = Some a →
    column_fits (observations path) key a;
  fits_next_obs : ∀ key a, key ∈ saved_keys b → _next_obs b !! key = Some a →
    column_fits (next_observations path) key a;
}.

(** Slot [i] of the buffer [b'] holds step [j] of [path]: its action as
    encoded, its terminal, and under every saved key its observation and
    next observation as preprocessed. *)
Definition holds (b' : Buffer V) (i : nat) (path : Path V)
    (acts : list (Row V)) (j : nat) : Prop :=
  rows (_actions b') !! i = acts !! j ∧
  rows (_terminals b') !! i = terminals path !! j ∧
  ∀ key, key ∈ saved_keys b' →
    (∃ a d r, _obs b' !! key = Some a ∧ observations path !! j = Some d ∧
              d !! key = Some r ∧ rows a !! i = Some (prep key r)) ∧
    (∃ a d r, _next_obs b' !! key = Some a ∧ next_observations path !! j = Some d ∧
              d !! key = Some r ∧ rows a !! i = Some (prep key r)).

(** Slot [i] holds the same data in [b] and [b']. *)
Definition same_slot (b b' : Buffer V) (i : nat) : Prop :=
  rows (_actions b') !! i = rows (_actions b) !! i ∧
  rows (_terminals b') !! i = rows (_terminals b) !! i ∧
  _idx_to_future_obs_idx b' !! i = _idx_to_future_obs_idx b !! i ∧
  ∀ key, key ∈ saved_keys b →
    (∃ a a', _obs b !! key = Some a ∧ _obs b' !! key = Some a' ∧
             rows a' !! i = rows a !! i) ∧
    (∃ a a', _next_obs b !! key = Some a ∧ _next_obs b' !! key = Some a' ∧
             rows a' !! i = rows a !! i).

(** What writing the slice of a path from row [lo] on makes of the array
    of [key], the values being those of the dict [m]. *)
Definition key_patch (lo : Z) (ps : option (Z * Z))
    (m : gmap string (list (Row V))) (key : string) : ndarray V → ndarray V :=
  patch (Z.to_nat lo) (cut_path ps (default [] (m !! key))).

(** The slice [lo:hi] fits the arrays of [key] in the storage [st0], and
    the values of the path fit the slice. *)
Definition key_ready (obs next_obs : gmap string (list (Row V)))
    (lo hi : Z) (ps : option (Z * Z)) (st0 : Storage V) (key : string) : Prop :=
  ∃ vals a nvals na,
    obs !! key = Some vals ∧ s_obs st0 !! key = Some a ∧
    next_obs !! key = Some nvals ∧ s_next_obs st0 !! key = Some na ∧
    hi ≤ Z.of_nat (length (rows a)) ∧ hi ≤ Z.of_nat (length (rows na)) ∧
    length (cut_path ps vals) = Z.to_nat (hi - lo) ∧
    length (cut_path ps nvals) = Z.to_nat (hi - lo) ∧
    Forall (λ r, length r = ncols a) (cut_path ps vals) ∧
    Forall (λ r, length r = ncols na) (cut_path ps nvals).

(** The storage [st] is [st0] after the keys of [done] have been
    written. *)
Definition keys_done (obs next_obs : gmap string (list (Row V)))
    (lo : Z) (ps : option (Z * Z)) (st0 : Storage V)
    (done : list string) (st : Storage V) : Prop :=
  s_actions st = s_actions st0 ∧ s_terminals st = s_terminals st0 ∧
  (∀ key, s_obs st !! key =
     if decide (key ∈ done) then key_patch lo ps obs key <$> s_obs st0 !! key
     else s_obs st0 !! key) ∧
  (∀ key, s_next_obs st !! key =
     if decide (key ∈ done)
     then key_patch lo ps next_obs key <$> s_next_obs st0 !! key
     else s_next_obs st0 !! key).

(** The buffers [b] and [b'] agree on what [__init__] fixes: the
    configuration and the widths of the arrays. *)
Definition same_config (b b' : Buffer V) : Prop :=
  max_size b' = max_size b ∧ env b' = env b ∧
  internal_keys b' = internal_keys b ∧ goal_keys b' = goal_keys b ∧
  ob_keys_to_save b' = ob_keys_to_save b ∧
  observation_key b' = observation_key b ∧
  desired_goal_key b' = desired_goal_key b ∧
  achieved_goal_key b' = achieved_goal_key b ∧
  fraction_goals_rollout_goals b' = fraction_goals_rollout_goals b ∧
  fraction_goals_env_goals b' = fraction_goals_env_goals b ∧
  _action_dim b' = _action_dim b ∧
  ncols (_actions b') = ncols (_actions b) ∧
  ncols (_terminals b') = ncols (_terminals b) ∧
  (∀ key a', _obs b' !! key = Some a' →
     ∃ a, _obs b !! key = Some a ∧ ncols a' = ncols a) ∧
  (∀ key a', _next_obs b' !! key = Some a' →
     ∃ a, _next_obs b !! key = Some a ∧ ncols a' = ncols a).

(** What one call of [add_path] with a path of [n] steps makes of the
    buffer [b]. *)
Record written (b : Buffer V) (path : Path V) (n : nat) (acts : list (Row V))
    (b' : Buffer V) : Prop := {
  written_config : same_config b b';
  written_shaped : shaped b';
  written_top : _top b' = (_top b + Z.of_nat n) `mod` max_size b;
  written_size : _size b' = Z.min (_size b + Z.of_nat n) (max_size b);
  written_holds : ∀ j, (j < n)%nat → holds b' (slot b j) path acts j;
  written_future : ∀ j, (j < n)%nat →
    _idx_to_future_obs_idx b' !! slot b j =
      Some (Some (code_future (_top b) (max_size b) (Z.of_nat n)
                    (slot_of (_top b) (max_size b) j)));
  written_other : ∀ i, (∀ j, (j < n)%nat → i ≠ slot b j) → same_slot b b' i;
}.

(** *** Histories *)


(** The number of steps of a path: [len(path["rewards"])]. *)
Definition steps (h : (Added V)) : nat := length (rewards h.1).

(** The number of transitions written by a history. *)
Definition total (hist : list (Added V)) : nat := sum_list_with steps hist.

(** The number of transitions written before path number [p]: step [s] of
    path [p] is transition number [offset hist p + s]. *)
Definition offset (hist : list (Added V)) (p : nat) : nat := total (take p hist).

(** The buffers that a sequence of calls of [add_path] reaches from [b0],
    each call with a path that fits, of between one and [max_size] steps. *)
Inductive reachable (b0 : Buffer V) : list (Added V) → Buffer V → Prop :=
| reachable_fresh : reachable b0 [] b0
| reachable_add_path hist b path acts b' :
    reachable b0 hist b →
    fits b path (length (rewards path)) acts →
    1 ≤ Z.of_nat (length (rewards path)) ≤ max_size b →
    add_path b path = Return b' →
    reachable b0 (hist ++ [(path, acts)]) b'.

(** A buffer as [__init__] leaves it. *)
Definition fresh (b0 : Buffer V) : Prop :=
  shaped b0 ∧ _top b0 = 0 ∧ _size b0 = 0 ∧
  ob_keys_to_save b0 =
    [observation_key b0; desired_goal_key b0; achieved_goal_key b0].

(** Transition number [g] has not been overwritten: fewer than [m]
    transitions have been written since. *)
Definition live (hist : list (Added V)) (m : Z) (g : nat) : Prop :=
  Z.of_nat (total hist) ≤ Z.of_nat g + m.

(** What holds of every reachable buffer. *)
Record invariant (b0 : Buffer V) (hist : list (Added V)) (b : Buffer V) : Prop := {
  inv_shaped : shaped b;
  inv_config : same_config b0 b;
  inv_top : _top b = Z.of_nat (total hist) `mod` max_size b;
  inv_size : _size b = Z.min (Z.of_nat (total hist)) (max_size b);
  inv_live : ∀ p path acts s,
    hist !! p = Some (path, acts) → (s < length (rewards path))%nat →
    live hist (max_size b) (offset hist p + s) →
    holds b (Z.to_nat (position (max_size b) (offset hist p + s))) path acts s ∧
    _idx_to_future_obs_idx b
      !! Z.to_nat (position (max_size b) (offset hist p + s))
    = Some (Some ((λ s', position (max_size b) (offset hist p + s'))
                    <$> seq s (length (rewards path) - s)));
}.
End Spec.
End ObsDictSpec.

(** A sample, as [add_sample] takes it:
    [(obs, action, reward, terminal, next_obs)]. *)
Abbreviation Sample V := (Row V * Row V * Row V * Row V * Row V)%type (only parsing).

(** [l[i][key]] of a list of observations and [l[i]] of a list of rows,
    where the path has them. *)
Definition field {V} (l : list (Obs V)) (i : nat) (key : string) : Row V :=
  default [] (l !! i ≫= (λ d : Obs V, d !! key)).
Definition row_at {V} (l : list (Row V)) (i : nat) : Row V := default [] (l !! i).

(** Row [i] of the array [a] holds the value [v], as broadcast to the
    width of the array. *)
Definition row_holds {V} (a : ndarray V) (i : nat) (v : Row V) : Prop :=
  ∃ r, broadcast_row (ncols a) v = Return r ∧ rows a !! i = Some r.

Module NewStateSpec.
Section Spec.
Context {V : Type} `{Scalar V}.
Import NewStateObsDict.

(** The successive calls of [add_sample], one for each sample. *)
Definition add_samples (b : Buffer V) (samples : list (Sample V)) : result (Buffer V) :=
  foldM (λ b '(o, a, r, t, o'), add_sample b o a r t o') b samples.

(** The sample of step [i] of a path: the observations, with the desired
    goal concatenated onto them. *)
Definition original (path : Path V) (i : nat) : Sample V :=
  (field (observations path) i "observation"
     ++ field (observations path) i "desired_goal",
   row_at (actions path) i,
   row_at (rewards path) i,
   row_at (terminals path) i,
   field (next_observations path) i "observation"
     ++ field (next_observations path) i "desired_goal").

(** The sample of step [i] relabeled with the goal achieved at step [j]:
    that goal is concatenated onto the observations, and the reward is
    [env.compute_reward] of the goal achieved at step [i] and of that
    goal. *)
Definition relabeled (e : Env V) (path : Path V) (i : nat) (j : Z) : Sample V :=
  let g := field (next_observations path) (Z.to_nat j) "achieved_goal" in
  (field (observations path) i "observation" ++ g,
   row_at (actions path) i,
   [compute_reward e (field (next_observations path) i "achieved_goal") g],
   row_at (terminals path) i,
   field (next_observations path) i "observation" ++ g).

(** The samples of steps [i], ..., [i + n - 1]: each step, followed by its
    relabeled samples, one for each index of the head of [sels]. *)
Fixpoint samples_from (e : Env V) (path : Path V) (i : nat)
    (sels : list (list Z)) (n : nat) : list (Sample V) :=
  match n with
  | O => []
  | S n' =>
      original path i
        :: (relabeled e path i <$> default [] (head sels))
        ++ samples_from e path (S i) (tail sels) n'
  end.

(** The samples of a path, the indices of the goals being [sels]: one
    list of indices for each step but the last. *)
Definition hindsight_samples (e : Env V) (path : Path V) (sels : list (list Z))
  : list (Sample V) :=
  samples_from e path 0 sels (length (rewards path)).

(** A path of [n] steps whose observations have the keys that [add_path]
    reads. *)
Record path_ok (path : Path V) (n : nat) : Prop := {
  ok_rewards : length (rewards path) = n;
  ok_observations : length (observations path) = n;
  ok_actions : length (actions path) = n;
  ok_next_observations : length (next_observations path) = n;
  ok_terminals : length (terminals path) = n;
  ok_obs_keys : Forall (λ d : Obs V,
    is_Some (d !! "observation") ∧ is_Some (d !! "desired_goal"))
    (observations path);
  ok_next_obs_keys : Forall (λ d : Obs V,
    is_Some (d !! "observation") ∧ is_Some (d !! "desired_goal") ∧
    is_Some (d !! "achieved_goal")) (next_observations path);
}.

(** The indices [sels] are [k] indices of later steps for each step but
    the last of a path of [n] steps. *)
Definition later_steps (k : Z) (n : nat) (i0 : nat) (sels : list (list Z)) : Prop :=
  ∀ i sel, sels !! i = Some sel →
    length sel = Z.to_nat k ∧
    Forall (λ j, Z.of_nat (i0 + i) + 1 ≤ j < Z.of_nat n) sel.

(** The shape of a buffer as [__init__] allocates it. *)
Record shaped (b : Buffer V) : Prop := {
  shaped_top : 0 ≤ _top b < max_size b;
  shaped_actions : length (rows (_actions b)) = Z.to_nat (max_size b);
  shaped_rewards : length (rows (_rewards b)) = Z.to_nat (max_size b);
  shaped_terminals : length (rows (_terminals b)) = Z.to_nat (max_size b);
  shaped_obs : length (rows (_obs b)) = Z.to_nat (max_size b);
  shaped_next_obs : length (rows (_next_obs b)) = Z.to_nat (max_size b);
}.

(** Slot [i] of the buffer holds the sample. *)
Definition stores (b : Buffer V) (i : nat) (s : Sample V) : Prop :=
  let '(o, a, r, t, o') := s in
  row_holds (_obs b) i o ∧ row_holds (_actions b) i a ∧
  row_holds (_rewards b) i r ∧ row_holds (_terminals b) i t ∧
  row_holds (_next_obs b) i o'.

(** The buffers reached from [b0] by calls of [add_sample] and of
    [add_path] that return. *)
Inductive reachable (b0 : Buffer V) : Buffer V → Prop :=
| reachable_fresh : reachable b0 b0
| reachable_add_sample b o a r t o' b' :
    reachable b0 b → add_sample b o a r t o' = Return b' → reachable b0 b'
| reachable_add_path b path n g b' g' :
    reachable b0 b → path_ok path n → (1 ≤ n)%nat → 0 ≤ k b →
    add_path b path g = Return (b', g') → reachable b0 b'.

(** What holds of the buffer that the calls of [add_sample] with the
    samples of [hist] reach: the write pointer and the size count the samples, and
    every sample that is not overwritten is in its slot. *)
Record invariant (hist : list (Sample V)) (b : Buffer V) : Prop := {
  inv_shaped : shaped b;
  inv_top : _top b = Z.of_nat (length hist) `mod` max_size b;
  inv_size : _size b = Z.min (Z.of_nat (length hist)) (max_size b);
  inv_stores : ∀ g s, hist !! g = Some s →
    Z.of_nat (length hist) ≤ Z.of_nat g + max_size b →
    stores b (Z.to_nat (position (max_size b) g)) s;
}.
End Spec.
End NewStateSpec.


Module ImgSpec.
Section Spec.
Context {V : Type} `{Scalar V}.
Import ImgObsDict.

(** The successive calls of [add_sample], one for each sample. *)
Definition add_samples (samples : list (Sample V)) : Exec (World V) unit :=
  for_each samples (λ '(o, a, r, t, o'), _ ← add_sample o a r t o'; mret Continue).

(** The three stores of [add_sample] that precede its [try] block. *)
Definition first_stores (b : Buffer V) (action reward terminal : Row V)
  : result (ndarray V * ndarray V * ndarray V) :=
  a ← setitem_row (_actions b) (_top b) action;
  r ← setitem_row (_rewards b) (_top b) reward;
  t ← setitem_row (_terminals b) (_top b) terminal;
  Return (a, r, t).

(** The two stores of the [try] block of [add_sample]. *)
Definition guarded_stores (b : Buffer V) (obs next_obs : Row V)
  : result (ndarray V * ndarray V) :=
  o ← setitem_row (_obs b) (_top b) obs;
  o' ← setitem_row (_next_obs b) (_top b) next_obs;
  Return (o, o').

(** What the [except] block of [add_sample] prints. *)
Definition debug_output (e : exn) (top : Z) (obs next_obs terminal : Row V)
  : list (Printed V) :=
  [PrintException "[DEBUG] Ran into exception:" e;
   PrintInt "[INFO] self._top = %d" top;
   PrintText "[INFO] obs"; PrintValue obs;
   PrintText "[INFO] next_obs"; PrintValue next_obs;
   PrintText "[INFO] terminal"; PrintValue terminal].

(** The shape of a buffer as [__init__] allocates it. *)
Record shaped (b : Buffer V) : Prop := {
  shaped_top : 0 ≤ _top b < max_size b;
  shaped_actions : length (rows (_actions b)) = Z.to_nat (max_size b);
  shaped_rewards : length (rows (_rewards b)) = Z.to_nat (max_size b);
  shaped_terminals : length (rows (_terminals b)) = Z.to_nat (max_size b);
  shaped_obs : length (rows (_obs b)) = Z.to_nat (max_size b);
  shaped_next_obs : length (rows (_next_obs b)) = Z.to_nat (max_size b);
}.

(** Slot [i] of the buffer holds the sample. *)
Definition stores (b : Buffer V) (i : nat) (s : Sample V) : Prop :=
  let '(o, a, r, t, o') := s in
  row_holds (_obs b) i o ∧ row_holds (_actions b) i a ∧
  row_holds (_rewards b) i r ∧ row_holds (_terminals b) i t ∧
  row_holds (_next_obs b) i o'.

(** The worlds reached from [w0] by calls of [add_sample] and of
    [add_path] that return. *)
Inductive reachable (w0 : World V) : World V → Prop :=
| reachable_fresh : reachable w0 w0
| reachable_add_sample w o a r t o' w' :
    reachable w0 w → add_sample o a r t o' w = (Return tt, w') → reachable w0 w'
| reachable_add_path w path w' :
    reachable w0 w → add_path path w = (Return tt, w') → reachable w0 w'.

(** What holds of the buffer that the calls of [add_sample] with the
    samples of [hist] reach. *)
Record invariant (hist : list (Sample V)) (b : Buffer V) : Prop := {
  inv_shaped : shaped b;
  inv_top : _top b = Z.of_nat (length hist) `mod` max_size b;
  inv_size : _size b = Z.min (Z.of_nat (length hist)) (max_size b);
  inv_stores : ∀ g s, hist !! g = Some s →
    Z.of_nat (length hist) ≤ Z.of_nat g + max_size b →
    stores b (Z.to_nat (position (max_size b) g)) s;
}.


(** The sample of step [i] of a path, as the first loop of [add_path]
    passes it to [add_sample]. *)
Definition original (path : Path V) (i : nat) : Sample V :=
  (field (observations path) i "observation",
   row_at (actions path) i,
   row_at (rewards path) i,
   row_at (terminals path) i,
   field (next_observations path) i "observation").
End Spec.
End ImgSpec.

(** ** The assertions of the constructors on the fractions *)

Section Fractions.
Context `{FloatRounding}.

(** The three conditions on the fractions, as Python evaluates them. *)
Definition fractions_ok (fraction_goals_rollout_goals fraction_goals_env_goals : Q)
  : Prop :=
  (0 <= fraction_goals_rollout_goals)%Q ∧ (0 <= fraction_goals_env_goals)%Q ∧
  (float_add fraction_goals_rollout_goals fraction_goals_env_goals <= 1)%Q.

(** The conditions of the four [assert] statements on the fractions, as a
    traceback shows them. *)
Definition fraction_assertions : list string :=
  ["0 <= fraction_goals_rollout_goals";
   "0 <= fraction_goals_env_goals";
   "0 <= fraction_goals_rollout_goals + fraction_goals_env_goals";
   "fraction_goals_rollout_goals + fraction_goals_env_goals <= 1"].

(** The result is not an [AssertionError] of one of these statements. *)
Definition passes_fraction_assertions {A} (r : result A) : Prop :=
  ∀ message, message ∈ fraction_assertions → r ≠ Raise (AssertionError message).

(** The result is an [AssertionError]. *)
Definition raises_AssertionError {A} (r : result A) : Prop :=
  ∃ message, r = Raise (AssertionError message).
End Fractions.

(** The five assertions at the head of a constructor, followed by the
    rest of it. *)
Definition guarded `{FloatRounding} {A} (is_dict : bool) (fr fe : Q) (rest : result A) : result A :=
  _ ← py_assert is_dict "isinstance(env.observation_space, Dict)";
  _ ← py_assert (Qle_bool 0 fr) "0 <= fraction_goals_rollout_goals";
  _ ← py_assert (Qle_bool 0 fe) "0 <= fraction_goals_env_goals";
  _ ← py_assert (Qle_bool 0 (float_add fr fe))
        "0 <= fraction_goals_rollout_goals + fraction_goals_env_goals";
  _ ← py_assert (Qle_bool (float_add fr fe) 1)
        "fraction_goals_rollout_goals + fraction_goals_env_goals <= 1";
  rest.

(** A constructor, as a function of the two fractions, checks them: it
    raises an [AssertionError] when they are not as required, and none of
    the statements on the fractions fails when they are. *)
Definition checks_fractions `{FloatRounding} {A} (construct : Q → Q → result A)
  : Prop :=
  ∀ fraction_goals_rollout_goals fraction_goals_env_goals,
    (¬ fractions_ok fraction_goals_rollout_goals fraction_goals_env_goals →
     raises_AssertionError
       (construct fraction_goals_rollout_goals fraction_goals_env_goals)) ∧
    (fractions_ok fraction_goals_rollout_goals fraction_goals_env_goals →
     passes_fraction_assertions
       (construct fraction_goals_rollout_goals fraction_goals_env_goals)).

(** ** The calls of the evaluation loop *)

Module EvalSpec.
Import Eval.

(** The kind of a call. *)
Inductive Kind : Type := KPrint | KReset | KGetAction | KInput | KStep | KRender.

#[global] Instance kind_eq_dec : EqDecision Kind.
Proof. solve_decision. Defined.

Section Calls.
Context {V E G A : Type}.

Definition kind (ev : Event V A) : Kind :=
  match ev with
  | Print _ => KPrint
  | Reset => KReset
  | GetAction _ => KGetAction
  | Input _ => KInput
  | Step _ => KStep
  | Render => KRender
  end.

(** The calls of iteration [i] when none of them raises. *)
Definition iteration_kinds (episode_length i : Z) : list Kind :=
  (if bool_decide (i `mod` episode_length = 0) then [KPrint; KReset] else [])
  ++ [KGetAction; KInput; KStep; KRender].

(** The calls of a run of 150 iterations with episodes of 50 steps. *)
Definition expected_kinds : list Kind :=
  concat (iteration_kinds 50 <$> py_range 0 150).

(** The number of calls of a kind. *)
Definition calls (k : Kind) (ks : list Kind) : nat :=
  length (filter (λ k', k' = k) ks).

(** Every call of [env.step] comes directly after a call of [input]. *)
Definition confirmed (ks : list Kind) : Prop :=
  ∀ p, ks !! p = Some KStep → ∃ q, p = S q ∧ ks !! q = Some KInput.

(** From [w] to [w'], the calls [evs] were made and [n] lines were read. *)
Definition extends (w : World V E G A) (evs : list (Event V A)) (n : nat)
    (w' : World V E G A) : Prop :=
  trace w' = trace w ++ evs ∧ lines_read w' = (lines_read w + n)%nat.

(** The local variable [obs] is bound to an observation with the key
    that the loop reads. *)
Definition ready (w : World V E G A) : Prop :=
  ∃ o, obs w = Some o ∧ is_Some (o !! "observation").

(** The simulator, the policy and the user answer every call, and the
    simulator's observations have the key that the loop reads. *)
Record answers (x : Externals V E G A) : Prop := {
  answers_wrap : ∀ e, ∃ e', wrap_environment x e = Return e';
  answers_reset : ∀ e, ∃ o e',
    env_reset x e = Return (o, e') ∧ is_Some (o !! "observation");
  answers_step : ∀ e a, ∃ o e',
    env_step x e a = Return (o, e') ∧ is_Some (o !! "observation");
  answers_render : ∀ e, ∃ e', env_render x e = Return e';
  answers_get_action : ∀ g r, ∃ a g', get_action x g r = Return (a, g');
  answers_user : ∀ n, ∃ line, user x n = Return line;
}.
End Calls.
End EvalSpec.

(** ** The rounding of the float arithmetic *)

(** The rounding keeps the sign and has a relative error of at most [u]
    and an absolute error of at most [eta]: the standard model of
    floating-point arithmetic with gradual underflow.  Exact arithmetic
    has [u = 0] and [eta = 0]; binary64 has [u = 2^-53] and
    [eta = 2^-1075]. *)
Record rounds_within `{FloatRounding} (u eta : Q) : Prop := {
  rnd_nonneg : ∀ x, (0 <= x → 0 <= rnd x)%Q;
  rnd_upper : ∀ x, (0 <= x → rnd x <= (1 + u) * x + eta)%Q;
  rnd_lower : ∀ x, (0 <= x → (1 - u) * x - eta <= rnd x)%Q;
}.

(** The batch size is small enough for the errors of the three roundings
    of the counts to stay below one. *)
Definition small_batch (u eta : Q) (batch_size : Z) : Prop :=
  ((1 + u) * ((1 + u) * inject_Z batch_size + eta) * (1 + eta)
   + 2 * eta * (1 - u)
   < (inject_Z batch_size + 1) * (1 - u))%Q.

(** ** The goals of a batch *)

(** Row [q] of the values written to a slice of [m] rows: the values
    have [m] rows, or one row that is repeated. *)
Definition slice_value {A} (vals : list A) (m q : nat) : option A :=
  if bool_decide (length vals = m) then vals !! q else vals !! 0%nat.

(** What [postprocess_obs_dict] makes of a row stored under [key]. *)
Definition post_row {V} `{Scalar V} (key : string) (r : Row V) : Row V :=
  if str_contains "image" key then map normalize_scalar r else r.

Module BatchSpec.
Section Spec.
Context {V : Type} `{Scalar V} `{FloatRounding}.
Import ObsDict.

(** The goals of the environment are written over rows
    [num_rollout_goals : num_rollout_goals + num_env_goals] of the
    resampled goals, when there are such goals. *)
Definition env_goals_written (b : Buffer V) (batch_size : Z)
    (resampled resampled' : ndarray V) : Prop :=
  let ne := num_env_goals b batch_size in
  let nr := num_rollout_goals b batch_size in
  if bool_decide (ne > 0) then
    ∃ env_rows,
      preprocess_obs_dict (sample_goals (env b) ne) !! desired_goal_key b
      = Some env_rows ∧
      setitem_slice resampled nr (nr + ne) env_rows = Return resampled'
  else resampled' = resampled.

(** Goals achieved later are written over the last [num_future_goals]
    rows of the resampled goals, when there are such goals: the goals
    achieved at indices picked in the lists of future indices of the last
    sampled indices. *)
Definition future_goals_written (b : Buffer V) (batch_size : Z)
    (indices : list Z) (resampled resampled' : ndarray V) : Prop :=
  let nf := num_future_goals b batch_size in
  let n := Z.of_nat (length indices) in
  if bool_decide (nf > 0) then
    ∃ g g' future_obs_idxs achieved vals,
      pick_future_obs_idxs b (getslice indices (- nf) n) g
      = Return (future_obs_idxs, g') ∧
      _next_obs b !! achieved_goal_key b = Some achieved ∧
      take_rows achieved future_obs_idxs = Return vals ∧
      setitem_slice resampled (- nf) n (rows vals) = Return resampled'
  else resampled' = resampled.

(** The rewards of a batch are computed by the environment from the
    actions and the next observations of the batch. *)
Definition rewards_computed (b : Buffer V) (batch_size : Z)
    (new_next_obs_dict : gmap string (ndarray V)) (new_actions : ndarray V)
    (new_rewards : list (Row V)) : Prop :=
  match compute_rewards (env b) with
  | Some f =>
      new_rewards
      = map (λ x, [x]) (concat (f (rows new_actions) (rows <$> new_next_obs_dict)))
  | None =>
      length new_rewards = Z.to_nat batch_size ∧
      ∀ i, (i < Z.to_nat batch_size)%nat →
        ∃ achieved desired ag_i dg_i,
          new_next_obs_dict !! achieved_goal_key b = Some achieved ∧
          new_next_obs_dict !! desired_goal_key b = Some desired ∧
          rows achieved !! i = Some ag_i ∧ rows desired !! i = Some dg_i ∧
          new_rewards !! i = Some [compute_reward (env b) ag_i dg_i]
  end.
End Spec.
End BatchSpec.

(** ** The rewards of a path *)

(** The path with other rewards. *)
Definition with_rewards {V} (path : Path V) (rs : list (Row V)) : Path V := {|
  observations := observations path;
  actions := actions path;
  rewards := rs;
  next_observations := next_observations path;
  terminals := terminals path;
|}.

(** The reward of a sample. *)
Definition sample_reward {V} (s : Sample V) : Row V :=
  let '(_, _, r, _, _) := s in r.

(** ** Notions used to state the further properties *)

Module DemoSpec.
Section Spec.
Context {S A : Type}.
Import Demo.

(** The actions of the calls of [task.step], in order, and their
    number. *)
Definition actions_stepped (cs : list (Call A)) : list A :=
  omap (λ c, match c with Step a => Some a | _ => None end) cs.

Definition steps_called (cs : list (Call A)) : nat := length (actions_stepped cs).

(** The values of [terminate] that the steps returned, in order. *)
Definition terminates (cs : list (Call A)) : list Z :=
  omap (λ c, match c with Stepped t => Some t | _ => None end) cs.

(** The condition of the loop. *)
Definition goes_on (l : Locals S) : bool :=
  bool_decide (step_num l < 100) && bool_decide (terminate l = 0).
End Spec.
End DemoSpec.

Module EvalMainSpec.
Section Spec.
Context {V E G A : Type}.
Import EvalMain.

(** The state in which [main] calls [run_evaluation]: the environment and
    the policy just made, [obs] unbound. *)
Definition start (e : E) (agent : G) (lines : nat) : Eval.World V E G A :=
  {| Eval.env := e; Eval.agent := agent; Eval.obs := None;
     Eval.lines_read := lines; Eval.trace := [] |}.

(** The path of the policy of the network [name]. *)
Definition policy_path (x : Externals V E G A) (name : string) : string :=
  os_path_join (root_path x) ["networks"; name; "trained_policy.pt"].
End Spec.
End EvalMainSpec.

Module EvalRaises.
Section Spec.
Context {V E G A : Type}.
Import Eval.

(** The exception is raised by a call to the simulator, the policy or the
    user. *)
Definition external (x : Externals V E G A) (e : exn) : Prop :=
  (∃ s, wrap_environment x s = Raise e) ∨
  (∃ s, env_reset x s = Raise e) ∨
  (∃ s a, env_step x s a = Raise e) ∨
  (∃ s, env_render x s = Raise e) ∨
  (∃ g r, get_action x g r = Raise e) ∨
  (∃ n, user x n = Raise e).

(** The observation in [obs] lacks the key that the loop reads. *)
Definition lacks_observation (w : World V E G A) : Prop :=
  ∃ o, obs w = Some o ∧ o !! "observation" = None.
End Spec.
End EvalRaises.

Module ImagesSpec.
Import Images.

(** A byte: an integer from [0] to [255]. *)
Definition is_byte (x : Q) : Prop := ∃ b : Z, 0 ≤ b ≤ 255 ∧ x = inject_Z b.

Section Spec.
Context `{FloatRounding}.
Context (rnd32 : Q → Q).

(** The bytes of an image of floats, and the floats of an image of
    bytes. *)
Definition bytes_of (image : tarray) : tarray :=
  TArray uint8
    (map (map (λ x, cast_uint8 (scale rnd32 (dtype_of image) x))) (entries image)).

Definition floats_of (image : tarray) : tarray :=
  TArray float64 (map (map (λ x, rnd (x / 255))) (entries image)).

(** The entry of key [k] after its conversion by [g]: only the entries
    whose key contains ['image'] change. *)
Definition converted (g : tarray → tarray) (k : string) (o : option tarray)
  : option tarray :=
  if str_contains "image" k then g <$> o else o.

(** The dict has an image of bytes, or an image of another type. *)
Definition has_image (P : dtype → Prop) (d : gmap string (option tarray)) : Prop :=
  ∃ k image,
    d !! k = Some (Some image) ∧ str_contains "image" k = true ∧ P (dtype_of image).
End Spec.
End ImagesSpec.

(** ** Concrete inputs

    Integer scalars, exact arithmetic, a small environment with a
    two-dimensional observation and one-dimensional goals, and buffers of
    four slots. *)

Module Examples.
#[export] Instance int_scalar : Scalar Z := {|
  zero := 0;
  one := 1;
  unnormalize_scalar := λ x, (x * 255) `mod` 256;
  normalize_scalar := λ x, x `div` 255;
  as_int := λ x, x;
|}.

(** Arithmetic without rounding. *)
Definition exact : FloatRounding := λ x, x.

Definition reach_env : Env Z := {|
  observation_space_is_Dict := true;
  observation_spaces :=
    {[ "observation" := 2%nat; "desired_goal" := 1%nat; "achieved_goal" := 1%nat ]};
  action_space := Box 1;
  compute_rewards := None;
  compute_reward := λ achieved desired, if bool_decide (achieved = desired) then 0 else -1;
  sample_goals := λ n, {[ "desired_goal" := replicate (Z.to_nat n) [42] ]};
|}.

Definition ob (x y desired achieved : Z) : Obs Z :=
  {[ "observation" := [x; y]; "desired_goal" := [desired];
     "achieved_goal" := [achieved] ]}.

(** A path of three steps towards the goal [9]. *)
Definition path3 (a : Z) : Path Z := {|
  observations := [ob a 1 9 1; ob a 2 9 2; ob a 3 9 3];
  actions := [[a]; [a + 1]; [a + 2]];
  rewards := [[-1]; [-1]; [-1]];
  next_observations := [ob a 2 9 2; ob a 3 9 3; ob a 4 9 4];
  terminals := [[0]; [0]; [1]];
|}.

Definition zeros (n d : nat) : ndarray Z := NdArray d (replicate n (replicate d 0)).

(** [ObsDictRelabelingBuffer(4, reach_env)] *)
Definition fresh : ObsDict.Buffer Z := {|
  ObsDict.internal_keys := [];
  ObsDict.goal_keys := ["desired_goal"];
  ObsDict.max_size := 4;
  ObsDict.env := reach_env;
  ObsDict.fraction_goals_rollout_goals := 1;
  ObsDict.fraction_goals_env_goals := 0;
  ObsDict.ob_keys_to_save := ["observation"; "desired_goal"; "achieved_goal"];
  ObsDict.observation_key := "observation";
  ObsDict.desired_goal_key := "desired_goal";
  ObsDict.achieved_goal_key := "achieved_goal";
  ObsDict._action_dim := 1;
  ObsDict._actions := zeros 4 1;
  ObsDict._terminals := zeros 4 1;
  ObsDict._obs :=
    <["achieved_goal" := zeros 4 1]>
      (<["desired_goal" := zeros 4 1]> (<["observation" := zeros 4 2]> ∅));
  ObsDict._next_obs :=
    <["achieved_goal" := zeros 4 1]>
      (<["desired_goal" := zeros 4 1]> (<["observation" := zeros 4 2]> ∅));
  ObsDict._top := 0;
  ObsDict._size := 0;
  ObsDict._idx_to_future_obs_idx := [None; None; None; None];
|}.

(** The buffer [fresh] with the write pointer and the size set. *)
Definition fresh_at (top size : Z) : ObsDict.Buffer Z := {|
  ObsDict.internal_keys := ObsDict.internal_keys fresh;
  ObsDict.goal_keys := ObsDict.goal_keys fresh;
  ObsDict.max_size := ObsDict.max_size fresh;
  ObsDict.env := ObsDict.env fresh;
  ObsDict.fraction_goals_rollout_goals := ObsDict.fraction_goals_rollout_goals fresh;
  ObsDict.fraction_goals_env_goals := ObsDict.fraction_goals_env_goals fresh;
  ObsDict.ob_keys_to_save := ObsDict.ob_keys_to_save fresh;
  ObsDict.observation_key := ObsDict.observation_key fresh;
  ObsDict.desired_goal_key := ObsDict.desired_goal_key fresh;
  ObsDict.achieved_goal_key := ObsDict.achieved_goal_key fresh;
  ObsDict._action_dim := ObsDict._action_dim fresh;
  ObsDict._actions := ObsDict._actions fresh;
  ObsDict._terminals := ObsDict._terminals fresh;
  ObsDict._obs := ObsDict._obs fresh;
  ObsDict._next_obs := ObsDict._next_obs fresh;
  ObsDict._top := top;
  ObsDict._size := size;
  ObsDict._idx_to_future_obs_idx := ObsDict._idx_to_future_obs_idx fresh;
|}.

(** The buffer [fresh] after [add_path (path3 10)], and that buffer after
    [add_path (path3 20)], which wraps. *)
Definition after1 : ObsDict.Buffer Z :=
  Eval vm_compute in
    match ObsDict.add_path fresh (path3 10) with
    | Return b => b
    | Raise _ => fresh
    end.

Definition after2 : ObsDict.Buffer Z :=
  Eval vm_compute in
    match ObsDict.add_path after1 (path3 20) with
    | Return b => b
    | Raise _ => fresh
    end.

(** The path [path3 10] with rewards that the environment never
    computes. *)
Definition rewarded : Path Z := with_rewards (path3 10) [[5]; [5]; [5]].

(** The buffer [after2] with a quarter of the goals of a batch kept, a
    quarter sampled from the environment, and the rest taken from later
    steps. *)
Definition mixed : ObsDict.Buffer Z := {|
  ObsDict.internal_keys := ObsDict.internal_keys after2;
  ObsDict.goal_keys := ObsDict.goal_keys after2;
  ObsDict.max_size := ObsDict.max_size after2;
  ObsDict.env := ObsDict.env after2;
  ObsDict.fraction_goals_rollout_goals := 1 # 4;
  ObsDict.fraction_goals_env_goals := 1 # 4;
  ObsDict.ob_keys_to_save := ObsDict.ob_keys_to_save after2;
  ObsDict.observation_key := ObsDict.observation_key after2;
  ObsDict.desired_goal_key := ObsDict.desired_goal_key after2;
  ObsDict.achieved_goal_key := ObsDict.achieved_goal_key after2;
  ObsDict._action_dim := ObsDict._action_dim after2;
  ObsDict._actions := ObsDict._actions after2;
  ObsDict._terminals := ObsDict._terminals after2;
  ObsDict._obs := ObsDict._obs after2;
  ObsDict._next_obs := ObsDict._next_obs after2;
  ObsDict._top := ObsDict._top after2;
  ObsDict._size := ObsDict._size after2;
  ObsDict._idx_to_future_obs_idx := ObsDict._idx_to_future_obs_idx after2;
|}.

(** [newstateObsDictRelabelingBuffer(4, reach_env, k=2)], with an
    observation space of width [-2 + 3]: the stored observations are the
    two coordinates and the goal. *)
Definition fresh_newstate : NewStateObsDict.Buffer Z := {|
  NewStateObsDict.k := 2;
  NewStateObsDict.t_fn := None;
  NewStateObsDict.internal_keys := [];
  NewStateObsDict.goal_keys := ["desired_goal"];
  NewStateObsDict.max_size := 4;
  NewStateObsDict.env := reach_env;
  NewStateObsDict.fraction_goals_rollout_goals := 1;
  NewStateObsDict.fraction_goals_env_goals := 0;
  NewStateObsDict.ob_keys_to_save :=
    ["observation"; "desired_goal"; "achieved_goal"; "save_state"];
  NewStateObsDict.observation_key := "observation";
  NewStateObsDict.desired_goal_key := "desired_goal";
  NewStateObsDict.achieved_goal_key := "achieved_goal";
  NewStateObsDict._action_dim := 1;
  NewStateObsDict._actions := zeros 4 1;
  NewStateObsDict._terminals := zeros 4 1;
  NewStateObsDict._rewards := zeros 4 1;
  NewStateObsDict._obs := zeros 4 3;
  NewStateObsDict._next_obs := zeros 4 3;
  NewStateObsDict._top := 0;
  NewStateObsDict._size := 0;
  NewStateObsDict._idx_to_future_obs_idx := [None; None; None; None];
|}.

(** A rendering environment that renders nothing. *)
Definition no_rendering : ImgObsDict.RerenderingEnv Z :=
  {| ImgObsDict.get_resample_step := λ states kactions kgoals, [] |}.

(** [imgObsDictRelabelingBuffer(4, reach_env, no_rendering, k=2)] *)
Definition fresh_img : ImgObsDict.Buffer Z := {|
  ImgObsDict.k := 2;
  ImgObsDict.t_fn := Some (λ x, x);
  ImgObsDict.internal_keys := [];
  ImgObsDict.goal_keys := ["desired_goal"];
  ImgObsDict.max_size := 4;
  ImgObsDict.env := reach_env;
  ImgObsDict.fraction_goals_rollout_goals := 1;
  ImgObsDict.fraction_goals_env_goals := 0;
  ImgObsDict.ob_keys_to_save :=
    ["observation"; "desired_goal"; "achieved_goal"; "save_state"];
  ImgObsDict.observation_key := "observation";
  ImgObsDict.desired_goal_key := "desired_goal";
  ImgObsDict.achieved_goal_key := "achieved_goal";
  ImgObsDict._action_dim := 1;
  ImgObsDict._actions := zeros 4 1;
  ImgObsDict._terminals := zeros 4 1;
  ImgObsDict._rewards := zeros 4 1;
  ImgObsDict._obs := zeros 4 2;
  ImgObsDict._next_obs := zeros 4 2;
  ImgObsDict._top := 0;
  ImgObsDict._size := 0;
  ImgObsDict.rerendering_env := no_rendering;
|}.

(** A generator whose raw draws are [0, 7, 14, ...]. *)
Definition sevens : Rng := {| tape := λ n, 7 * Z.of_nat n; cursor := 0 |}.

(** The world of a fresh image buffer: nothing printed yet. *)
Definition img_world : ImgObsDict.World Z :=
  {| ImgObsDict.self := fresh_img; ImgObsDict.rng := sevens;
     ImgObsDict.stdout := [] |}.

(** A simulator whose state counts the steps of the episode, a policy
    that always answers [1], and a user who presses enter. *)
Definition counting : Eval.Externals Z Z unit Z := {|
  Eval.wrap_environment := λ e, Return e;
  Eval.env_reset := λ e, Return ({[ "observation" := [0] ]}, 0);
  Eval.env_step := λ e a, Return ({[ "observation" := [e + a] ]}, e + a);
  Eval.env_render := λ e, Return e;
  Eval.get_action := λ g r, Return (1, g);
  Eval.user := λ n, Return EmptyString;
|}.

(** The same, with a user who closes the input after two lines. *)
Definition two_lines : Eval.Externals Z Z unit Z := {|
  Eval.wrap_environment := λ e, Return e;
  Eval.env_reset := λ e, Return ({[ "observation" := [0] ]}, 0);
  Eval.env_step := λ e a, Return ({[ "observation" := [e + a] ]}, e + a);
  Eval.env_render := λ e, Return e;
  Eval.get_action := λ g r, Return (1, g);
  Eval.user := λ n, if (n <? 2)%nat then Return EmptyString else Raise EOFError;
|}.

(** The world before [run_evaluation]: [obs] is not bound. *)
Definition eval_world : Eval.World Z Z unit Z := {|
  Eval.env := 0; Eval.agent := tt; Eval.obs := None; Eval.lines_read := 0;
  Eval.trace := [];
|}.
End Examples.

(** ** More concrete inputs *)

Module MoreExamples.
Import Examples.

(** The buffer with states after [add_path (path3 10)]: four slots, all
    written. *)
Definition newstate_filled : NewStateObsDict.Buffer Z :=
  Eval vm_compute in
    match NewStateObsDict.add_path fresh_newstate (path3 10) sevens with
    | Return (b, _) => b
    | Raise _ => fresh_newstate
    end.

(** Two samples for the buffer with states, and the buffer after they are
    added. *)
Definition two_samples : list (Sample Z) :=
  [([1; 2; 9], [5], [0], [0], [2; 3; 9]); ([2; 3; 9], [6], [1], [1], [3; 4; 9])].

Definition newstate_two : NewStateObsDict.Buffer Z :=
  Eval vm_compute in
    match NewStateSpec.add_samples fresh_newstate two_samples with
    | Return b => b
    | Raise _ => fresh_newstate
    end.

(** A simulator for the demo whose state counts the steps and that ends
    the task at the third step; the draws are numbered. *)
Definition three_steps : Demo.Externals nat nat := {|
  Demo.launch := Return 0%nat;
  Demo.get_task := λ s, Return s;
  Demo.task_reset := λ s, Return s;
  Demo.random_normal := λ n, n;
  Demo.task_step := λ s a, Return (if (2 <=? s)%nat then 1 else 0, S s);
|}.

Definition demo_start : Demo.World nat := {| Demo.draws := 0; Demo.calls := [] |}.

Definition demo_end : result (option (Demo.Locals nat)) * Demo.World nat :=
  Eval vm_compute in Demo.main three_steps 100 demo_start.

(** The run of the evaluation with the user who closes the input after
    two lines. *)
Definition eval_two_lines : result unit * Eval.World Z Z unit Z :=
  Eval vm_compute in Eval.run_evaluation two_lines eval_world.

(** The evaluation script with that user, and with a user who presses
    enter every time. *)
Definition script (run : Eval.Externals Z Z unit Z) : EvalMain.Externals Z Z unit Z := {|
  EvalMain.get_gym_environment := Return 0;
  EvalMain.root_path := "/home/user/ISE_7202";
  EvalMain.load := λ path, Return tt;
  EvalMain.env_close := λ e, Return e;
  EvalMain.run := run;
|}.

Definition script_start : EvalMain.World Z Z := {|
  EvalMain.calls := []; EvalMain.lines := 0;
|}.

Definition script_end : result unit * EvalMain.World Z Z :=
  Eval vm_compute in EvalMain.main (script two_lines) "reach" script_start.

(** A path of six steps, and a path without steps. *)
Definition path6 : Path Z := {|
  observations := observations (path3 10) ++ observations (path3 20);
  actions := actions (path3 10) ++ actions (path3 20);
  rewards := rewards (path3 10) ++ rewards (path3 20);
  next_observations := next_observations (path3 10) ++ next_observations (path3 20);
  terminals := terminals (path3 10) ++ terminals (path3 20);
|}.

Definition no_steps : Path Z := {|
  observations := []; actions := []; rewards := []; next_observations := [];
  terminals := [];
|}.

(** The generator after [add_path (path3 10)] on the fresh buffer with
    states. *)
Definition newstate_rng : Rng :=
  Eval vm_compute in
    match NewStateObsDict.add_path fresh_newstate (path3 10) sevens with
    | Return (_, g) => g
    | Raise _ => sevens
    end.

(** A dict with an image of bytes, a state and a missing image, and a
    dict whose only array is of floats under a key that contains
    ['image'] without starting with it. *)
Definition byte_image : Images.tarray := Images.TArray Images.uint8 [[0; 128; 255]%Q].

Definition image_dict : gmap string (option Images.tarray) :=
  <["image_observation" := Some byte_image]>
    (<["state" := Some (Images.TArray Images.float32 [[1 # 2]])]>
       {["image_goal" := None]}).

Definition latent_dict : gmap string (option Images.tarray) :=
  {["latent_image" := Some (Images.TArray Images.float32 [[0; 0]%Q])]}.

Definition latent_bytes : gmap string (option Images.tarray) :=
  {["latent_image" := Some (Images.TArray Images.uint8 [[0; 0]%Q])]}.
End MoreExamples.

(** * Properties *)

(** ** The result monad and the sequence operations *)

Section BaseLemmas.
Context {A : Type}.
Implicit Types l : list A.

Lemma bind_Return {B C} (m : result B) (f : B → result C) (c : C) :
  m ≫= f = Return c → ∃ x, m = Return x ∧ f x = Return c.
Proof. destruct m as [e|x]; simpl; [discriminate | eauto]. Qed.

Lemma py_index_nonneg (n : nat) (i : Z) :
  0 ≤ i < Z.of_nat n → py_index n i = Return (Z.to_nat i).
Proof.
  intros Hi. unfold py_index. rewrite bool_decide_eq_true_2; done.
Qed.

Lemma py_index_Return (n : nat) (i : Z) (k : nat) :
  py_index n i = Return k → (k < n)%nat ∧
    (0 ≤ i → k = Z.to_nat i).
Proof.
  unfold py_index. repeat case_bool_decide; intros [= <-]; lia.
Qed.

Lemma getitem_nonneg l (i : Z) :
  0 ≤ i → getitem l i =
    match l !! Z.to_nat i with Some x => Return x | None => Raise IndexError end.
Proof.
  intros Hi. unfold getitem.
  destruct (decide (i < Z.of_nat (length l))) as [Hlt|Hge].
  - rewrite py_index_nonneg by lia. done.
  - unfold py_index. rewrite !bool_decide_eq_false_2 by lia. simpl.
    rewrite lookup_ge_None_2; [done | lia].
Qed.

Lemma getitem_lookup l (i : nat) x :
  l !! i = Some x → getitem l (Z.of_nat i) = Return x.
Proof.
  intros Hx. rewrite getitem_nonneg by lia. by rewrite Nat2Z.id, Hx.
Qed.

Lemma getitem_Return l (i : Z) x :
  getitem l i = Return x → x ∈ l.
Proof.
  unfold getitem. intros (k & _ & Hk)%bind_Return.
  destruct (l !! k) eqn:E; [|discriminate]. injection Hk as <-.
  eapply list_elem_of_lookup_2; eauto.
Qed.

Lemma list_setitem_nonneg l (i : Z) x :
  0 ≤ i < Z.of_nat (length l) →
  list_setitem l i x = Return (<[Z.to_nat i := x]> l).
Proof.
  intros Hi. unfold list_setitem. by rewrite py_index_nonneg.
Qed.

Lemma slice_indices_nonneg (n : nat) (lo hi : Z) :
  0 ≤ lo ≤ hi → hi ≤ Z.of_nat n →
  slice_indices n lo hi = (Z.to_nat lo, Z.to_nat (hi - lo)).
Proof.
  intros Hlo Hhi. unfold slice_indices, slice_bound.
  rewrite !bool_decide_eq_false_2 by lia. f_equal; lia.
Qed.

Lemma getslice_nonneg l (lo hi : Z) :
  0 ≤ lo ≤ hi → hi ≤ Z.of_nat (length l) →
  getslice l lo hi = take (Z.to_nat (hi - lo)) (drop (Z.to_nat lo) l).
Proof.
  intros Hlo Hhi. unfold getslice. by rewrite slice_indices_nonneg.
Qed.

Lemma foldM_app {S} (body : S → A → result S) s l1 l2 :
  foldM body s (l1 ++ l2) = s' ← foldM body s l1; foldM body s' l2.
Proof.
  revert s. induction l1 as [|x l1 IH]; intros s; simpl; [done|].
  destruct (body s x); simpl; [done | apply IH].
Qed.

Lemma mapM_Return_length {B} (f : A → result B) l k :
  mapM f l = Return k → length k = length l.
Proof.
  revert k. induction l as [|x l IH]; intros k; simpl.
  - by intros [= <-].
  - intros (y & _ & (k' & Hk' & [= <-])%bind_Return)%bind_Return.
    simpl. f_equal. by apply IH.
Qed.

Lemma mapM_Return_lookup {B} (f : A → result B) l k i x :
  mapM f l = Return k → l !! i = Some x →
  ∃ y, k !! i = Some y ∧ f x = Return y.
Proof.
  revert k i. induction l as [|x' l IH]; intros k i; simpl; [done|].
  intros (y & Hy & (k' & Hk' & [= <-])%bind_Return)%bind_Return.
  destruct i as [|i]; simpl.
  - intros [= ->]. eauto.
  - intros Hx. eapply IH; eauto.
Qed.

Lemma mapM_ext_Return {B} (f : A → result B) (g : A → B) l :
  Forall (λ x, f x = Return (g x)) l → mapM f l = Return (g <$> l).
Proof.
  induction 1 as [|x l Hx _ IH]; simpl; [done|].
  rewrite Hx. simpl. rewrite IH. done.
Qed.
End BaseLemmas.

Section ArrayLemmas.
Context {V : Type}.
Implicit Types (a : ndarray V) (vals : list (Row V)).

Lemma broadcast_row_same (d : nat) (v : Row V) :
  length v = d → broadcast_row d v = Return v.
Proof. intros Hv. unfold broadcast_row. by rewrite bool_decide_eq_true_2. Qed.

Lemma broadcast_row_length (d : nat) (v r : Row V) :
  broadcast_row d v = Return r → length r = d.
Proof.
  unfold broadcast_row. case_bool_decide as Hd; [by intros [= <-]|].
  destruct v as [|x [|??]]; try discriminate.
  intros [= <-]. by rewrite length_replicate.
Qed.

Lemma mapM_broadcast_same (d : nat) vals :
  Forall (λ r, length r = d) vals → mapM (broadcast_row d) vals = Return vals.
Proof.
  intros Hw. rewrite (mapM_ext_Return _ id).
  - by rewrite list_fmap_id.
  - eapply Forall_impl; [exact Hw|]. intros r Hr. by apply broadcast_row_same.
Qed.

Lemma setitem_slice_patch a (lo hi : Z) vals :
  0 ≤ lo ≤ hi → hi ≤ Z.of_nat (length (rows a)) →
  length vals = Z.to_nat (hi - lo) →
  Forall (λ r, length r = ncols a) vals →
  setitem_slice a lo hi vals = Return (patch (Z.to_nat lo) vals a).
Proof.
  intros Hlo Hhi Hlen Hw. unfold setitem_slice.
  rewrite slice_indices_nonneg by done.
  rewrite mapM_broadcast_same by done. simpl.
  by rewrite bool_decide_eq_true_2.
Qed.

Lemma list_inserts_idemp {B} (s : nat) (k l : list B) :
  list_inserts s k (list_inserts s k l) = list_inserts s k l.
Proof.
  apply list_eq. intros i.
  destruct (decide (i < s)%nat) as [Hlt|Hge].
  { by rewrite !list_lookup_inserts_lt. }
  destruct (decide (s + length k ≤ i)%nat) as [Hgt|Hin].
  { by rewrite !list_lookup_inserts_ge. }
  destruct (decide (i < length l)%nat) as [Hl|Hl].
  - rewrite !list_lookup_inserts; rewrite ?length_inserts; done || lia.
  - rewrite !lookup_ge_None_2; rewrite ?length_inserts; done || lia.
Qed.

Lemma length_patch (s : nat) vals a :
  length (rows (patch s vals a)) = length (rows a).
Proof. unfold patch. simpl. by rewrite length_inserts. Qed.

Lemma patch_idemp (s : nat) vals a : patch s vals (patch s vals a) = patch s vals a.
Proof. unfold patch. simpl. by rewrite list_inserts_idemp. Qed.

Lemma setitem_row_nonneg a (i : Z) (v : Row V) :
  0 ≤ i < Z.of_nat (length (rows a)) → length v = ncols a →
  setitem_row a i v = Return (NdArray (ncols a) (<[Z.to_nat i := v]> (rows a))).
Proof.
  intros Hi Hv. unfold setitem_row.
  rewrite py_index_nonneg by done. simpl.
  by rewrite broadcast_row_same.
Qed.

Lemma setitem_row_Return a (i : Z) (v : Row V) a' :
  setitem_row a i v = Return a' →
  ∃ k r, py_index (length (rows a)) i = Return k ∧
         broadcast_row (ncols a) v = Return r ∧
         a' = NdArray (ncols a) (<[k := r]> (rows a)).
Proof.
  unfold setitem_row.
  intros (k & Hk & (r & Hr & [= <-])%bind_Return)%bind_Return. eauto.
Qed.
End ArrayLemmas.

Section ExecLemmas.
Context {S : Type}.

Lemma exec_bind_Return {A B} (m : Exec S A) (f : A → Exec S B) (s s' : S) (c : B) :
  (m ≫= f) s = (Return c, s') →
  ∃ a s1, m s = (Return a, s1) ∧ f a s1 = (Return c, s').
Proof.
  unfold mbind, exec_bind. destruct (m s) as [[e|a] s1]; [done|]. eauto.
Qed.

Lemma lift_Return {A} (r : result A) (s s' : S) (a : A) :
  lift r s = (Return a, s') → r = Return a ∧ s' = s.
Proof. unfold lift. by intros [= -> ->]. Qed.

Lemma exec_ret_Return {A} (a c : A) (s s' : S) :
  (mret a : Exec S A) s = (Return c, s') → c = a ∧ s' = s.
Proof. unfold mret, exec_ret. by intros [= -> ->]. Qed.

End ExecLemmas.

(** ** Writing a path around the end of an array *)

Section CircLemmas.
Context {V : Type}.
Implicit Types (a : ndarray V) (vals : list (Row V)).

Lemma ncols_circ_patch (m top : nat) vals a :
  ncols (circ_patch m top vals a) = ncols a.
Proof. unfold circ_patch. by case_bool_decide. Qed.

Lemma length_circ_patch (m top : nat) vals a :
  length (rows (circ_patch m top vals a)) = length (rows a).
Proof.
  unfold circ_patch, patch. case_bool_decide; simpl;
    by rewrite ?length_inserts.
Qed.

(** Step [j] of the values is in row [(top + j) mod m]. *)
Lemma circ_patch_written (m top : nat) vals a (j : nat) :
  length (rows a) = m → (top < m)%nat → (length vals ≤ m)%nat →
  (j < length vals)%nat →
  rows (circ_patch m top vals a) !! ((top + j) `mod` m)%nat = vals !! j.
Proof.
  intros Hm Htop Hlen Hj. unfold circ_patch, patch.
  case_bool_decide as Hwrap; simpl.
  - destruct (decide (top + j < m)%nat) as [Hpre|Hpost].
    + rewrite Nat.mod_small by lia.
      rewrite list_lookup_inserts_ge by (rewrite length_drop; lia).
      rewrite list_lookup_inserts by (rewrite ?length_take; lia).
      rewrite lookup_take_lt by lia. f_equal. lia.
    + replace ((top + j) `mod` m)%nat with (top + j - m)%nat.
      2:{ symmetry. rewrite <- (Nat.mod_small (top + j - m) m) by lia.
          replace (top + j)%nat with ((top + j - m) + 1 * m)%nat at 1 by lia.
          by rewrite Nat.Div0.mod_add. }
      rewrite list_lookup_inserts
        by (rewrite ?length_inserts, ?length_drop; lia).
      rewrite lookup_drop. f_equal. lia.
  - rewrite Nat.mod_small by lia.
    rewrite list_lookup_inserts by lia. f_equal. lia.
Qed.

(** The other rows are untouched. *)
Lemma circ_patch_other (m top : nat) vals a (i : nat) :
  length (rows a) = m → (top < m)%nat → (length vals ≤ m)%nat →
  (∀ j, (j < length vals)%nat → i ≠ ((top + j) `mod` m)%nat) →
  rows (circ_patch m top vals a) !! i = rows a !! i.
Proof.
  intros Hm Htop Hlen Hi. unfold circ_patch, patch.
  destruct (decide (i < m)%nat) as [Him|Him].
  2:{ rewrite !lookup_ge_None_2; [done|lia|].
      case_bool_decide; simpl; rewrite ?length_inserts; lia. }
  case_bool_decide as Hwrap; simpl.
  - destruct (decide (top ≤ i)%nat) as [Hge|Hlt].
    { exfalso. apply (Hi (i - top)%nat); [lia|].
      replace (top + (i - top))%nat with i by lia.
      by rewrite Nat.mod_small. }
    destruct (decide (i < top + length vals - m)%nat) as [Hin|Hout].
    { exfalso. apply (Hi (i + m - top)%nat); [lia|].
      replace (top + (i + m - top))%nat with (i + 1 * m)%nat by lia.
      rewrite Nat.Div0.mod_add. by rewrite Nat.mod_small. }
    rewrite list_lookup_inserts_ge by (rewrite length_drop; lia).
    by rewrite list_lookup_inserts_lt by lia.
  - destruct (decide (i < top)%nat) as [Hlt|Hge].
    { by rewrite list_lookup_inserts_lt. }
    destruct (decide (top + length vals ≤ i)%nat) as [Hgt|Hin].
    { by rewrite list_lookup_inserts_ge. }
    exfalso. apply (Hi (i - top)%nat); [lia|].
    replace (top + (i - top))%nat with i by lia.
    by rewrite Nat.mod_small.
Qed.
End CircLemmas.

Section SlotLemmas.
Lemma mod_wrap (x m : Z) : 0 < m → m ≤ x < 2 * m → x `mod` m = x - m.
Proof.
  intros Hm Hx. symmetry. apply (Z.mod_unique_pos x m 1); lia.
Qed.

Lemma slot_of_small (top m : Z) (j : nat) :
  0 ≤ top → top + Z.of_nat j < m → slot_of top m j = top + Z.of_nat j.
Proof. intros. unfold slot_of. apply Z.mod_small. lia. Qed.

Lemma slot_of_wrap (top m : Z) (j : nat) :
  0 ≤ top < m → Z.of_nat j ≤ m → m ≤ top + Z.of_nat j →
  slot_of top m j = top + Z.of_nat j - m.
Proof. intros. unfold slot_of. apply mod_wrap; lia. Qed.

Lemma slot_of_bound (top m : Z) (j : nat) :
  0 < m → 0 ≤ slot_of top m j < m.
Proof. intros. unfold slot_of. by apply Z.mod_pos_bound. Qed.

Lemma slot_of_nat (top m : Z) (j : nat) :
  0 ≤ top → 0 < m →
  Z.to_nat (slot_of top m j) = ((Z.to_nat top + j) `mod` Z.to_nat m)%nat.
Proof.
  intros Htop Hm. unfold slot_of. apply Nat2Z.inj.
  rewrite Z2Nat.id by (apply Z.mod_pos_bound; lia).
  rewrite Nat2Z.inj_mod, Nat2Z.inj_add, !Z2Nat.id by lia. done.
Qed.

(** Two steps of one path of at most [m] steps go to different slots. *)
Lemma slot_of_inj (top m : Z) (n j j' : nat) :
  0 ≤ top < m → Z.of_nat n ≤ m → (j < n)%nat → (j' < n)%nat →
  slot_of top m j = slot_of top m j' → j = j'.
Proof.
  intros Htop Hn Hj Hj' Heq.
  destruct (decide (top + Z.of_nat j < m)), (decide (top + Z.of_nat j' < m)).
  - rewrite !slot_of_small in Heq by lia. lia.
  - rewrite slot_of_small, slot_of_wrap in Heq by lia. lia.
  - rewrite slot_of_wrap, slot_of_small in Heq by lia. lia.
  - rewrite !slot_of_wrap in Heq by lia. lia.
Qed.

Lemma fmap_seq_seqZ (f : nat → Z) (a : Z) (j k : nat) :
  (∀ x, (j ≤ x < j + k)%nat → f x = a + Z.of_nat (x - j)) →
  f <$> seq j k = seqZ a (Z.of_nat k).
Proof.
  intros Hf. apply list_eq. intros i.
  rewrite list_lookup_fmap.
  destruct (decide (i < k)%nat) as [Hi|Hi].
  - rewrite lookup_seq_lt by done. simpl.
    rewrite lookup_seqZ_lt by lia. f_equal.
    rewrite Hf by lia. f_equal. lia.
  - rewrite lookup_seq_ge by lia. simpl.
    rewrite lookup_seqZ_ge by lia. done.
Qed.

(** The list that the code stores is the list of the slots of the rest
    of the path. *)
Lemma code_future_slots (top m : Z) (n j : nat) :
  0 ≤ top < m → 1 ≤ Z.of_nat n ≤ m → (j < n)%nat →
  code_future top m (Z.of_nat n) (slot_of top m j) = future_slots top m n j.
Proof.
  intros Htop Hn Hj. unfold code_future, future_slots, py_range.
  case_bool_decide as Hwrap.
  - destruct (decide (top + Z.of_nat j < m)) as [Hpre|Hpost].
    + rewrite slot_of_small by lia.
      rewrite bool_decide_eq_true_2 by lia.
      replace (n - j)%nat
        with (Z.to_nat (m - top) - j + (n - Z.to_nat (m - top)))%nat by lia.
      rewrite seq_app, fmap_app. f_equal.
      * symmetry.
        replace (m - (top + Z.of_nat j))
          with (Z.of_nat (Z.to_nat (m - top) - j)) by lia.
        apply fmap_seq_seqZ. intros x Hx.
        rewrite slot_of_small by lia. lia.
      * symmetry.
        replace (Z.of_nat n - (m - top) - 0)
          with (Z.of_nat (n - Z.to_nat (m - top))) by lia.
        apply fmap_seq_seqZ. intros x Hx.
        rewrite slot_of_wrap by lia. lia.
    + rewrite slot_of_wrap by lia.
      rewrite bool_decide_eq_false_2 by lia.
      symmetry.
      replace (Z.of_nat n - (m - top) - (top + Z.of_nat j - m))
        with (Z.of_nat (n - j)) by lia.
      apply fmap_seq_seqZ. intros x Hx.
      rewrite slot_of_wrap by lia. lia.
  - rewrite slot_of_small by lia. symmetry.
    replace (top + Z.of_nat n - (top + Z.of_nat j)) with (Z.of_nat (n - j)) by lia.
    apply fmap_seq_seqZ. intros x Hx.
    rewrite slot_of_small by lia. lia.
Qed.

Lemma length_future_slots (top m : Z) (n j : nat) :
  length (future_slots top m n j) = (n - j)%nat.
Proof. unfold future_slots. by rewrite length_fmap, length_seq. Qed.

Lemma future_slots_lookup (top m : Z) (n j i : nat) :
  (i < n - j)%nat → future_slots top m n j !! i = Some (slot_of top m (j + i)).
Proof.
  intros Hi. unfold future_slots.
  rewrite list_lookup_fmap, lookup_seq_lt by done. done.
Qed.

Lemma elem_of_future_slots (top m : Z) (n j : nat) (x : Z) :
  x ∈ future_slots top m n j ↔ ∃ j', (j ≤ j' < n)%nat ∧ x = slot_of top m j'.
Proof.
  unfold future_slots. rewrite list_elem_of_fmap. split.
  - intros (j' & -> & Hj'). apply elem_of_seq in Hj'. exists j'. split; [lia|done].
  - intros (j' & Hj' & ->). exists j'. split; [done|]. apply elem_of_seq. lia.
Qed.
End SlotLemmas.

(** ** [ObsDictRelabelingBuffer.add_path]: one call *)

Section FlattenLemmas.
Context {V : Type} `{Scalar V}.

Lemma column_lookup (key : string) (dicts : list (Obs V)) (j : nat) d :
  dicts !! j = Some d → column key dicts !! j = Some (default [] (d !! key)).
Proof. intros Hd. unfold column. by rewrite list_lookup_fmap, Hd. Qed.

Lemma length_column (key : string) (dicts : list (Obs V)) :
  length (column key dicts) = length dicts.
Proof. unfold column. by rewrite length_fmap. Qed.

Lemma mapM_dict_getitem (key : string) (dicts : list (Obs V)) :
  Forall (λ d : Obs V, is_Some (d !! key)) dicts →
  mapM (λ d, dict_getitem d key) dicts = Return (column key dicts).
Proof.
  intros Hk. unfold column. apply mapM_ext_Return.
  eapply Forall_impl; [exact Hk|]. intros d [r Hr]. simpl.
  unfold dict_getitem. rewrite Hr. done.
Qed.

Lemma flatten_dict_Return (dicts : list (Obs V)) (keys : list string) :
  (∀ key, key ∈ keys → Forall (λ d : Obs V, is_Some (d !! key)) dicts) →
  ∃ m, flatten_dict dicts keys = Return m ∧
       ∀ key, key ∈ keys → m !! key = Some (column key dicts).
Proof.
  intros Hkeys. unfold flatten_dict.
  cut (∀ (acc : gmap string (list (Row V))),
         ∃ m, foldM (λ acc key,
                       column ← mapM (λ d, dict_getitem d key) dicts;
                       Return (<[key := flatten_n column]> acc)) acc keys
              = Return m ∧
              ∀ key, m !! key =
                if decide (key ∈ keys) then Some (column key dicts)
                else acc !! key).
  { intros Hacc. destruct (Hacc ∅) as (m & Hm & Hlook).
    exists m. split; [done|]. intros key Hkey.
    rewrite Hlook. by rewrite decide_True. }
  induction keys as [|k keys IH]; intros acc; simpl.
  - exists acc. split; [done|]. intros key.
    destruct (decide (key ∈ [])) as [Hin|]; [|done].
    by apply not_elem_of_nil in Hin.
  - rewrite mapM_dict_getitem by (apply Hkeys; left). simpl.
    destruct (IH (λ key Hkey, Hkeys key (list_elem_of_further _ _ _ Hkey))
                (<[k := flatten_n (column k dicts)]> acc)) as (m & Hm & Hlook).
    exists m. split; [done|]. intros key. rewrite Hlook.
    destruct (decide (key ∈ keys)) as [Hin|Hnin].
    + rewrite decide_True; [done | by right].
    + destruct (decide (key = k)) as [->|Hne].
      * rewrite decide_True by left. by rewrite lookup_insert_eq.
      * rewrite decide_False by (rewrite elem_of_cons; tauto).
        by rewrite lookup_insert_ne.
Qed.

Lemma preprocess_obs_dict_lookup (m : gmap string (list (Row V))) key :
  preprocess_obs_dict m !! key =
    (λ obs, if str_contains "image" key then unnormalize_image obs else obs)
      <$> m !! key.
Proof.
  unfold preprocess_obs_dict. rewrite map_lookup_imap.
  by destruct (m !! key).
Qed.
End FlattenLemmas.

Section FutureLemmas.
Lemma set_future_Return (n : nat) :
  ∀ (lo : Z) (future : Z → list Z) (idx : list (option (list Z))),
    0 ≤ lo → lo + Z.of_nat n ≤ Z.of_nat (length idx) →
    ∃ idx', ObsDict.set_future lo (lo + Z.of_nat n) future idx = Return idx' ∧
            length idx' = length idx ∧
            ∀ i : nat, idx' !! i =
              if decide (lo ≤ Z.of_nat i < lo + Z.of_nat n)
              then Some (Some (future (Z.of_nat i))) else idx !! i.
Proof.
  unfold ObsDict.set_future, py_range.
  induction n as [|n IH]; intros lo future idx Hlo Hhi.
  - rewrite seqZ_nil by lia. simpl. exists idx. split_and!; [done..|].
    intros i. rewrite decide_False; [done | lia].
  - rewrite seqZ_cons by lia. simpl.
    rewrite list_setitem_nonneg by lia. simpl.
    destruct (IH (Z.succ lo) future (<[Z.to_nat lo := Some (future lo)]> idx))
      as (idx' & Hrun & Hlen & Hlook); [lia | rewrite length_insert; lia |].
    exists idx'. split_and!.
    + rewrite <- Hrun. do 2 f_equal. lia.
    + by rewrite Hlen, length_insert.
    + intros i. rewrite Hlook.
      destruct (decide (Z.of_nat i = lo)) as [Heq|Hne].
      * rewrite decide_False by lia. rewrite decide_True by lia.
        replace (Z.to_nat lo) with i by lia.
        rewrite list_lookup_insert_eq by lia. by rewrite Heq.
      * rewrite list_lookup_insert_ne by lia.
        repeat case_decide; done || lia.
Qed.

Lemma set_future_range (lo hi : Z) (future : Z → list Z)
    (idx : list (option (list Z))) :
  0 ≤ lo ≤ hi → hi ≤ Z.of_nat (length idx) →
  ∃ idx', ObsDict.set_future lo hi future idx = Return idx' ∧
          length idx' = length idx ∧
          ∀ i : nat, idx' !! i =
            if decide (lo ≤ Z.of_nat i < hi)
            then Some (Some (future (Z.of_nat i))) else idx !! i.
Proof.
  intros Hlo Hhi.
  destruct (set_future_Return (Z.to_nat (hi - lo)) lo future idx)
    as (idx' & Hrun & Hlen & Hlook); [lia..|].
  replace (lo + Z.of_nat (Z.to_nat (hi - lo))) with hi in * by lia.
  eauto.
Qed.

Variables (top m : Z) (n : nat) (idx : list (option (list Z))).
Hypothesis Htop : 0 ≤ top < m.
Hypothesis Hn : 1 ≤ Z.of_nat n ≤ m.
Hypothesis Hidx : length idx = Z.to_nat m.

Lemma future_no_wrap :
  top + Z.of_nat n < m →
  ∃ idx', ObsDict.set_future top (top + Z.of_nat n)
            (λ i, py_range i (top + Z.of_nat n)) idx = Return idx' ∧
          future_written top m n idx idx'.
Proof.
  intros Hfit.
  destruct (set_future_range top (top + Z.of_nat n)
              (λ i, py_range i (top + Z.of_nat n)) idx)
    as (idx' & Hrun & Hlen & Hlook); [lia..|].
  exists idx'. split; [done|]. split_and!; [done| |].
  - intros j Hj. rewrite Hlook, slot_of_small by lia.
    rewrite decide_True by lia. rewrite Z2Nat.id by lia.
    unfold code_future. by rewrite bool_decide_eq_false_2 by lia.
  - intros i Hi. rewrite Hlook. case_decide as Hin; [|done].
    exfalso. apply (Hi (Z.to_nat (Z.of_nat i - top))); [lia|].
    rewrite slot_of_small by lia. lia.
Qed.

Lemma future_wrap :
  m ≤ top + Z.of_nat n →
  ∃ idx',
    (idx1 ← ObsDict.set_future top m
              (λ i, py_range i m ++ py_range 0 (Z.of_nat n - (m - top))) idx;
     ObsDict.set_future 0 (Z.of_nat n - (m - top))
       (λ i, py_range i (Z.of_nat n - (m - top))) idx1) = Return idx' ∧
    future_written top m n idx idx'.
Proof.
  intros Hwrap.
  destruct (set_future_range top m
              (λ i, py_range i m ++ py_range 0 (Z.of_nat n - (m - top))) idx)
    as (idx1 & Hrun1 & Hlen1 & Hlook1); [lia..|].
  destruct (set_future_range 0 (Z.of_nat n - (m - top))
              (λ i, py_range i (Z.of_nat n - (m - top))) idx1)
    as (idx2 & Hrun2 & Hlen2 & Hlook2); [lia..|].
  rewrite Hrun1. cbn [mbind result_bind]. rewrite Hrun2.
  exists idx2. split; [done|]. split_and!; [congruence| |].
  - intros j Hj. rewrite Hlook2, Hlook1. unfold code_future.
    rewrite bool_decide_eq_true_2 by lia.
    destruct (decide (top + Z.of_nat j < m)) as [Hpre|Hpost].
    + rewrite slot_of_small by lia. rewrite Z2Nat.id by lia.
      rewrite decide_False, decide_True by lia.
      by rewrite bool_decide_eq_true_2 by lia.
    + rewrite slot_of_wrap by lia. rewrite Z2Nat.id by lia.
      rewrite decide_True by lia.
      by rewrite bool_decide_eq_false_2 by lia.
  - intros i Hi. rewrite Hlook2, Hlook1.
    case_decide as Hin2.
    { exfalso. apply (Hi (Z.to_nat (Z.of_nat i + m - top))); [lia|].
      rewrite slot_of_wrap by lia. lia. }
    case_decide as Hin1; [|done].
    exfalso. apply (Hi (Z.to_nat (Z.of_nat i - top))); [lia|].
    rewrite slot_of_small by lia. lia.
Qed.
End FutureLemmas.

Section StoreLemmas.
Context {V : Type} `{Scalar V} `{FloatRounding}.
Import ObsDict ObsDictSpec.

Variables (obs next_obs : gmap string (list (Row V))).
Variables (lo hi : Z) (ps : option (Z * Z)).
Variable st0 : Storage V.

Lemma store_obs_slice_step (Hlo : 0 ≤ lo ≤ hi) (st : Storage V) (key : string)
    vals a nvals na :
  obs !! key = Some vals → s_obs st !! key = Some a →
  next_obs !! key = Some nvals → s_next_obs st !! key = Some na →
  hi ≤ Z.of_nat (length (rows a)) → hi ≤ Z.of_nat (length (rows na)) →
  length (cut_path ps vals) = Z.to_nat (hi - lo) →
  length (cut_path ps nvals) = Z.to_nat (hi - lo) →
  Forall (λ r, length r = ncols a) (cut_path ps vals) →
  Forall (λ r, length r = ncols na) (cut_path ps nvals) →
  store_obs_slice obs next_obs (lo, hi) ps st key =
    Return {| s_actions := s_actions st; s_terminals := s_terminals st;
              s_obs := <[key := patch (Z.to_nat lo) (cut_path ps vals) a]> (s_obs st);
              s_next_obs :=
                <[key := patch (Z.to_nat lo) (cut_path ps nvals) na]> (s_next_obs st) |}.
Proof.
  intros Hv Ha Hnv Hna Hhi Hnhi Hl Hnl Hw Hnw.
  unfold store_obs_slice, dict_getitem.
  rewrite Hv, Ha. simpl.
  rewrite setitem_slice_patch by done. simpl.
  rewrite Hnv, Hna. simpl.
  rewrite setitem_slice_patch by done. done.
Qed.

Lemma store_obs_slice_keys (Hlo : 0 ≤ lo ≤ hi) (keys : list string) :
  ∀ done st,
    keys_done obs next_obs lo ps st0 done st →
    (∀ key, key ∈ keys → key_ready obs next_obs lo hi ps st0 key) →
    ∃ st', foldM (store_obs_slice obs next_obs (lo, hi) ps) st keys = Return st' ∧
           keys_done obs next_obs lo ps st0 (done ++ keys) st'.
Proof.
  induction keys as [|k keys IH]; intros done st Hdone Hready; simpl.
  { exists st. split; [done|]. by rewrite app_nil_r. }
  destruct (Hready k) as
    (vals & a & nvals & na & Hv & Ha & Hnv & Hna & Hhi & Hnhi & Hl & Hnl & Hw & Hnw);
    [left|].
  destruct Hdone as (Hact & Hterm & Hobs & Hnobs).
  assert (∃ a1, s_obs st !! k = Some a1 ∧ ncols a1 = ncols a ∧
                length (rows a1) = length (rows a) ∧
                patch (Z.to_nat lo) (cut_path ps vals) a1 = key_patch lo ps obs k a)
    as (a1 & Ha1 & Hc1 & Hr1 & Hp1).
  { rewrite Hobs, Ha. unfold key_patch. rewrite Hv. simpl. case_decide; simpl.
    - eexists. split; [done|]. split_and!; [done| |apply patch_idemp].
      apply length_patch.
    - eexists. split; [done|]. done. }
  assert (∃ a2, s_next_obs st !! k = Some a2 ∧ ncols a2 = ncols na ∧
                length (rows a2) = length (rows na) ∧
                patch (Z.to_nat lo) (cut_path ps nvals) a2
                = key_patch lo ps next_obs k na)
    as (a2 & Ha2 & Hc2 & Hr2 & Hp2).
  { rewrite Hnobs, Hna. unfold key_patch. rewrite Hnv. simpl. case_decide; simpl.
    - eexists. split; [done|]. split_and!; [done| |apply patch_idemp].
      apply length_patch.
    - eexists. split; [done|]. done. }
  rewrite (store_obs_slice_step Hlo st k vals a1 nvals a2)
    by (rewrite ?Hc1, ?Hr1, ?Hc2, ?Hr2; done).
  simpl. rewrite Hp1, Hp2.
  edestruct (IH (done ++ [k])) as (st' & Hrun & Hdone');
    [ | intros key Hkey; apply Hready; by right | ].
  2:{ exists st'. split; [exact Hrun|]. by rewrite <- app_assoc in Hdone'. }
  split_and!; simpl; [done..| |].
  - intros key. destruct (decide (key = k)) as [->|Hne].
    + rewrite lookup_insert_eq. rewrite decide_True by set_solver.
      by rewrite Ha.
    + rewrite lookup_insert_ne by done. rewrite Hobs.
      destruct (decide (key ∈ done)).
      * rewrite decide_True by set_solver. done.
      * rewrite decide_False by set_solver. done.
  - intros key. destruct (decide (key = k)) as [->|Hne].
    + rewrite lookup_insert_eq. rewrite decide_True by set_solver.
      by rewrite Hna.
    + rewrite lookup_insert_ne by done. rewrite Hnobs.
      destruct (decide (key ∈ done)).
      * rewrite decide_True by set_solver. done.
      * rewrite decide_False by set_solver. done.
Qed.
End StoreLemmas.

Section StoreSlice.
Context {V : Type} `{Scalar V} `{FloatRounding}.
Import ObsDict ObsDictSpec.

Lemma store_slice_Return (obs next_obs : gmap string (list (Row V)))
    (lo hi : Z) (ps : option (Z * Z)) (st0 : Storage V)
    (Hlo : 0 ≤ lo ≤ hi) (keys : list string) (acts terms : list (Row V)) :
  hi ≤ Z.of_nat (length (rows (s_actions st0))) →
  hi ≤ Z.of_nat (length (rows (s_terminals st0))) →
  length (cut_path ps acts) = Z.to_nat (hi - lo) →
  length (cut_path ps terms) = Z.to_nat (hi - lo) →
  Forall (λ r, length r = ncols (s_actions st0)) (cut_path ps acts) →
  Forall (λ r, length r = ncols (s_terminals st0)) (cut_path ps terms) →
  (∀ key, key ∈ keys → key_ready obs next_obs lo hi ps st0 key) →
  ∃ st', store_slice keys acts terms obs next_obs st0 ((lo, hi), ps) = Return st' ∧
         s_actions st' = patch (Z.to_nat lo) (cut_path ps acts) (s_actions st0) ∧
         s_terminals st' = patch (Z.to_nat lo) (cut_path ps terms) (s_terminals st0) ∧
         (∀ key, s_obs st' !! key =
            if decide (key ∈ keys) then key_patch lo ps obs key <$> s_obs st0 !! key
            else s_obs st0 !! key) ∧
         (∀ key, s_next_obs st' !! key =
            if decide (key ∈ keys)
            then key_patch lo ps next_obs key <$> s_next_obs st0 !! key
            else s_next_obs st0 !! key).
Proof.
  intros Ha Ht Hla Hlt Hwa Hwt Hready. unfold store_slice. simpl.
  rewrite !setitem_slice_patch by done. simpl.
  set (st1 := {| s_actions := _ |}).
  destruct (store_obs_slice_keys obs next_obs lo hi ps st1 Hlo keys [] st1)
    as (st' & Hrun & Hdone).
  - split_and!; intros; by rewrite ?decide_False by apply not_elem_of_nil.
  - exact Hready.
  - exists st'. split; [done|].
    destruct Hdone as (Hact & Hterm & Hobs & Hnobs). simpl in *.
    by rewrite Hact, Hterm.
Qed.
End StoreSlice.

Section StorePath.
Context {V : Type} `{Scalar V} `{FloatRounding}.
Import ObsDict ObsDictSpec.

Lemma cut_path_pre (vals : list (Row V)) (pre : Z) :
  0 ≤ pre ≤ Z.of_nat (length vals) →
  cut_path (Some (0, pre)) vals = take (Z.to_nat pre) vals.
Proof.
  intros Hpre. unfold cut_path. rewrite getslice_nonneg by lia.
  simpl. f_equal. lia.
Qed.

Lemma cut_path_post (vals : list (Row V)) (pre : Z) :
  0 ≤ pre ≤ Z.of_nat (length vals) →
  cut_path (Some (pre, Z.of_nat (length vals))) vals = drop (Z.to_nat pre) vals.
Proof.
  intros Hpre. unfold cut_path. rewrite getslice_nonneg by lia.
  apply take_ge. rewrite length_drop. lia.
Qed.

Variables (obs next_obs : gmap string (list (Row V))).
Variables (keys : list string) (acts terms : list (Row V)).
Variables (n : nat) (m top : Z) (st0 : Storage V).

Hypothesis Hn : 1 ≤ Z.of_nat n ≤ m.
Hypothesis Htop : 0 ≤ top < m.
Hypothesis Hacts : length acts = n.
Hypothesis Hterms : length terms = n.
Hypothesis Hacts_w : Forall (λ r, length r = ncols (s_actions st0)) acts.
Hypothesis Hterms_w : Forall (λ r, length r = ncols (s_terminals st0)) terms.
Hypothesis Hactions : length (rows (s_actions st0)) = Z.to_nat m.
Hypothesis Hterminals : length (rows (s_terminals st0)) = Z.to_nat m.
Hypothesis Hkeys : ∀ key, key ∈ keys → key_fits obs next_obs n (Z.to_nat m) st0 key.

Lemma store_no_wrap :
  top + Z.of_nat n < m →
  ∃ st', store_slice keys acts terms obs next_obs st0
           ((top, top + Z.of_nat n), None) = Return st' ∧
         stored obs next_obs keys acts terms m top st0 st'.
Proof.
  intros Hfit.
  destruct (store_slice_Return obs next_obs top (top + Z.of_nat n) None st0
              ltac:(lia) keys acts terms)
    as (st' & Hrun & Ha & Ht & Ho & Hno); simpl; try done; try lia.
  { intros key Hkey.
    destruct (Hkeys key Hkey)
      as (vals & a & nvals & na & ? & ? & ? & ? & ? & ? & ? & ? & ? & ?).
    exists vals, a, nvals, na. simpl. split_and!; try done; lia. }
  exists st'. split; [done|]. unfold stored, circ_patch.
  rewrite !bool_decide_eq_false_2 by lia.
  split_and!; [done..| |].
  - intros key. rewrite Ho. case_decide as Hkey; [|done].
    destruct (Hkeys key Hkey) as (vals & a & ? & ? & Hv & Ha' & ? & ? & ? & ? & ? & ?).
    unfold key_patch. rewrite Hv, Ha'. simpl.
    by rewrite bool_decide_eq_false_2 by lia.
  - intros key. rewrite Hno. case_decide as Hkey; [|done].
    destruct (Hkeys key Hkey) as (? & ? & nvals & na & ? & ? & Hv & Ha' & ? & ? & ? & ?).
    unfold key_patch. rewrite Hv, Ha'. simpl.
    by rewrite bool_decide_eq_false_2 by lia.
Qed.

Lemma store_wrap :
  m ≤ top + Z.of_nat n →
  ∃ st', foldM (store_slice keys acts terms obs next_obs) st0
           [((top, top + (m - top)), Some (0, m - top));
            ((0, Z.of_nat n - (m - top)), Some (m - top, Z.of_nat n))]
         = Return st' ∧
         stored obs next_obs keys acts terms m top st0 st'.
Proof.
  intros Hwrap. cbn [foldM].
  assert (Hpre1 : ∀ vals : list (Row V), length vals = n →
            cut_path (Some (0, m - top)) vals = take (Z.to_nat (m - top)) vals).
  { intros vals Hv. apply cut_path_pre. lia. }
  assert (Hpre2 : ∀ vals : list (Row V), length vals = n →
            cut_path (Some (m - top, Z.of_nat n)) vals
            = drop (Z.to_nat (m - top)) vals).
  { intros vals Hv. rewrite <- Hv. apply cut_path_post. lia. }
  destruct (store_slice_Return obs next_obs top (top + (m - top))
              (Some (0, m - top)) st0 ltac:(lia) keys acts terms)
    as (st1 & Hrun1 & Ha1 & Ht1 & Ho1 & Hno1).
  1-2: lia.
  1-2: rewrite Hpre1 by done; rewrite length_take; lia.
  1-2: rewrite Hpre1 by done; by apply Forall_take.
  { intros key Hkey.
    destruct (Hkeys key Hkey)
      as (vals & a & nvals & na & ? & ? & ? & ? & ? & ? & ? & ? & ? & ?).
    exists vals, a, nvals, na.
    rewrite !Hpre1 by done. rewrite !length_take.
    split_and!; try done; try lia; by apply Forall_take. }
  rewrite Hrun1. cbn [mbind result_bind].
  destruct (store_slice_Return obs next_obs 0 (Z.of_nat n - (m - top))
              (Some (m - top, Z.of_nat n)) st1 ltac:(lia) keys acts terms)
    as (st2 & Hrun2 & Ha2 & Ht2 & Ho2 & Hno2).
  1-2: rewrite ?Ha1, ?Ht1, length_patch; lia.
  1-2: rewrite Hpre2 by done; rewrite length_drop; lia.
  1-2: rewrite Hpre2 by done; rewrite ?Ha1, ?Ht1; by apply Forall_drop.
  { intros key Hkey.
    destruct (Hkeys key Hkey)
      as (vals & a & nvals & na & Hv & Ha & Hnv & Hna & ? & ? & ? & ? & ? & ?).
    exists vals, (key_patch top (Some (0, m - top)) obs key a),
      nvals, (key_patch top (Some (0, m - top)) next_obs key na).
    rewrite Ho1, Hno1, !decide_True by done. rewrite Ha, Hna.
    rewrite !Hpre2 by done. unfold key_patch.
    rewrite !length_drop, !length_patch.
    split_and!; try done; try lia; by apply Forall_drop. }
  rewrite Hrun2. cbn [mbind result_bind]. exists st2. split; [done|].
  unfold stored, circ_patch. rewrite !bool_decide_eq_true_2 by lia.
  replace (Z.to_nat m - Z.to_nat top)%nat with (Z.to_nat (m - top)) by lia.
  split_and!.
  - rewrite Ha2, Ha1. by rewrite Hpre1, Hpre2.
  - rewrite Ht2, Ht1. by rewrite Hpre1, Hpre2.
  - intros key. rewrite Ho2. case_decide as Hkey; [|by rewrite Ho1, decide_False].
    rewrite Ho1, decide_True by done.
    destruct (Hkeys key Hkey)
      as (vals & a & nvals & na & Hv & Ha & Hnv & Hna & ? & ? & Hlv & ? & ? & ?).
    unfold key_patch. rewrite Hv, Ha.
    change (default [] (Some vals)) with vals.
    rewrite bool_decide_eq_true_2 by lia.
    rewrite Hpre1, Hpre2 by done.
    by replace (Z.to_nat m - Z.to_nat top)%nat with (Z.to_nat (m - top)) by lia.
  - intros key. rewrite Hno2. case_decide as Hkey; [|by rewrite Hno1, decide_False].
    rewrite Hno1, decide_True by done.
    destruct (Hkeys key Hkey)
      as (vals & a & nvals & na & Hv & Ha & Hnv & Hna & ? & ? & ? & Hlv & ? & ?).
    unfold key_patch. rewrite Hnv, Hna.
    change (default [] (Some nvals)) with nvals.
    rewrite bool_decide_eq_true_2 by lia.
    rewrite Hpre1, Hpre2 by done.
    by replace (Z.to_nat m - Z.to_nat top)%nat with (Z.to_nat (m - top)) by lia.
Qed.
End StorePath.

Section AddPath.
Context {V : Type} `{Scalar V} `{FloatRounding}.
Import ObsDict ObsDictSpec.

Lemma length_prep key (r : Row V) : length (prep key r) = length r.
Proof. unfold prep. destruct (str_contains _ _); by rewrite ?length_map. Qed.

Lemma preprocess_column (m : gmap string (list (Row V))) key dicts :
  m !! key = Some (column key dicts) →
  preprocess_obs_dict m !! key = Some (pcolumn key dicts).
Proof.
  intros Hm. rewrite preprocess_obs_dict_lookup, Hm. simpl. f_equal.
  unfold pcolumn, prep, unnormalize_image.
  destruct (str_contains _ _); [done|].
  by rewrite list_fmap_id.
Qed.

Lemma pcolumn_lookup key (dicts : list (Obs V)) (j : nat) d r :
  dicts !! j = Some d → d !! key = Some r →
  pcolumn key dicts !! j = Some (prep key r).
Proof.
  intros Hd Hr. unfold pcolumn.
  rewrite list_lookup_fmap, (column_lookup _ _ _ d) by done.
  by rewrite Hr.
Qed.

Lemma pcolumn_fits key (dicts : list (Obs V)) (a : ndarray V) :
  column_fits dicts key a →
  length (pcolumn key dicts) = length dicts ∧
  Forall (λ r, length r = ncols a) (pcolumn key dicts).
Proof.
  intros Hfit. unfold pcolumn, column. split.
  { by rewrite !length_fmap. }
  rewrite <- list_fmap_compose. apply Forall_fmap.
  eapply Forall_impl; [exact Hfit|].
  intros d (r & Hr & Hlen). simpl. rewrite Hr. simpl.
  by rewrite length_prep.
Qed.

Lemma column_fits_is_Some key (dicts : list (Obs V)) (a : ndarray V) :
  column_fits dicts key a → Forall (λ d : Obs V, is_Some (d !! key)) dicts.
Proof.
  intros Hfit. eapply Forall_impl; [exact Hfit|]. intros d (r & Hr & _). eauto.
Qed.

(** The dicts of arrays that [add_path] makes of the observations. *)
Lemma path_columns (b : Buffer V) (path : Path V) (n : nat) acts :
  shaped b → fits b path n acts →
  ∃ om nom,
    flatten_dict (observations path) (saved_keys b) = Return om ∧
    flatten_dict (next_observations path) (saved_keys b) = Return nom ∧
    (∀ key, key ∈ saved_keys b →
       preprocess_obs_dict om !! key = Some (pcolumn key (observations path)) ∧
       preprocess_obs_dict nom !! key
       = Some (pcolumn key (next_observations path))) ∧
    (∀ key, key ∈ saved_keys b →
       key_fits (preprocess_obs_dict om) (preprocess_obs_dict nom) n
         (Z.to_nat (max_size b))
         {| s_actions := _actions b; s_terminals := _terminals b;
            s_obs := _obs b; s_next_obs := _next_obs b |} key).
Proof.
  intros Hb Hp.
  destruct (flatten_dict_Return (observations path) (saved_keys b))
    as (om & Hom & Homk).
  { intros key Hkey. destruct (shaped_obs b Hb key Hkey) as (a & Ha & _).
    eapply column_fits_is_Some, (fits_obs _ _ _ _ Hp); eauto. }
  destruct (flatten_dict_Return (next_observations path) (saved_keys b))
    as (nom & Hnom & Hnomk).
  { intros key Hkey. destruct (shaped_next_obs b Hb key Hkey) as (a & Ha & _).
    eapply column_fits_is_Some, (fits_next_obs _ _ _ _ Hp); eauto. }
  exists om, nom. split_and!; [done..| |].
  - intros key Hkey. split; apply preprocess_column; eauto.
  - intros key Hkey.
    destruct (shaped_obs b Hb key Hkey) as (a & Ha & Hla).
    destruct (shaped_next_obs b Hb key Hkey) as (na & Hna & Hlna).
    destruct (pcolumn_fits key _ a (fits_obs _ _ _ _ Hp key a Hkey Ha))
      as [Hl Hw].
    destruct (pcolumn_fits key _ na (fits_next_obs _ _ _ _ Hp key na Hkey Hna))
      as [Hnl Hnw].
    exists (pcolumn key (observations path)), a,
      (pcolumn key (next_observations path)), na. simpl.
    split_and!; try done.
    + apply preprocess_column; eauto.
    + apply preprocess_column; eauto.
    + rewrite Hl. apply (fits_observations _ _ _ _ Hp).
    + rewrite Hnl. apply (fits_next_observations _ _ _ _ Hp).
Qed.

(** The buffer that [add_path] returns, from the storage and the list of
    future indices that its branch has produced. *)
Lemma written_intro (b : Buffer V) (path : Path V) (n : nat) acts
    (obs next_obs : gmap string (list (Row V))) (st' : Storage V)
    (idx' : list (option (list Z))) :
  shaped b → fits b path n acts → 1 ≤ Z.of_nat n ≤ max_size b →
  (∀ key, key ∈ saved_keys b →
     obs !! key = Some (pcolumn key (observations path)) ∧
     next_obs !! key = Some (pcolumn key (next_observations path))) →
  stored obs next_obs (saved_keys b) acts (terminals path)
    (max_size b) (_top b)
    {| s_actions := _actions b; s_terminals := _terminals b;
       s_obs := _obs b; s_next_obs := _next_obs b |} st' →
  length idx' = length (_idx_to_future_obs_idx b) →
  (∀ j, (j < n)%nat →
     idx' !! slot b j =
       Some (Some (code_future (_top b) (max_size b) (Z.of_nat n)
                     (slot_of (_top b) (max_size b) j)))) →
  (∀ i, (∀ j, (j < n)%nat → i ≠ slot b j) →
     idx' !! i = _idx_to_future_obs_idx b !! i) →
  written b path n acts
    {| internal_keys := internal_keys b;
       goal_keys := goal_keys b;
       max_size := max_size b;
       env := env b;
       fraction_goals_rollout_goals := fraction_goals_rollout_goals b;
       fraction_goals_env_goals := fraction_goals_env_goals b;
       ob_keys_to_save := ob_keys_to_save b;
       observation_key := observation_key b;
       desired_goal_key := desired_goal_key b;
       achieved_goal_key := achieved_goal_key b;
       _action_dim := _action_dim b;
       _actions := s_actions st';
       _terminals := s_terminals st';
       _obs := s_obs st';
       _next_obs := s_next_obs st';
       _top := (_top b + Z.of_nat n) `mod` max_size b;
       _size := Z.min (_size b + Z.of_nat n) (max_size b);
       _idx_to_future_obs_idx := idx' |}.
Proof.
  intros Hb Hp Hn Hcols (Hsa & Hst & Hso & Hsno) Hlen Hfut Hoth.
  simpl in Hsa, Hst, Hso, Hsno.
  pose proof (shaped_top b Hb) as Htop.
  assert (HT : (Z.to_nat (_top b) < Z.to_nat (max_size b))%nat) by lia.
  assert (Hslot : ∀ j, slot b j
            = ((Z.to_nat (_top b) + j) `mod` Z.to_nat (max_size b))%nat).
  { intros j. unfold slot. apply slot_of_nat; lia. }
  pose proof (fits_actions _ _ _ _ Hp) as Hla.
  pose proof (fits_terminals _ _ _ _ Hp) as Hlt.
  constructor; simpl.
  - (* same_config *)
    unfold same_config; simpl. rewrite Hsa, Hst, !ncols_circ_patch.
    split_and!; try done.
    + intros key a'. rewrite Hso. case_decide; [|eauto].
      destruct (_obs b !! key) as [a|]; simpl; [|done].
      intros [= <-]. exists a. by rewrite ncols_circ_patch.
    + intros key a'. rewrite Hsno. case_decide; [|eauto].
      destruct (_next_obs b !! key) as [a|]; simpl; [|done].
      intros [= <-]. exists a. by rewrite ncols_circ_patch.
  - (* shaped *)
    constructor; simpl.
    + apply Z.mod_pos_bound. lia.
    + rewrite Hsa, length_circ_patch. apply (shaped_actions b Hb).
    + rewrite Hst, length_circ_patch. apply (shaped_terminals b Hb).
    + intros key Hkey. destruct (shaped_obs b Hb key Hkey) as (a & Ha & Hl).
      rewrite Hso, decide_True, Ha by done. simpl.
      eexists. split; [done|]. by rewrite length_circ_patch.
    + intros key Hkey. destruct (shaped_next_obs b Hb key Hkey) as (a & Ha & Hl).
      rewrite Hsno, decide_True, Ha by done. simpl.
      eexists. split; [done|]. by rewrite length_circ_patch.
    + rewrite Hlen. apply (shaped_future b Hb).
  - done.
  - done.
  - (* holds *)
    intros j Hj. unfold holds; simpl. rewrite Hslot, Hsa, Hst.
    split_and!.
    + apply circ_patch_written; [apply (shaped_actions b Hb)|lia..].
    + apply circ_patch_written; [apply (shaped_terminals b Hb)|lia..].
    + intros key Hkey. destruct (Hcols key Hkey) as [Hco Hcno]. split.
      * destruct (shaped_obs b Hb key Hkey) as (a & Ha & Hl).
        pose proof (fits_obs _ _ _ _ Hp key a Hkey Ha) as Hfit.
        destruct (lookup_lt_is_Some_2 (observations path) j) as [d Hd].
        { rewrite (fits_observations _ _ _ _ Hp). done. }
        destruct (proj1 (Forall_lookup _ _) Hfit j d Hd) as (r & Hr & Hw).
        destruct (pcolumn_fits key _ a Hfit) as [Hcl _].
        rewrite (fits_observations _ _ _ _ Hp) in Hcl.
        exists (circ_patch (Z.to_nat (max_size b)) (Z.to_nat (_top b))
                  (pcolumn key (observations path)) a), d, r.
        split_and!; [|done..|].
        { by rewrite Hso, decide_True, Ha, Hco by done. }
        rewrite circ_patch_written by (done || lia).
        by apply pcolumn_lookup with d.
      * destruct (shaped_next_obs b Hb key Hkey) as (a & Ha & Hl).
        pose proof (fits_next_obs _ _ _ _ Hp key a Hkey Ha) as Hfit.
        destruct (lookup_lt_is_Some_2 (next_observations path) j) as [d Hd].
        { rewrite (fits_next_observations _ _ _ _ Hp). done. }
        destruct (proj1 (Forall_lookup _ _) Hfit j d Hd) as (r & Hr & Hw).
        destruct (pcolumn_fits key _ a Hfit) as [Hcl _].
        rewrite (fits_next_observations _ _ _ _ Hp) in Hcl.
        exists (circ_patch (Z.to_nat (max_size b)) (Z.to_nat (_top b))
                  (pcolumn key (next_observations path)) a), d, r.
        split_and!; [|done..|].
        { by rewrite Hsno, decide_True, Ha, Hcno by done. }
        rewrite circ_patch_written by (done || lia).
        by apply pcolumn_lookup with d.
  - exact Hfut.
  - (* the other slots *)
    intros i Hi. unfold same_slot; simpl. rewrite Hsa, Hst.
    assert (Hi' : ∀ len j, len = n → (j < len)%nat →
              i ≠ ((Z.to_nat (_top b) + j) `mod` Z.to_nat (max_size b))%nat).
    { intros len j -> Hj. rewrite <- Hslot. by apply Hi. }
    split_and!.
    + apply circ_patch_other; [apply (shaped_actions b Hb)|lia..|].
      intros j Hj. by apply (Hi' (length acts)).
    + apply circ_patch_other; [apply (shaped_terminals b Hb)|lia..|].
      intros j Hj. by apply (Hi' (length (terminals path))).
    + by apply Hoth.
    + intros key Hkey. destruct (Hcols key Hkey) as [Hco Hcno]. split.
      * destruct (shaped_obs b Hb key Hkey) as (a & Ha & Hl).
        destruct (pcolumn_fits key _ a (fits_obs _ _ _ _ Hp key a Hkey Ha))
          as [Hcl _].
        rewrite (fits_observations _ _ _ _ Hp) in Hcl.
        exists a, (circ_patch (Z.to_nat (max_size b)) (Z.to_nat (_top b))
                     (pcolumn key (observations path)) a).
        split_and!; [done| |].
        { by rewrite Hso, decide_True, Ha, Hco by done. }
        apply circ_patch_other; [done|lia..|].
        intros j Hj. by apply (Hi' (length (pcolumn key (observations path)))).
      * destruct (shaped_next_obs b Hb key Hkey) as (a & Ha & Hl).
        destruct (pcolumn_fits key _ a (fits_next_obs _ _ _ _ Hp key a Hkey Ha))
          as [Hcl _].
        rewrite (fits_next_observations _ _ _ _ Hp) in Hcl.
        exists a, (circ_patch (Z.to_nat (max_size b)) (Z.to_nat (_top b))
                     (pcolumn key (next_observations path)) a).
        split_and!; [done| |].
        { by rewrite Hsno, decide_True, Ha, Hcno by done. }
        apply circ_patch_other; [done|lia..|].
        intros j Hj.
        by apply (Hi' (length (pcolumn key (next_observations path)))).
Qed.

(** One call of [add_path] with a path that fits, of at most [max_size]
    steps: it returns, and the buffer it returns is [b] with the path
    written around from the write pointer. *)
Lemma add_path_written (b : Buffer V) (path : Path V) (n : nat) acts :
  shaped b → fits b path n acts → 1 ≤ Z.of_nat n ≤ max_size b →
  ∃ b', add_path b path = Return b' ∧ written b path n acts b'.
Proof.
  intros Hb Hp Hn.
  destruct (path_columns b path n acts Hb Hp)
    as (om & nom & Hom & Hnom & Hcols & Hkf).
  pose proof (shaped_top b Hb) as Htop.
  unfold add_path.
  rewrite (fits_encode _ _ _ _ Hp). cbn [mbind result_bind].
  rewrite Hom, Hnom. cbn [mbind result_bind].
  rewrite (fits_rewards _ _ _ _ Hp).
  rewrite (bool_decide_eq_false_2 (max_size b = 0)) by lia.
  case_bool_decide as Hwrap.
  - destruct (store_wrap (preprocess_obs_dict om) (preprocess_obs_dict nom)
                (saved_keys b) acts (terminals path) n (max_size b) (_top b)
                {| s_actions := _actions b; s_terminals := _terminals b;
                   s_obs := _obs b; s_next_obs := _next_obs b |})
      as (st' & Hrun & Hst); try done.
    { apply (fits_actions _ _ _ _ Hp). }
    { apply (fits_terminals _ _ _ _ Hp). }
    { apply (fits_actions_width _ _ _ _ Hp). }
    { apply (fits_terminals_width _ _ _ _ Hp). }
    { apply (shaped_actions b Hb). }
    { apply (shaped_terminals b Hb). }
    destruct (future_wrap (_top b) (max_size b) n (_idx_to_future_obs_idx b))
      as (idx' & Hidx & Hlen & Hfut & Hoth); try done.
    { apply (shaped_future b Hb). }
    rewrite Hrun. cbn [mbind result_bind].
    apply bind_Return in Hidx as (idx1 & Hidx1 & Hidx2).
    rewrite Hidx1. cbn [mbind result_bind]. rewrite Hidx2.
    cbn [mbind result_bind].
    eexists. split; [done|].
    by apply written_intro with (preprocess_obs_dict om) (preprocess_obs_dict nom).
  - destruct (store_no_wrap (preprocess_obs_dict om) (preprocess_obs_dict nom)
                (saved_keys b) acts (terminals path) n (max_size b) (_top b)
                {| s_actions := _actions b; s_terminals := _terminals b;
                   s_obs := _obs b; s_next_obs := _next_obs b |})
      as (st' & Hrun & Hst); try done; try lia.
    { apply (fits_actions _ _ _ _ Hp). }
    { apply (fits_terminals _ _ _ _ Hp). }
    { apply (fits_actions_width _ _ _ _ Hp). }
    { apply (fits_terminals_width _ _ _ _ Hp). }
    { apply (shaped_actions b Hb). }
    { apply (shaped_terminals b Hb). }
    destruct (future_no_wrap (_top b) (max_size b) n (_idx_to_future_obs_idx b))
      as (idx' & Hidx & Hlen & Hfut & Hoth); try done; try lia.
    { apply (shaped_future b Hb). }
    rewrite Hrun. cbn [mbind result_bind].
    rewrite Hidx. cbn [mbind result_bind].
    eexists. split; [done|].
    by apply written_intro with (preprocess_obs_dict om) (preprocess_obs_dict nom).
Qed.
End AddPath.

(** ** [ObsDictRelabelingBuffer]: the write pointer and the future indices *)

Section ObsDictExamples.
Import ObsDict ObsDictSpec Examples.
#[local] Existing Instance exact.

Example init_fresh :
  __init__ 4 reach_env 1 0 None None "observation" "desired_goal" "achieved_goal"
  = Return fresh.
Proof. vm_compute. reflexivity. Qed.

Lemma fresh_at_shaped (top size : Z) : 0 ≤ top < 4 → shaped (fresh_at top size).
Proof.
  intros Htop. constructor; simpl; try done.
  - intros key Hkey. unfold saved_keys in Hkey. simpl in Hkey.
    repeat (apply elem_of_cons in Hkey as [->|Hkey]);
      [eexists; split; [reflexivity|done]..|].
    by apply not_elem_of_nil in Hkey.
  - intros key Hkey. unfold saved_keys in Hkey. simpl in Hkey.
    repeat (apply elem_of_cons in Hkey as [->|Hkey]);
      [eexists; split; [reflexivity|done]..|].
    by apply not_elem_of_nil in Hkey.
Qed.

Lemma path3_fits (top size a : Z) :
  fits (fresh_at top size) (path3 a) 3 (actions (path3 a)).
Proof.
  constructor; simpl; try done.
  - repeat constructor.
  - repeat constructor.
  - intros key arr Hkey. unfold saved_keys in Hkey. simpl in Hkey.
    repeat (apply elem_of_cons in Hkey as [->|Hkey]);
      [intros [= <-]; repeat constructor; eexists; split; reflexivity..|].
    by apply not_elem_of_nil in Hkey.
  - intros key arr Hkey. unfold saved_keys in Hkey. simpl in Hkey.
    repeat (apply elem_of_cons in Hkey as [->|Hkey]);
      [intros [= <-]; repeat constructor; eexists; split; reflexivity..|].
    by apply not_elem_of_nil in Hkey.
Qed.
End ObsDictExamples.

Section ObsDictWritePointer.
Context {V : Type} `{Scalar V}.
Import ObsDict ObsDictSpec.

(** C1. [add_path] implements a wrap-around write pointer.  For a buffer
    with [0 <= _top < max_size] whose arrays have [max_size] rows, and a
    path of [n] steps with [1 <= n <= max_size] whose arrays fit those of
    the buffer, [add_path] returns; the new [_top] is
    [(_top + n) mod max_size], the new [_size] is
    [min (_size + n) max_size], and for every step [j] the action, the
    terminal and, under every saved key, the observation and the next
    observation of step [j] are in slot [_top + j], or in slot
    [_top + j - max_size] once the end of the arrays is passed.  The
    pointer itself wraps exactly when [_top + n >= max_size]. *)
Theorem add_path_write_pointer (b : Buffer V) (path : Path V) (n : nat)
    (acts : list (Row V)) :
  shaped b → fits b path n acts → 1 ≤ Z.of_nat n ≤ max_size b →
  ∃ b', add_path b path = Return b' ∧
    _top b' = (_top b + Z.of_nat n) `mod` max_size b ∧
    _size b' = Z.min (_size b + Z.of_nat n) (max_size b) ∧
    (∀ j, (j < n)%nat →
       holds b' (slot b j) path acts j ∧
       Z.of_nat (slot b j) =
         if bool_decide (_top b + Z.of_nat j < max_size b)
         then _top b + Z.of_nat j
         else _top b + Z.of_nat j - max_size b) ∧
    (if bool_decide (max_size b ≤ _top b + Z.of_nat n)
     then _top b' = _top b + Z.of_nat n - max_size b
     else _top b' = _top b + Z.of_nat n).
Proof.
  intros Hb Hp Hn.
  destruct (add_path_written b path n acts Hb Hp Hn) as (b' & Hrun & Hw).
  pose proof (shaped_top b Hb) as Htop.
  exists b'. split; [done|].
  split; [apply (written_top _ _ _ _ _ Hw)|].
  split; [apply (written_size _ _ _ _ _ Hw)|].
  split.
  - intros j Hj. split; [by apply (written_holds _ _ _ _ _ Hw)|].
    unfold slot. rewrite Z2Nat.id by (apply slot_of_bound; lia).
    case_bool_decide.
    + apply slot_of_small; lia.
    + apply slot_of_wrap; lia.
  - rewrite (written_top _ _ _ _ _ Hw). case_bool_decide.
    + apply mod_wrap; lia.
    + apply Z.mod_small; lia.
Qed.

(** C2. After [add_path] with a path of [n] steps written from
    [t = _top], the list [_idx_to_future_obs_idx[i]] of every newly
    written slot [i] (the slot of a step [j]) is the list of the slots of
    steps [j], ..., [n - 1] in write order: [arange(i, t + n)] when the
    path does not wrap, and when it wraps
    [arange(i, max_size)] followed by [arange(0, num_post_wrap_steps)]
    before the wrap and [arange(i, num_post_wrap_steps)] after it.  The
    list is not empty and [i] is in it. *)
Theorem add_path_future_indices (b : Buffer V) (path : Path V) (n : nat)
    (acts : list (Row V)) :
  shaped b → fits b path n acts → 1 ≤ Z.of_nat n ≤ max_size b →
  ∃ b', add_path b path = Return b' ∧
    ∀ j, (j < n)%nat →
      let t := _top b in
      let i := slot_of t (max_size b) j in
      let num_post_wrap_steps := Z.of_nat n - (max_size b - t) in
      ∃ l, _idx_to_future_obs_idx b' !! Z.to_nat i = Some (Some l) ∧
        l = future_slots t (max_size b) n j ∧
        (t + Z.of_nat n < max_size b → l = py_range i (t + Z.of_nat n)) ∧
        (max_size b ≤ t + Z.of_nat n → t ≤ i →
           l = py_range i (max_size b) ++ py_range 0 num_post_wrap_steps) ∧
        (max_size b ≤ t + Z.of_nat n → i < t →
           l = py_range i num_post_wrap_steps) ∧
        l ≠ [] ∧ i ∈ l.
Proof.
  intros Hb Hp Hn.
  destruct (add_path_written b path n acts Hb Hp Hn) as (b' & Hrun & Hw).
  pose proof (shaped_top b Hb) as Htop.
  exists b'. split; [done|]. intros j Hj t i post.
  exists (code_future t (max_size b) (Z.of_nat n) i).
  split; [by apply (written_future _ _ _ _ _ Hw)|].
  assert (Hslots : code_future t (max_size b) (Z.of_nat n) i
                   = future_slots t (max_size b) n j)
    by (by apply code_future_slots).
  split; [done|]. split_and!.
  - intros Hfit. unfold code_future.
    by rewrite bool_decide_eq_false_2 by lia.
  - intros Hwrap Hi. unfold code_future.
    by rewrite !bool_decide_eq_true_2 by lia.
  - intros Hwrap Hi. unfold code_future.
    rewrite bool_decide_eq_true_2 by lia.
    by rewrite bool_decide_eq_false_2 by lia.
  - rewrite Hslots. intros Hnil.
    apply (f_equal length) in Hnil.
    rewrite length_future_slots in Hnil. simpl in Hnil. lia.
  - rewrite Hslots. apply elem_of_future_slots. exists j. split; [lia|done].
Qed.
End ObsDictWritePointer.

Section ObsDictWritePointerWitness.
Import ObsDict ObsDictSpec Examples.

(** A path of three steps written from slot 2 of four: it wraps. *)
Lemma add_path_write_pointer_witness :
  ∃ b', add_path (fresh_at 2 2) (path3 10) = Return b' ∧
    _top b' = (2 + 3) `mod` 4 ∧
    _size b' = Z.min (2 + 3) 4 ∧
    (∀ j, (j < 3)%nat →
       holds b' (slot (fresh_at 2 2) j) (path3 10) (actions (path3 10)) j ∧
       Z.of_nat (slot (fresh_at 2 2) j) =
         if bool_decide (2 + Z.of_nat j < 4)
         then 2 + Z.of_nat j else 2 + Z.of_nat j - 4) ∧
    (if bool_decide (4 ≤ 2 + 3) then _top b' = 2 + 3 - 4 else _top b' = 2 + 3).
Proof.
  apply (add_path_write_pointer (fresh_at 2 2) (path3 10) 3 (actions (path3 10))).
  - apply fresh_at_shaped. lia.
  - apply path3_fits.
  - simpl. lia.
Defined.

Lemma add_path_future_indices_witness :
  ∃ b', add_path (fresh_at 2 2) (path3 10) = Return b' ∧
    ∀ j, (j < 3)%nat →
      ∃ l, _idx_to_future_obs_idx b' !! Z.to_nat (slot_of 2 4 j) = Some (Some l) ∧
        l = future_slots 2 4 3 j ∧
        (2 + 3 < 4 → l = py_range (slot_of 2 4 j) (2 + 3)) ∧
        (4 ≤ 2 + 3 → 2 ≤ slot_of 2 4 j →
           l = py_range (slot_of 2 4 j) 4 ++ py_range 0 (3 - (4 - 2))) ∧
        (4 ≤ 2 + 3 → slot_of 2 4 j < 2 →
           l = py_range (slot_of 2 4 j) (3 - (4 - 2))) ∧
        l ≠ [] ∧ slot_of 2 4 j ∈ l.
Proof.
  apply (add_path_future_indices (fresh_at 2 2) (path3 10) 3 (actions (path3 10))).
  - apply fresh_at_shaped. lia.
  - apply path3_fits.
  - simpl. lia.
Defined.

(** The same call, evaluated. *)
Example add_path_wraps :
  (λ b', (_top b', _size b', rows (_actions b'), _idx_to_future_obs_idx b'))
    <$> add_path (fresh_at 2 2) (path3 10)
  = Return (1, 4, [[12]; [0]; [10]; [11]],
            [Some [0]; None; Some [2; 3; 0]; Some [3; 0]]).
Proof. vm_compute. reflexivity. Qed.
End ObsDictWritePointerWitness.

(** ** [ObsDictRelabelingBuffer]: the reachable buffers *)

Section PositionLemmas.
Lemma position_bound (m : Z) (g : nat) : 0 < m → 0 ≤ position m g < m.
Proof. intros. unfold position. by apply Z.mod_pos_bound. Qed.

Lemma slot_of_position (m : Z) (t j : nat) :
  0 < m → slot_of (position m t) m j = position m (t + j).
Proof.
  intros Hm. unfold slot_of, position.
  rewrite Zplus_mod_idemp_l. f_equal. lia.
Qed.

(** Two transitions less than [m] apart are in different slots. *)
Lemma position_apart (m : Z) (g g' : nat) :
  0 < m → (g < g')%nat → Z.of_nat g' < Z.of_nat g + m →
  position m g ≠ position m g'.
Proof.
  intros Hm Hlt Hnear Heq. unfold position in Heq.
  pose proof (Z.div_mod (Z.of_nat g) m ltac:(lia)) as E1.
  pose proof (Z.div_mod (Z.of_nat g') m ltac:(lia)) as E2.
  rewrite Heq in E1.
  assert (Hd : m * (Z.of_nat g' `div` m - Z.of_nat g `div` m)
               = Z.of_nat g' - Z.of_nat g) by lia.
  assert (0 < Z.of_nat g' `div` m - Z.of_nat g `div` m) by nia.
  nia.
Qed.

(** Every slot below the size is the slot of a live transition. *)
Lemma position_covers (m : Z) (t : nat) (i : Z) :
  0 < m → 0 ≤ i < Z.min (Z.of_nat t) m →
  ∃ g : nat, (g < t)%nat ∧ Z.of_nat t ≤ Z.of_nat g + m ∧ position m g = i.
Proof.
  intros Hm Hi. unfold position.
  destruct (decide (Z.of_nat t ≤ m)) as [Hsmall|Hbig].
  - exists (Z.to_nat i). split_and!; [lia..|].
    rewrite Z2Nat.id by lia. apply Z.mod_small. lia.
  - set (base := Z.of_nat t - m).
    pose proof (Z.mod_pos_bound (i - base) m Hm) as Hr.
    exists (Z.to_nat (base + (i - base) `mod` m)).
    split_and!; [lia..|].
    rewrite Z2Nat.id by lia.
    rewrite Zplus_mod_idemp_r.
    replace (base + (i - base)) with i by lia.
    apply Z.mod_small. lia.
Qed.
End PositionLemmas.

Section History.
Context {V : Type} `{Scalar V}.
Import ObsDict ObsDictSpec.
Implicit Types hist : list (Added V).

Lemma total_app hist hist' : total (hist ++ hist') = (total hist + total hist')%nat.
Proof. unfold total. by rewrite sum_list_with_app. Qed.

Lemma total_snoc hist (h : Added V) : total (hist ++ [h]) = (total hist + steps h)%nat.
Proof. rewrite total_app. unfold total. simpl. lia. Qed.

Lemma offset_snoc hist (h : Added V) (p : nat) :
  (p ≤ length hist)%nat → offset (hist ++ [h]) p = offset hist p.
Proof. intros Hp. unfold offset. by rewrite take_app_le. Qed.

Lemma offset_length hist : offset hist (length hist) = total hist.
Proof. unfold offset. by rewrite firstn_all. Qed.

Lemma offset_steps_le hist (p : nat) (h : Added V) :
  hist !! p = Some h → (offset hist p + steps h ≤ total hist)%nat.
Proof.
  intros Hp. rewrite <- (take_drop_middle hist p h Hp) at 2.
  rewrite total_app. unfold offset.
  change (h :: drop (S p) hist) with ([h] ++ drop (S p) hist).
  rewrite total_app. unfold total at 3. simpl. lia.
Qed.

(** Every transition number below the total is a step of a path. *)
Lemma locate hist (g : nat) :
  (g < total hist)%nat →
  ∃ p path acts s, hist !! p = Some (path, acts) ∧
    (s < length (rewards path))%nat ∧ g = (offset hist p + s)%nat.
Proof.
  induction hist as [|[path acts] hist IH] using rev_ind.
  { unfold total. simpl. lia. }
  rewrite total_snoc. intros Hg.
  destruct (decide (g < total hist)%nat) as [Hold|Hnew].
  - destruct (IH Hold) as (p & path' & acts' & s & Hp & Hs & ->).
    exists p, path', acts', s.
    pose proof (lookup_lt_Some _ _ _ Hp).
    rewrite lookup_app_l, offset_snoc by lia. done.
  - exists (length hist), path, acts, (g - total hist)%nat.
    rewrite lookup_app_r, Nat.sub_diag by lia.
    rewrite offset_snoc, offset_length by lia.
    change (steps (path, acts)) with (length (rewards path)) in Hg.
    split_and!; [done|lia..].
Qed.
End History.

Section Invariant.
Context {V : Type} `{Scalar V}.
Import ObsDict ObsDictSpec.
Implicit Types (b : Buffer V) (hist : list (Added V)).

Lemma same_config_refl b : same_config b b.
Proof. unfold same_config. split_and!; eauto. Qed.

Lemma same_config_trans b1 b2 b3 :
  same_config b1 b2 → same_config b2 b3 → same_config b1 b3.
Proof.
  unfold same_config.
  intros (?&?&?&?&?&?&?&?&?&?&?&?&?&Ho&Hno) (?&?&?&?&?&?&?&?&?&?&?&?&?&Ho'&Hno').
  split_and!; try congruence.
  - intros key a3 Ha3. destruct (Ho' key a3 Ha3) as (a2 & Ha2 & E).
    destruct (Ho key a2 Ha2) as (a1 & Ha1 & E'). exists a1. split; congruence.
  - intros key a3 Ha3. destruct (Hno' key a3 Ha3) as (a2 & Ha2 & E).
    destruct (Hno key a2 Ha2) as (a1 & Ha1 & E'). exists a1. split; congruence.
Qed.

Lemma same_config_saved_keys b b' : same_config b b' → saved_keys b' = saved_keys b.
Proof.
  unfold same_config, saved_keys. intros (?&?&?&?&?&_). congruence.
Qed.

Lemma holds_same_slot b b' (i : nat) path acts (j : nat) :
  same_config b b' → same_slot b b' i →
  holds b i path acts j → holds b' i path acts j.
Proof.
  intros Hc (Ha & Ht & _ & Hk) (Hha & Hht & Hhk).
  unfold holds. rewrite Ha, Ht, (same_config_saved_keys b b' Hc).
  split_and!; [done..|]. intros key Hkey.
  destruct (Hk key Hkey) as [(a & a' & Hoa & Hoa' & Er) (na & na' & Hna & Hna' & Enr)].
  destruct (Hhk key Hkey) as [(a0 & d & r & E1 & E2 & E3 & E4)
                               (na0 & nd & nr & N1 & N2 & N3 & N4)].
  split.
  - exists a', d, r. split_and!; try done. rewrite Er. congruence.
  - exists na', nd, nr. split_and!; try done. rewrite Enr. congruence.
Qed.

Lemma invariant_fresh b0 : fresh b0 → invariant b0 [] b0.
Proof.
  intros (Hs & Htop & Hsize & _). pose proof (shaped_top b0 Hs).
  constructor.
  - done.
  - apply same_config_refl.
  - rewrite Htop. unfold total. simpl. by rewrite Z.mod_0_l by lia.
  - rewrite Hsize. unfold total. simpl. lia.
  - intros p path acts s Hp. by rewrite lookup_nil in Hp.
Qed.

Lemma invariant_add_path b0 hist b path acts b' :
  invariant b0 hist b →
  fits b path (length (rewards path)) acts →
  1 ≤ Z.of_nat (length (rewards path)) ≤ max_size b →
  add_path b path = Return b' →
  invariant b0 (hist ++ [(path, acts)]) b'.
Proof.
  intros Hinv Hp Hn Hrun.
  destruct (add_path_written b path _ acts (inv_shaped _ _ _ Hinv) Hp Hn)
    as (b'' & Hrun' & Hw).
  assert (b'' = b') as -> by congruence. clear Hrun'.
  pose proof (shaped_top b (inv_shaped _ _ _ Hinv)) as Htop.
  pose proof (written_config _ _ _ _ _ Hw) as Hc.
  assert (Hm : max_size b' = max_size b) by apply Hc.
  assert (Hslot : ∀ j, slot_of (_top b) (max_size b) j
                       = position (max_size b) (total hist + j)).
  { intros j. rewrite (inv_top _ _ _ Hinv).
    change (Z.of_nat (total hist) `mod` max_size b)
      with (position (max_size b) (total hist)).
    apply slot_of_position. lia. }
  constructor.
  - apply (written_shaped _ _ _ _ _ Hw).
  - eapply same_config_trans; [apply (inv_config _ _ _ Hinv)|done].
  - rewrite (written_top _ _ _ _ _ Hw), Hm, (inv_top _ _ _ Hinv), total_snoc.
    rewrite Zplus_mod_idemp_l. f_equal. unfold steps. simpl. lia.
  - rewrite (written_size _ _ _ _ _ Hw), Hm, (inv_size _ _ _ Hinv), total_snoc.
    unfold steps. simpl. lia.
  - intros p path' acts' s Hp' Hs Hlive. rewrite Hm.
    unfold live in Hlive. rewrite total_snoc, Hm in Hlive.
    change (steps (path, acts)) with (length (rewards path)) in Hlive.
    destruct (decide (p < length hist)%nat) as [Hold|Hnew].
    + rewrite lookup_app_l in Hp' by done.
      rewrite offset_snoc in * by lia.
      pose proof (offset_steps_le hist p _ Hp') as Hle.
      change (steps (path', acts')) with (length (rewards path')) in Hle.
      destruct (inv_live _ _ _ Hinv p path' acts' s Hp' Hs) as [Hh Hf].
      { unfold live. lia. }
      assert (Hother : same_slot b b'
                (Z.to_nat (position (max_size b) (offset hist p + s)))).
      { apply (written_other _ _ _ _ _ Hw). intros j Hj Heq.
        unfold slot in Heq. rewrite Hslot in Heq.
        apply Z2Nat.inj in Heq; [|apply position_bound; lia..].
        revert Heq. apply position_apart; lia. }
      split.
      * by apply (holds_same_slot b b').
      * destruct Hother as (_ & _ & -> & _). done.
    + pose proof (lookup_lt_Some _ _ _ Hp') as Hlt.
      rewrite length_app in Hlt. simpl in Hlt.
      assert (p = length hist) as -> by lia.
      rewrite lookup_app_r, Nat.sub_diag in Hp' by lia.
      injection Hp' as <- <-.
      rewrite offset_snoc, offset_length by lia.
      rewrite <- Hslot. split.
      * apply (written_holds _ _ _ _ _ Hw). done.
      * pose proof (written_future _ _ _ _ _ Hw s Hs) as Hf.
        unfold slot in Hf. rewrite Hf.
        rewrite code_future_slots by (done || lia).
        unfold future_slots. do 2 f_equal.
        apply list_fmap_ext. intros _ s' _. apply Hslot.
Qed.

Lemma reachable_invariant b0 hist b :
  fresh b0 → reachable b0 hist b → invariant b0 hist b.
Proof.
  intros Hfresh. induction 1 as [|hist b path acts b' _ IH Hp Hn Hrun].
  - by apply invariant_fresh.
  - by apply invariant_add_path with b.
Qed.
End Invariant.

Section Construction.
Context {V : Type} `{Scalar V} `{FloatRounding}.
Import ObsDict ObsDictSpec.

Lemma np_full_Return (x : V) (n : Z) (d : nat) (a : ndarray V) :
  np_full x n d = Return a →
  0 ≤ n ∧ a = NdArray d (replicate (Z.to_nat n) (replicate d x)).
Proof.
  unfold np_full. case_bool_decide; [done|]. intros [= <-]. split; [lia|done].
Qed.

Lemma py_assert_Return (cond : bool) (message : string) (u : unit) :
  py_assert cond message = Return u → cond = true.
Proof. unfold py_assert. by destruct cond. Qed.

(** The arrays that [__init__] allocates for the saved keys have
    [max_size] rows. *)
Lemma allocate_obs_Return (e : Env V) (m : Z) (keys : list string) :
  ∀ (acc : gmap string (ndarray V) * gmap string (ndarray V))
    (o no : gmap string (ndarray V)),
    foldM (λ '(obs, next_obs) key,
             _ ← py_assert (bool_decide (is_Some (observation_spaces e !! key)))
                   ("Key not found in the observation space: " +:+ key);
             d ← dict_getitem (observation_spaces e) key;
             a ← np_full zero m d;
             a' ← np_full zero m d;
             Return (<[key := a]> obs, <[key := a']> next_obs))
          acc keys = Return (o, no) →
    ∀ key, key ∈ keys →
      (∃ a, o !! key = Some a ∧ length (rows a) = Z.to_nat m) ∧
      (∃ a, no !! key = Some a ∧ length (rows a) = Z.to_nat m).
Proof.
  induction keys as [|k keys IH] using rev_ind; intros acc o no Hrun key Hkey.
  { by apply not_elem_of_nil in Hkey. }
  rewrite foldM_app in Hrun.
  apply bind_Return in Hrun as ([o1 no1] & Hrun1 & Hlast).
  simpl in Hlast.
  apply bind_Return in Hlast as ([o2 no2] & Hlast & [= <- <-]).
  apply bind_Return in Hlast as (_ & _ & Hlast).
  apply bind_Return in Hlast as (d & _ & Hlast).
  apply bind_Return in Hlast as (a & [_ ->]%np_full_Return & Hlast).
  apply bind_Return in Hlast as (a' & [_ ->]%np_full_Return & [= <- <-]).
  destruct (decide (key = k)) as [->|Hne].
  - rewrite !lookup_insert_eq. split; eexists; (split; [done|]); simpl;
      by rewrite length_replicate.
  - rewrite !lookup_insert_ne by done. apply (IH acc); [done|].
    apply elem_of_app in Hkey as [?|Hk]; [done|].
    apply list_elem_of_singleton in Hk. done.
Qed.

(** [__init__] with a positive capacity returns a fresh buffer. *)
Lemma init_is_fresh (m : Z) (e : Env V) (fr fe : Q)
    (ik gk : option (list string)) (ok dk ak : string) (b0 : Buffer V) :
  __init__ m e fr fe ik gk ok dk ak = Return b0 → 0 < m →
  fresh b0 ∧ max_size b0 = m.
Proof.
  unfold __init__. intros Hrun Hm.
  repeat (apply bind_Return in Hrun as (_ & _ & Hrun)).
  apply bind_Return in Hrun as (acts & [_ ->]%np_full_Return & Hrun).
  apply bind_Return in Hrun as (terms & [_ ->]%np_full_Return & Hrun).
  apply bind_Return in Hrun as ([o no] & Halloc & [= <-]).
  unfold allocate_obs in Halloc.
  pose proof (allocate_obs_Return e m _ _ o no Halloc) as Hkeys.
  split; [|done]. split_and!; try done.
  constructor; simpl; rewrite ?length_replicate; try done; try lia.
  - intros key Hkey. by apply Hkeys.
  - intros key Hkey. by apply Hkeys.
Qed.
End Construction.

Section Reachable.
Context {V : Type} `{Scalar V}.
Import ObsDict ObsDictSpec.
Implicit Types (b : Buffer V) (hist : list (Added V)).

Lemma fits_same_config b b' path n acts :
  same_config b b' → fits b path n acts → fits b' path n acts.
Proof.
  intros Hc Hp. pose proof (same_config_saved_keys _ _ Hc) as Hkeys.
  destruct Hc as (?&He&?&?&?&?&?&?&?&?&Hd&Ha&Ht&Ho&Hno).
  destruct Hp. constructor; try done.
  - unfold encode_actions in *. by rewrite He, Hd.
  - by rewrite Ha.
  - by rewrite Ht.
  - intros key a' Hkey Ha'. rewrite Hkeys in Hkey.
    destruct (Ho key a' Ha') as (a & Hoa & Hcols).
    unfold column_fits. setoid_rewrite Hcols. by apply fits_obs0.
  - intros key a' Hkey Ha'. rewrite Hkeys in Hkey.
    destruct (Hno key a' Ha') as (a & Hoa & Hcols).
    unfold column_fits. setoid_rewrite Hcols. by apply fits_next_obs0.
Qed.

Lemma live_position_lt_size b0 hist b (g : nat) :
  invariant b0 hist b → (g < total hist)%nat → live hist (max_size b) g →
  0 ≤ position (max_size b) g < _size b.
Proof.
  intros Hinv Hg Hlive. unfold live in Hlive.
  pose proof (shaped_top b (inv_shaped _ _ _ Hinv)) as Htop.
  pose proof (position_bound (max_size b) g ltac:(lia)) as Hpos.
  rewrite (inv_size _ _ _ Hinv).
  destruct (decide (Z.of_nat (total hist) ≤ max_size b)); [|lia].
  unfold position in *. rewrite Z.mod_small in * by lia. lia.
Qed.

(** Every slot below the size is the slot of a live step of an added
    path. *)
Lemma slot_has_live_step b0 hist b (i : Z) :
  invariant b0 hist b → 0 ≤ i < _size b →
  ∃ p path acts s, hist !! p = Some (path, acts) ∧
    (s < length (rewards path))%nat ∧
    live hist (max_size b) (offset hist p + s) ∧
    position (max_size b) (offset hist p + s) = i.
Proof.
  intros Hinv Hi.
  pose proof (shaped_top b (inv_shaped _ _ _ Hinv)) as Htop.
  rewrite (inv_size _ _ _ Hinv) in Hi.
  destruct (position_covers (max_size b) (total hist) i) as (g & Hg & Hlive & Hpos);
    [lia..|].
  destruct (locate hist g Hg) as (p & path & acts & s & Hp & Hs & ->).
  exists p, path, acts, s. done.
Qed.
End Reachable.

Section FutureValidity.
Context {V : Type} `{Scalar V} `{FloatRounding}.
Import ObsDict ObsDictSpec.

(** C9. In every buffer reached from a freshly constructed one by calls
    of [add_path] with paths of between one and [max_size] steps: every
    slot [i] below [_size] is the slot of a step [s] of an added path that
    has not been overwritten; for every such step, the slot holds the data
    of the step, and every index [j] of [_idx_to_future_obs_idx[i]] is
    below [_size] and is the slot of a step [s' >= s] of the same path,
    which has not been overwritten either and whose data the slot [j]
    holds.  So the lookup [self._next_obs[achieved_goal_key][j]] of
    [random_batch] is in bounds and yields the achieved goal of that
    step. *)
Theorem future_indices_stay_in_path (m : Z) (e : Env V) (fr fe : Q)
    (ik gk : option (list string)) (ok dk ak : string)
    (b0 b : Buffer V) (hist : list (Added V)) :
  __init__ m e fr fe ik gk ok dk ak = Return b0 → 0 < m →
  reachable b0 hist b →
  (∀ i, 0 ≤ i < _size b →
     ∃ p path acts s, hist !! p = Some (path, acts) ∧
       (s < length (rewards path))%nat ∧
       live hist (max_size b) (offset hist p + s) ∧
       position (max_size b) (offset hist p + s) = i) ∧
  (∀ p path acts s,
     hist !! p = Some (path, acts) → (s < length (rewards path))%nat →
     live hist (max_size b) (offset hist p + s) →
     let i := position (max_size b) (offset hist p + s) in
     0 ≤ i < _size b ∧
     holds b (Z.to_nat i) path acts s ∧
     ∃ l, _idx_to_future_obs_idx b !! Z.to_nat i = Some (Some l) ∧
       ∀ j, j ∈ l →
         0 ≤ j < _size b ∧
         ∃ s', (s ≤ s' < length (rewards path))%nat ∧
           j = position (max_size b) (offset hist p + s') ∧
           live hist (max_size b) (offset hist p + s') ∧
           holds b (Z.to_nat j) path acts s' ∧
           ∃ a d r, _next_obs b !! achieved_goal_key b = Some a ∧
             next_observations path !! s' = Some d ∧
             d !! achieved_goal_key b = Some r ∧
             getitem (rows a) j = Return (prep (achieved_goal_key b) r)).
Proof.
  intros Hinit Hm Hreach.
  destruct (init_is_fresh _ _ _ _ _ _ _ _ _ _ Hinit Hm) as [Hfresh _].
  pose proof (reachable_invariant b0 hist b Hfresh Hreach) as Hinv.
  split; [intros i Hi; by eapply slot_has_live_step|].
  intros p path acts s Hp Hs Hlive i.
  pose proof (offset_steps_le hist p _ Hp) as Hle.
  change (steps (path, acts)) with (length (rewards path)) in Hle.
  destruct (inv_live _ _ _ Hinv p path acts s Hp Hs Hlive) as [Hh Hf].
  split; [eapply live_position_lt_size; eauto; lia|].
  split; [done|]. eexists. split; [exact Hf|].
  intros j (s' & -> & Hs')%list_elem_of_fmap. apply elem_of_seq in Hs'.
  assert (Hlive' : live hist (max_size b) (offset hist p + s'))
    by (unfold live in *; lia).
  destruct (inv_live _ _ _ Hinv p path acts s' Hp ltac:(lia) Hlive') as [Hh' _].
  pose proof (live_position_lt_size b0 hist b (offset hist p + s') Hinv
                ltac:(lia) Hlive') as Hlt.
  split; [done|]. exists s'. split_and!; [lia..|done|done|done|].
  assert (Hkey : achieved_goal_key b ∈ saved_keys b).
  { pose proof (inv_config _ _ _ Hinv) as Hc.
    rewrite (same_config_saved_keys _ _ Hc).
    destruct Hc as (_&_&_&_&_&_&_&->&_).
    destruct Hfresh as (_ & _ & _ & Hks). unfold saved_keys. rewrite Hks.
    set_solver. }
  destruct Hh' as (_ & _ & Hk). destruct (Hk _ Hkey) as [_ (a & d & r & Ha & Hd & Hr & Hrow)].
  exists a, d, r. split_and!; [done..|].
  rewrite getitem_nonneg by lia. by rewrite Hrow.
Qed.
End FutureValidity.

Section FutureValidityWitness.
Import ObsDict ObsDictSpec Examples.
#[local] Existing Instance exact.

Example add_path_after1 : add_path fresh (path3 10) = Return after1.
Proof. vm_compute. reflexivity. Qed.

Example add_path_after2 : add_path after1 (path3 20) = Return after2.
Proof. vm_compute. reflexivity. Qed.

(** Two paths of three steps in a buffer of four slots. *)
Lemma reachable_after2 :
  reachable fresh
    [(path3 10, actions (path3 10)); (path3 20, actions (path3 20))] after2.
Proof.
  apply (reachable_add_path fresh [(path3 10, actions (path3 10))] after1).
  - apply (reachable_add_path fresh [] fresh).
    + constructor.
    + apply (path3_fits 0 0).
    + simpl. lia.
    + exact add_path_after1.
  - apply (fits_same_config fresh).
    + destruct (add_path_written fresh (path3 10) 3 (actions (path3 10)))
        as (b' & Hrun & Hw).
      * apply (fresh_at_shaped 0 0). lia.
      * apply (path3_fits 0 0).
      * simpl. lia.
      * rewrite add_path_after1 in Hrun. injection Hrun as <-.
        apply (written_config _ _ _ _ _ Hw).
    + apply (path3_fits 0 0).
  - simpl. lia.
  - exact add_path_after2.
Qed.

Lemma future_indices_stay_in_path_witness :
  reachable fresh
    [(path3 10, actions (path3 10)); (path3 20, actions (path3 20))] after2 ∧
  ∀ i, 0 ≤ i < _size after2 →
    ∃ p path acts s,
      [(path3 10, actions (path3 10)); (path3 20, actions (path3 20))] !! p
      = Some (path, acts) ∧
      (s < length (rewards path))%nat ∧
      live [(path3 10, actions (path3 10)); (path3 20, actions (path3 20))]
        (max_size after2)
        (offset [(path3 10, actions (path3 10)); (path3 20, actions (path3 20))] p + s) ∧
      position (max_size after2)
        (offset [(path3 10, actions (path3 10)); (path3 20, actions (path3 20))] p + s)
      = i.
Proof.
  split; [exact reachable_after2|].
  apply (future_indices_stay_in_path 4 reach_env 1 0 None None
           "observation" "desired_goal" "achieved_goal" fresh after2
           [(path3 10, actions (path3 10)); (path3 20, actions (path3 20))]).
  - exact init_fresh.
  - lia.
  - exact reachable_after2.
Defined.

(** The buffer of the witness: slot 2 still holds the last step of the
    first path, and slot 3 points over the wrap to slots 0 and 1. *)
Example after2_contents :
  (_top after2, _size after2, rows (_actions after2),
   _idx_to_future_obs_idx after2)
  = (2, 4, [[21]; [22]; [12]; [20]],
     [Some [0; 1]; Some [1]; Some [2]; Some [3; 0; 1]]).
Proof. vm_compute. reflexivity. Qed.
End FutureValidityWitness.

(** ** Random draws *)

Section RandomLemmas.
Lemma randint_Return (low high : Z) (g : Rng) (x : Z) (g' : Rng) :
  randint low high g = Return (x, g') → low ≤ x < high.
Proof.
  unfold randint. case_bool_decide; [done|]. intros [= <- _].
  pose proof (Z.mod_pos_bound (tape g (cursor g)) (high - low)). lia.
Qed.

Lemma randint_list_Return (low high : Z) (n : nat) :
  ∀ g xs g', randint_list low high n g = Return (xs, g') →
    length xs = n ∧ Forall (λ x, low ≤ x < high) xs.
Proof.
  induction n as [|n IH]; intros g xs g'; simpl.
  - intros [= <- _]. split; [done|constructor].
  - intros ([x g1] & Hx & Hrest)%bind_Return.
    apply bind_Return in Hrest as ([xs' g2] & Hxs & [= <- _]).
    destruct (IH _ _ _ Hxs) as [Hlen Hall]. split; [simpl; lia|].
    constructor; [by eapply randint_Return|done].
Qed.

Lemma randint_list_total (low high : Z) (n : nat) (g : Rng) :
  low < high → ∃ xs g', randint_list low high n g = Return (xs, g').
Proof.
  intros Hlt. revert g. induction n as [|n IH]; intros g; simpl; [eauto|].
  unfold randint at 1. rewrite bool_decide_eq_false_2 by lia. simpl.
  destruct (IH {| tape := tape g; cursor := S (cursor g) |}) as (xs & g' & ->).
  simpl. eauto.
Qed.

(** [np.random.randint(0, size, n)] only yields indices below [size]. *)
Lemma randint_array_Return (size n : Z) (g : Rng) (xs : list Z) (g' : Rng) :
  randint_array 0 size n g = Return (xs, g') →
  Z.of_nat (length xs) = n ∧ Forall (λ x, 0 ≤ x < size) xs.
Proof.
  unfold randint_array. repeat case_bool_decide; try done.
  intros [Hlen Hall]%randint_list_Return. split; [lia|done].
Qed.

Lemma random_choice_total (a : list Z) (k : Z) (g : Rng) :
  0 ≤ k → a ≠ [] →
  ∃ sel g', random_choice a k g = Return (sel, g') ∧
    length sel = Z.to_nat k ∧ Forall (λ x, x ∈ a) sel.
Proof.
  intros Hk Ha. unfold random_choice.
  rewrite bool_decide_eq_false_2 by lia.
  rewrite bool_decide_eq_false_2 by tauto.
  case_bool_decide as Hk0.
  { subst k. exists [], g. split_and!; [done..|constructor]. }
  assert (Hlen : 0 < Z.of_nat (length a)) by (destruct a; simpl; [done|lia]).
  destruct (randint_list_total 0 (Z.of_nat (length a)) (Z.to_nat k) g Hlen)
    as (ks & g' & Hks).
  rewrite Hks. simpl.
  destruct (randint_list_Return _ _ _ _ _ _ Hks) as [Hl Hall].
  assert (Hmap : ∃ xs, mapM (getitem a) ks = Return xs ∧ length xs = length ks ∧
                       Forall (λ x, x ∈ a) xs).
  { clear Hks Hl. induction Hall as [|x ks Hx _ (xs & Hxs & Hlx & Hin)]; simpl.
    - exists []. split_and!; [done..|constructor].
    - destruct (lookup_lt_is_Some_2 a (Z.to_nat x)) as [y Hy]; [lia|].
      rewrite getitem_nonneg by lia. rewrite Hy. simpl. rewrite Hxs. simpl.
      exists (y :: xs). split_and!; [done|simpl; lia|].
      constructor; [|done]. by eapply list_elem_of_lookup_2. }
  destruct Hmap as (xs & -> & Hlx & Hin). simpl.
  exists xs, g'. split_and!; [done|lia|done].
Qed.
End RandomLemmas.

(** ** [newstateObsDictRelabelingBuffer] *)

Section NewStateLemmas.
Context {V : Type} `{Scalar V}.
Import NewStateObsDict NewStateSpec.
Implicit Types (b : Buffer V) (path : Path V).

Lemma obs_at_field (l : list (Obs V)) (i : nat) (key : string) :
  is_Some (l !! i ≫= (λ d : Obs V, d !! key)) →
  obs_at l (Z.of_nat i) key = Return (field l i key).
Proof.
  intros [r Hr]. unfold obs_at, field. rewrite Hr. simpl.
  destruct (l !! i) as [d|] eqn:Hd; [|done]. simpl in Hr.
  rewrite (getitem_lookup l i d Hd). simpl.
  unfold dict_getitem. by rewrite Hr.
Qed.

Lemma getitem_row_at (l : list (Row V)) (i : nat) :
  (i < length l)%nat → getitem l (Z.of_nat i) = Return (row_at l i).
Proof.
  intros Hi. destruct (lookup_lt_is_Some_2 l i Hi) as [r Hr].
  unfold row_at. rewrite Hr. by apply getitem_lookup.
Qed.

Lemma add_sample_config b o a r t o' b' :
  add_sample b o a r t o' = Return b' →
  env b' = env b ∧ k b' = k b ∧ max_size b' = max_size b.
Proof.
  unfold add_sample, _advance. intros Hrun.
  repeat (apply bind_Return in Hrun as (? & _ & Hrun)).
  simpl in Hrun. by injection Hrun as <-.
Qed.

Section Path.
Variables (path : Path V) (n : nat).
Hypothesis Hok : path_ok path n.

Lemma path_obs_field (i : nat) (key : string) :
  (i < n)%nat → key = "observation" ∨ key = "desired_goal" →
  obs_at (observations path) (Z.of_nat i) key
  = Return (field (observations path) i key).
Proof.
  intros Hi Hkey. apply obs_at_field.
  destruct (lookup_lt_is_Some_2 (observations path) i) as [d Hd].
  { by rewrite (ok_observations _ _ Hok). }
  rewrite Hd. simpl.
  pose proof (proj1 (Forall_lookup _ _) (ok_obs_keys _ _ Hok) i d Hd) as [? ?].
  by destruct Hkey as [->| ->].
Qed.

Lemma path_next_obs_field (i : nat) (key : string) :
  (i < n)%nat →
  key = "observation" ∨ key = "desired_goal" ∨ key = "achieved_goal" →
  obs_at (next_observations path) (Z.of_nat i) key
  = Return (field (next_observations path) i key).
Proof.
  intros Hi Hkey. apply obs_at_field.
  destruct (lookup_lt_is_Some_2 (next_observations path) i) as [d Hd].
  { by rewrite (ok_next_observations _ _ Hok). }
  rewrite Hd. simpl.
  pose proof (proj1 (Forall_lookup _ _) (ok_next_obs_keys _ _ Hok) i d Hd)
    as (? & ? & ?).
  by destruct Hkey as [->|[->| ->]].
Qed.

(** The body of the loop over [selected_idx] is one call of [add_sample]
    with the relabeled sample. *)
Lemma add_relabeled_sample (i : nat) b (j : Z) :
  (i < n)%nat → 0 ≤ j < Z.of_nat n →
  add_relabeled path (Z.of_nat i) b j
  = add_samples b [relabeled (env b) path i j].
Proof.
  intros Hi Hj. unfold add_relabeled.
  rewrite (getitem_row_at (actions path)) by (by rewrite (ok_actions _ _ Hok)).
  cbn [mbind result_bind].
  rewrite <- (Z2Nat.id j) at 1 by lia.
  rewrite path_next_obs_field by (lia || tauto). cbn [mbind result_bind].
  rewrite path_obs_field by (lia || tauto). cbn [mbind result_bind].
  rewrite !path_next_obs_field by (lia || tauto). cbn [mbind result_bind].
  rewrite (getitem_row_at (terminals path)) by (by rewrite (ok_terminals _ _ Hok)).
  cbn [mbind result_bind].
  unfold add_samples, relabeled. cbn [foldM].
  by destruct (add_sample _ _ _ _ _ _).
Qed.

Lemma add_samples_app b (l1 l2 : list (Sample V)) :
  add_samples b (l1 ++ l2) = b' ← add_samples b l1; add_samples b' l2.
Proof. apply foldM_app. Qed.

Lemma add_samples_config b (l : list (Sample V)) b' :
  add_samples b l = Return b' →
  env b' = env b ∧ k b' = k b ∧ max_size b' = max_size b.
Proof.
  revert b. induction l as [|[[[[o a] r] t] o'] l IH]; intros b; simpl.
  - by intros [= <-].
  - intros (b1 & H1 & Hrest)%bind_Return.
    destruct (add_sample_config _ _ _ _ _ _ _ H1) as (? & ? & ?).
    destruct (IH _ Hrest) as (? & ? & ?). split_and!; congruence.
Qed.

Lemma add_relabeled_samples (i : nat) (sel : list Z) :
  (i < n)%nat → Forall (λ j, 0 ≤ j < Z.of_nat n) sel →
  ∀ b, foldM (add_relabeled path (Z.of_nat i)) b sel
       = add_samples b (relabeled (env b) path i <$> sel).
Proof.
  intros Hi. induction 1 as [|j sel Hj _ IH]; intros b; [done|].
  cbn [foldM fmap list_fmap].
  rewrite add_relabeled_sample by done.
  change (relabeled (env b) path i j :: (relabeled (env b) path i <$> sel))
    with ([relabeled (env b) path i j] ++ (relabeled (env b) path i <$> sel)).
  rewrite add_samples_app.
  destruct (add_samples b [relabeled (env b) path i j]) as [|b1] eqn:E; [done|].
  cbn [mbind result_bind]. rewrite IH.
  destruct (add_samples_config _ _ _ E) as (-> & _). done.
Qed.
End Path.
End NewStateLemmas.

Section NewStateAddPath.
Context {V : Type} `{Scalar V}.
Import NewStateObsDict NewStateSpec.
Implicit Types (b : Buffer V).

Variables (path : Path V) (n : nat).
Hypothesis Hok : path_ok path n.

Lemma samples_from_cons (e : Env V) (i : nat) (sel : list Z)
    (sels : list (list Z)) (c : nat) :
  samples_from e path i (sel :: sels) (S c)
  = [original path i]
      ++ ((relabeled e path i <$> sel) ++ samples_from e path (S i) sels c).
Proof. reflexivity. Qed.

(** One turn of the loop of [add_path]: the sample of the step, and unless
    the step is the last, [k] relabeled samples. *)
Lemma add_path_body_step (i : nat) b (g : Rng) :
  (i < n)%nat →
  add_path_body path (Z.of_nat n) (b, g) (Z.of_nat i)
  = b1 ← add_samples b [original path i];
    if bool_decide (Z.of_nat i = Z.of_nat n - 1) then Return (Break, (b1, g))
    else
      '(sel, g1) ← random_choice (py_range (Z.of_nat i + 1) (Z.of_nat n)) (k b1) g;
      b2 ← foldM (add_relabeled path (Z.of_nat i)) b1 sel;
      Return (Continue, (b2, g1)).
Proof.
  intros Hi. unfold add_path_body. cbv zeta.
  rewrite !(path_obs_field path n Hok) by (lia || tauto).
  cbn [mbind result_bind].
  rewrite (getitem_row_at (actions path)) by (by rewrite (ok_actions _ _ Hok)).
  rewrite (getitem_row_at (rewards path)) by (by rewrite (ok_rewards _ _ Hok)).
  rewrite (getitem_row_at (terminals path)) by (by rewrite (ok_terminals _ _ Hok)).
  cbn [mbind result_bind].
  rewrite !(path_next_obs_field path n Hok) by (lia || tauto).
  cbn [mbind result_bind].
  unfold add_samples, original. cbn [foldM].
  by destruct (add_sample _ _ _ _ _ _).
Qed.

(** The loop of [add_path] from step [i] on, [c] steps being left: the
    indices that it draws only depend on the generator, and the buffer is
    the one that the samples of these steps reach. *)
Lemma add_path_loop (kk : Z) (e : Env V) (c : nat) :
  0 ≤ kk → ∀ (i : nat) (g : Rng), (i + c = n)%nat →
  ∃ sels g', length sels = (c - 1)%nat ∧ later_steps kk n i sels ∧
    ∀ b, k b = kk → env b = e →
      for_break (add_path_body path (Z.of_nat n)) (b, g)
        (seqZ (Z.of_nat i) (Z.of_nat c))
      = b' ← add_samples b (samples_from e path i sels c); Return (b', g').
Proof.
  intros Hk. induction c as [|c IH]; intros i g Hic.
  { exists [], g. split_and!; [done|by intros ? ? ?|]. intros b _ _. done. }
  rewrite seqZ_cons by lia.
  replace (Z.pred (Z.of_nat (S c))) with (Z.of_nat c) by lia.
  replace (Z.succ (Z.of_nat i)) with (Z.of_nat (S i)) by lia.
  destruct (decide (c = 0)%nat) as [->|Hc].
  - (* the last step *)
    exists [], g. split_and!; [done|by intros ? ? ?|]. intros b _ _.
    cbn [for_break]. rewrite add_path_body_step by lia.
    rewrite bool_decide_eq_true_2 by lia.
    cbn [samples_from head tail default fmap list_fmap app].
    destruct (add_samples b [original path i]); done.
  - destruct (random_choice_total (py_range (Z.of_nat i + 1) (Z.of_nat n)) kk g Hk)
      as (sel & g1 & Hsel & Hlen & Hin).
    { unfold py_range. rewrite seqZ_cons by lia. done. }
    assert (Hrange : Forall (λ j, Z.of_nat i + 1 ≤ j < Z.of_nat n) sel).
    { eapply Forall_impl; [exact Hin|]. intros j Hj. unfold py_range in Hj.
      apply elem_of_seqZ in Hj. lia. }
    destruct (IH (S i) g1 ltac:(lia)) as (sels & g' & Hsels & Hlater & Hloop).
    exists (sel :: sels), g'. split_and!.
    + simpl. lia.
    + intros [|i'] sel'; simpl.
      * intros [= <-]. split; [done|].
        eapply Forall_impl; [exact Hrange|]. intros j Hj. simpl in *. lia.
      * intros Hs. destruct (Hlater i' sel' Hs) as [? Hall]. split; [done|].
        eapply Forall_impl; [exact Hall|]. intros j Hj. simpl in *. lia.
    + intros b Hkb Heb.
      cbn [for_break]. rewrite add_path_body_step by lia.
      rewrite bool_decide_eq_false_2 by lia.
      rewrite samples_from_cons, !add_samples_app.
      destruct (add_samples b [original path i]) as [|b1] eqn:E1; [done|].
      cbn [mbind result_bind].
      destruct (add_samples_config _ _ _ E1) as (He1 & Hk1 & _).
      rewrite Hk1, Hkb, Hsel. cbn [mbind result_bind].
      rewrite (add_relabeled_samples path n Hok) by
        (lia || (eapply Forall_impl; [exact Hrange|]; intros; simpl in *; lia)).
      rewrite He1, Heb.
      rewrite add_samples_app.
      destruct (add_samples b1 (relabeled e path i <$> sel)) as [|b2] eqn:E2;
        [done|].
      cbn [mbind result_bind].
      destruct (add_samples_config _ _ _ E2) as (He2 & Hk2 & _).
      apply Hloop; congruence.
Qed.
End NewStateAddPath.

Section NewStateHindsight.
Context {V : Type} `{Scalar V}.
Import NewStateObsDict NewStateSpec.

Lemma length_samples_from (e : Env V) (path : Path V) (kk : Z) (n c : nat) :
  ∀ (i : nat) (sels : list (list Z)),
    later_steps kk n i sels → length sels = (c - 1)%nat →
    length (samples_from e path i sels c) = (c + Z.to_nat kk * (c - 1))%nat.
Proof.
  induction c as [|c IH]; intros i sels Hlater Hlen; [simpl; lia|].
  destruct sels as [|sel sels]; simpl.
  - simpl in Hlen. assert (c = 0)%nat as -> by lia. simpl. lia.
  - simpl in Hlen. rewrite length_app, length_fmap.
    destruct (Hlater 0%nat sel eq_refl) as [-> _].
    rewrite (IH (S i) sels).
    + destruct c; [simpl in *; lia|].
      replace (S (S c) - 1)%nat with (S c) by lia.
      replace (S c - 1)%nat with c by lia. nia.
    + intros i' sel' Hs. destruct (Hlater (S i') sel' Hs) as [? Hall].
      split; [done|]. eapply Forall_impl; [exact Hall|].
      intros j Hj. simpl in *. lia.
    + lia.
Qed.

(** [add_path] is the sequence of calls of [add_sample] on the samples
    of the path, for indices that it draws among the later steps. *)
Lemma add_path_samples (b : Buffer V) (path : Path V) (n : nat) (g : Rng) :
  path_ok path n → (1 ≤ n)%nat → 0 ≤ k b →
  ∃ sels g',
    length sels = (n - 1)%nat ∧ later_steps (k b) n 0 sels ∧
    add_path b path g
    = (b' ← add_samples b (hindsight_samples (env b) path sels); Return (b', g')).
Proof.
  intros Hok Hn Hk.
  destruct (add_path_loop path n Hok (k b) (env b) n Hk 0%nat g eq_refl)
    as (sels & g' & Hlen & Hlater & Hloop).
  exists sels, g'. split_and!; [done..|].
  unfold add_path, hindsight_samples, py_range.
  rewrite (ok_rewards _ _ Hok). cbv zeta. rewrite Z.sub_0_r.
  by apply Hloop.
Qed.

(** C6. [add_path] of the buffer with states inserts the samples of a
    path of [n >= 1] steps with hindsight relabeling: for indices [sels]
    that it draws, [k] indices of strictly later steps for each step but
    the last, it is the sequence of calls of [add_sample] with, for each
    step, the sample of the step and then one relabeled sample for each
    index drawn for it: [n + k * (n - 1)] samples.  The sample of step [i]
    relabeled with the drawn index [j] has as its goal the achieved goal
    of the next observation of step [j]; the observation and the next
    observation of step [i] with that goal concatenated onto them; and as
    its reward [env.compute_reward] of the achieved goal of step [i] and
    of that goal. *)
Theorem add_path_hindsight_relabeling (b : Buffer V) (path : Path V) (n : nat)
    (g : Rng) :
  path_ok path n → (1 ≤ n)%nat → 0 ≤ k b →
  ∃ sels g',
    length sels = (n - 1)%nat ∧
    (∀ i sel, sels !! i = Some sel → length sel = Z.to_nat (k b)) ∧
    Z.of_nat (length (hindsight_samples (env b) path sels))
    = Z.of_nat n + k b * (Z.of_nat n - 1) ∧
    add_path b path g
    = (b' ← add_samples b (hindsight_samples (env b) path sels); Return (b', g')) ∧
    ∀ i sel j, sels !! i = Some sel → j ∈ sel →
      Z.of_nat i < j < Z.of_nat n ∧
      ∃ d d' dj o o' ag gj a t,
        observations path !! i = Some d ∧
        next_observations path !! i = Some d' ∧
        next_observations path !! Z.to_nat j = Some dj ∧
        d !! "observation" = Some o ∧ d' !! "observation" = Some o' ∧
        d' !! "achieved_goal" = Some ag ∧ dj !! "achieved_goal" = Some gj ∧
        actions path !! i = Some a ∧ terminals path !! i = Some t ∧
        relabeled (env b) path i j
        = (o ++ gj, a, [compute_reward (env b) ag gj], t, o' ++ gj).
Proof.
  intros Hok Hn Hk.
  destruct (add_path_samples b path n g Hok Hn Hk)
    as (sels & g' & Hlen & Hlater & Hrun).
  exists sels, g'. split; [done|]. split; [intros i sel Hs; by apply (Hlater i sel)|].
  split.
  { unfold hindsight_samples. rewrite (ok_rewards _ _ Hok).
    rewrite (length_samples_from _ _ (k b) n n 0 sels Hlater Hlen). nia. }
  split; [done|].
  intros i sel j Hs Hj.
  destruct (Hlater i sel Hs) as [_ Hall].
  pose proof (proj1 (Forall_forall _ _) Hall j Hj) as Hr. simpl in Hr.
  pose proof (lookup_lt_Some _ _ _ Hs) as Hi.
  split; [lia|].
  destruct (lookup_lt_is_Some_2 (observations path) i) as [d Hd].
  { rewrite (ok_observations _ _ Hok). lia. }
  destruct (lookup_lt_is_Some_2 (next_observations path) i) as [d' Hd'].
  { rewrite (ok_next_observations _ _ Hok). lia. }
  destruct (lookup_lt_is_Some_2 (next_observations path) (Z.to_nat j)) as [dj Hdj].
  { rewrite (ok_next_observations _ _ Hok). lia. }
  destruct (lookup_lt_is_Some_2 (actions path) i) as [a Ha].
  { rewrite (ok_actions _ _ Hok). lia. }
  destruct (lookup_lt_is_Some_2 (terminals path) i) as [t Ht].
  { rewrite (ok_terminals _ _ Hok). lia. }
  destruct (proj1 (Forall_lookup _ _) (ok_obs_keys _ _ Hok) i d Hd) as [[o Ho] _].
  destruct (proj1 (Forall_lookup _ _) (ok_next_obs_keys _ _ Hok) i d' Hd')
    as ([o' Ho'] & _ & [ag Hag]).
  destruct (proj1 (Forall_lookup _ _) (ok_next_obs_keys _ _ Hok) _ dj Hdj)
    as (_ & _ & [gj Hgj]).
  exists d, d', dj, o, o', ag, gj, a, t. split_and!; try done.
  unfold relabeled, field, row_at.
  rewrite Hd, Hd', Hdj, Ha, Ht. simpl. by rewrite Ho, Ho', Hag, Hgj.
Qed.
End NewStateHindsight.

Section NewStateHindsightWitness.
Import NewStateObsDict NewStateSpec Examples.

Lemma path3_ok (a : Z) : path_ok (path3 a) 3.
Proof.
  constructor; try done.
  - repeat constructor; by eexists.
  - repeat constructor; by eexists.
Qed.

Lemma add_path_hindsight_relabeling_witness :
  ∃ sels g',
    length sels = (3 - 1)%nat ∧
    (∀ i sel, sels !! i = Some sel → length sel = Z.to_nat (k fresh_newstate)) ∧
    Z.of_nat (length (hindsight_samples (env fresh_newstate) (path3 10) sels))
    = Z.of_nat 3 + k fresh_newstate * (Z.of_nat 3 - 1) ∧
    add_path fresh_newstate (path3 10) sevens
    = (b' ← add_samples fresh_newstate
              (hindsight_samples (env fresh_newstate) (path3 10) sels);
       Return (b', g')) ∧
    ∀ i sel j, sels !! i = Some sel → j ∈ sel →
      Z.of_nat i < j < Z.of_nat 3 ∧
      ∃ d d' dj o o' ag gj a t,
        observations (path3 10) !! i = Some d ∧
        next_observations (path3 10) !! i = Some d' ∧
        next_observations (path3 10) !! Z.to_nat j = Some dj ∧
        d !! "observation" = Some o ∧ d' !! "observation" = Some o' ∧
        d' !! "achieved_goal" = Some ag ∧ dj !! "achieved_goal" = Some gj ∧
        actions (path3 10) !! i = Some a ∧ terminals (path3 10) !! i = Some t ∧
        relabeled (env fresh_newstate) (path3 10) i j
        = (o ++ gj, a, [compute_reward (env fresh_newstate) ag gj], t, o' ++ gj).
Proof.
  apply (add_path_hindsight_relabeling fresh_newstate (path3 10) 3 sevens).
  - apply path3_ok.
  - lia.
  - simpl. lia.
Defined.

(** The same call, evaluated: seven samples go through a buffer of four
    slots; the rewards of the relabeled samples are recomputed. *)
Example add_path_newstate :
  (λ '(b', _), (_top b', _size b', rows (_obs b'), rows (_rewards b')))
    <$> add_path fresh_newstate (path3 10) sevens
  = Return (3, 4, [[10; 2; 4]; [10; 2; 4]; [10; 3; 9]; [10; 2; 9]],
            [[-1]; [-1]; [-1]; [-1]]).
Proof. vm_compute. reflexivity. Qed.
End NewStateHindsightWitness.

Section NewStateInvariant.
Context {V : Type} `{Scalar V}.
Import NewStateObsDict NewStateSpec.
Implicit Types (b : Buffer V) (hist : list (Sample V)).

(** What one call of [add_sample] that returns makes of a buffer. *)
Lemma add_sample_Return b o a r t o' b' :
  shaped b → add_sample b o a r t o' = Return b' →
  shaped b' ∧ max_size b' = max_size b ∧
  _top b' = (_top b + 1) `mod` max_size b ∧
  _size b' = (if bool_decide (_size b < max_size b) then _size b + 1 else _size b) ∧
  stores b' (Z.to_nat (_top b)) (o, a, r, t, o') ∧
  ∀ i s, i ≠ Z.to_nat (_top b) → stores b i s → stores b' i s.
Proof.
  intros Hb Hrun. pose proof (shaped_top b Hb) as Htop.
  unfold add_sample in Hrun.
  apply bind_Return in Hrun as (acts & Ha & Hrun).
  apply bind_Return in Hrun as (rews & Hr & Hrun).
  apply bind_Return in Hrun as (terms & Ht & Hrun).
  apply bind_Return in Hrun as (obs & Ho & Hrun).
  apply bind_Return in Hrun as (nobs & Hno & Hrun).
  unfold _advance in Hrun. simpl in Hrun.
  rewrite (bool_decide_eq_false_2 (max_size b = 0)) in Hrun by lia.
  simpl in Hrun. injection Hrun as <-.
  apply setitem_row_Return in Ha as (ka & ra & Hka & Hra & ->).
  apply setitem_row_Return in Hr as (kr & rr & Hkr & Hrr & ->).
  apply setitem_row_Return in Ht as (kt & rt & Hkt & Hrt & ->).
  apply setitem_row_Return in Ho as (ko & ro & Hko & Hro & ->).
  apply setitem_row_Return in Hno as (kn & rn & Hkn & Hrn & ->).
  apply py_index_Return in Hka as [Hla Hka], Hkr as [Hlr Hkr], Hkt as [Hlt Hkt],
    Hko as [Hlo Hko], Hkn as [Hln Hkn].
  rewrite Hka, Hkr, Hkt, Hko, Hkn in * by lia.
  split_and!; simpl; try done.
  - constructor; simpl; rewrite ?length_insert; try apply Hb.
    apply Z.mod_pos_bound. lia.
  - unfold row_holds. simpl. split_and!; eexists; (split; [eassumption|]);
      by apply list_lookup_insert_eq.
  - intros i [[[[so sa] sr] st] sn] Hi (Ho' & Ha' & Hr' & Ht' & Hn').
    unfold stores, row_holds in *. simpl.
    rewrite !list_lookup_insert_ne by done. done.
Qed.

Lemma invariant_nil b0 :
  shaped b0 → _top b0 = 0 → _size b0 = 0 → invariant [] b0.
Proof.
  intros Hb Htop Hsize. pose proof (shaped_top b0 Hb).
  constructor; simpl; [done| | |done].
  - by rewrite Htop, Z.mod_0_l by lia.
  - lia.
Qed.

Lemma invariant_add_sample hist b o a r t o' b' :
  invariant hist b → add_sample b o a r t o' = Return b' →
  invariant (hist ++ [(o, a, r, t, o')]) b'.
Proof.
  intros Hinv Hrun.
  pose proof (shaped_top b (inv_shaped _ _ Hinv)) as Htop.
  destruct (add_sample_Return _ _ _ _ _ _ _ (inv_shaped _ _ Hinv) Hrun)
    as (Hb' & Hm & Htop' & Hsize' & Hnew & Hold).
  assert (Hpos : _top b = position (max_size b) (length hist))
    by apply (inv_top _ _ Hinv).
  constructor; rewrite ?Hm, ?length_app; simpl.
  - done.
  - rewrite Htop', (inv_top _ _ Hinv), Zplus_mod_idemp_l. f_equal. lia.
  - rewrite Hsize', (inv_size _ _ Hinv). clear Hsize'. case_bool_decide; lia.
  - intros g s Hg Hlive.
    destruct (decide (g < length hist)%nat) as [Hlt|Hge].
    + rewrite lookup_app_l in Hg by done. apply Hold.
      * rewrite Hpos. intros Heq.
        apply Z2Nat.inj in Heq; [|apply position_bound; lia..].
        revert Heq. apply position_apart; lia.
      * apply (inv_stores _ _ Hinv); [done|lia].
    + pose proof (lookup_lt_Some _ _ _ Hg) as Hlt.
      rewrite length_app in Hlt. simpl in Hlt.
      assert (g = length hist) as -> by lia.
      rewrite lookup_app_r, Nat.sub_diag in Hg by lia. injection Hg as <-.
      by rewrite <- Hpos.
Qed.

Lemma invariant_add_samples (l : list (Sample V)) :
  ∀ hist b b', invariant hist b → add_samples b l = Return b' →
               invariant (hist ++ l) b'.
Proof.
  induction l as [|[[[[o a] r] t] o'] l IH]; intros hist b b' Hinv; simpl.
  - intros [= <-]. by rewrite app_nil_r.
  - intros (b1 & H1 & Hrest)%bind_Return.
    rewrite (cons_middle _ hist l), app_assoc.
    eapply IH; [|exact Hrest]. by eapply invariant_add_sample.
Qed.





End NewStateInvariant.

(** ** [imgObsDictRelabelingBuffer] *)

Section ImgAddSample.
Context {V : Type} `{Scalar V}.
Import ImgObsDict ImgSpec.
Implicit Types (b : Buffer V) (w : World V).

Lemma first_stores_Return b action reward terminal a1 r1 t1 :
  first_stores b action reward terminal = Return (a1, r1, t1) →
  setitem_row (_actions b) (_top b) action = Return a1 ∧
  setitem_row (_rewards b) (_top b) reward = Return r1 ∧
  setitem_row (_terminals b) (_top b) terminal = Return t1.
Proof.
  unfold first_stores.
  intros (a & Ha & (r & Hr & (t & Ht & [= <- <- <-])%bind_Return)%bind_Return)%bind_Return.
  done.
Qed.

(** The stores of the [try] block succeed and the capacity is not zero:
    [add_sample] returns, with the five rows stored and the pointer
    advanced. *)
Lemma img_add_sample_stored obs action reward terminal next_obs w a1 r1 t1 o1 n1 :
  first_stores (self w) action reward terminal = Return (a1, r1, t1) →
  guarded_stores (self w) obs next_obs = Return (o1, n1) →
  max_size (self w) ≠ 0 →
  add_sample obs action reward terminal next_obs w
  = (Return tt,
     {| self := with_pointers (with_arrays (self w) a1 t1 r1 o1 n1)
                  ((_top (self w) + 1) `mod` max_size (self w))
                  (if bool_decide (_size (self w) < max_size (self w))
                   then _size (self w) + 1 else _size (self w));
        rng := rng w; stdout := stdout w |}).
Proof.
  intros (Ha & Hr & Ht)%first_stores_Return Hg Hm.
  unfold guarded_stores in Hg.
  apply bind_Return in Hg as (o & Ho & (n & Hn & [= <- <-])%bind_Return).
  unfold add_sample, store, _advance, try_except, set_self, get, lift, raise.
  unfold mbind, exec_bind, mret, exec_ret. simpl.
  rewrite Ha. simpl. rewrite Hr. simpl. rewrite Ht. simpl.
  rewrite Ho. simpl. rewrite Hn. simpl.
  rewrite bool_decide_eq_false_2 by done. done.
Qed.

(** A store of the [try] block raises: [add_sample] prints the debugging
    lines and raises the same exception; the pointers are as they were. *)
Lemma img_add_sample_reraises obs action reward terminal next_obs w a1 r1 t1 e :
  first_stores (self w) action reward terminal = Return (a1, r1, t1) →
  guarded_stores (self w) obs next_obs = Raise e →
  ∃ w', add_sample obs action reward terminal next_obs w = (Raise e, w') ∧
    _top (self w') = _top (self w) ∧ _size (self w') = _size (self w) ∧
    rng w' = rng w ∧
    stdout w' = stdout w
                  ++ debug_output e (_top (self w)) obs next_obs terminal.
Proof.
  intros (Ha & Hr & Ht)%first_stores_Return Hg.
  unfold guarded_stores in Hg.
  unfold add_sample, store, _advance, try_except, set_self, get, lift, raise, print.
  unfold mbind, exec_bind, mret, exec_ret. simpl.
  rewrite Ha. simpl. rewrite Hr. simpl. rewrite Ht. simpl.
  destruct (setitem_row (_obs (self w)) (_top (self w)) obs) as [e'|o] eqn:Ho;
    simpl in *.
  - injection Hg as ->. eexists. split; [reflexivity|]. simpl.
    split_and!; try done. by rewrite <- !app_assoc.
  - destruct (setitem_row (_next_obs (self w)) (_top (self w)) next_obs)
      as [e'|n] eqn:Hn; simpl in *; [|done].
    injection Hg as ->. eexists. split; [reflexivity|]. simpl.
    split_and!; try done. by rewrite <- !app_assoc.
Qed.

(** A store before the [try] block raises: so does [add_sample]. *)
Lemma img_add_sample_first_raises obs action reward terminal next_obs w e :
  first_stores (self w) action reward terminal = Raise e →
  ∃ w', add_sample obs action reward terminal next_obs w = (Raise e, w').
Proof.
  unfold first_stores. intros Hf.
  unfold add_sample, store, _advance, try_except, set_self, get, lift, raise.
  unfold mbind, exec_bind, mret, exec_ret. simpl.
  destruct (setitem_row (_actions (self w)) (_top (self w)) action)
    as [e1|a1]; simpl in *; [injection Hf as ->; eauto|].
  destruct (setitem_row (_rewards (self w)) (_top (self w)) reward)
    as [e1|r1]; simpl in *; [injection Hf as ->; eauto|].
  destruct (setitem_row (_terminals (self w)) (_top (self w)) terminal)
    as [e1|t1]; simpl in *; [injection Hf as ->; eauto|done].
Qed.

Lemma img_add_sample_zero_capacity obs action reward terminal next_obs w a1 r1 t1 o1 n1 :
  first_stores (self w) action reward terminal = Return (a1, r1, t1) →
  guarded_stores (self w) obs next_obs = Return (o1, n1) →
  max_size (self w) = 0 →
  ∃ w', add_sample obs action reward terminal next_obs w
        = (Raise ZeroDivisionError, w').
Proof.
  intros (Ha & Hr & Ht)%first_stores_Return Hg Hm.
  unfold guarded_stores in Hg.
  apply bind_Return in Hg as (o & Ho & (n & Hn & [= <- <-])%bind_Return).
  unfold add_sample, store, _advance, try_except, set_self, get, lift, raise.
  unfold mbind, exec_bind, mret, exec_ret. simpl.
  rewrite Ha. simpl. rewrite Hr. simpl. rewrite Ht. simpl.
  rewrite Ho. simpl. rewrite Hn. simpl.
  rewrite bool_decide_eq_true_2 by done. eauto.
Qed.

(** If [add_sample] returns, all its stores have succeeded. *)
Lemma img_add_sample_Return obs action reward terminal next_obs w w' :
  add_sample obs action reward terminal next_obs w = (Return tt, w') →
  ∃ a1 r1 t1 o1 n1,
    first_stores (self w) action reward terminal = Return (a1, r1, t1) ∧
    guarded_stores (self w) obs next_obs = Return (o1, n1) ∧
    max_size (self w) ≠ 0.
Proof.
  intros Hrun.
  destruct (first_stores (self w) action reward terminal) as [e|[[a1 r1] t1]] eqn:Hf.
  { destruct (img_add_sample_first_raises obs action reward terminal next_obs w e Hf)
      as (w'' & Hw''). congruence. }
  destruct (guarded_stores (self w) obs next_obs) as [e|[o1 n1]] eqn:Hg.
  { destruct (img_add_sample_reraises obs action reward terminal next_obs w
                a1 r1 t1 e Hf Hg) as (w'' & Hw'' & _). congruence. }
  destruct (decide (max_size (self w) = 0)) as [Hm|Hm].
  { destruct (img_add_sample_zero_capacity obs action reward terminal next_obs w
                a1 r1 t1 o1 n1 Hf Hg Hm) as (w'' & Hw''). congruence. }
  by exists a1, r1, t1, o1, n1.
Qed.
End ImgAddSample.

Section ImgReraise.
Context {V : Type} `{Scalar V}.
Import ImgObsDict ImgSpec.

(** C8. In [add_sample] of the image buffer, once the stores of the
    action, the reward and the terminal have succeeded: an exception
    raised by the store of the observation or of the next observation is
    caught, the debugging lines are printed, and the same exception is
    raised again, [_top] and [_size] being as they were; [add_sample]
    returns exactly when these two stores succeed, and then [_top] has
    advanced by one modulo [max_size] and nothing has been printed. *)
Theorem add_sample_reraises (w : World V)
    (obs action reward terminal next_obs : Row V) (a1 r1 t1 : ndarray V) :
  length (rows (_obs (self w))) = Z.to_nat (max_size (self w)) →
  first_stores (self w) action reward terminal = Return (a1, r1, t1) →
  (∀ e, guarded_stores (self w) obs next_obs = Raise e →
     ∃ w', add_sample obs action reward terminal next_obs w = (Raise e, w') ∧
       _top (self w') = _top (self w) ∧ _size (self w') = _size (self w) ∧
       stdout w' = stdout w
                     ++ debug_output e (_top (self w)) obs next_obs terminal) ∧
  ((∃ w', add_sample obs action reward terminal next_obs w = (Return tt, w')) ↔
   (∃ o1 n1, guarded_stores (self w) obs next_obs = Return (o1, n1))) ∧
  (∀ w', add_sample obs action reward terminal next_obs w = (Return tt, w') →
     _top (self w') = (_top (self w) + 1) `mod` max_size (self w) ∧
     stdout w' = stdout w).
Proof.
  intros Hshape Hf. split_and!.
  - intros e Hg.
    destruct (img_add_sample_reraises obs action reward terminal next_obs w
                a1 r1 t1 e Hf Hg) as (w' & Hrun & Htop & Hsize & _ & Hout).
    by exists w'.
  - split.
    + intros (w' & Hrun).
      destruct (img_add_sample_Return _ _ _ _ _ _ _ Hrun)
        as (_ & _ & _ & o1 & n1 & _ & Hg & _).
      by exists o1, n1.
    + intros (o1 & n1 & Hg). eexists.
      apply (img_add_sample_stored obs action reward terminal next_obs w
               a1 r1 t1 o1 n1 Hf Hg).
      unfold guarded_stores in Hg.
      apply bind_Return in Hg as (o & Ho & _).
      apply setitem_row_Return in Ho as (k & _ & Hk & _).
      apply py_index_Return in Hk as [Hk _]. lia.
  - intros w' Hrun.
    destruct (img_add_sample_Return _ _ _ _ _ _ _ Hrun)
      as (a1' & r1' & t1' & o1 & n1 & Hf' & Hg & Hm).
    rewrite (img_add_sample_stored obs action reward terminal next_obs w
               a1' r1' t1' o1 n1 Hf' Hg Hm) in Hrun.
    injection Hrun as <-. done.
Qed.
End ImgReraise.

Section ImgReraiseWitness.
Import ImgObsDict ImgSpec Examples.

(** An observation of three entries does not fit the rows of two entries
    of [_obs]: numpy raises [ValueError]. *)
Lemma add_sample_reraises_witness :
  (∀ e, guarded_stores (self img_world) [1; 2; 3] [1; 2] = Raise e →
     ∃ w', add_sample [1; 2; 3] [5] [0] [0] [1; 2] img_world = (Raise e, w') ∧
       _top (self w') = _top (self img_world) ∧
       _size (self w') = _size (self img_world) ∧
       stdout w' = stdout img_world
                     ++ debug_output e (_top (self img_world)) [1; 2; 3] [1; 2] [0]) ∧
  ((∃ w', add_sample [1; 2; 3] [5] [0] [0] [1; 2] img_world = (Return tt, w')) ↔
   (∃ o1 n1, guarded_stores (self img_world) [1; 2; 3] [1; 2] = Return (o1, n1))) ∧
  (∀ w', add_sample [1; 2; 3] [5] [0] [0] [1; 2] img_world = (Return tt, w') →
     _top (self w') = (_top (self img_world) + 1) `mod` max_size (self img_world) ∧
     stdout w' = stdout img_world).
Proof.
  apply (add_sample_reraises img_world [1; 2; 3] [5] [0] [0] [1; 2]
           (NdArray 1 [[5]; [0]; [0]; [0]]) (zeros 4 1) (zeros 4 1)).
  - reflexivity.
  - reflexivity.
Defined.

(** The failing call, evaluated: the exception, the pointers, and the
    first line printed. *)
Example add_sample_value_error :
  (λ '(r, w'), (r, _top (self w'), _size (self w'), head (stdout w')))
    (add_sample [1; 2; 3] [5] [0] [0] [1; 2] img_world)
  = (Raise ValueError, 0, 0,
     Some (PrintException "[DEBUG] Ran into exception:" ValueError)).
Proof. vm_compute. reflexivity. Qed.

(** A call that fits: the pointer advances. *)
Example add_sample_advances :
  (λ '(r, w'), (r, _top (self w'), _size (self w'), rows (_obs (self w')), stdout w'))
    (add_sample [1; 2] [5] [0] [0] [2; 3] img_world)
  = (Return tt, 1, 1, [[1; 2]; [0; 0]; [0; 0]; [0; 0]], []).
Proof. vm_compute. reflexivity. Qed.
End ImgReraiseWitness.

Section ImgInvariant.
Context {V : Type} `{Scalar V}.
Import ImgObsDict ImgSpec.
Implicit Types (b : Buffer V) (w : World V) (hist : list (Sample V)).

(** What one call of [add_sample] that returns makes of the buffer. *)
Lemma img_add_sample_spec obs action reward terminal next_obs w w' :
  shaped (self w) →
  add_sample obs action reward terminal next_obs w = (Return tt, w') →
  shaped (self w') ∧ max_size (self w') = max_size (self w) ∧
  _top (self w') = (_top (self w) + 1) `mod` max_size (self w) ∧
  _size (self w') = (if bool_decide (_size (self w) < max_size (self w))
                     then _size (self w) + 1 else _size (self w)) ∧
  stores (self w') (Z.to_nat (_top (self w)))
    (obs, action, reward, terminal, next_obs) ∧
  ∀ i s, i ≠ Z.to_nat (_top (self w)) → stores (self w) i s → stores (self w') i s.
Proof.
  intros Hb Hrun. pose proof (shaped_top _ Hb) as Htop.
  destruct (img_add_sample_Return _ _ _ _ _ _ _ Hrun)
    as (a1 & r1 & t1 & o1 & n1 & Hf & Hg & Hm).
  rewrite (img_add_sample_stored _ _ _ _ _ _ _ _ _ _ _ Hf Hg Hm) in Hrun.
  injection Hrun as <-. simpl.
  apply first_stores_Return in Hf as (Ha & Hr & Ht).
  unfold guarded_stores in Hg.
  apply bind_Return in Hg as (o & Ho & (n & Hn & [= <- <-])%bind_Return).
  apply setitem_row_Return in Ha as (ka & ra & Hka & Hra & ->).
  apply setitem_row_Return in Hr as (kr & rr & Hkr & Hrr & ->).
  apply setitem_row_Return in Ht as (kt & rt & Hkt & Hrt & ->).
  apply setitem_row_Return in Ho as (ko & ro & Hko & Hro & ->).
  apply setitem_row_Return in Hn as (kn & rn & Hkn & Hrn & ->).
  apply py_index_Return in Hka as [Hla Hka], Hkr as [Hlr Hkr], Hkt as [Hlt Hkt],
    Hko as [Hlo Hko], Hkn as [Hln Hkn].
  rewrite Hka, Hkr, Hkt, Hko, Hkn in * by lia.
  split; [|split; [done|split; [done|split; [done|split]]]].
  - constructor; simpl; rewrite ?length_insert; try apply Hb.
    apply Z.mod_pos_bound. lia.
  - unfold stores, row_holds. simpl.
    split_and!; eexists; (split; [eassumption|]);
      by apply list_lookup_insert_eq.
  - intros i [[[[so sa] sr] st] sn] Hi (Ho' & Ha' & Hr' & Ht' & Hn').
    unfold stores, row_holds in *. simpl.
    rewrite !list_lookup_insert_ne by done. done.
Qed.

Lemma img_invariant_nil b0 :
  shaped b0 → _top b0 = 0 → _size b0 = 0 → invariant [] b0.
Proof.
  intros Hb Htop Hsize. pose proof (shaped_top b0 Hb).
  constructor; simpl; [done| | |done].
  - by rewrite Htop, Z.mod_0_l by lia.
  - lia.
Qed.

Lemma img_invariant_add_sample hist o a r t o' w w' :
  invariant hist (self w) → add_sample o a r t o' w = (Return tt, w') →
  invariant (hist ++ [(o, a, r, t, o')]) (self w').
Proof.
  intros Hinv Hrun.
  pose proof (shaped_top _ (inv_shaped _ _ Hinv)) as Htop.
  destruct (img_add_sample_spec _ _ _ _ _ _ _ (inv_shaped _ _ Hinv) Hrun)
    as (Hb' & Hm & Htop' & Hsize' & Hnew & Hold).
  assert (Hpos : _top (self w) = position (max_size (self w)) (length hist))
    by apply (inv_top _ _ Hinv).
  constructor; rewrite ?Hm, ?length_app; simpl.
  - done.
  - rewrite Htop', (inv_top _ _ Hinv), Zplus_mod_idemp_l. f_equal. lia.
  - rewrite Hsize', (inv_size _ _ Hinv). clear Hsize'. case_bool_decide; lia.
  - intros g s Hg Hlive.
    destruct (decide (g < length hist)%nat) as [Hlt|Hge].
    + rewrite lookup_app_l in Hg by done. apply Hold.
      * rewrite Hpos. intros Heq.
        apply Z2Nat.inj in Heq; [|apply position_bound; lia..].
        revert Heq. apply position_apart; lia.
      * apply (inv_stores _ _ Hinv); [done|lia].
    + pose proof (lookup_lt_Some _ _ _ Hg) as Hlt.
      rewrite length_app in Hlt. simpl in Hlt.
      assert (g = length hist) as -> by lia.
      rewrite lookup_app_r, Nat.sub_diag in Hg by lia. injection Hg as <-.
      by rewrite <- Hpos.
Qed.







End ImgInvariant.

(** ** Every slot below the size is valid *)

Section FreshBuffers.
Context {V : Type} `{Scalar V} `{FloatRounding}.



End FreshBuffers.

Section ValidSlots.
Context {V : Type} `{Scalar V} `{FloatRounding}.

End ValidSlots.

Section ValidSlotsWitness.
Import ObsDict ObsDictSpec Examples.
#[local] Existing Instance exact.

End ValidSlotsWitness.

(** ** The assertions on the configuration fractions *)

Section FractionLemmas.
Context {V : Type} `{Scalar V} `{FloatRounding}.

Lemma bind_Raise {A B} (m : result A) (f : A → result B) (e : exn) :
  m ≫= f = Raise e → m = Raise e ∨ ∃ x, m = Return x ∧ f x = Raise e.
Proof. destruct m as [e'|x]; simpl; [intros [= ->]; by left | eauto]. Qed.

Lemma np_full_Raise (x : V) (n : Z) (d : nat) (e : exn) :
  np_full x n d = Raise e → e = ValueError.
Proof. unfold np_full. case_bool_decide; [by intros [= <-]|done]. Qed.

Lemma dict_getitem_Raise {A} (d : gmap string A) (key : string) (e : exn) :
  dict_getitem d key = Raise e → e = KeyError key.
Proof. unfold dict_getitem. destruct (d !! key); [done|by intros [= <-]]. Qed.

(** The only assertion of the loop that allocates the observations is
    the one on the keys. *)
Lemma allocate_obs_Raise (e : Env V) (m : Z) (keys : list string) (message : string) :
  ObsDict.allocate_obs e m keys = Raise (AssertionError message) →
  ∃ key, message = "Key not found in the observation space: " +:+ key.
Proof.
  unfold ObsDict.allocate_obs. generalize (∅ : gmap string (ndarray V), ∅ : gmap string (ndarray V)).
  induction keys as [|k keys IH]; intros [o no]; simpl; [done|].
  intros [Hraise|([o1 no1] & _ & Hrest)]%bind_Raise; [|by eapply IH].
  apply bind_Raise in Hraise as [Hassert|(_ & _ & Hraise)].
  { unfold py_assert in Hassert. case_bool_decide; [done|].
    injection Hassert as <-. eauto. }
  apply bind_Raise in Hraise as [Hd%dict_getitem_Raise|(d & _ & Hraise)]; [done|].
  apply bind_Raise in Hraise as [Hd%np_full_Raise|(a & _ & Hraise)]; [done|].
  apply bind_Raise in Hraise as [Hd%np_full_Raise|(a' & _ & Hraise)]; done.
Qed.

Lemma key_message_not_fraction (key message : string) :
  message ∈ fraction_assertions →
  message ≠ "Key not found in the observation space: " +:+ key.
Proof.
  unfold fraction_assertions. intros Hin ->.
  repeat (apply elem_of_cons in Hin as [Hin|Hin]; [discriminate|]).
  by apply not_elem_of_nil in Hin.
Qed.

Lemma fractions_ok_asserts (fr fe : Q) :
  (∀ x, 0 <= x → 0 <= rnd x)%Q → fractions_ok fr fe →
  Qle_bool 0 fr = true ∧ Qle_bool 0 fe = true ∧
  Qle_bool 0 (float_add fr fe) = true ∧ Qle_bool (float_add fr fe) 1 = true.
Proof.
  intros Hrnd (Hr & He & Hsum). rewrite !Qle_bool_iff. split_and!; try done.
  unfold float_add. apply Hrnd. lra.
Qed.

Lemma asserts_fractions_ok (fr fe : Q) :
  Qle_bool 0 fr = true → Qle_bool 0 fe = true →
  Qle_bool (float_add fr fe) 1 = true → fractions_ok fr fe.
Proof. rewrite !Qle_bool_iff. by intros ? ? ?. Qed.
End FractionLemmas.

Section FractionChecks.
Context {V : Type} `{Scalar V} `{FloatRounding}.

Lemma py_assert_Raise (cond : bool) (message : string) (e : exn) :
  py_assert cond message = Raise e → cond = false ∧ e = AssertionError message.
Proof. destruct cond; simpl; [done|by intros [= <-]]. Qed.

Lemma isinstance_message_not_fraction (message : string) :
  message ∈ fraction_assertions →
  message ≠ "isinstance(env.observation_space, Dict)".
Proof.
  unfold fraction_assertions. intros Hin ->.
  repeat (apply elem_of_cons in Hin as [Hin|Hin]; [discriminate|]).
  by apply not_elem_of_nil in Hin.
Qed.

Lemma guarded_raises {A} (is_dict : bool) (fr fe : Q) (rest : result A) :
  ¬ fractions_ok fr fe → raises_AssertionError (guarded is_dict fr fe rest).
Proof.
  intros Hno. unfold guarded, raises_AssertionError.
  destruct is_dict; simpl; [|eauto].
  destruct (Qle_bool 0 fr) eqn:Hr; simpl; [|eauto].
  destruct (Qle_bool 0 fe) eqn:He; simpl; [|eauto].
  destruct (Qle_bool 0 (float_add fr fe)) eqn:Hs; simpl; [|eauto].
  destruct (Qle_bool (float_add fr fe) 1) eqn:Hs'; simpl; [|eauto].
  destruct Hno. by apply asserts_fractions_ok.
Qed.

Lemma guarded_passes {A} (is_dict : bool) (fr fe : Q) (rest : result A) :
  (∀ x, 0 <= x → 0 <= rnd x)%Q → fractions_ok fr fe →
  passes_fraction_assertions rest →
  passes_fraction_assertions (guarded is_dict fr fe rest).
Proof.
  intros Hrnd (Hr & He & Hs & Hs')%fractions_ok_asserts Hrest message Hin; [|done].
  unfold guarded. rewrite Hr, He, Hs, Hs'. destruct is_dict; simpl.
  - by apply Hrest.
  - intros [= <-]. by eapply isinstance_message_not_fraction.
Qed.

Lemma obsdict_init_checks (m : Z) (e : Env V)
    (ik gk : option (list string)) (ok dk ak : string) :
  (∀ x, 0 <= x → 0 <= rnd x)%Q →
  checks_fractions (λ fr fe, ObsDict.__init__ m e fr fe ik gk ok dk ak).
Proof.
  intros Hrnd fr fe. split.
  - apply (guarded_raises (observation_space_is_Dict e)).
  - intros Hok. apply (guarded_passes (observation_space_is_Dict e)); [done..|].
    intros message Hin Hraise.
    apply bind_Raise in Hraise as [Hd%np_full_Raise|(a & _ & Hraise)]; [done|].
    apply bind_Raise in Hraise as [Hd%np_full_Raise|(a' & _ & Hraise)]; [done|].
    apply bind_Raise in Hraise as [[key ->]%allocate_obs_Raise|([o no] & _ & Hraise)];
      [|done].
    by eapply key_message_not_fraction.
Qed.

Lemma img_init_checks (m : Z) (e : Env V) (re : ImgObsDict.RerenderingEnv V)
    (k : Z) (ik gk : option (list string)) (ok dk ak : string)
    (t_fn : option (Row V → Row V)) :
  (∀ x, 0 <= x → 0 <= rnd x)%Q →
  checks_fractions (λ fr fe, ImgObsDict.__init__ m e re k fr fe ik gk ok dk ak t_fn).
Proof.
  intros Hrnd fr fe. split.
  - apply (guarded_raises (observation_space_is_Dict e)).
  - intros Hok. apply (guarded_passes (observation_space_is_Dict e)); [done..|].
    intros message Hin Hraise.
    do 3 (apply bind_Raise in Hraise as [Hd%np_full_Raise|(? & _ & Hraise)]; [done|]).
    apply bind_Raise in Hraise as [Hd%dict_getitem_Raise|(? & _ & Hraise)]; [done|].
    do 2 (apply bind_Raise in Hraise as [Hd%np_full_Raise|(? & _ & Hraise)]; [done|]).
    done.
Qed.

Lemma newstate_init_checks (m : Z) (e : Env V)
    (k : Z) (ik gk : option (list string)) (ok dk ak : string)
    (t_fn : option (Row V → Row V)) :
  (∀ x, 0 <= x → 0 <= rnd x)%Q →
  checks_fractions (λ fr fe, NewStateObsDict.__init__ m e k fr fe ik gk ok dk ak t_fn).
Proof.
  intros Hrnd fr fe. split.
  - apply (guarded_raises (observation_space_is_Dict e)).
  - intros Hok. apply (guarded_passes (observation_space_is_Dict e)); [done..|].
    intros message Hin Hraise.
    do 3 (apply bind_Raise in Hraise as [Hd%np_full_Raise|(? & _ & Hraise)]; [done|]).
    apply bind_Raise in Hraise as [Hd%dict_getitem_Raise|(? & _ & Hraise)]; [done|].
    do 2 (apply bind_Raise in Hraise as [Hd%np_full_Raise|(? & _ & Hraise)]; [done|]).
    done.
Qed.

(** C7. Each of the three constructors raises an [AssertionError] when
    the fractions violate one of [0 <= fraction_goals_rollout_goals],
    [0 <= fraction_goals_env_goals] and
    [fraction_goals_rollout_goals + fraction_goals_env_goals <= 1] (the sum
    being the floating-point one the code computes), and none of its four
    assertions on the fractions fails when all three hold.  The default
    fractions [1.0] and [0.0] satisfy them, and so do all nonnegative
    fractions whose exact sum is at most one.  The rounding of the sum is
    assumed monotone and exact on [0] and [1]. *)
Theorem fraction_assertions_checked :
  (∀ x y, x <= y → rnd x <= rnd y)%Q → (rnd 0 == 0)%Q → (rnd 1 == 1)%Q →
  (∀ max_size e internal_keys goal_keys observation_key desired_goal_key
     achieved_goal_key,
     checks_fractions (λ fraction_goals_rollout_goals fraction_goals_env_goals,
       ObsDict.__init__ (V:=V) max_size e
         fraction_goals_rollout_goals fraction_goals_env_goals
         internal_keys goal_keys observation_key desired_goal_key
         achieved_goal_key)) ∧
  (∀ max_size e rerendering_env k internal_keys goal_keys observation_key
     desired_goal_key achieved_goal_key t_fn,
     checks_fractions (λ fraction_goals_rollout_goals fraction_goals_env_goals,
       ImgObsDict.__init__ (V:=V) max_size e rerendering_env k
         fraction_goals_rollout_goals fraction_goals_env_goals
         internal_keys goal_keys observation_key desired_goal_key
         achieved_goal_key t_fn)) ∧
  (∀ max_size e k internal_keys goal_keys observation_key desired_goal_key
     achieved_goal_key t_fn,
     checks_fractions (λ fraction_goals_rollout_goals fraction_goals_env_goals,
       NewStateObsDict.__init__ (V:=V) max_size e k
         fraction_goals_rollout_goals fraction_goals_env_goals
         internal_keys goal_keys observation_key desired_goal_key
         achieved_goal_key t_fn)) ∧
  fractions_ok 1 0 ∧
  (∀ fraction_goals_rollout_goals fraction_goals_env_goals,
     (0 <= fraction_goals_rollout_goals)%Q → (0 <= fraction_goals_env_goals)%Q →
     (fraction_goals_rollout_goals + fraction_goals_env_goals <= 1)%Q →
     fractions_ok fraction_goals_rollout_goals fraction_goals_env_goals).
Proof.
  intros Hmono Hzero Hone.
  assert (∀ x, 0 <= x → 0 <= rnd x)%Q as Hrnd.
  { intros x Hx. rewrite <- Hzero. by apply Hmono. }
  assert (∀ fr fe, 0 <= fr → 0 <= fe → fr + fe <= 1 → fractions_ok fr fe)%Q as Hsum.
  { intros fr fe Hr He Hs. split_and!; [done..|].
    unfold float_add. rewrite <- Hone. by apply Hmono. }
  split_and!.
  - intros. by apply obsdict_init_checks.
  - intros. by apply img_init_checks.
  - intros. by apply newstate_init_checks.
  - apply Hsum; lra.
  - done.
Qed.
End FractionChecks.

Section FractionExamples.
Import Examples.
#[local] Existing Instance exact.

Lemma fraction_assertions_checked_witness :
  (rnd 0 == 0)%Q ∧ (rnd 1 == 1)%Q ∧
  checks_fractions (λ fraction_goals_rollout_goals fraction_goals_env_goals,
    ObsDict.__init__ 4 reach_env
      fraction_goals_rollout_goals fraction_goals_env_goals
      None None "observation" "desired_goal" "achieved_goal") ∧
  fractions_ok 1 0.
Proof.
  assert (rnd 0 == 0)%Q as Hzero by reflexivity.
  assert (rnd 1 == 1)%Q as Hone by reflexivity.
  pose proof (fraction_assertions_checked (V:=Z) (λ x y Hxy, Hxy) Hzero Hone)
    as (Hobs & _ & _ & Hdefault & _).
  split_and!; [done..|apply Hobs|done].
Defined.

(** A negative fraction stops each constructor at its first assertion on
    the fractions; the default fractions construct the buffer. *)
Example init_negative_fraction :
  ObsDict.__init__ 4 reach_env (-1 # 2) 1 None None
    "observation" "desired_goal" "achieved_goal"
  = Raise (AssertionError "0 <= fraction_goals_rollout_goals") ∧
  NewStateObsDict.__init__ 4 reach_env 2 (1 # 2) (3 # 4) None None
    "observation" "desired_goal" "achieved_goal" None
  = Raise (AssertionError
      "fraction_goals_rollout_goals + fraction_goals_env_goals <= 1").
Proof. split; reflexivity. Qed.
End FractionExamples.

(** ** [run_evaluation]: a confirmation before every step *)

Section EvalLemmas.
Import Eval EvalSpec.
Context {V E G A : Type}.
Context (x : Externals V E G A).

Lemma calls_app (k : Kind) (ks ks' : list Kind) :
  calls k (ks ++ ks') = (calls k ks + calls k ks')%nat.
Proof. unfold calls. by rewrite filter_app, length_app. Qed.

Lemma confirmed_prefix (ks ks' : list Kind) :
  confirmed ks → ks' `prefix_of` ks → confirmed ks'.
Proof.
  intros Hks [rest ->] p Hp.
  destruct (Hks p) as (q & -> & Hq); [by apply lookup_app_l_Some|].
  exists q. split; [done|].
  apply lookup_lt_Some in Hp. rewrite lookup_app_l in Hq; [done|lia].
Qed.

Lemma confirmed_iterations (L : Z) (l : list Z) :
  confirmed (concat (iteration_kinds L <$> l)).
Proof.
  induction l as [|i l IH]; intros p; simpl; [done|].
  destruct (decide (p < length (iteration_kinds L i))%nat) as [Hlt|Hge].
  - rewrite lookup_app_l by done. intros Hp.
    assert (∃ q, p = S q ∧ iteration_kinds L i !! q = Some KInput) as (q & -> & Hq).
    { revert Hp. clear. unfold iteration_kinds. case_bool_decide; simpl.
      - destruct p as [|[|[|[|[|[|?]]]]]]; simpl; try done. by exists 3%nat.
      - destruct p as [|[|[|[|?]]]]; simpl; try done. by exists 1%nat. }
    exists q. split; [done|]. by apply lookup_app_l_Some.
  - rewrite lookup_app_r by lia. intros (q & Hq & Hin)%IH.
    exists (length (iteration_kinds L i) + q)%nat. split; [lia|].
    rewrite lookup_app_r by lia. rewrite <- Hin. f_equal. lia.
Qed.

Lemma exec_bind_inv {S B C} (m : Exec S B) (f : B → Exec S C) (s s' : S)
    (r : result C) :
  (m ≫= f) s = (r, s') →
  (∃ e, m s = (Raise e, s') ∧ r = Raise e) ∨
  (∃ a s1, m s = (Return a, s1) ∧ f a s1 = (r, s')).
Proof.
  unfold mbind, exec_bind. destruct (m s) as [[e|a] s1].
  - intros [= <- <-]. left. eauto.
  - intros Hf. right. eauto.
Qed.

Lemma extends_refl (w : World V E G A) : extends w [] 0 w.
Proof. split; [by rewrite app_nil_r|lia]. Qed.

Lemma extends_trans (w1 w2 w3 : World V E G A) (evs evs' : list (Event V A))
    (n n' : nat) :
  extends w1 evs n w2 → extends w2 evs' n' w3 → extends w1 (evs ++ evs') (n + n') w3.
Proof.
  intros [Ht Hn] [Ht' Hn']. split; [by rewrite Ht', Ht, app_assoc|lia].
Qed.

Lemma do_print_extends (text : string) (w w' : World V E G A) (r : result unit) :
  do_print text w = (r, w') → r = Return tt ∧ extends w [Print text] 0 w' ∧
    obs w' = obs w.
Proof. intros [= <- <-]. split_and!; [done| |done]. split; simpl; [done|lia]. Qed.

Lemma do_reset_extends (w w' : World V E G A) (r : result unit) :
  do_reset x w = (r, w') → extends w [Reset] 0 w'.
Proof.
  unfold do_reset, mbind, exec_bind, get, lift, log, set_env, set_obs. simpl.
  destruct (env_reset x (env w)) as [e|[o e]]; intros [= <- <-];
    (split; simpl; [done|lia]).
Qed.

Lemma do_get_action_extends (w w' : World V E G A) (r : result A) :
  do_get_action x w = (r, w') →
  (extends w [] 0 w' ∧ ∃ e, r = Raise e) ∨ (∃ o, extends w [GetAction o] 0 w').
Proof.
  unfold do_get_action, mbind, exec_bind, get, lift, log, set_agent. simpl.
  destruct (obs w) as [o|]; simpl.
  - destruct (dict_getitem o "observation") as [e|row]; simpl.
    + intros [= <- <-]. left. split; [apply extends_refl|eauto].
    + destruct (get_action x (agent w) row) as [e|[a g]]; intros [= <- <-];
        right; exists row; (split; simpl; [done|lia]).
  - intros [= <- <-]. left. split; [apply extends_refl|eauto].
Qed.

Lemma do_input_extends (prompt : string) (w w' : World V E G A) (r : result string) :
  do_input x prompt w = (r, w') →
  (extends w [Input prompt] 0 w' ∧ ∃ e, r = Raise e) ∨
  (extends w [Input prompt] 1 w' ∧ ∃ line, r = Return line).
Proof.
  unfold do_input, mbind, exec_bind, get, lift, log, line_read. simpl.
  destruct (user x (lines_read w)) as [e|line]; intros [= <- <-]; [left|right];
    (split; [split; simpl; [done|lia]|eauto]).
Qed.

Lemma do_step_extends (action : A) (w w' : World V E G A) (r : result unit) :
  do_step x action w = (r, w') → extends w [Step action] 0 w'.
Proof.
  unfold do_step, mbind, exec_bind, get, lift, log, set_env, set_obs. simpl.
  destruct (env_step x (env w) action) as [e|[o e]]; intros [= <- <-];
    (split; simpl; [done|lia]).
Qed.

Lemma do_render_extends (w w' : World V E G A) (r : result unit) :
  do_render x w = (r, w') → extends w [Render] 0 w'.
Proof.
  unfold do_render, mbind, exec_bind, get, lift, log, set_env. simpl.
  destruct (env_render x (env w)) as [e|e]; intros [= <- <-];
    (split; simpl; [done|lia]).
Qed.

(** The head of an iteration: the reset at the start of an episode. *)
Lemma episode_start_extends (L i : Z) (w w' : World V E G A) (r : result unit) :
  (if bool_decide (i `mod` L = 0) then _ ← do_print "Reset Episode"; do_reset x
   else mret tt) w = (r, w') →
  ∃ evs, extends w evs 0 w' ∧
    kind <$> evs = if bool_decide (i `mod` L = 0) then [KPrint; KReset] else [].
Proof.
  case_bool_decide.
  - intros [(e & [? _]%do_print_extends & _)|([] & w1 & Hp & Hr)]%exec_bind_inv;
      [done|].
    apply do_print_extends in Hp as (_ & Hp & _). apply do_reset_extends in Hr.
    eexists. split; [apply (extends_trans _ _ _ _ _ _ _ Hp Hr)|done].
  - intros [= <- <-]. exists []. split; [apply extends_refl|done].
Qed.

Lemma extends_count (w w' : World V E G A) (evs : list (Event V A)) (n n' : nat) :
  extends w evs n w' → n = n' → extends w evs n' w'.
Proof. by intros ? <-. Qed.

(** The calls made so far are those of the statement of the lemma
    below. *)
Ltac close_iteration Hacc Hkinds Hhead0 :=
  eexists; split_and!;
  [ eapply extends_count;
    [exact Hacc|rewrite ?fmap_app, Hkinds, ?calls_app, Hhead0; reflexivity]
  | rewrite ?fmap_app, Hkinds, <- ?app_assoc; apply prefix_app; simpl;
    by eexists
  | intros c' Hc';
    first [ discriminate
          | injection Hc' as <-; split; [done|];
            by rewrite ?fmap_app, Hkinds, <- ?app_assoc ] ].

(** One iteration: its calls are the first calls of a full iteration,
    all of them when it returns; it reads one line for each call of
    [env.step]; and it does not leave the loop. *)
Lemma iteration_trace (L i : Z) (w w' : World V E G A) (r : result Flow) :
  L ≠ 0 → iteration x L i w = (r, w') →
  ∃ evs, extends w evs (calls KStep (kind <$> evs)) w' ∧
    kind <$> evs `prefix_of` iteration_kinds L i ∧
    (∀ c, r = Return c → c = Continue ∧ kind <$> evs = iteration_kinds L i).
Proof.
  intros HL. unfold iteration, iteration_kinds.
  rewrite (bool_decide_eq_false_2 (L = 0)) by done.
  intros [(e & [=] & _)|([] & ? & [= <-] & Hrun)]%exec_bind_inv.
  apply exec_bind_inv in Hrun as [(e & Hhead & ->)|([] & w1 & Hhead & Hrun)];
    apply episode_start_extends in Hhead as (evs0 & Hhead & Hkinds).
  { exists evs0. rewrite Hkinds. split_and!; [|by apply prefix_app_r|done].
    replace (calls KStep _) with 0%nat; [done|]. by case_bool_decide. }
  set (head := if bool_decide (i `mod` L = 0) then [KPrint; KReset] else [])
    in *.
  assert (calls KStep head = 0%nat) as Hhead0 by (subst head; by case_bool_decide).
  apply exec_bind_inv in Hrun as [(e & Hga & ->)|(a & w2 & Hga & Hrun)];
    apply do_get_action_extends in Hga as [[Hga Hraise]|[o Hga]];
    pose proof (extends_trans _ _ _ _ _ _ _ Hhead Hga) as Hacc; clear Hhead Hga.
  { close_iteration Hacc Hkinds Hhead0. }
  { close_iteration Hacc Hkinds Hhead0. }
  { by destruct Hraise as [? [=]]. }
  apply exec_bind_inv in Hrun as [(e & Hin & ->)|(line & w3 & Hin & Hrun)];
    apply do_input_extends in Hin as [[Hin Hraise]|[Hin Hret]];
    pose proof (extends_trans _ _ _ _ _ _ _ Hacc Hin) as Hacc'; clear Hacc Hin.
  { close_iteration Hacc' Hkinds Hhead0. }
  { by destruct Hret as [? [=]]. }
  { by destruct Hraise as [? [=]]. }
  apply exec_bind_inv in Hrun as [(e & Hst & ->)|([] & w4 & Hst & Hrun)];
    apply do_step_extends in Hst;
    pose proof (extends_trans _ _ _ _ _ _ _ Hacc' Hst) as Hacc; clear Hacc' Hst.
  { close_iteration Hacc Hkinds Hhead0. }
  apply exec_bind_inv in Hrun as [(e & Hre & ->)|([] & w5 & Hre & Hrun)];
    apply do_render_extends in Hre;
    pose proof (extends_trans _ _ _ _ _ _ _ Hacc Hre) as Hacc'; clear Hacc Hre.
  { close_iteration Hacc' Hkinds Hhead0. }
  injection Hrun as <- <-.
  close_iteration Hacc' Hkinds Hhead0.
Qed.

(** The loop: the calls are the first calls of the iterations in turn. *)
Lemma loop_trace (L : Z) (l : list Z) (w w' : World V E G A) (r : result unit) :
  L ≠ 0 → for_each l (iteration x L) w = (r, w') →
  ∃ evs, extends w evs (calls KStep (kind <$> evs)) w' ∧
    kind <$> evs `prefix_of` concat (iteration_kinds L <$> l) ∧
    (r = Return tt → kind <$> evs = concat (iteration_kinds L <$> l)).
Proof.
  intros HL. revert w. induction l as [|i l IH]; intros w; cbn [for_each].
  - intros [= <- <-]. exists []. split_and!; [apply extends_refl|done..].
  - intros [(e & Hit & ->)|(c & w1 & Hit & Hrest)]%exec_bind_inv;
      apply iteration_trace in Hit as (evs & Hext & Hpre & Hret); try done.
    + exists evs. split_and!; [done| |done]. simpl. by apply prefix_app_r.
    + destruct (Hret c eq_refl) as [-> Hkinds].
      apply IH in Hrest as (evs' & Hext' & Hpre' & Hret').
      exists (evs ++ evs'). rewrite fmap_app, calls_app, Hkinds. simpl.
      split_and!.
      * rewrite <- Hkinds. by eapply extends_trans.
      * by apply prefix_app.
      * intros Hr. by rewrite Hret'.
Qed.

Lemma exec_bind_returns {S B C} (m : Exec S B) (f : B → Exec S C) (s s1 : S) (a : B) :
  m s = (Return a, s1) → (m ≫= f) s = f a s1.
Proof. unfold mbind, exec_bind. by intros ->. Qed.

Lemma do_reset_returns (w : World V E G A) :
  answers x → ∃ w', do_reset x w = (Return tt, w') ∧ ready w'.
Proof.
  intros Hx. destruct (answers_reset x Hx (env w)) as (o & e & Hreset & Ho).
  unfold do_reset, mbind, exec_bind, get, lift, log, set_env, set_obs. simpl.
  rewrite Hreset. eexists. split; [done|]. by exists o.
Qed.

Lemma do_get_action_returns (w : World V E G A) :
  answers x → ready w →
  ∃ a w', do_get_action x w = (Return a, w') ∧ obs w' = obs w.
Proof.
  intros Hx (o & Hobs & row & Hrow).
  destruct (answers_get_action x Hx (agent w) row) as (a & g & Hga).
  unfold do_get_action, mbind, exec_bind, get, lift, log, set_agent. simpl.
  rewrite Hobs. simpl. unfold dict_getitem. rewrite Hrow. simpl. rewrite Hga.
  by eexists _, _.
Qed.

Lemma do_input_returns (prompt : string) (w : World V E G A) :
  answers x → ∃ line w', do_input x prompt w = (Return line, w') ∧ obs w' = obs w.
Proof.
  intros Hx. destruct (answers_user x Hx (lines_read w)) as (line & Hline).
  unfold do_input, mbind, exec_bind, get, lift, log, line_read. simpl.
  rewrite Hline. by eexists _, _.
Qed.

Lemma do_step_returns (action : A) (w : World V E G A) :
  answers x → ∃ w', do_step x action w = (Return tt, w') ∧ ready w'.
Proof.
  intros Hx. destruct (answers_step x Hx (env w) action) as (o & e & Hstep & Ho).
  unfold do_step, mbind, exec_bind, get, lift, log, set_env, set_obs. simpl.
  rewrite Hstep. eexists. split; [done|]. by exists o.
Qed.

Lemma do_render_returns (w : World V E G A) :
  answers x → ∃ w', do_render x w = (Return tt, w') ∧ obs w' = obs w.
Proof.
  intros Hx. destruct (answers_render x Hx (env w)) as (e & Hrender).
  unfold do_render, mbind, exec_bind, get, lift, log, set_env. simpl.
  rewrite Hrender. by eexists.
Qed.

(** When every call is answered, an iteration that starts an episode, or
    that finds [obs] bound, returns. *)
Lemma iteration_returns (L i : Z) (w : World V E G A) :
  answers x → L ≠ 0 → i `mod` L = 0 ∨ ready w →
  ∃ w', iteration x L i w = (Return Continue, w') ∧ ready w'.
Proof.
  intros Hx HL Hstart. unfold iteration.
  rewrite (bool_decide_eq_false_2 (L = 0)) by done.
  rewrite (exec_bind_returns _ _ w w tt) by done.
  assert (∃ w1, (if bool_decide (i `mod` L = 0)
                 then _ ← do_print "Reset Episode"; do_reset x
                 else mret tt) w = (Return tt, w1) ∧ ready w1) as (w1 & Hhead & Hw1).
  { case_bool_decide.
    - destruct (do_reset_returns
                  {| env := env w; agent := agent w; obs := obs w;
                     lines_read := lines_read w;
                     trace := trace w ++ [Print "Reset Episode"] |} Hx)
        as (w1 & Hreset & Hw1).
      exists w1. split; [|done].
      by rewrite (exec_bind_returns _ _ w _ tt) by reflexivity.
    - exists w. split; [done|]. by destruct Hstart. }
  rewrite (exec_bind_returns _ _ _ _ _ Hhead).
  destruct (do_get_action_returns w1 Hx Hw1) as (a & w2 & Hga & Hobs2).
  rewrite (exec_bind_returns _ _ _ _ _ Hga).
  destruct (do_input_returns "press enter to take action..." w2 Hx)
    as (line & w3 & Hin & Hobs3).
  rewrite (exec_bind_returns _ _ _ _ _ Hin).
  destruct (do_step_returns a w3 Hx) as (w4 & Hst & Hw4).
  rewrite (exec_bind_returns _ _ _ _ _ Hst).
  destruct (do_render_returns w4 Hx) as (w5 & Hre & Hobs5).
  rewrite (exec_bind_returns _ _ _ _ _ Hre).
  exists w5. split; [done|]. unfold ready. by rewrite Hobs5.
Qed.

Lemma loop_returns (L : Z) (l : list Z) (w : World V E G A) :
  answers x → L ≠ 0 → ready w ∨ (∃ i l', l = i :: l' ∧ i `mod` L = 0) ∨ l = [] →
  ∃ w', for_each l (iteration x L) w = (Return tt, w').
Proof.
  intros Hx HL. revert w. induction l as [|i l IH]; intros w Hstart.
  - by exists w.
  - destruct (iteration_returns L i w Hx HL) as (w1 & Hit & Hw1).
    { destruct Hstart as [?|[(? & ? & [= <- _] & ?)|[=]]]; eauto. }
    cbn [for_each]. rewrite (exec_bind_returns _ _ _ _ _ Hit).
    apply IH. by left.
Qed.

(** The run: the environment is wrapped, and the loop runs over
    [range(150)] with episodes of 50 steps. *)
Lemma run_evaluation_loop (w w' : World V E G A) (r : result unit) :
  run_evaluation x w = (r, w') →
  (∃ e, wrap_environment x (env w) = Raise e ∧ r = Raise e ∧ w' = w) ∨
  (∃ w1, trace w1 = trace w ∧ lines_read w1 = lines_read w ∧
     for_each (py_range 0 150) (iteration x 50) w1 = (r, w')).
Proof.
  unfold run_evaluation. unfold mbind at 1 2 3, exec_bind at 1 2 3, get, lift, set_env.
  destruct (wrap_environment x (env w)) as [e|e].
  - intros [= <- <-]. left. eauto.
  - intros Hloop. right. eexists. split_and!; [| |exact Hloop]; done.
Qed.

Lemma run_evaluation_returns (w : World V E G A) :
  answers x → ∃ w', run_evaluation x w = (Return tt, w').
Proof.
  intros Hx. destruct (answers_wrap x Hx (env w)) as (e & Hwrap).
  unfold run_evaluation. unfold mbind at 1 2 3, exec_bind at 1 2 3, get, lift, set_env.
  rewrite Hwrap. apply loop_returns; [done..|].
  right. left. exists 0, (seqZ 1 149). by split.
Qed.


Lemma step_confirmed (evs : list (Event V A)) (p : nat) (action : A) :
  confirmed (kind <$> evs) → evs !! p = Some (Step action) →
  ∃ q prompt, p = S q ∧ evs !! q = Some (Input prompt).
Proof.
  intros Hevs Hp. destruct (Hevs p) as (q & -> & Hq).
  { by rewrite list_lookup_fmap, Hp. }
  rewrite list_lookup_fmap in Hq.
  destruct (evs !! q) as [[]|] eqn:Hev; try done. by eexists _, _.
Qed.

Lemma reset_iterations (i : Z) :
  0 ≤ i < 150 → KReset ∈ iteration_kinds 50 i ↔ i = 0 ∨ i = 50 ∨ i = 100.
Proof.
  intros Hi. unfold iteration_kinds. case_bool_decide as Hmod.
  - split; [intros _|intros _; set_solver].
    revert Hmod. Z.div_mod_to_equations. lia.
  - split; [set_solver|]. intros [-> | [-> | ->]]; by destruct Hmod.
Qed.

(** C10. [run_evaluation] makes the calls of 150 iterations, up to the
    first call that raises: the calls it makes are the first calls of
    iterations 0 to 149 in turn, where an iteration prints and resets the
    environment when its index is a multiple of 50, that is at 0, 50 and
    100, and then asks the policy for an action, prompts the user, steps
    the environment and renders.  Every call of [env.step] comes directly
    after a call of [input] (which has returned, as a call that raises ends
    the run), and a line has been read for each call of [env.step].  When
    the run returns, all these calls were made: 150 prompts, 150 steps, 3
    resets and 150 lines read.  The run returns when the simulator, the
    policy and the user answer every call. *)
Theorem run_evaluation_confirms_each_step (w w' : World V E G A) (r : result unit) :
  run_evaluation x w = (r, w') →
  ∃ evs,
    trace w' = trace w ++ evs ∧
    kind <$> evs `prefix_of` concat (iteration_kinds 50 <$> py_range 0 150) ∧
    (∀ p action, evs !! p = Some (Step action) →
       ∃ q prompt, p = S q ∧ evs !! q = Some (Input prompt)) ∧
    lines_read w' = (lines_read w + calls KStep (kind <$> evs))%nat ∧
    (r = Return tt →
       kind <$> evs = concat (iteration_kinds 50 <$> py_range 0 150) ∧
       calls KInput (kind <$> evs) = 150%nat ∧
       calls KStep (kind <$> evs) = 150%nat ∧
       calls KReset (kind <$> evs) = 3%nat ∧
       lines_read w' = (lines_read w + 150)%nat) ∧
    (answers x → r = Return tt) ∧
    length (py_range 0 150) = 150%nat ∧
    (∀ i, 0 ≤ i < 150 →
       (KReset ∈ iteration_kinds 50 i ↔ i = 0 ∨ i = 50 ∨ i = 100) ∧
       calls KInput (iteration_kinds 50 i) = 1%nat ∧
       calls KStep (iteration_kinds 50 i) = 1%nat).
Proof.
  intros Hrun.
  assert (answers x → r = Return tt) as Hlive.
  { intros Hx. destruct (run_evaluation_returns w Hx) as (w'' & Hret).
    rewrite Hret in Hrun. by injection Hrun as <- _. }
  assert (∀ i, 0 ≤ i < 150 →
            (KReset ∈ iteration_kinds 50 i ↔ i = 0 ∨ i = 50 ∨ i = 100) ∧
            calls KInput (iteration_kinds 50 i) = 1%nat ∧
            calls KStep (iteration_kinds 50 i) = 1%nat) as Hiter.
  { intros i Hi. split; [by apply reset_iterations|].
    unfold iteration_kinds. by case_bool_decide. }
  apply run_evaluation_loop in Hrun
    as [(e & Hwrap & -> & ->)|(w1 & Htrace & Hlines & Hloop)].
  { exists []. rewrite app_nil_r.
    split_and!; try done; first [apply prefix_nil|simpl; lia]. }
  apply loop_trace in Hloop as (evs & [Hevs Hread] & Hprefix & Hret); [|done].
  exists evs. rewrite <- Htrace, <- Hlines. split_and!; try done.
  - intros p action. apply step_confirmed.
    eapply confirmed_prefix; [apply confirmed_iterations|done].
  - intros Hr. rewrite Hread, (Hret Hr). by vm_compute.
Qed.
End EvalLemmas.

Section EvalExamples.
Import Eval EvalSpec Examples.

Lemma counting_answers : answers counting.
Proof.
  constructor; simpl; intros; try by eexists.
  - eexists _, _. split; [done|]. by rewrite lookup_singleton.
  - eexists _, _. split; [done|]. by rewrite lookup_singleton.
  - by eexists _, _.
Qed.

Lemma run_evaluation_confirms_each_step_witness :
  run_evaluation counting eval_world
  = (Return tt, (run_evaluation counting eval_world).2) ∧
  ∃ evs,
    trace (run_evaluation counting eval_world).2 = trace eval_world ++ evs ∧
    calls KStep (kind <$> evs) = 150%nat ∧
    lines_read (run_evaluation counting eval_world).2 = 150%nat.
Proof.
  assert (run_evaluation counting eval_world
          = (Return tt, (run_evaluation counting eval_world).2)) as Hrun.
  { vm_compute. reflexivity. }
  split; [exact Hrun|].
  destruct (run_evaluation_confirms_each_step counting _ _ _ Hrun)
    as (evs & Htrace & _ & _ & _ & Hret & _).
  destruct (Hret eq_refl) as (_ & _ & Hsteps & _ & Hlines).
  exists evs. split_and!; [exact Htrace|exact Hsteps|exact Hlines].
Defined.

(** The first episode of the run: the reset, then four calls for each
    step. *)
Example run_evaluation_first_calls :
  take 10 (trace (run_evaluation counting eval_world).2)
  = [Print "Reset Episode"; Reset;
     GetAction [0]; Input "press enter to take action..."; Step 1; Render;
     GetAction [1]; Input "press enter to take action..."; Step 1; Render].
Proof. vm_compute. reflexivity. Qed.

(** A user who closes the input after two lines: the third prompt raises
    and [env.step] is not called a third time. *)
Example run_evaluation_input_closed :
  (run_evaluation two_lines eval_world).1 = Raise EOFError ∧
  kind <$> trace (run_evaluation two_lines eval_world).2
  = [KPrint; KReset; KGetAction; KInput; KStep; KRender;
     KGetAction; KInput; KStep; KRender; KGetAction; KInput] ∧
  lines_read (run_evaluation two_lines eval_world).2 = 2%nat.
Proof. vm_compute. done. Qed.
End EvalExamples.

(** ** [ObsDictRelabelingBuffer.random_batch]: the goals of a batch *)

Section GoalCounts.
Context `{FloatRounding}.

(** [int(x)] of a float that is not negative is its integer part. *)
Lemma int_of_float_nonneg (x : Q) :
  (0 <= x)%Q → 0 ≤ int_of_float x ∧ (inject_Z (int_of_float x) <= x)%Q.
Proof.
  destruct x as [n d]. unfold Qle, int_of_float. simpl. intros Hn.
  rewrite Z.mul_1_r in *. rewrite Z.quot_div_nonneg by lia.
  split; [apply Z.div_pos; lia|].
  rewrite Z.mul_comm. apply Z.mul_div_le. lia.
Qed.

(** The two counts that are products are not negative, and their sum is
    at most the size of the batch. *)
Lemma goal_counts_bound (u eta : Q) (fr fe : Q) (batch_size : Z) :
  rounds_within u eta → (0 <= u)%Q → (u < 1)%Q → (0 <= eta)%Q →
  fractions_ok fr fe → 1 ≤ batch_size → small_batch u eta batch_size →
  let nr := int_of_float (int_mul_float batch_size fr) in
  let ne := int_of_float (int_mul_float batch_size fe) in
  0 ≤ nr ∧ 0 ≤ ne ∧ ne + nr ≤ batch_size.
Proof.
  intros Hrnd Hu Hu1 Heta (Hfr & Hfe & Hsum) HB Hsmall nr ne.
  unfold int_mul_float, float_mul, float_of_int in nr, ne.
  unfold float_add in Hsum. unfold small_batch in Hsmall.
  set (B := inject_Z batch_size) in *.
  assert (1 <= B)%Q as HB1.
  { subst B. change 1%Q with (inject_Z 1). by rewrite <- Zle_Qle. }
  pose proof (rnd_nonneg u eta Hrnd B ltac:(lra)) as HBf0.
  pose proof (rnd_upper u eta Hrnd B ltac:(lra)) as HBf.
  set (Bf := rnd B) in *.
  assert (0 <= Bf * fr)%Q as Hxr0 by (apply Qmult_le_0_compat; lra).
  assert (0 <= Bf * fe)%Q as Hxe0 by (apply Qmult_le_0_compat; lra).
  pose proof (rnd_nonneg u eta Hrnd _ Hxr0) as Hr0.
  pose proof (rnd_nonneg u eta Hrnd _ Hxe0) as He0.
  pose proof (rnd_upper u eta Hrnd _ Hxr0) as Hr.
  pose proof (rnd_upper u eta Hrnd _ Hxe0) as He.
  pose proof (rnd_lower u eta Hrnd (fr + fe)%Q ltac:(lra)) as Hs.
  destruct (int_of_float_nonneg _ Hr0) as [Hnr0 Hnr].
  destruct (int_of_float_nonneg _ He0) as [Hne0 Hne].
  fold nr in Hnr0, Hnr. fold ne in Hne0, Hne.
  split_and!; [done..|].
  cut (ne + nr < batch_size + 1); [lia|].
  rewrite Zlt_Qlt. rewrite !inject_Z_plus. fold B. change (inject_Z 1) with 1%Q.
  set (xr := rnd (Bf * fr)) in *. set (xe := rnd (Bf * fe)) in *.
  set (s := (fr + fe)%Q) in *.
  assert ((1 - u) * s <= 1 + eta)%Q as Hs1 by lra.
  assert (xr + xe <= (1 + u) * (Bf * s) + 2 * eta)%Q as Hx by (subst s; lra).
  assert (0 <= s)%Q as Hs0 by (subst s; lra).
  assert (Bf * ((1 - u) * s) <= Bf * (1 + eta))%Q as Hm1 by nra.
  assert (Bf * (1 + eta) <= ((1 + u) * B + eta) * (1 + eta))%Q as Hm2 by nra.
  assert ((1 - u) * (xr + xe) < (1 - u) * (B + 1))%Q as Hfinal by nra.
  apply Qmult_lt_l in Hfinal; lra.
Qed.
End GoalCounts.

Section SliceLemmas.
Context {V : Type}.
Implicit Types (a : ndarray V) (vals : list (Row V)).

Lemma slice_indices_bound (n : nat) (lo hi : Z) (s m : nat) :
  slice_indices n lo hi = (s, m) → (s + m ≤ n)%nat.
Proof.
  unfold slice_indices, slice_bound. intros [= <- <-].
  repeat case_bool_decide; lia.
Qed.

(** The last [k] positions: [-k:]. *)
Lemma slice_indices_tail (n : nat) (k : Z) :
  0 < k ≤ Z.of_nat n →
  slice_indices n (- k) (Z.of_nat n) = ((n - Z.to_nat k)%nat, Z.to_nat k).
Proof.
  intros Hk. unfold slice_indices, slice_bound.
  rewrite bool_decide_eq_true_2 by lia. rewrite bool_decide_eq_false_2 by lia.
  f_equal; lia.
Qed.

Lemma getslice_tail {A} (l : list A) (k : Z) :
  0 < k ≤ Z.of_nat (length l) →
  getslice l (- k) (Z.of_nat (length l)) = drop (length l - Z.to_nat k) l.
Proof.
  intros Hk. unfold getslice. rewrite slice_indices_tail by done.
  apply take_ge. rewrite length_drop. lia.
Qed.

(** What an assignment to a slice that returns makes of the array. *)
Lemma setitem_slice_Return a (lo hi : Z) vals a' (s m : nat) :
  slice_indices (length (rows a)) lo hi = (s, m) →
  setitem_slice a lo hi vals = Return a' →
  ncols a' = ncols a ∧ length (rows a') = length (rows a) ∧
  ∃ rs, mapM (broadcast_row (ncols a)) vals = Return rs ∧
    (∀ p, (p < s ∨ s + m ≤ p)%nat → rows a' !! p = rows a !! p) ∧
    (∀ q, (q < m)%nat → is_Some (slice_value rs m q) ∧
       rows a' !! (s + q)%nat = slice_value rs m q).
Proof.
  intros Hslice. pose proof (slice_indices_bound _ _ _ _ _ Hslice) as Hbound.
  unfold setitem_slice. rewrite Hslice.
  intros (rs & Hrs & Hrun)%bind_Return.
  case_bool_decide as Hlen.
  - injection Hrun as <-. simpl. rewrite length_inserts.
    split_and!; [done..|]. exists rs. split_and!; [done| |].
    + intros p [Hp|Hp].
      * by apply list_lookup_inserts_lt.
      * apply list_lookup_inserts_ge. lia.
    + intros q Hq. unfold slice_value. rewrite bool_decide_eq_true_2 by done.
      split; [apply lookup_lt_is_Some_2; lia|].
      rewrite list_lookup_inserts by lia. f_equal. lia.
  - destruct rs as [|r [|??]]; try done. injection Hrun as <-. simpl.
    rewrite length_inserts.
    split_and!; [done..|]. exists [r]. split_and!; [done| |].
    + intros p [Hp|Hp].
      * by apply list_lookup_inserts_lt.
      * apply list_lookup_inserts_ge. rewrite length_replicate. lia.
    + intros q Hq. unfold slice_value. rewrite bool_decide_eq_false_2 by done.
      split; [by eexists|].
      rewrite list_lookup_inserts by (rewrite ?length_replicate; lia).
      apply lookup_replicate_2. lia.
Qed.

(** Indexing with an array of indices, row by row. *)
Lemma take_rows_getitem a (indices : list Z) (sub : ndarray V) :
  take_rows a indices = Return sub →
  ncols sub = ncols a ∧ length (rows sub) = length indices ∧
  ∀ p i, indices !! p = Some i →
    ∃ r, getitem (rows a) i = Return r ∧ rows sub !! p = Some r.
Proof.
  unfold take_rows. intros (rs & Hrs & [= <-])%bind_Return. simpl.
  split_and!; [done|by eapply mapM_Return_length|].
  intros p i Hi. destruct (mapM_Return_lookup _ _ _ _ _ Hrs Hi) as (r & Hr & Hget).
  by exists r.
Qed.
End SliceLemmas.

Section BatchGoals.
Context {V : Type} `{Scalar V} `{FloatRounding}.
Import ObsDict.
Implicit Types (b : Buffer V).

Lemma dict_getitem_Return {A} (d : gmap string A) (key : string) (x : A) :
  dict_getitem d key = Return x → d !! key = Some x.
Proof. unfold dict_getitem. destruct (d !! key); [by intros [= ->]|done]. Qed.

Lemma postprocess_obs_dict_lookup (d : gmap string (ndarray V)) (key : string) :
  postprocess_obs_dict d !! key
  = (λ obs, if str_contains "image" key
            then NdArray (ncols obs) (normalize_image (rows obs)) else obs)
      <$> d !! key.
Proof.
  unfold postprocess_obs_dict. rewrite map_lookup_imap. by destruct (d !! key).
Qed.

(** The array that [postprocess_obs_dict] returns under [key], row by
    row. *)
Lemma postprocess_rows (d : gmap string (ndarray V)) (key : string)
    (a a' : ndarray V) :
  d !! key = Some a → dict_getitem (postprocess_obs_dict d) key = Return a' →
  ncols a' = ncols a ∧ rows a' = post_row key <$> rows a.
Proof.
  intros Ha Ha'%dict_getitem_Return.
  rewrite postprocess_obs_dict_lookup, Ha in Ha'. injection Ha' as <-.
  unfold post_row. destruct (str_contains "image" key); simpl; [done|].
  by rewrite list_fmap_id.
Qed.

(** Each index that the loop picks is in the list of future indices of
    the sampled index it is picked for. *)
Lemma pick_future_obs_idxs_Return b (last_indices : list Z) (g : Rng)
    (future_obs_idxs : list Z) (g' : Rng) :
  pick_future_obs_idxs b last_indices g = Return (future_obs_idxs, g') →
  Forall2 (λ i j, ∃ l, getitem (_idx_to_future_obs_idx b) i = Return (Some l) ∧
                       j ∈ l)
    last_indices future_obs_idxs.
Proof.
  unfold pick_future_obs_idxs.
  match goal with |- foldM ?f _ _ = _ → _ => set (body := f) end.
  assert (∀ lst acc g fut g',
            foldM body (acc, g) lst = Return (fut, g') →
            ∃ new, fut = acc ++ new ∧
              Forall2 (λ i j, ∃ l,
                 getitem (_idx_to_future_obs_idx b) i = Return (Some l) ∧ j ∈ l)
                lst new) as Hgen.
  { clear. induction lst as [|i lst IH]; intros acc g fut g'; cbn [foldM].
    - intros [= <- <-]. exists []. by rewrite app_nil_r.
    - intros ([acc1 g1] & Hstep & Hrest)%bind_Return.
      apply IH in Hrest as (new & -> & Hnew).
      unfold body in Hstep.
      apply bind_Return in Hstep as (entry & Hentry & Hstep).
      apply bind_Return in Hstep as (l & Hl & Hstep).
      apply bind_Return in Hstep as ([k g2] & _ & Hstep).
      apply bind_Return in Hstep as (j & Hj%getitem_Return & [= <- _]).
      destruct entry as [l'|]; [|done]. injection Hl as ->.
      exists (j :: new). rewrite <- app_assoc. split; [done|].
      constructor; [|done]. by exists l. }
  intros (new & -> & Hnew)%Hgen. done.
Qed.

(** A list of rows of one column is the reshaping of its entries to one
    column. *)
Lemma reshape_one_column (l : list (Row V)) :
  Forall (λ r, length r = 1%nat) l → map (λ x, [x]) (concat l) = l.
Proof.
  induction 1 as [|r l Hr _ IH]; simpl; [done|].
  destruct r as [|x [|??]]; try done. simpl. by rewrite IH.
Qed.

(** The loop that computes the rewards of a batch one by one. *)
Lemma reward_loop_Return (e : Env V) (nod : gmap string (ndarray V))
    (ak dk : string) (n : nat) :
  ∀ (lo : Z) (r0 r : ndarray V),
    foldM (λ new_rewards i,
             ag ← dict_getitem nod ak;
             ag_i ← getitem (rows ag) i;
             dg ← dict_getitem nod dk;
             dg_i ← getitem (rows dg) i;
             setitem_row new_rewards i [compute_reward e ag_i dg_i])
          r0 (seqZ lo (Z.of_nat n)) = Return r →
    0 ≤ lo → ncols r0 = 1%nat →
    ncols r = 1%nat ∧ length (rows r) = length (rows r0) ∧
    (∀ p : nat, (p < Z.to_nat lo ∨ Z.to_nat lo + n ≤ p)%nat →
       rows r !! p = rows r0 !! p) ∧
    (∀ q : nat, (q < n)%nat → ∃ ag dg ag_i dg_i,
       nod !! ak = Some ag ∧ nod !! dk = Some dg ∧
       rows ag !! (Z.to_nat lo + q)%nat = Some ag_i ∧
       rows dg !! (Z.to_nat lo + q)%nat = Some dg_i ∧
       rows r !! (Z.to_nat lo + q)%nat = Some [compute_reward e ag_i dg_i]).
Proof.
  induction n as [|n IH]; intros lo r0 r.
  - simpl. intros [= <-] Hlo Hcols. split_and!; [done..|]. intros q Hq. lia.
  - rewrite seqZ_cons by lia. cbn [foldM].
    replace (Z.pred (Z.of_nat (S n))) with (Z.of_nat n) by lia.
    intros (r1 & Hstep & Hrest)%bind_Return Hlo Hcols.
    apply bind_Return in Hstep as (ag & Hag%dict_getitem_Return & Hstep).
    apply bind_Return in Hstep as (ag_i & Hagi & Hstep).
    apply bind_Return in Hstep as (dg & Hdg%dict_getitem_Return & Hstep).
    apply bind_Return in Hstep as (dg_i & Hdgi & Hstep).
    apply setitem_row_Return in Hstep as (k & row & Hk & Hrow & ->).
    apply py_index_Return in Hk as [Hk Hk']. specialize (Hk' Hlo). subst k.
    rewrite broadcast_row_same in Hrow by (by rewrite Hcols).
    injection Hrow as <-.
    rewrite getitem_nonneg in Hagi, Hdgi by done.
    destruct (rows ag !! Z.to_nat lo) as [x|] eqn:Hx; [|done]. injection Hagi as ->.
    destruct (rows dg !! Z.to_nat lo) as [y|] eqn:Hy; [|done]. injection Hdgi as ->.
    destruct (IH (Z.succ lo) _ _ Hrest ltac:(lia) Hcols)
      as (Hc & Hlen & Hout & Hin).
    simpl in Hlen, Hout. rewrite length_insert in Hlen.
    replace (Z.to_nat (Z.succ lo)) with (S (Z.to_nat lo)) in Hout, Hin by lia.
    split_and!; [done..| |].
    + intros p Hp. rewrite Hout by lia.
      apply list_lookup_insert_ne. lia.
    + intros [|q] Hq.
      * exists ag, dg, ag_i, dg_i. rewrite Nat.add_0_r.
        split_and!; [done..|]. rewrite Hout by lia.
        by apply list_lookup_insert_eq.
      * destruct (Hin q ltac:(lia)) as (ag' & dg' & x' & y' & ? & ? & ? & ? & ?).
        exists ag', dg', x', y'.
        replace (Z.to_nat lo + S q)%nat with (S (Z.to_nat lo) + q)%nat by lia.
        done.
Qed.

(** The steps of [random_batch] that make the resampled goals and the
    rewards of the batch. *)
Lemma random_batch_Return b (batch_size : Z) (g : Rng) (batch : Batch V) (g' : Rng) :
  random_batch b batch_size g = Return (batch, g') →
  ∃ indices g1 stored res0 res1 res2 nod,
    _sample_indices b batch_size g = Return (indices, g1) ∧
    batch_indices batch = indices ∧
    _next_obs b !! desired_goal_key b = Some stored ∧
    take_rows stored indices = Return res0 ∧
    BatchSpec.env_goals_written b batch_size res0 res1 ∧
    BatchSpec.future_goals_written b batch_size indices res1 res2 ∧
    ncols (batch_resampled_goals batch) = ncols res2 ∧
    rows (batch_resampled_goals batch)
    = post_row (desired_goal_key b) <$> rows res2 ∧
    nod !! desired_goal_key b = Some (batch_resampled_goals batch) ∧
    take_rows (_actions b) indices = Return (batch_actions batch) ∧
    BatchSpec.rewards_computed b batch_size nod (batch_actions batch)
      (batch_rewards batch).
Proof.
  unfold random_batch. intros Hrun.
  apply bind_Return in Hrun as ([indices g1] & Hidx & Hrun).
  apply bind_Return in Hrun as (stored & Hstored%dict_getitem_Return & Hrun).
  apply bind_Return in Hrun as (res0 & Hres0 & Hrun).
  cbv zeta in Hrun.
  apply bind_Return in Hrun as (od & _ & Hrun).
  apply bind_Return in Hrun as (nod0 & _ & Hrun).
  apply bind_Return in Hrun as (goals1 & Henv & Hrun).
  apply bind_Return in Hrun as ([goals2 g2] & Hfuture & Hrun).
  apply bind_Return in Hrun as (resampled & Hres & Hrun).
  apply bind_Return in Hrun as (new_actions & Hactions & Hrun).
  apply bind_Return in Hrun as (new_rewards & Hrewards & Hrun).
  apply bind_Return in Hrun as (new_obs & _ & Hrun).
  apply bind_Return in Hrun as (new_next_obs & _ & Hrun).
  apply bind_Return in Hrun as (terms & _ & Hrun).
  injection Hrun as <- <-. simpl.
  destruct (postprocess_rows _ _ (resampled_goals goals2) _
              (lookup_insert_eq _ _ _) Hres) as [Hcols Hrows].
  exists indices, g1, stored, res0, (resampled_goals goals1),
    (resampled_goals goals2),
    (postprocess_obs_dict
       (<[desired_goal_key b := resampled_goals goals2]> (new_next_obs_dict goals2))).
  split_and!; try done.
  - unfold BatchSpec.env_goals_written. cbv zeta.
    destruct (decide (num_env_goals b batch_size > 0)) as [Hne|Hne].
    + rewrite bool_decide_eq_true_2 in Henv |- * by done.
      apply bind_Return in Henv as (vals & Hvals%dict_getitem_Return & Henv).
      apply bind_Return in Henv as (res1 & Hres1 & Henv).
      apply bind_Return in Henv as ([od1 nod1] & _ & [= <-]).
      by exists vals.
    + rewrite bool_decide_eq_false_2 in Henv |- * by done.
      by injection Henv as <-.
  - unfold BatchSpec.future_goals_written. cbv zeta.
    destruct (decide (num_future_goals b batch_size > 0)) as [Hnf|Hnf].
    + rewrite bool_decide_eq_true_2 in Hfuture |- * by done.
      apply bind_Return in Hfuture as ([fut g3] & Hpick & Hfuture).
      apply bind_Return in Hfuture
        as (achieved & Hachieved%dict_getitem_Return & Hfuture).
      apply bind_Return in Hfuture as (vals & Hvals & Hfuture).
      apply bind_Return in Hfuture as (res2 & Hres2 & Hfuture).
      apply bind_Return in Hfuture as ([od2 nod2] & _ & [= <- _]).
      by exists g1, g3, fut, achieved, vals.
    + rewrite bool_decide_eq_false_2 in Hfuture |- * by done.
      by injection Hfuture as <- _.
  - by apply dict_getitem_Return.
  - unfold BatchSpec.rewards_computed.
    destruct (compute_rewards (env b)) as [f|]; [by injection Hrewards as <-|].
    apply bind_Return in Hrewards as (ones & Hones & Hrewards).
    apply bind_Return in Hrewards as (r & Hloop & [= <-]).
    unfold np_full in Hones. case_bool_decide as Hsize; [done|].
    injection Hones as <-.
    unfold py_range in Hloop. rewrite Z.sub_0_r in Hloop.
    rewrite <- (Z2Nat.id batch_size) in Hloop by lia.
    apply reward_loop_Return in Hloop as (Hc & Hlen & _ & Hin); [|done..].
    simpl in Hlen. rewrite length_replicate, ?Nat2Z.id in Hlen.
    assert (Forall (λ r, length r = 1%nat) (rows r)) as Hone.
    { apply Forall_lookup. intros i row Hrow.
      pose proof (lookup_lt_Some _ _ _ Hrow) as Hi. rewrite Hlen in Hi.
      destruct (Hin i Hi) as (? & ? & ? & ? & _ & _ & _ & _ & Hr).
      simpl in Hr. rewrite Hrow in Hr. by injection Hr as ->. }
    rewrite (reshape_one_column _ Hone). split; [done|].
    intros i Hi.
    destruct (Hin i Hi) as (ag & dg & x & y & Hag & Hdg & Hx & Hy & Hr).
    simpl in Hx, Hy, Hr. by exists ag, dg, x, y.
Qed.

(** The rows of the resampled goals after the goals of the environment
    are written. *)
Lemma env_goals_rows b (batch_size : Z) (res0 res1 : ndarray V) :
  let nr := num_rollout_goals b batch_size in
  let ne := num_env_goals b batch_size in
  BatchSpec.env_goals_written b batch_size res0 res1 →
  0 ≤ nr → 0 ≤ ne → nr + ne ≤ Z.of_nat (length (rows res0)) →
  ncols res1 = ncols res0 ∧ length (rows res1) = length (rows res0) ∧
  (∀ p, (p < Z.to_nat nr ∨ Z.to_nat (nr + ne) ≤ p)%nat →
     rows res1 !! p = rows res0 !! p) ∧
  (0 < ne → ∃ env_rows rs,
     preprocess_obs_dict (sample_goals (env b) ne) !! desired_goal_key b
     = Some env_rows ∧
     mapM (broadcast_row (ncols res0)) env_rows = Return rs ∧
     ∀ q, (q < Z.to_nat ne)%nat →
       ∃ r, slice_value rs (Z.to_nat ne) q = Some r ∧
            rows res1 !! (Z.to_nat nr + q)%nat = Some r).
Proof.
  intros nr ne. unfold BatchSpec.env_goals_written. cbv zeta. fold nr ne.
  intros Hw Hnr Hne Hlen. case_bool_decide as Hpos.
  - destruct Hw as (env_rows & Henv & Hset).
    eapply setitem_slice_Return in Hset
      as (Hc & Hl & rs & Hrs & Hout & Hin);
      [|apply slice_indices_nonneg; lia].
    replace (Z.to_nat (nr + ne - nr)) with (Z.to_nat ne) in * by lia.
    split_and!; [done..| |].
    + intros p Hp. apply Hout. lia.
    + intros _. exists env_rows, rs. split_and!; [done..|].
      intros q Hq. destruct (Hin q Hq) as [[r Hr] Hrow].
      exists r. by rewrite Hrow.
  - subst res1. split_and!; [done..|]. lia.
Qed.

(** The rows of the resampled goals after the goals achieved later are
    written. *)
Lemma future_goals_rows b (batch_size : Z) (indices : list Z)
    (res1 res2 : ndarray V) :
  let nf := num_future_goals b batch_size in
  let first := (length indices - Z.to_nat nf)%nat in
  BatchSpec.future_goals_written b batch_size indices res1 res2 →
  length (rows res1) = length indices → 0 ≤ nf ≤ Z.of_nat (length indices) →
  Forall (λ x, 0 ≤ x) indices →
  ncols res2 = ncols res1 ∧ length (rows res2) = length (rows res1) ∧
  (∀ p, (p < first)%nat → rows res2 !! p = rows res1 !! p) ∧
  (∀ q, (q < Z.to_nat nf)%nat →
     ∃ achieved i l j r r',
       _next_obs b !! achieved_goal_key b = Some achieved ∧
       indices !! (first + q)%nat = Some i ∧
       _idx_to_future_obs_idx b !! Z.to_nat i = Some (Some l) ∧ j ∈ l ∧
       getitem (rows achieved) j = Return r ∧
       broadcast_row (ncols res1) r = Return r' ∧
       rows res2 !! (first + q)%nat = Some r').
Proof.
  intros nf first. unfold BatchSpec.future_goals_written. cbv zeta. fold nf.
  intros Hw Hlen Hnf Hpos. case_bool_decide as Hsome.
  - destruct Hw as (g & g' & fut & achieved & vals & Hpick & Hach & Hvals & Hset).
    rewrite getslice_tail in Hpick by lia. fold first in Hpick.
    apply pick_future_obs_idxs_Return in Hpick.
    pose proof (Forall2_length _ _ _ Hpick) as Hfut. rewrite length_drop in Hfut.
    destruct (take_rows_getitem _ _ _ Hvals) as (_ & Hvlen & Hvrows).
    rewrite <- Hlen in Hset.
    eapply setitem_slice_Return in Hset
      as (Hc & Hl & rs & Hrs & Hout & Hin);
      [|apply slice_indices_tail; lia].
    rewrite Hlen in Hout, Hin. fold first in Hout, Hin.
    pose proof (mapM_Return_length _ _ _ Hrs) as Hrlen.
    split_and!; [done..| |].
    + intros p Hp. apply Hout. by left.
    + intros q Hq.
      destruct (Hin q Hq) as [_ Hrow]. unfold slice_value in Hrow.
      rewrite bool_decide_eq_true_2 in Hrow by lia.
      destruct (lookup_lt_is_Some_2 (drop first indices) q) as [i Hi].
      { rewrite length_drop. lia. }
      destruct (Forall2_lookup_l _ _ _ _ _ Hpick Hi) as (j & Hj & l & Hl' & Hjl).
      destruct (Hvrows q j Hj) as (r & Hr & Hvr).
      destruct (mapM_Return_lookup _ _ _ _ _ Hrs Hvr) as (r' & Hr' & Hb).
      rewrite lookup_drop in Hi.
      pose proof (proj1 (Forall_lookup _ _) Hpos _ _ Hi) as Hi0. simpl in Hi0.
      rewrite getitem_nonneg in Hl' by done.
      destruct (_idx_to_future_obs_idx b !! Z.to_nat i) as [entry|] eqn:He; [|done].
      injection Hl' as ->.
      exists achieved, i, l, j, r, r'. split_and!; try done. by rewrite Hrow.
  - subst res2. split_and!; [done..|]. intros q Hq. lia.
Qed.
End BatchGoals.

Section GoalPartition.
Context {V : Type} `{Scalar V} `{FloatRounding}.
Import ObsDict.

(** C4. In [ObsDictRelabelingBuffer.random_batch], when the fractions
    are as the constructor asserts and the batch has at least one entry,
    the three numbers of goals are not negative and their sum is the size
    of the batch.  In a batch that is returned, with [nr], [ne] and [nf]
    these numbers: entry [p < nr] of the resampled goals is the desired
    goal stored in [_next_obs] at the sampled index of the entry; entries
    [nr], ..., [nr + ne - 1] are the goals that the environment samples
    (as many rows as entries, or one row for all of them); and each of the
    last [nf] entries is the goal achieved in [_next_obs] at an index of
    the list of future indices of the sampled index of the entry.  The
    float arithmetic is any rounding with relative error [u] and absolute
    error [eta] for which the size of the batch is small (exact arithmetic:
    every size; binary64: every size below [2^51]). *)
Theorem random_batch_goal_partition (u eta : Q) (b : Buffer V) (batch_size : Z) :
  rounds_within u eta → (0 <= u)%Q → (u < 1)%Q → (0 <= eta)%Q →
  fractions_ok (fraction_goals_rollout_goals b) (fraction_goals_env_goals b) →
  1 ≤ batch_size → small_batch u eta batch_size →
  let nr := num_rollout_goals b batch_size in
  let ne := num_env_goals b batch_size in
  let nf := num_future_goals b batch_size in
  0 ≤ nr ∧ 0 ≤ ne ∧ 0 ≤ nf ∧ nr + ne + nf = batch_size ∧
  ∀ g batch g', random_batch b batch_size g = Return (batch, g') →
    let goals := rows (batch_resampled_goals batch) in
    let post := post_row (desired_goal_key b) in
    ∃ stored,
      _next_obs b !! desired_goal_key b = Some stored ∧
      Z.of_nat (length (batch_indices batch)) = batch_size ∧
      Z.of_nat (length goals) = batch_size ∧
      (∀ p : nat, Z.of_nat p < nr →
         ∃ i r, batch_indices batch !! p = Some i ∧
           rows stored !! Z.to_nat i = Some r ∧ goals !! p = Some (post r)) ∧
      (0 < ne → ∃ env_rows rs,
         preprocess_obs_dict (sample_goals (env b) ne) !! desired_goal_key b
         = Some env_rows ∧
         mapM (broadcast_row (ncols stored)) env_rows = Return rs ∧
         ∀ q : nat, Z.of_nat q < ne →
           ∃ r, slice_value rs (Z.to_nat ne) q = Some r ∧
                goals !! (Z.to_nat nr + q)%nat = Some (post r)) ∧
      (∀ q : nat, Z.of_nat q < nf →
         ∃ achieved i l j r r',
           _next_obs b !! achieved_goal_key b = Some achieved ∧
           batch_indices batch !! (Z.to_nat (nr + ne) + q)%nat = Some i ∧
           _idx_to_future_obs_idx b !! Z.to_nat i = Some (Some l) ∧ j ∈ l ∧
           getitem (rows achieved) j = Return r ∧
           broadcast_row (ncols stored) r = Return r' ∧
           goals !! (Z.to_nat (nr + ne) + q)%nat = Some (post r')).
Proof.
  intros Hrnd Hu Hu1 Heta Hok HB Hsmall nr ne nf.
  destruct (goal_counts_bound u eta _ _ batch_size Hrnd Hu Hu1 Heta Hok HB Hsmall)
    as (Hnr & Hne & Hsum).
  fold (num_rollout_goals b batch_size) in Hnr, Hsum.
  fold (num_env_goals b batch_size) in Hne, Hsum. fold nr ne in Hnr, Hne, Hsum.
  assert (nf = batch_size - (ne + nr)) as Hnf by done.
  split_and!; [lia..|].
  intros g batch g' Hrun goals post.
  destruct (random_batch_Return _ _ _ _ _ Hrun)
    as (indices & g1 & stored & res0 & res1 & res2 & nod & Hidx & -> & Hstored &
        Hres0 & Henv & Hfuture & _ & Hgoals & _).
  fold goals in Hgoals. fold post in Hgoals.
  apply randint_array_Return in Hidx as [Hlen Hrange].
  destruct (take_rows_getitem _ _ _ Hres0) as (Hc0 & Hl0 & Hrows0).
  destruct (env_goals_rows b batch_size res0 res1 Henv)
    as (Hc1 & Hl1 & Hout1 & Hin1); [fold nr ne; lia..|].
  fold nr ne in Hout1, Hin1.
  destruct (future_goals_rows b batch_size indices res1 res2 Hfuture)
    as (Hc2 & Hl2 & Hout2 & Hin2); [lia|fold nf; lia| |].
  { eapply Forall_impl; [exact Hrange|]. intros x Hx. simpl in Hx. lia. }
  fold nf in Hout2, Hin2.
  replace (length indices - Z.to_nat nf)%nat with (Z.to_nat (nr + ne))
    in Hout2, Hin2 by lia.
  exists stored. split_and!; [done|done| | | |].
  - rewrite Hgoals, length_fmap. lia.
  - intros p Hp.
    destruct (lookup_lt_is_Some_2 indices p) as [i Hi]; [lia|].
    destruct (Hrows0 p i Hi) as (r & Hr & Hrow).
    pose proof (proj1 (Forall_lookup _ _) Hrange _ _ Hi) as Hi0. simpl in Hi0.
    rewrite getitem_nonneg in Hr by lia.
    destruct (rows stored !! Z.to_nat i) as [r0|] eqn:Hr0; [|done].
    injection Hr as ->. exists i, r. split_and!; [done..|].
    rewrite Hgoals, list_lookup_fmap, Hout2, Hout1, Hrow by lia. done.
  - intros Hpos. destruct (Hin1 Hpos) as (env_rows & rs & Henv_rows & Hrs & Hin).
    exists env_rows, rs. rewrite <- Hc0. split_and!; [done..|].
    intros q Hq. destruct (Hin q ltac:(lia)) as (r & Hr & Hrow).
    exists r. split; [done|].
    rewrite Hgoals, list_lookup_fmap, Hout2, Hrow by lia. done.
  - intros q Hq.
    destruct (Hin2 q ltac:(lia))
      as (achieved & i & l & j & r & r' & Hach & Hi & Hl & Hj & Hr & Hr' & Hrow).
    exists achieved, i, l, j, r, r'. rewrite <- Hc0, <- Hc1.
    split_and!; [done..|].
    by rewrite Hgoals, list_lookup_fmap, Hrow.
Qed.
End GoalPartition.

Section GoalPartitionExamples.
Import ObsDict Examples.
#[local] Existing Instance exact.

Lemma exact_rounds : rounds_within 0 0.
Proof. constructor; intros x Hx; unfold rnd, exact; lra. Qed.

Lemma random_batch_goal_partition_witness :
  rounds_within 0 0 ∧
  fractions_ok (fraction_goals_rollout_goals mixed) (fraction_goals_env_goals mixed) ∧
  small_batch 0 0 4 ∧
  0 ≤ num_rollout_goals mixed 4 ∧ 0 ≤ num_env_goals mixed 4 ∧
  0 ≤ num_future_goals mixed 4 ∧
  num_rollout_goals mixed 4 + num_env_goals mixed 4 + num_future_goals mixed 4 = 4.
Proof.
  assert (fractions_ok (fraction_goals_rollout_goals mixed)
            (fraction_goals_env_goals mixed)) as Hok.
  { split_and!; vm_compute; discriminate. }
  assert (small_batch 0 0 4) as Hsmall by (vm_compute; reflexivity).
  split_and!; [exact exact_rounds|exact Hok|exact Hsmall|..];
    apply (random_batch_goal_partition 0 0 mixed 4 exact_rounds);
    first [exact Hok | exact Hsmall | lia | vm_compute; discriminate
          | vm_compute; reflexivity].
Defined.

(** A batch of four: the first entry keeps its stored goal [9], the
    second receives the goal [42] of the environment, and the last two
    receive the goals achieved at future indices of the slots [2] and [1].
    The rewards are those that the environment computes for these goals. *)
Example random_batch_mixed :
  ∃ batch g', random_batch mixed 4 sevens = Return (batch, g') ∧
    batch_indices batch = [0; 3; 2; 1] ∧
    rows (batch_resampled_goals batch) = [[9]; [42]; [4]; [4]] ∧
    batch_rewards batch = [[-1]; [-1]; [0]; [0]].
Proof.
  destruct (random_batch mixed 4 sevens) as [e|[batch g']] eqn:Hrun;
    vm_compute in Hrun; [discriminate|].
  injection Hrun as <- <-. by eexists _, _.
Qed.
End GoalPartitionExamples.

(** The bound on the size of the batch with the unit roundoff and the
    smallest subnormal half-spacing of binary64. *)
Example binary64_small_batch :
  small_batch (1 # 2 ^ 53) (1 # 2 ^ 1075) (2 ^ 51).
Proof. vm_compute. reflexivity. Qed.

(** ** The rewards: stored by two of the buffers, computed by the third *)

Section RewardLemmas.
Context {V : Type} `{Scalar V} `{FloatRounding}.

(** [ObsDictRelabelingBuffer.add_path] only reads the number of the
    rewards of the path. *)
Lemma obsdict_add_path_ignores_rewards (b : ObsDict.Buffer V) (path : Path V)
    (rs : list (Row V)) :
  length rs = length (rewards path) →
  ObsDict.add_path b (with_rewards path rs) = ObsDict.add_path b path.
Proof. intros Hlen. unfold ObsDict.add_path. simpl. by rewrite Hlen. Qed.

(** The samples of a path contain the sample of each of its steps. *)
Lemma original_in_samples (e : Env V) (path : Path V) (c : nat) :
  ∀ (i : nat) (sels : list (list Z)) (j : nat),
    (i ≤ j < i + c)%nat →
    NewStateSpec.original path j ∈ NewStateSpec.samples_from e path i sels c.
Proof.
  induction c as [|c IH]; intros i sels j Hj; [lia|].
  cbn [NewStateSpec.samples_from].
  destruct (decide (j = i)) as [->|Hne]; [by left|].
  right. apply elem_of_app. right. apply IH. lia.
Qed.

(** The first loop of [imgObsDictRelabelingBuffer.add_path] is the
    sequence of calls of [add_sample] on the samples of the steps. *)
Lemma img_first_loop (path : Path V) (c : nat) :
  ∀ (i : nat) (w w1 : ImgObsDict.World V),
    for_each (seqZ (Z.of_nat i) (Z.of_nat c)) (ImgObsDict.add_original path) w
    = (Return tt, w1) →
    ImgSpec.add_samples (ImgSpec.original path <$> seq i c) w = (Return tt, w1).
Proof.
  induction c as [|c IH]; intros i w w1; [done|].
  rewrite seqZ_cons by lia.
  replace (Z.pred (Z.of_nat (S c))) with (Z.of_nat c) by lia.
  replace (Z.succ (Z.of_nat i)) with (Z.of_nat (S i)) by lia.
  cbn [for_each seq fmap list_fmap]. unfold ImgSpec.add_samples. cbn [for_each].
  intros (fl & w2 & Hstep & Hrest)%exec_bind_Return.
  unfold ImgObsDict.add_original in Hstep.
  apply exec_bind_Return in Hstep as (o & ? & [Ho ->]%lift_Return & Hstep).
  apply exec_bind_Return in Hstep as (a & ? & [Ha ->]%lift_Return & Hstep).
  apply exec_bind_Return in Hstep as (r & ? & [Hr ->]%lift_Return & Hstep).
  apply exec_bind_Return in Hstep as (t & ? & [Ht ->]%lift_Return & Hstep).
  apply exec_bind_Return in Hstep as (o' & ? & [Ho' ->]%lift_Return & Hstep).
  apply exec_bind_Return in Hstep as ([] & w3 & Hadd & [-> ->]%exec_ret_Return).
  apply bind_Return in Ho as (d & Hd & Ho%dict_getitem_Return).
  apply bind_Return in Ho' as (d' & Hd' & Ho'%dict_getitem_Return).
  rewrite getitem_nonneg, Nat2Z.id in Hd by lia.
  rewrite getitem_nonneg, Nat2Z.id in Hd' by lia.
  rewrite getitem_nonneg, Nat2Z.id in Ha by lia.
  rewrite getitem_nonneg, Nat2Z.id in Hr by lia.
  rewrite getitem_nonneg, Nat2Z.id in Ht by lia.
  destruct (observations path !! i) as [?|] eqn:Ed; [|done]. injection Hd as ->.
  destruct (next_observations path !! i) as [?|] eqn:Ed'; [|done]. injection Hd' as ->.
  destruct (actions path !! i) as [?|] eqn:Ea; [|done]. injection Ha as ->.
  destruct (rewards path !! i) as [?|] eqn:Er; [|done]. injection Hr as ->.
  destruct (terminals path !! i) as [?|] eqn:Et; [|done]. injection Ht as ->.
  assert (ImgSpec.original path i = (o, a, r, t, o')) as ->.
  { unfold ImgSpec.original, field, row_at.
    rewrite Ed, Ed', Ea, Er, Et. simpl. by rewrite Ho, Ho'. }
  rewrite (exec_bind_returns _ _ w w3 Continue).
  - by apply IH.
  - by rewrite (exec_bind_returns _ _ w w3 tt).
Qed.
End RewardLemmas.

Section RewardStorage.
Context {V : Type} `{Scalar V} `{FloatRounding}.

(** C5, as the code has it.  [imgObsDictRelabelingBuffer] and
    [newstateObsDictRelabelingBuffer] have an array [_rewards] of
    [max_size] rows: [add_sample] stores the reward in row [_top] of it,
    [add_path] calls [add_sample] with the reward of each step of the path
    (among the samples that it inserts), and [random_batch] returns the
    rows of [_rewards] at the sampled indices.  [ObsDictRelabelingBuffer]
    has no such array: its [add_path] only reads the number of the rewards
    of the path, and its [random_batch] has the environment compute the
    rewards from the actions and the relabeled next observations of the
    batch. *)
Theorem rewards_stored_or_recomputed :
  (* newstateObsDictRelabelingBuffer *)
  (∀ (b b' : NewStateObsDict.Buffer V) obs action reward terminal next_obs,
     NewStateSpec.shaped b →
     NewStateObsDict.add_sample b obs action reward terminal next_obs = Return b' →
     row_holds (NewStateObsDict._rewards b')
       (Z.to_nat (NewStateObsDict._top b)) reward ∧
     length (rows (NewStateObsDict._rewards b'))
     = Z.to_nat (NewStateObsDict.max_size b')) ∧
  (∀ (b : NewStateObsDict.Buffer V) (path : Path V) (n : nat) (g : Rng),
     NewStateSpec.path_ok path n → (1 ≤ n)%nat → 0 ≤ NewStateObsDict.k b →
     ∃ sels g',
       NewStateObsDict.add_path b path g
       = (b' ← NewStateSpec.add_samples b
                 (NewStateSpec.hindsight_samples (NewStateObsDict.env b) path sels);
          Return (b', g')) ∧
       ∀ i, (i < n)%nat →
         NewStateSpec.original path i
         ∈ NewStateSpec.hindsight_samples (NewStateObsDict.env b) path sels ∧
         sample_reward (NewStateSpec.original path i) = row_at (rewards path) i) ∧
  (∀ (b : NewStateObsDict.Buffer V) batch_size g batch g',
     NewStateObsDict.random_batch b batch_size g = Return (batch, g') →
     ∃ indices g1,
       NewStateObsDict._sample_indices b batch_size g = Return (indices, g1) ∧
       take_rows (NewStateObsDict._rewards b) indices
       = Return (NewStateObsDict.batch_rewards batch)) ∧
  (* imgObsDictRelabelingBuffer *)
  (∀ (w w' : ImgObsDict.World V) obs action reward terminal next_obs,
     ImgSpec.shaped (ImgObsDict.self w) →
     ImgObsDict.add_sample obs action reward terminal next_obs w = (Return tt, w') →
     row_holds (ImgObsDict._rewards (ImgObsDict.self w'))
       (Z.to_nat (ImgObsDict._top (ImgObsDict.self w))) reward ∧
     length (rows (ImgObsDict._rewards (ImgObsDict.self w')))
     = Z.to_nat (ImgObsDict.max_size (ImgObsDict.self w'))) ∧
  (∀ (w w' : ImgObsDict.World V) (path : Path V),
     ImgObsDict.add_path path w = (Return tt, w') →
     ∃ w1,
       ImgSpec.add_samples
         (ImgSpec.original path <$> seq 0 (length (rewards path))) w
       = (Return tt, w1) ∧
       ∀ i, sample_reward (ImgSpec.original path i) = row_at (rewards path) i) ∧
  (∀ (b : ImgObsDict.Buffer V) batch_size g batch g',
     ImgObsDict.random_batch b batch_size g = Return (batch, g') →
     ∃ indices g1,
       ImgObsDict._sample_indices b batch_size g = Return (indices, g1) ∧
       take_rows (ImgObsDict._rewards b) indices
       = Return (ImgObsDict.batch_rewards batch)) ∧
  (* ObsDictRelabelingBuffer *)
  (∀ (b : ObsDict.Buffer V) (path : Path V) (rs : list (Row V)),
     length rs = length (rewards path) →
     ObsDict.add_path b (with_rewards path rs) = ObsDict.add_path b path) ∧
  (∀ (b : ObsDict.Buffer V) batch_size g batch g',
     ObsDict.random_batch b batch_size g = Return (batch, g') →
     ∃ indices new_next_obs_dict,
       ObsDict.batch_indices batch = indices ∧
       take_rows (ObsDict._actions b) indices = Return (ObsDict.batch_actions batch) ∧
       new_next_obs_dict !! ObsDict.desired_goal_key b
       = Some (ObsDict.batch_resampled_goals batch) ∧
       BatchSpec.rewards_computed b batch_size new_next_obs_dict
         (ObsDict.batch_actions batch) (ObsDict.batch_rewards batch)).
Proof.
  split_and!.
  - intros b b' o a r t o' Hb Hrun.
    destruct (add_sample_Return _ _ _ _ _ _ _ Hb Hrun)
      as (Hb' & _ & _ & _ & Hnew & _).
    split; [apply Hnew|apply (NewStateSpec.shaped_rewards _ Hb')].
  - intros b path n g Hok Hn Hk.
    destruct (add_path_samples b path n g Hok Hn Hk)
      as (sels & g' & _ & _ & Hrun).
    exists sels, g'. split; [done|]. intros i Hi. split; [|done].
    unfold NewStateSpec.hindsight_samples.
    rewrite (NewStateSpec.ok_rewards _ _ Hok). apply original_in_samples. lia.
  - intros b n g batch g'. unfold NewStateObsDict.random_batch. intros Hrun.
    apply bind_Return in Hrun as ([indices g1] & Hidx & Hrun).
    apply bind_Return in Hrun as (o & _ & Hrun).
    apply bind_Return in Hrun as (a & _ & Hrun).
    apply bind_Return in Hrun as (r & Hr & Hrun).
    apply bind_Return in Hrun as (t & _ & Hrun).
    apply bind_Return in Hrun as (o' & _ & [= <- _]).
    by exists indices, g1.
  - intros w w' o a r t o' Hb Hrun.
    destruct (img_add_sample_spec _ _ _ _ _ _ _ Hb Hrun)
      as (Hb' & _ & _ & _ & Hnew & _).
    split; [apply Hnew|apply (ImgSpec.shaped_rewards _ Hb')].
  - intros w w' path. unfold ImgObsDict.add_path. cbv zeta.
    intros ([] & w1 & Hfirst & _)%exec_bind_Return.
    exists w1. split; [|done].
    apply (img_first_loop path _ 0%nat). unfold py_range in Hfirst.
    by rewrite Z.sub_0_r in Hfirst.
  - intros b n g batch g'. unfold ImgObsDict.random_batch. intros Hrun.
    apply bind_Return in Hrun as ([indices g1] & Hidx & Hrun).
    apply bind_Return in Hrun as (o & _ & Hrun).
    apply bind_Return in Hrun as (a & _ & Hrun).
    apply bind_Return in Hrun as (r & Hr & Hrun).
    apply bind_Return in Hrun as (t & _ & Hrun).
    apply bind_Return in Hrun as (o' & _ & [= <- _]).
    by exists indices, g1.
  - intros b path rs. apply obsdict_add_path_ignores_rewards.
  - intros b n g batch g' Hrun.
    destruct (random_batch_Return _ _ _ _ _ Hrun)
      as (indices & g1 & stored & res0 & res1 & res2 & nod & _ & Hidx & _ & _ &
          _ & _ & _ & _ & Hnod & Hact & Hrew).
    by exists indices, nod.
Qed.
End RewardStorage.

Section RewardExamples.
Import Examples.
#[local] Existing Instance exact.

Lemma rewards_stored_or_recomputed_witness :
  length [[5]; [5]; [5]] = length (rewards (path3 10)) ∧
  ObsDict.add_path fresh (with_rewards (path3 10) [[5]; [5]; [5]])
  = ObsDict.add_path fresh (path3 10).
Proof.
  split; [reflexivity|].
  apply (rewards_stored_or_recomputed (V:=Z)). reflexivity.
Defined.

(** A path with rewards [5] leaves the buffer that the same path with
    rewards [-1] leaves, and the rewards of a batch are those that the
    environment computes, not those of the path. *)
Lemma obsdict_rewards_not_stored :
  rewards rewarded = [[5]; [5]; [5]] ∧
  ObsDict.add_path fresh rewarded = Return after1 ∧
  ∃ batch g',
    ObsDict.random_batch after1 3 sevens = Return (batch, g') ∧
    ObsDict.batch_rewards batch = [[-1]; [-1]; [-1]].
Proof.
  split_and!; [reflexivity|vm_compute; reflexivity|].
  destruct (ObsDict.random_batch after1 3 sevens) as [e|[batch g']] eqn:Hrun;
    vm_compute in Hrun; [discriminate|].
  injection Hrun as <- <-. by eexists _, _.
Qed.
End RewardExamples.

(** * Further properties of the buffers *)

Section TakeRows.
Context {V : Type}.



End TakeRows.

Section ObsDictSequences.
Context {V : Type} `{Scalar V} `{FloatRounding}.
Import ObsDict ObsDictSpec.

(** X1. After any sequence of calls of [add_path] on a freshly
    constructed [ObsDictRelabelingBuffer], each with a path of between
    one and [max_size] steps that fits the arrays, the write pointer is
    the total number of steps added modulo [max_size], and
    [num_steps_can_sample] is that total, capped at [max_size]. *)
Theorem add_path_total_steps (m : Z) (e : Env V) (fr fe : Q)
    (ik gk : option (list string)) (ok dk ak : string)
    (b0 b : Buffer V) (hist : list (Added V)) :
  __init__ m e fr fe ik gk ok dk ak = Return b0 → 0 < m →
  reachable b0 hist b →
  max_size b = m ∧
  _top b = Z.of_nat (total hist) `mod` m ∧
  num_steps_can_sample b = Z.min (Z.of_nat (total hist)) m.
Proof.
  intros Hinit Hm Hreach.
  destruct (init_is_fresh _ _ _ _ _ _ _ _ _ _ Hinit Hm) as [Hfresh Hmax].
  pose proof (reachable_invariant b0 hist b Hfresh Hreach) as Hinv.
  destruct (inv_config _ _ _ Hinv) as (Hmb & _).
  rewrite Hmax in Hmb. unfold num_steps_can_sample.
  rewrite (inv_top _ _ _ Hinv), (inv_size _ _ _ Hinv), Hmb. done.
Qed.

(** X2. [add_path] only touches the slots that it writes: in every other
    slot the action, the terminal, the list of future indices and, for
    every saved key, the observation and the next observation are
    unchanged; and the configuration of the buffer is unchanged. *)
Theorem add_path_keeps_other_slots (b b' : Buffer V) (path : Path V) (n : nat)
    (acts : list (Row V)) :
  shaped b → fits b path n acts → 1 ≤ Z.of_nat n ≤ max_size b →
  add_path b path = Return b' →
  same_config b b' ∧
  ∀ i : nat, (∀ j, (j < n)%nat → i ≠ Z.to_nat ((_top b + Z.of_nat j) `mod` max_size b)) →
    same_slot b b' i.
Proof.
  intros Hb Hp Hn Hrun.
  destruct (add_path_written b path n acts Hb Hp Hn) as (b'' & Hrun' & Hw).
  rewrite Hrun in Hrun'. injection Hrun' as <-.
  split; [apply (written_config _ _ _ _ _ Hw)|].
  intros i Hi. by apply (written_other _ _ _ _ _ Hw).
Qed.
End ObsDictSequences.

Section ObsDictSequencesExamples.
Import ObsDict ObsDictSpec Examples.
#[local] Existing Instance exact.

Lemma add_path_total_steps_witness :
  reachable fresh
    [(path3 10, actions (path3 10)); (path3 20, actions (path3 20))] after2 ∧
  max_size after2 = 4 ∧
  _top after2
  = Z.of_nat (total [(path3 10, actions (path3 10));
                     (path3 20, actions (path3 20))]) `mod` 4 ∧
  num_steps_can_sample after2
  = Z.min (Z.of_nat (total [(path3 10, actions (path3 10));
                            (path3 20, actions (path3 20))])) 4.
Proof.
  split; [exact reachable_after2|].
  apply (add_path_total_steps 4 reach_env 1%Q 0%Q None None
           "observation" "desired_goal" "achieved_goal" fresh after2).
  - exact init_fresh.
  - lia.
  - exact reachable_after2.
Defined.

Lemma add_path_keeps_other_slots_witness :
  shaped fresh ∧ fits fresh (path3 10) 3 (actions (path3 10)) ∧
  add_path fresh (path3 10) = Return after1 ∧
  same_slot fresh after1 3.
Proof.
  split_and!; [exact (fresh_at_shaped 0 0 ltac:(lia))|exact (path3_fits 0 0 10)
              |exact add_path_after1|].
  apply (add_path_keeps_other_slots fresh after1 (path3 10) 3 (actions (path3 10))).
  - exact (fresh_at_shaped 0 0 ltac:(lia)).
  - exact (path3_fits 0 0 10).
  - simpl. lia.
  - exact add_path_after1.
  - intros j Hj. simpl.
    destruct j as [|[|[|j]]]; [vm_compute; lia..|lia].
Defined.
End ObsDictSequencesExamples.

Section SampleBuffers.
Context {V : Type} `{Scalar V}.

Lemma img_invariant_add_samples (l : list (Sample V)) :
  ∀ hist (w w' : ImgObsDict.World V),
    ImgSpec.invariant hist (ImgObsDict.self w) →
    ImgSpec.add_samples l w = (Return tt, w') →
    ImgSpec.invariant (hist ++ l) (ImgObsDict.self w').
Proof.
  induction l as [|[[[[o a] r] t] o'] l IH]; intros hist w w' Hinv;
    unfold ImgSpec.add_samples; cbn [for_each].
  - intros [_ ->]%exec_ret_Return. by rewrite app_nil_r.
  - intros (c & w1 & Hstep & Hrest)%exec_bind_Return.
    apply exec_bind_Return in Hstep as ([] & w2 & Hadd & [-> ->]%exec_ret_Return).
    rewrite (cons_middle _ hist l), app_assoc.
    eapply IH; [|exact Hrest]. by eapply img_invariant_add_sample.
Qed.

(** X3. The buffers with [add_sample] keep the most recent samples: after
    the calls of [add_sample] with the samples of a list return on a buffer
    that starts empty, the write pointer is the number of samples modulo
    [max_size], [num_steps_can_sample] is that number capped at
    [max_size], and each of the last [max_size] samples is in the slot of
    its number modulo [max_size] (the older ones are overwritten). *)
Theorem add_sample_keeps_latest :
  (∀ (b0 b : NewStateObsDict.Buffer V) (samples : list (Sample V)),
     NewStateSpec.shaped b0 →
     NewStateObsDict._top b0 = 0 → NewStateObsDict._size b0 = 0 →
     NewStateSpec.add_samples b0 samples = Return b →
     let m := NewStateObsDict.max_size b in
     let T := Z.of_nat (length samples) in
     NewStateObsDict._top b = T `mod` m ∧
     NewStateObsDict.num_steps_can_sample b = Z.min T m ∧
     ∀ (g : nat) s, samples !! g = Some s → T ≤ Z.of_nat g + m →
       NewStateSpec.stores b (Z.to_nat (Z.of_nat g `mod` m)) s) ∧
  (∀ (w0 w : ImgObsDict.World V) (samples : list (Sample V)),
     ImgSpec.shaped (ImgObsDict.self w0) →
     ImgObsDict._top (ImgObsDict.self w0) = 0 →
     ImgObsDict._size (ImgObsDict.self w0) = 0 →
     ImgSpec.add_samples samples w0 = (Return tt, w) →
     let b := ImgObsDict.self w in
     let m := ImgObsDict.max_size b in
     let T := Z.of_nat (length samples) in
     ImgObsDict._top b = T `mod` m ∧
     ImgObsDict.num_steps_can_sample b = Z.min T m ∧
     ∀ (g : nat) s, samples !! g = Some s → T ≤ Z.of_nat g + m →
       ImgSpec.stores b (Z.to_nat (Z.of_nat g `mod` m)) s).
Proof.
  split.
  - intros b0 b samples Hb Htop Hsize Hrun m T.
    pose proof (invariant_add_samples samples [] b0 b
                  (invariant_nil b0 Hb Htop Hsize) Hrun) as Hinv.
    simpl in Hinv.
    split_and!; [apply (NewStateSpec.inv_top _ _ Hinv)
                |apply (NewStateSpec.inv_size _ _ Hinv)|].
    intros g s Hg Hlive. by apply (NewStateSpec.inv_stores _ _ Hinv).
  - intros w0 w samples Hb Htop Hsize Hrun b m T.
    pose proof (img_invariant_add_samples samples [] w0 w
                  (img_invariant_nil _ Hb Htop Hsize) Hrun) as Hinv.
    simpl in Hinv.
    split_and!; [apply (ImgSpec.inv_top _ _ Hinv)
                |apply (ImgSpec.inv_size _ _ Hinv)|].
    intros g s Hg Hlive. by apply (ImgSpec.inv_stores _ _ Hinv).
Qed.


(** The rows of an array at sampled indices that are not negative. *)
Lemma take_rows_aligned (a sub : ndarray V) (indices : list Z) :
  take_rows a indices = Return sub → Forall (λ x, 0 ≤ x) indices →
  length (rows sub) = length indices ∧ ncols sub = ncols a ∧
  ∀ p i, indices !! p = Some i → rows sub !! p = rows a !! Z.to_nat i.
Proof.
  intros Htake Hpos.
  destruct (take_rows_getitem _ _ _ Htake) as (Hc & Hl & Hrows).
  split_and!; [done..|]. intros p i Hi.
  destruct (Hrows p i Hi) as (r & Hr & ->).
  pose proof (proj1 (Forall_lookup _ _) Hpos _ _ Hi) as Hi0. simpl in Hi0.
  rewrite getitem_nonneg in Hr by done.
  by destruct (rows a !! Z.to_nat i); simplify_eq.
Qed.

(** X5. The rows of a batch of the buffers with [add_sample] are
    aligned: the batch has [batch_size] rows in each of its five arrays,
    and row [p] of every array is the row of the buffer at one and the
    same sampled index, which is below [_size]. *)
Theorem random_batch_rows_aligned :
  (∀ (b : NewStateObsDict.Buffer V) (n : Z) (g g' : Rng) batch,
     NewStateObsDict.random_batch b n g = Return (batch, g') →
     ∃ indices,
       Z.of_nat (length indices) = n ∧
       length (rows (NewStateObsDict.batch_observations batch)) = length indices ∧
       length (rows (NewStateObsDict.batch_actions batch)) = length indices ∧
       length (rows (NewStateObsDict.batch_rewards batch)) = length indices ∧
       length (rows (NewStateObsDict.batch_terminals batch)) = length indices ∧
       length (rows (NewStateObsDict.batch_next_observations batch))
       = length indices ∧
       ∀ p i, indices !! p = Some i →
         0 ≤ i < NewStateObsDict._size b ∧
         rows (NewStateObsDict.batch_observations batch) !! p
         = rows (NewStateObsDict._obs b) !! Z.to_nat i ∧
         rows (NewStateObsDict.batch_actions batch) !! p
         = rows (NewStateObsDict._actions b) !! Z.to_nat i ∧
         rows (NewStateObsDict.batch_rewards batch) !! p
         = rows (NewStateObsDict._rewards b) !! Z.to_nat i ∧
         rows (NewStateObsDict.batch_terminals batch) !! p
         = rows (NewStateObsDict._terminals b) !! Z.to_nat i ∧
         rows (NewStateObsDict.batch_next_observations batch) !! p
         = rows (NewStateObsDict._next_obs b) !! Z.to_nat i) ∧
  (∀ (b : ImgObsDict.Buffer V) (n : Z) (g g' : Rng) batch,
     ImgObsDict.random_batch b n g = Return (batch, g') →
     ∃ indices,
       Z.of_nat (length indices) = n ∧
       length (rows (ImgObsDict.batch_observations batch)) = length indices ∧
       length (rows (ImgObsDict.batch_actions batch)) = length indices ∧
       length (rows (ImgObsDict.batch_rewards batch)) = length indices ∧
       length (rows (ImgObsDict.batch_terminals batch)) = length indices ∧
       length (rows (ImgObsDict.batch_next_observations batch))
       = length indices ∧
       ∀ p i, indices !! p = Some i →
         0 ≤ i < ImgObsDict._size b ∧
         rows (ImgObsDict.batch_observations batch) !! p
         = rows (ImgObsDict._obs b) !! Z.to_nat i ∧
         rows (ImgObsDict.batch_actions batch) !! p
         = rows (ImgObsDict._actions b) !! Z.to_nat i ∧
         rows (ImgObsDict.batch_rewards batch) !! p
         = rows (ImgObsDict._rewards b) !! Z.to_nat i ∧
         rows (ImgObsDict.batch_terminals batch) !! p
         = rows (ImgObsDict._terminals b) !! Z.to_nat i ∧
         rows (ImgObsDict.batch_next_observations batch) !! p
         = rows (ImgObsDict._next_obs b) !! Z.to_nat i).
Proof.
  split.
  - intros b n g g' batch. unfold NewStateObsDict.random_batch. intros Hrun.
    apply bind_Return in Hrun as ([indices g1] & Hidx & Hrun).
    apply bind_Return in Hrun as (o & Ho & Hrun).
    apply bind_Return in Hrun as (a & Ha & Hrun).
    apply bind_Return in Hrun as (r & Hr & Hrun).
    apply bind_Return in Hrun as (t & Ht & Hrun).
    apply bind_Return in Hrun as (o' & Ho' & [= <- _]). simpl.
    apply randint_array_Return in Hidx as [Hlen Hall].
    assert (Forall (λ x, 0 ≤ x) indices) as Hpos.
    { eapply Forall_impl; [exact Hall|]. intros x Hx. simpl in Hx. lia. }
    destruct (take_rows_aligned _ _ _ Ho Hpos) as (? & _ & Hrows_o).
    destruct (take_rows_aligned _ _ _ Ha Hpos) as (? & _ & Hrows_a).
    destruct (take_rows_aligned _ _ _ Hr Hpos) as (? & _ & Hrows_r).
    destruct (take_rows_aligned _ _ _ Ht Hpos) as (? & _ & Hrows_t).
    destruct (take_rows_aligned _ _ _ Ho' Hpos) as (? & _ & Hrows_o').
    exists indices. split_and!; try done.
    intros p i Hi.
    pose proof (proj1 (Forall_lookup _ _) Hall _ _ Hi) as Hi0. simpl in Hi0.
    split_and!; first [lia | eauto].
  - intros b n g g' batch. unfold ImgObsDict.random_batch. intros Hrun.
    apply bind_Return in Hrun as ([indices g1] & Hidx & Hrun).
    apply bind_Return in Hrun as (o & Ho & Hrun).
    apply bind_Return in Hrun as (a & Ha & Hrun).
    apply bind_Return in Hrun as (r & Hr & Hrun).
    apply bind_Return in Hrun as (t & Ht & Hrun).
    apply bind_Return in Hrun as (o' & Ho' & [= <- _]). simpl.
    apply randint_array_Return in Hidx as [Hlen Hall].
    assert (Forall (λ x, 0 ≤ x) indices) as Hpos.
    { eapply Forall_impl; [exact Hall|]. intros x Hx. simpl in Hx. lia. }
    destruct (take_rows_aligned _ _ _ Ho Hpos) as (? & _ & Hrows_o).
    destruct (take_rows_aligned _ _ _ Ha Hpos) as (? & _ & Hrows_a).
    destruct (take_rows_aligned _ _ _ Hr Hpos) as (? & _ & Hrows_r).
    destruct (take_rows_aligned _ _ _ Ht Hpos) as (? & _ & Hrows_t).
    destruct (take_rows_aligned _ _ _ Ho' Hpos) as (? & _ & Hrows_o').
    exists indices. split_and!; try done.
    intros p i Hi.
    pose proof (proj1 (Forall_lookup _ _) Hall _ _ Hi) as Hi0. simpl in Hi0.
    split_and!; first [lia | eauto].
Qed.
End SampleBuffers.

Section SampleBuffersExamples.
Import NewStateObsDict NewStateSpec Examples MoreExamples.

Lemma fresh_newstate_shaped : shaped fresh_newstate.
Proof. constructor; simpl; lia || reflexivity. Qed.


Lemma add_sample_keeps_latest_witness :
  shaped fresh_newstate ∧
  add_samples fresh_newstate two_samples = Return newstate_two ∧
  _top newstate_two = 2 `mod` 4 ∧
  num_steps_can_sample newstate_two = Z.min 2 4 ∧
  ∀ (g : nat) s, two_samples !! g = Some s →
    Z.of_nat (length two_samples) ≤ Z.of_nat g + max_size newstate_two →
    stores newstate_two (Z.to_nat (Z.of_nat g `mod` max_size newstate_two)) s.
Proof.
  assert (add_samples fresh_newstate two_samples = Return newstate_two) as Hrun
    by (vm_compute; reflexivity).
  split_and!; [exact fresh_newstate_shaped|exact Hrun|..];
    apply (proj1 (add_sample_keeps_latest (V:=Z)) fresh_newstate newstate_two
             two_samples fresh_newstate_shaped eq_refl eq_refl Hrun).
Defined.


Lemma random_batch_rows_aligned_witness :
  ∃ batch g',
    random_batch newstate_two 3 sevens = Return (batch, g') ∧
    ∃ indices,
      Z.of_nat (length indices) = 3 ∧
      length (rows (batch_observations batch)) = length indices ∧
      length (rows (batch_actions batch)) = length indices ∧
      length (rows (batch_rewards batch)) = length indices ∧
      length (rows (batch_terminals batch)) = length indices ∧
      length (rows (batch_next_observations batch)) = length indices ∧
      ∀ p i, indices !! p = Some i →
        0 ≤ i < _size newstate_two ∧
        rows (batch_observations batch) !! p
        = rows (_obs newstate_two) !! Z.to_nat i ∧
        rows (batch_actions batch) !! p
        = rows (_actions newstate_two) !! Z.to_nat i ∧
        rows (batch_rewards batch) !! p
        = rows (_rewards newstate_two) !! Z.to_nat i ∧
        rows (batch_terminals batch) !! p
        = rows (_terminals newstate_two) !! Z.to_nat i ∧
        rows (batch_next_observations batch) !! p
        = rows (_next_obs newstate_two) !! Z.to_nat i.
Proof.
  destruct (random_batch newstate_two 3 sevens) as [e|[batch g']] eqn:Hrun;
    [vm_compute in Hrun; discriminate|].
  exists batch, g'. split; [reflexivity|].
  exact (proj1 (random_batch_rows_aligned (V:=Z)) newstate_two 3 sevens g' batch Hrun).
Defined.

(** The batch of the witness: the draws [0, 7, 14] of the generator give
    the indices [0, 1, 0]. *)
Example random_batch_newstate_two :
  (λ '(batch, _), (rows (batch_observations batch), rows (batch_rewards batch)))
    <$> random_batch newstate_two 3 sevens
  = Return ([[1; 2; 9]; [2; 3; 9]; [1; 2; 9]], [[0]; [1]; [0]]).
Proof. vm_compute. reflexivity. Qed.
End SampleBuffersExamples.

Section ObsDictConstruction.
Context {V : Type} `{Scalar V} `{FloatRounding}.
Import ObsDict.

(** The array of zeros that [__init__] allocates for a key. *)
Lemma allocate_obs_total (e : Env V) (m : Z) (keys : list string) :
  0 ≤ m → Forall (λ key, is_Some (observation_spaces e !! key)) keys →
  ∃ o no, allocate_obs e m keys = Return (o, no) ∧
    ∀ key, key ∈ keys → ∃ d, observation_spaces e !! key = Some d ∧
      o !! key = Some (NdArray d (replicate (Z.to_nat m) (replicate d zero))) ∧
      no !! key = Some (NdArray d (replicate (Z.to_nat m) (replicate d zero))).
Proof.
  intros Hm. unfold allocate_obs.
  generalize (∅ : gmap string (ndarray V), ∅ : gmap string (ndarray V)).
  intros acc Hall. revert acc.
  cut (∀ acc : gmap string (ndarray V) * gmap string (ndarray V),
         ∃ o no,
           foldM (λ '(obs, next_obs) key,
                    _ ← py_assert (bool_decide (is_Some (observation_spaces e !! key)))
                          ("Key not found in the observation space: " +:+ key);
                    d ← dict_getitem (observation_spaces e) key;
                    a ← np_full zero m d;
                    a' ← np_full zero m d;
                    Return (<[key := a]> obs, <[key := a']> next_obs))
                 acc keys = Return (o, no) ∧
           ∀ key,
             o !! key
             = (if decide (key ∈ keys)
                then (λ d, NdArray d (replicate (Z.to_nat m) (replicate d zero)))
                       <$> observation_spaces e !! key
                else acc.1 !! key) ∧
             no !! key
             = (if decide (key ∈ keys)
                then (λ d, NdArray d (replicate (Z.to_nat m) (replicate d zero)))
                       <$> observation_spaces e !! key
                else acc.2 !! key)).
  { intros Hcut acc. destruct (Hcut acc) as (o & no & Hrun & Hlook).
    exists o, no. split; [done|]. intros key Hkey.
    destruct (proj1 (Forall_forall _ _) Hall key Hkey) as [d Hd].
    destruct (Hlook key) as [Ho Hno]. rewrite decide_True in Ho by done.
    rewrite decide_True in Hno by done.
    rewrite Hd in Ho, Hno. by exists d. }
  induction Hall as [|k keys [d Hd] _ IH]; intros [o0 no0].
  - exists o0, no0. split; [done|]. intros key.
    rewrite !decide_False by apply not_elem_of_nil. done.
  - destruct (IH (<[k := NdArray d (replicate (Z.to_nat m) (replicate d zero))]> o0,
                  <[k := NdArray d (replicate (Z.to_nat m) (replicate d zero))]> no0))
      as (o & no & Hrun & Hlook).
    exists o, no. split.
    { cbn [foldM]. rewrite <- Hrun.
      rewrite (bool_decide_eq_true_2 (is_Some (observation_spaces e !! k)))
        by (by exists d).
      cbn [py_assert mbind result_bind].
      replace (dict_getitem (observation_spaces e) k) with (Return d : result nat)
        by (unfold dict_getitem; by rewrite Hd).
      cbn [mbind result_bind].
      replace (np_full zero m d)
        with (Return (NdArray d (replicate (Z.to_nat m) (replicate d zero))))
        by (unfold np_full; by rewrite bool_decide_eq_false_2 by lia).
      done. }
    intros key.
    destruct (Hlook key) as [Ho Hno]. simpl in Ho, Hno.
    destruct (decide (key ∈ keys)) as [Hin|Hout].
    + rewrite !decide_True by (by right). done.
    + destruct (decide (key = k)) as [->|Hne].
      * rewrite !decide_True by (by left).
        rewrite lookup_insert_eq in Ho, Hno. by rewrite Hd.
      * rewrite !decide_False by (by intros [?|?]%elem_of_cons).
        by rewrite lookup_insert_ne in Ho, Hno.
Qed.

(** The first key that is not in the observation space stops the
    allocation. *)
Lemma allocate_obs_missing (e : Env V) (m : Z) (pre post : list string)
    (key : string) :
  0 ≤ m → Forall (λ key, is_Some (observation_spaces e !! key)) pre →
  observation_spaces e !! key = None →
  allocate_obs e m (pre ++ key :: post)
  = Raise (AssertionError ("Key not found in the observation space: " +:+ key)).
Proof.
  intros Hm Hpre Hkey. unfold allocate_obs.
  destruct (allocate_obs_total e m pre Hm Hpre) as (o & no & Hrun & _).
  unfold allocate_obs in Hrun. rewrite foldM_app, Hrun.
  cbn [mbind result_bind foldM].
  rewrite bool_decide_eq_false_2; [done|].
  rewrite Hkey. by intros [? ?].
Qed.

(** X6. What the constructor of [ObsDictRelabelingBuffer] does once its
    assertions on the observation space and on the fractions pass.  A
    negative [max_size] raises [ValueError] ([np.zeros]); otherwise the
    first of the keys [observation_key], [desired_goal_key],
    [achieved_goal_key] and the internal keys that the observation space
    lacks raises [AssertionError] with the message that names it; otherwise
    an empty buffer is returned: write pointer and size [0], arrays of
    [max_size] rows of zeros with the widths of the spaces, no list of
    future indices, and [desired_goal_key] appended to the goal keys unless
    it is among them. *)
Theorem obsdict_init_outcome (m : Z) (e : Env V) (fr fe : Q)
    (ik gk : option (list string)) (ok dk ak : string) :
  (∀ x, 0 <= x → 0 <= rnd x)%Q →
  observation_space_is_Dict e = true → fractions_ok fr fe →
  let keys := [ok; dk; ak] ++ default [] ik in
  let present := λ key, is_Some (observation_spaces e !! key) in
  let zeros := λ d : nat, NdArray d (replicate (Z.to_nat m) (replicate d zero)) in
  (m < 0 → __init__ m e fr fe ik gk ok dk ak = Raise ValueError) ∧
  (0 ≤ m → ∀ pre key post,
     keys = pre ++ key :: post → Forall present pre →
     observation_spaces e !! key = None →
     __init__ m e fr fe ik gk ok dk ak
     = Raise (AssertionError ("Key not found in the observation space: " +:+ key))) ∧
  (0 ≤ m → Forall present keys →
   ∃ b, __init__ m e fr fe ik gk ok dk ak = Return b ∧
     max_size b = m ∧ _top b = 0 ∧ num_steps_can_sample b = 0 ∧
     _idx_to_future_obs_idx b = replicate (Z.to_nat m) None ∧
     _actions b = zeros (_action_dim b) ∧ _terminals b = zeros 1%nat ∧
     saved_keys b = keys ∧
     goal_keys b
     = (if bool_decide (dk ∈ default [] gk) then default [] gk
        else default [] gk ++ [dk]) ∧
     ∀ key, key ∈ keys → ∃ d,
       observation_spaces e !! key = Some d ∧
       _obs b !! key = Some (zeros d) ∧ _next_obs b !! key = Some (zeros d)).
Proof.
  intros Hrnd Hdict Hok keys present zeros.
  destruct (fractions_ok_asserts fr fe Hrnd Hok) as (Hr & He & Hs & Hs').
  assert (∀ rest : result (Buffer V), guarded true fr fe rest = rest) as Hguard.
  { intros rest. unfold guarded. by rewrite Hr, He, Hs, Hs'. }
  assert (__init__ m e fr fe ik gk ok dk ak
          = guarded (observation_space_is_Dict e) fr fe
              (acts ← np_full zero m
                        match action_space e with
                        | Discrete n => n
                        | Box low_size => low_size
                        end;
               terms ← np_full zero m 1;
               '(obs, next_obs) ← allocate_obs e m keys;
               Return {|
                 internal_keys := default [] ik;
                 goal_keys := if bool_decide (dk ∈ default [] gk)
                              then default [] gk else default [] gk ++ [dk];
                 max_size := m; env := e;
                 fraction_goals_rollout_goals := fr;
                 fraction_goals_env_goals := fe;
                 ob_keys_to_save := [ok; dk; ak];
                 observation_key := ok; desired_goal_key := dk;
                 achieved_goal_key := ak;
                 _action_dim := match action_space e with
                                | Discrete n => n
                                | Box low_size => low_size
                                end;
                 _actions := acts; _terminals := terms;
                 _obs := obs; _next_obs := next_obs;
                 _top := 0; _size := 0;
                 _idx_to_future_obs_idx := replicate (Z.to_nat m) None |}))
    as -> by reflexivity.
  rewrite Hdict, Hguard. split_and!.
  - intros Hm. unfold np_full.
    by rewrite (bool_decide_eq_true_2 (m < 0)) by lia.
  - intros Hm pre key post Hkeys Hpre Hkey.
    unfold np_full. rewrite (bool_decide_eq_false_2 (m < 0)) by lia.
    cbn [mbind result_bind]. rewrite Hkeys.
    by rewrite (allocate_obs_missing e m pre post key Hm Hpre Hkey).
  - intros Hm Hall.
    destruct (allocate_obs_total e m keys Hm Hall) as (o & no & Hrun & Hlook).
    unfold np_full. rewrite (bool_decide_eq_false_2 (m < 0)) by lia.
    cbn [mbind result_bind]. rewrite Hrun. cbn [mbind result_bind].
    eexists. split; [reflexivity|]. simpl. split_and!; try done.
Qed.
End ObsDictConstruction.

Section ObsDictConstructionExamples.
Import ObsDict Examples.
#[local] Existing Instance exact.

Lemma obsdict_init_outcome_witness :
  observation_space_is_Dict reach_env = true ∧ fractions_ok 1 0 ∧
  ∃ b, __init__ 4 reach_env 1 0 None None
         "observation" "desired_goal" "achieved_goal" = Return b ∧
    max_size b = 4 ∧ _top b = 0 ∧ num_steps_can_sample b = 0 ∧
    goal_keys b = ["desired_goal"].
Proof.
  assert (fractions_ok 1 0) as Hok by (split_and!; vm_compute; discriminate).
  split_and!; [reflexivity|exact Hok|].
  destruct (obsdict_init_outcome (V:=Z) 4 reach_env 1 0 None None
              "observation" "desired_goal" "achieved_goal"
              (λ x Hx, Hx) eq_refl Hok) as (_ & _ & Hbuilt).
  destruct Hbuilt as (b & Hrun & Hm & Htop & Hsize & _ & _ & _ & _ & Hgoal & _).
  - lia.
  - repeat constructor; by eexists.
  - exists b. split_and!; [exact Hrun|exact Hm|exact Htop|exact Hsize|exact Hgoal].
Defined.

(** A key that the observation space lacks, here an internal key. *)
Example obsdict_init_missing_key :
  __init__ 4 reach_env 1 0 (Some ["velocity"]) None
    "observation" "desired_goal" "achieved_goal"
  = Raise (AssertionError "Key not found in the observation space: velocity").
Proof. vm_compute. reflexivity. Qed.
End ObsDictConstructionExamples.

(** * The demo and the evaluation script *)

Section DemoLoop.
Context {S A : Type}.
Import Demo DemoSpec.
Context (x : Externals S A).

Lemma steps_called_app (cs cs' : list (Call A)) :
  steps_called (cs ++ cs') = (steps_called cs + steps_called cs')%nat.
Proof. unfold steps_called, actions_stepped. by rewrite omap_app, length_app. Qed.

Lemma terminates_app (cs cs' : list (Call A)) :
  terminates (cs ++ cs') = terminates cs ++ terminates cs'.
Proof. unfold terminates. by rewrite omap_app. Qed.

(** One turn of the loop: one draw and one call of [task.step], which
    raises or returns the new value of [terminate]. *)
Lemma step_body_outcome (l : Locals S) (w w' : World A) (r : result (Locals S)) :
  step_body x l w = (r, w') →
  let a := random_normal x (draws w) in
  draws w' = Datatypes.S (draws w) ∧
  ((∃ e, r = Raise e ∧ task_step x (task l) a = Raise e ∧
         calls w' = calls w ++ [Normal; Step a]) ∨
   (∃ t s', r = Return {| task := s'; terminate := t; step_num := step_num l + 1 |} ∧
            task_step x (task l) a = Return (t, s') ∧
            calls w' = calls w ++ [Normal; Step a; Stepped t])).
Proof.
  unfold step_body, normal, log, lift, mbind, exec_bind, mret, exec_ret. simpl.
  destruct (task_step x (task l) (random_normal x (draws w))) as [e|[t s']];
    intros [= <- <-]; simpl; (split; [done|]); rewrite <- !app_assoc; simpl.
  - left. by exists e.
  - right. by exists t, s'.
Qed.

(** The loop from the variables [l]: it ends within the fuel that the
    steps left of the hundred need. *)
Lemma while_outcome (fuel : nat) :
  ∀ (l : Locals S) (w w' : World A) (r : result (option (Locals S))),
    100 - step_num l ≤ Z.of_nat fuel →
    while fuel goes_on (step_body x) l w = (r, w') →
    ∃ new, calls w' = calls w ++ new ∧
      draws w' = (draws w + steps_called new)%nat ∧
      Z.of_nat (steps_called new) ≤ Z.max 0 (100 - step_num l) ∧
      (goes_on l = false → new = []) ∧
      (goes_on l = true → (1 ≤ steps_called new)%nat) ∧
      (∀ i, (Datatypes.S i < length (terminates new))%nat →
            terminates new !! i = Some 0) ∧
      r ≠ Return None ∧
      (∀ l', r = Return (Some l') →
         goes_on l' = false ∧
         step_num l' = step_num l + Z.of_nat (steps_called new) ∧
         length (terminates new) = steps_called new ∧
         terminate l' = default (terminate l) (last (terminates new))) ∧
      (∀ e, r = Raise e →
         steps_called new = Datatypes.S (length (terminates new)) ∧
         ∃ s a, task_step x s a = Raise e).
Proof.
  induction fuel as [|fuel IH]; intros l w w' r Hfuel; cbn [while];
    destruct (goes_on l) eqn:Hcond.
  - unfold goes_on in Hcond. apply andb_true_iff in Hcond as [Hk _].
    apply bool_decide_eq_true_1 in Hk. lia.
  - intros [= <- <-]. exists []. rewrite app_nil_r. simpl.
    change (steps_called (@nil (Call A))) with 0%nat.
    split_and!;
      first [ done | lia | intros i Hi; simpl in Hi; lia
            | intros l' [= <-]; split_and!; first [done | lia] ].
  - assert (Hk : step_num l < 100 ∧ terminate l = 0).
    { unfold goes_on in Hcond. apply andb_true_iff in Hcond as [Hk Ht].
      apply bool_decide_eq_true_1 in Hk. by apply bool_decide_eq_true_1 in Ht. }
    intros [(e & Hbody & ->)|(l1 & w1 & Hbody & Hrest)]%exec_bind_inv.
    + apply step_body_outcome in Hbody
        as (Hdraws & [(e' & [= <-] & Hraise & Hcalls)|(t & s' & [=] & _)]).
      exists [Normal; Step (random_normal x (draws w))].
      change (steps_called [Normal; Step (random_normal x (draws w))]) with 1%nat.
      change (terminates [Normal; Step (random_normal x (draws w))]) with (@nil Z).
      split_and!;
        first [ done | lia | intros i Hi; simpl in Hi; lia
              | intros e' [= <-]; split; [done|]; eauto ].
    + apply step_body_outcome in Hbody
        as (Hdraws & [(e' & [=] & _)|(t & s' & [= ->] & Hstep & Hcalls)]).
      apply IH in Hrest
        as (new & Hnew & Hd & Hcount & Hstop & Hgo & Hzero & Hsome & Hret & Hraise);
        [|simpl; lia].
      simpl in *.
      exists ([Normal; Step (random_normal x (draws w)); Stepped t] ++ new).
      rewrite steps_called_app, terminates_app.
      change (steps_called [Normal; Step _; Stepped t]) with 1%nat.
      change (terminates [Normal; Step (random_normal x (draws w)); Stepped t])
        with [t].
      split_and!; try done.
      * by rewrite Hnew, Hcalls, <- app_assoc.
      * rewrite Hd, Hdraws. lia.
      * lia.
      * lia.
      * intros [|i] Hi; simpl in *.
        -- destruct (goes_on {| task := s'; terminate := t;
                               step_num := step_num l + 1 |}) eqn:Hnext.
           ++ unfold goes_on in Hnext. simpl in Hnext.
              apply andb_true_iff in Hnext as [_ Ht].
              apply bool_decide_eq_true_1 in Ht. by rewrite Ht.
           ++ rewrite (Hstop eq_refl) in Hi. simpl in Hi. lia.
        -- apply Hzero. lia.
      * intros l' Hl'. destruct (Hret l' Hl') as (Hc' & Hn' & Hlen' & Ht').
        split_and!; first [done | lia | simpl; lia | idtac].
        rewrite Ht'. change ([t] ++ terminates new) with (t :: terminates new).
        rewrite last_cons. by destruct (last (terminates new)).
      * intros e He. destruct (Hraise e He) as [Hc' Hex].
        split; [simpl; lia|done].
  - intros [= <- <-]. exists []. rewrite app_nil_r. simpl.
    change (steps_called (@nil (Call A))) with 0%nat.
    split_and!;
      first [ done | lia | intros i Hi; simpl in Hi; lia
            | intros l' [= <-]; split_and!; first [done | lia] ].
Qed.
End DemoLoop.

Section DemoMain.
Context {S A : Type}.
Import Demo DemoSpec.
Context (x : Externals S A).

(** What was called when [main] stops before the loop: no step. *)
Local Ltac before_loop :=
  unfold steps_called, actions_stepped, terminates; simpl;
  rewrite <- ?app_assoc; simpl;
  split_and!; first [ done | lia | intros i Hi; simpl in Hi; lia ].

(** X7. [main] of the demo with fuel for a hundred turns always ends by
    itself: it calls [task.step] at most 100 times, each time with a fresh
    draw of the generator, every step but the last returned [terminate]
    equal to 0, and when [main] returns, [step_num] is the number of steps
    made, at least one, and either that number is 100 or the last step
    returned a [terminate] other than 0. *)
Theorem demo_steps_at_most_100 (fuel : nat) (w w' : World A)
    (r : result (option (Locals S))) :
  (100 ≤ fuel)%nat →
  main x fuel w = (r, w') →
  r ≠ Return None ∧
  ∃ new, calls w' = calls w ++ new ∧
    (steps_called new ≤ 100)%nat ∧
    draws w' = (draws w + steps_called new)%nat ∧
    (∀ i, (Datatypes.S i < length (terminates new))%nat →
          terminates new !! i = Some 0) ∧
    (∀ l, r = Return (Some l) →
       (1 ≤ steps_called new)%nat ∧
       step_num l = Z.of_nat (steps_called new) ∧
       last (terminates new) = Some (terminate l) ∧
       (steps_called new = 100%nat ∨ terminate l ≠ 0)).
Proof.
  intros Hfuel. unfold main.
  intros [(e & Hm & ->)|([] & w1 & [= <-] & Hrun)]%exec_bind_inv; [done|].
  apply exec_bind_inv in Hrun as [(e & [= He <-] & ->)|(s1 & w2 & [= Hs <-] & Hrun)].
  { split; [done|]. exists [Launch]. before_loop. }
  apply exec_bind_inv in Hrun as [(e & Hm & ->)|([] & w3 & [= <-] & Hrun)]; [done|].
  apply exec_bind_inv in Hrun as [(e & [= He <-] & ->)|(s2 & w4 & [= Hs' <-] & Hrun)].
  { split; [done|]. exists [Launch; GetTask]. before_loop. }
  apply exec_bind_inv in Hrun as [(e & Hm & ->)|([] & w5 & [= <-] & Hrun)]; [done|].
  apply exec_bind_inv in Hrun as [(e & [= He <-] & ->)|(s3 & w6 & [= Hs'' <-] & Hrun)].
  { split; [done|]. exists [Launch; GetTask; ResetTask]. before_loop. }
  apply (while_outcome x fuel) in Hrun
    as (new & Hnew & Hd & Hcount & _ & Hgo & Hzero & Hsome & Hret & _);
    [|simpl; lia].
  simpl in *. split; [done|].
  exists ([Launch; GetTask; ResetTask] ++ new).
  rewrite steps_called_app, terminates_app.
  change (steps_called [Launch; GetTask; ResetTask]) with 0%nat.
  change (terminates (A:=A) [Launch; GetTask; ResetTask]) with (@nil Z).
  simpl. split_and!.
  - rewrite Hnew, <- !app_assoc. done.
  - lia.
  - done.
  - done.
  - intros l Hl. destruct (Hret l Hl) as (Hstop & Hn & Hlen & Ht).
    specialize (Hgo eq_refl).
    assert (Hlast : last (terminates new) = Some (terminate l)).
    { rewrite Ht. destruct (terminates new) as [|t ts] eqn:Hts using rev_ind.
      - simpl in Hlen. lia.
      - by rewrite last_snoc. }
    split_and!; try done; try lia.
    unfold goes_on in Hstop. apply andb_false_iff in Hstop as [Hk|Hk];
      apply bool_decide_eq_false_1 in Hk; [left; lia|by right].
Qed.
End DemoMain.

Section EvalExceptions.
Import Eval EvalSpec EvalRaises.
Context {V E G A : Type}.
Context (x : Externals V E G A).

Lemma do_reset_outcome (w w' : World V E G A) (r : result unit) :
  do_reset x w = (r, w') →
  (∀ e, r = Raise e → external x e) ∧ (r = Return tt → is_Some (obs w')).
Proof.
  unfold do_reset, mbind, exec_bind, get, lift, log, set_env, set_obs. simpl.
  destruct (env_reset x (env w)) as [e|[o e']] eqn:Hreset; intros [= <- <-].
  - split; [|done]. intros ? [= <-]. right. left. eauto.
  - split; [done|]. by eexists.
Qed.

Lemma do_get_action_outcome (w w' : World V E G A) (r : result A) :
  is_Some (obs w) → do_get_action x w = (r, w') →
  obs w' = obs w ∧
  (∀ e, r = Raise e →
     external x e ∨ (e = KeyError "observation" ∧ lacks_observation w')).
Proof.
  intros [o Ho]. unfold do_get_action, mbind, exec_bind, get, lift, log, set_agent.
  simpl. rewrite Ho. unfold dict_getitem. simpl.
  destruct (o !! "observation") as [row|] eqn:Hrow; simpl.
  - destruct (get_action x (agent w) row) as [e|[a g]] eqn:Hact;
      intros [= <- <-]; simpl; (split; [done|]); [|done].
    intros ? [= <-]. left. do 4 right. left. eauto.
  - intros [= <- <-]. split; [done|]. intros ? [= <-]. right.
    split; [done|]. by exists o.
Qed.

Lemma do_input_outcome (prompt : string) (w w' : World V E G A) (r : result string) :
  do_input x prompt w = (r, w') →
  obs w' = obs w ∧ (∀ e, r = Raise e → external x e).
Proof.
  unfold do_input, mbind, exec_bind, get, lift, log, line_read. simpl.
  destruct (user x (lines_read w)) as [e|line] eqn:Huser; intros [= <- <-];
    (split; [done|]); [|done].
  intros ? [= <-]. do 5 right. eauto.
Qed.

Lemma do_step_outcome (action : A) (w w' : World V E G A) (r : result unit) :
  do_step x action w = (r, w') →
  (∀ e, r = Raise e → external x e) ∧ (r = Return tt → is_Some (obs w')).
Proof.
  unfold do_step, mbind, exec_bind, get, lift, log, set_env, set_obs. simpl.
  destruct (env_step x (env w) action) as [e|[o e']] eqn:Hstep; intros [= <- <-].
  - split; [|done]. intros ? [= <-]. do 2 right. left. eauto.
  - split; [done|]. by eexists.
Qed.

Lemma do_render_outcome (w w' : World V E G A) (r : result unit) :
  do_render x w = (r, w') →
  obs w' = obs w ∧ (∀ e, r = Raise e → external x e).
Proof.
  unfold do_render, mbind, exec_bind, get, lift, log, set_env. simpl.
  destruct (env_render x (env w)) as [e|e'] eqn:Hrender; intros [= <- <-];
    (split; [done|]); [|done].
  intros ? [= <-]. do 3 right. left. eauto.
Qed.

(** One iteration, at the start of an episode or with [obs] bound: what it
    raises comes from outside or from the observation, and it leaves [obs]
    bound. *)
Lemma iteration_outcome (L i : Z) (w w' : World V E G A) (r : result Flow) :
  L ≠ 0 → i `mod` L = 0 ∨ is_Some (obs w) →
  iteration x L i w = (r, w') →
  (∀ e, r = Raise e →
     external x e ∨ (e = KeyError "observation" ∧ lacks_observation w')) ∧
  (∀ c, r = Return c → is_Some (obs w')).
Proof.
  intros HL Hstart. unfold iteration.
  rewrite (bool_decide_eq_false_2 (L = 0)) by done.
  intros [(e & [=] & _)|([] & ? & [= <-] & Hrun)]%exec_bind_inv.
  assert (∀ w1 r1,
    (if bool_decide (i `mod` L = 0) then _ ← do_print "Reset Episode"; do_reset x
     else mret tt) w = (r1, w1) →
    (∀ e, r1 = Raise e → external x e) ∧ (r1 = Return tt → is_Some (obs w1)))
    as Hhead.
  { intros w1 r1. case_bool_decide as Hmod.
    - unfold do_print, log. unfold mbind at 1, exec_bind at 1.
      apply do_reset_outcome.
    - intros [= <- <-]. split; [done|]. intros _. by destruct Hstart. }
  apply exec_bind_inv in Hrun as [(e & Hh & ->)|([] & w1 & Hh & Hrun)];
    apply Hhead in Hh as [Hraise Hobs].
  { split; [|done]. intros ? [= <-]. left. by apply Hraise. }
  specialize (Hobs eq_refl). clear Hhead Hraise.
  apply exec_bind_inv in Hrun as [(e & Hga & ->)|(a & w2 & Hga & Hrun)];
    apply do_get_action_outcome in Hga as [Hobs2 Hraise]; try done.
  { split; [|done]. intros ? [= <-]. by apply Hraise. }
  apply exec_bind_inv in Hrun as [(e & Hin & ->)|(line & w3 & Hin & Hrun)];
    apply do_input_outcome in Hin as [Hobs3 Hraise3].
  { split; [|done]. intros ? [= <-]. left. by apply Hraise3. }
  apply exec_bind_inv in Hrun as [(e & Hst & ->)|([] & w4 & Hst & Hrun)];
    apply do_step_outcome in Hst as [Hraise4 Hobs4].
  { split; [|done]. intros ? [= <-]. left. by apply Hraise4. }
  apply exec_bind_inv in Hrun as [(e & Hre & ->)|([] & w5 & Hre & Hrun)];
    apply do_render_outcome in Hre as [Hobs5 Hraise5].
  { split; [|done]. intros ? [= <-]. left. by apply Hraise5. }
  injection Hrun as <- <-. split; [done|]. intros _ _. rewrite Hobs5. by apply Hobs4.
Qed.

Lemma loop_outcome (L : Z) (l : list Z) :
  ∀ (w w' : World V E G A) (e : exn),
    L ≠ 0 → (∀ i, head l = Some i → i `mod` L = 0) ∨ is_Some (obs w) →
    for_each l (iteration x L) w = (Raise e, w') →
    external x e ∨ (e = KeyError "observation" ∧ lacks_observation w').
Proof.
  induction l as [|i l IH]; intros w w' e HL Hstart; cbn [for_each]; [done|].
  assert (i `mod` L = 0 ∨ is_Some (obs w)) as Hi.
  { destruct Hstart as [Hstart|Hstart]; [left; by apply Hstart|by right]. }
  intros [(e' & Hit & [= <-])|(c & w1 & Hit & Hrest)]%exec_bind_inv;
    apply (iteration_outcome L i w _ _ HL Hi) in Hit as [Hraise Hobs].
  - by apply Hraise.
  - destruct c; [|done]. eapply IH; [done| |exact Hrest]. right. by eapply Hobs.
Qed.

(** X8. An exception that leaves [run_evaluation] was raised by a call to
    the simulator, the policy or the user, or it is the [KeyError] of an
    observation of the simulator without the key ['observation']: [obs] is
    bound whenever it is read, and the run raises nothing else of its
    own. *)
Theorem run_evaluation_raises_from_outside (w w' : World V E G A) (e : exn) :
  run_evaluation x w = (Raise e, w') →
  external x e ∨ (e = KeyError "observation" ∧ lacks_observation w').
Proof.
  intros [(e' & Hwrap & [= <-] & ->)|(w1 & _ & _ & Hloop)]%run_evaluation_loop.
  - left. left. eauto.
  - eapply loop_outcome; [|left|exact Hloop]; [done|].
    by intros i [= <-].
Qed.
End EvalExceptions.

Section EvalMainLemmas.
Import EvalMain EvalMainSpec.
Context {V E G A : Type}.
Context (x : Externals V E G A).

(** The run of the evaluation inside [main]: its calls are recorded, and
    [main] goes on only when it returns. *)
Lemma do_run_evaluation_outcome (e : E) (agent : G) (w w' : World V A) (r : result E) :
  do_run_evaluation x e agent w = (r, w') →
  ∃ r_run w_run,
    Eval.run_evaluation (run x) (start e agent (lines w)) = (r_run, w_run) ∧
    calls w' = calls w ++ [RunEvaluation (Eval.trace w_run)] ∧
    lines w' = Eval.lines_read w_run ∧
    match r_run with
    | Raise err => r = Raise err
    | Return _ => r = Return (Eval.env w_run)
    end.
Proof.
  unfold do_run_evaluation, start.
  destruct (Eval.run_evaluation _ _) as [[err|[]] w_run]; intros [= <- <-];
    by eexists _, _.
Qed.

(** X9. [main] of the evaluation script closes the environment at most
    once, as its last call, and only after [run_evaluation] has returned,
    that is after all the calls of the 150 iterations; when it returns the
    environment was closed.  When [run_evaluation] raises, [main] raises
    the same exception and never calls [close]: the environment stays
    open. *)
Theorem main_closes_only_after_run (name : string) (w w' : World V A)
    (r : result unit) :
  main x name w = (r, w') →
  ∃ new, calls w' = calls w ++ new ∧
    (∀ p, new !! p = Some Close →
       ∃ evs w_run e agent,
         new = [GetGymEnvironment; Load (policy_path x name);
                PrintLine "[DEBUG] Loaded all, ready to run simulation";
                RunEvaluation evs; Close] ∧
         get_gym_environment x = Return e ∧
         load x (policy_path x name) = Return agent ∧
         Eval.run_evaluation (run x) (start e agent (lines w)) = (Return tt, w_run) ∧
         evs = Eval.trace w_run ∧
         EvalSpec.kind <$> evs = EvalSpec.expected_kinds) ∧
    (r = Return tt → Close ∈ new) ∧
    (∀ e agent err w_run,
       get_gym_environment x = Return e →
       load x (policy_path x name) = Return agent →
       Eval.run_evaluation (run x) (start e agent (lines w)) = (Raise err, w_run) →
       r = Raise err ∧ Close ∉ new ∧
       new = [GetGymEnvironment; Load (policy_path x name);
              PrintLine "[DEBUG] Loaded all, ready to run simulation";
              RunEvaluation (Eval.trace w_run)]).
Proof.
  unfold main, load_trained_policy.
  fold (policy_path x name).
  intros [(e & Hm & ->)|([] & w1 & [= <-] & Hrun)]%exec_bind_inv; [done|].
  apply exec_bind_inv in Hrun as [(err & [= He <-] & ->)|(e & w2 & [= He <-] & Hrun)].
  { exists [GetGymEnvironment]. simpl. split_and!; try done.
    - intros [|[|p]] Hp; simplify_eq.
    - intros ???? He'. congruence. }
  apply exec_bind_inv in Hrun as [(err & Hload & ->)|(agent & w3 & Hload & Hrun)].
  { apply exec_bind_inv in Hload
      as [(? & [=] & _)|([] & w3 & [= <-] & [= Hload <-])].
    exists [GetGymEnvironment; Load (policy_path x name)]. simpl.
    rewrite <- app_assoc. split_and!; try done.
    - intros [|[|[|p]]] Hp; simplify_eq.
    - intros ???? _ Hl'. congruence. }
  apply exec_bind_inv in Hload
    as [(? & [=] & _)|([] & w4 & [= <-] & [= Hload <-])].
  apply exec_bind_inv in Hrun as [(? & [=] & _)|([] & w5 & [= <-] & Hrun)].
  apply exec_bind_inv in Hrun as [(err & Hev & ->)|(e' & w6 & Hev & Hrun)];
    apply do_run_evaluation_outcome in Hev
      as (r_run & w_run & Hev & Hcalls & Hlines & Hr); simpl in *.
  { destruct r_run as [err'|[]]; [injection Hr as <-|done].
    exists [GetGymEnvironment; Load (policy_path x name);
            PrintLine "[DEBUG] Loaded all, ready to run simulation";
            RunEvaluation (Eval.trace w_run)].
    rewrite Hcalls, <- !app_assoc. split_and!; try done.
    - intros [|[|[|[|[|p]]]]] Hp; simplify_eq.
    - intros e0 agent0 err0 w_run0 He0 Hl0 Hrun0.
      rewrite He in He0. injection He0 as <-.
      rewrite Hload in Hl0. injection Hl0 as <-.
      rewrite Hev in Hrun0. injection Hrun0 as <- <-.
      split_and!; [done| |done]. set_solver. }
  destruct r_run as [err'|[]]; [done|injection Hr as ->].
  apply exec_bind_inv in Hrun as [(? & [=] & _)|([] & w7 & [= <-] & Hrun)].
  exists [GetGymEnvironment; Load (policy_path x name);
          PrintLine "[DEBUG] Loaded all, ready to run simulation";
          RunEvaluation (Eval.trace w_run); Close].
  assert (calls w' = calls w6 ++ [Close]) as Hend.
  { unfold mbind, exec_bind, lift, mret, exec_ret in Hrun. simpl in Hrun.
    destruct (env_close x (Eval.env w_run)); by injection Hrun as _ <-. }
  rewrite Hend, Hcalls, <- !app_assoc. split_and!; try done.
  - intros p _. exists (Eval.trace w_run), w_run, e, agent.
    split_and!; try done.
    apply run_evaluation_loop in Hev as [(? & _ & [=] & _)|(w1 & Ht & _ & Hloop)].
    apply loop_trace in Hloop as (evs & [Hevs _] & _ & Hret); [|done].
    rewrite Hevs, Ht. simpl. by apply Hret.
  - intros _. set_solver.
  - intros e0 agent0 err0 w_run0 He0 Hl0 Hrun0.
    rewrite He in He0. injection He0 as <-.
    rewrite Hload in Hl0. injection Hl0 as <-.
    rewrite Hev in Hrun0. by injection Hrun0.
Qed.
End EvalMainLemmas.

Section PolicyPath.
Import EvalMain EvalMainSpec.

Lemma append_assoc (a b c : string) : (a +:+ b) +:+ c = a +:+ b +:+ c.
Proof.
  induction a as [|ch a IH]; [done|].
  change (String ch ((a +:+ b) +:+ c) = String ch (a +:+ b +:+ c)). by f_equal.
Qed.

Lemma append_empty_r (a : string) : a +:+ "" = a.
Proof.
  induction a as [|ch a IH]; [done|].
  change (String ch (a +:+ "") = String ch a). by f_equal.
Qed.

Lemma length_append (a b : string) :
  String.length (a +:+ b) = (String.length a + String.length b)%nat.
Proof.
  induction a as [|ch a IH]; [done|].
  change (S (String.length (a +:+ b)) = S (String.length a + String.length b)).
  by f_equal.
Qed.

(** Whether a path ends with a slash depends on its last part. *)
Lemma ends_with_sep_append (a b : string) :
  b ≠ "" → ends_with_sep (a +:+ b) = ends_with_sep b.
Proof.
  intros Hb. unfold ends_with_sep. rewrite length_append.
  assert (0 < String.length b)%nat as Hlen by (destruct b; [done|simpl; lia]).
  replace (String.length a + String.length b - 1)%nat
    with ((String.length b - 1) + String.length a)%nat by lia.
  by rewrite <- append_correct2.
Qed.

Lemma append_nonempty (a b : string) : b ≠ "" → a +:+ b ≠ "".
Proof. intros Hb. by destruct a. Qed.

Context {V E G A : Type}.
Context (x : Externals V E G A).

(** X10. The file that [load_trained_policy] loads: for a name that does
    not start with a slash it is [trained_policy.pt] in the directory
    [networks/<name>] under the directory of the script; a name that starts
    with a slash is taken as the directory itself, whatever the directory
    of the script is.  A slash is put between two parts unless the first
    is empty or ends with one. *)
Theorem policy_path_of_name (name : string) :
  let sep (s : string) : string :=
    if bool_decide (s = "") || ends_with_sep s then "" else "/" in
  (String.prefix "/" name = true →
   policy_path x name = name +:+ sep name +:+ "trained_policy.pt") ∧
  (String.prefix "/" name = false →
   policy_path x name
   = root_path x +:+ sep (root_path x) +:+ "networks/" +:+ name +:+ sep name
       +:+ "trained_policy.pt").
Proof.
  intros sep. unfold policy_path, os_path_join. cbn [fold_left].
  assert (∀ a, a ≠ "" → ends_with_sep a = false →
               join_step (join_step a name) "trained_policy.pt"
               = (if String.prefix "/" name then name else a +:+ "/" +:+ name)
                   +:+ sep name +:+ "trained_policy.pt") as Hlast.
  { intros a Ha Hend. unfold join_step at 2.
    destruct (String.prefix "/" name) eqn:Hname.
    - unfold join_step. simpl. unfold sep.
      by destruct (bool_decide (name = "") || ends_with_sep name).
    - rewrite (bool_decide_eq_false_2 (a = "")), Hend by done. simpl.
      unfold join_step. cbn [String.prefix].
      destruct (decide (name = "")) as [->|Hne].
      + unfold sep. simpl. rewrite ends_with_sep_append by done.
        rewrite orb_true_r. by rewrite !append_assoc.
      + rewrite <- append_assoc, ends_with_sep_append by done.
        rewrite (bool_decide_eq_false_2 (_ +:+ name = "")) by by apply append_nonempty.
        unfold sep. rewrite (bool_decide_eq_false_2 (name = "")) by done. simpl.
        destruct (ends_with_sep name); by rewrite !append_assoc. }
  assert (join_step (root_path x) "networks"
          = root_path x +:+ sep (root_path x) +:+ "networks") as Hfirst.
  { unfold join_step, sep. simpl.
    by destruct (bool_decide (root_path x = "") || ends_with_sep (root_path x)). }
  rewrite Hlast.
  - split; intros ->; [done|]. rewrite Hfirst. by rewrite !append_assoc.
  - rewrite Hfirst, <- append_assoc. by apply append_nonempty.
  - rewrite Hfirst, <- append_assoc. by rewrite ends_with_sep_append.
Qed.
End PolicyPath.

Section DemoEvalExamples.
Import Examples MoreExamples.

Lemma demo_steps_at_most_100_witness :
  (100 ≤ 100)%nat ∧
  Demo.main three_steps 100 demo_start = demo_end ∧
  demo_end.1 ≠ Return None ∧
  ∃ new, Demo.calls demo_end.2 = Demo.calls demo_start ++ new ∧
    (DemoSpec.steps_called new ≤ 100)%nat ∧
    Demo.draws demo_end.2 = (Demo.draws demo_start + DemoSpec.steps_called new)%nat ∧
    (∀ i, (S i < length (DemoSpec.terminates new))%nat →
          DemoSpec.terminates new !! i = Some 0) ∧
    (∀ l, demo_end.1 = Return (Some l) →
       (1 ≤ DemoSpec.steps_called new)%nat ∧
       Demo.step_num l = Z.of_nat (DemoSpec.steps_called new) ∧
       last (DemoSpec.terminates new) = Some (Demo.terminate l) ∧
       (DemoSpec.steps_called new = 100%nat ∨ Demo.terminate l ≠ 0)).
Proof.
  split; [lia|]. split; [by vm_compute|].
  apply (demo_steps_at_most_100 three_steps 100 demo_start demo_end.2 demo_end.1);
    [lia|by vm_compute].
Defined.

Lemma run_evaluation_raises_from_outside_witness :
  Eval.run_evaluation two_lines eval_world = (Raise EOFError, eval_two_lines.2) ∧
  (EvalRaises.external two_lines EOFError ∨
   (EOFError = KeyError "observation" ∧ EvalRaises.lacks_observation eval_two_lines.2)).
Proof.
  assert (Eval.run_evaluation two_lines eval_world
          = (Raise EOFError, eval_two_lines.2)) as Hrun by (by vm_compute).
  split; [exact Hrun|].
  exact (run_evaluation_raises_from_outside two_lines eval_world eval_two_lines.2
           EOFError Hrun).
Defined.

Lemma main_closes_only_after_run_witness :
  EvalMain.main (script two_lines) "reach" script_start = script_end ∧
  script_end.1 = Raise EOFError ∧
  ∃ new, EvalMain.calls script_end.2 = EvalMain.calls script_start ++ new ∧
    (∀ p, new !! p = Some EvalMain.Close → S p = length new) ∧
    EvalMain.Close ∉ new.
Proof.
  assert (EvalMain.main (script two_lines) "reach" script_start
          = (script_end.1, script_end.2)) as Hrun by (by vm_compute).
  split; [by vm_compute|]. split; [by vm_compute|].
  destruct (main_closes_only_after_run (script two_lines) "reach" script_start
              script_end.2 script_end.1 Hrun)
    as (new & Hnew & Hclose & _ & Hraise).
  exists new. split; [exact Hnew|].
  destruct (Hraise 0 tt EOFError eval_two_lines.2 eq_refl eq_refl)
    as (_ & Hopen & _); [by vm_compute|].
  split; [|exact Hopen].
  intros p Hp. destruct (Hclose p Hp) as (evs & ? & ? & ? & -> & _).
  by destruct p as [|[|[|[|[|p]]]]].
Defined.

Lemma policy_path_of_name_witness :
  String.prefix "/" "reach" = false ∧
  String.prefix "/" "/tmp/reach" = true ∧
  EvalMainSpec.policy_path (script two_lines) "reach"
  = "/home/user/ISE_7202/networks/reach/trained_policy.pt" ∧
  EvalMainSpec.policy_path (script two_lines) "/tmp/reach"
  = "/tmp/reach/trained_policy.pt".
Proof.
  split; [reflexivity|]. split; [reflexivity|]. split.
  - exact (proj2 (policy_path_of_name (script two_lines) "reach") eq_refl).
  - exact (proj1 (policy_path_of_name (script two_lines) "/tmp/reach") eq_refl).
Defined.
End DemoEvalExamples.

(** * The representation of images *)

Section ImageLemmas.
Import Images ImagesSpec.
Context `{FloatRounding}.
Context (rnd32 : Q → Q).

Lemma normalize_image_outcome (image : tarray) :
  normalize_image image
  = if decide (dtype_of image = uint8) then Return (floats_of image)
    else Raise (AssertionError "image.dtype == np.uint8").
Proof.
  unfold normalize_image, py_assert.
  destruct (decide (dtype_of image = uint8)) as [Ht|Ht].
  - by rewrite bool_decide_eq_true_2.
  - by rewrite bool_decide_eq_false_2.
Qed.

Lemma unnormalize_image_outcome (image : tarray) :
  unnormalize_image rnd32 image
  = if decide (dtype_of image = uint8)
    then Raise (AssertionError "image.dtype != np.uint8")
    else Return (bytes_of rnd32 image).
Proof.
  unfold unnormalize_image, py_assert.
  destruct (decide (dtype_of image = uint8)) as [Ht|Ht].
  - rewrite bool_decide_eq_false_2; [done|]. by intros []. 
  - by rewrite bool_decide_eq_true_2.
Qed.

(** The loop of the two conversions over items with distinct keys, when
    [f] accepts every image: each item is converted by itself. *)
Lemma convert_loop_Return (f : tarray → result tarray) (g : tarray → tarray)
    (l : list (string * option tarray)) :
  ∀ acc : gmap string (option tarray),
    NoDup l.*1 →
    (∀ k image, (k, Some image) ∈ l → str_contains "image" k = true →
                f image = Return (g image)) →
    ∃ acc', foldM (convert f) acc l = Return acc' ∧
      (∀ k, k ∉ l.*1 → acc' !! k = acc !! k) ∧
      (∀ k o, (k, o) ∈ l → acc !! k = Some o → acc' !! k = Some (converted g k o)).
Proof.
  induction l as [|[k o] l IH]; intros acc Hdup Hf; cbn [foldM].
  - exists acc. split_and!; [done..|]. by intros ?? ?%elem_of_nil.
  - apply NoDup_cons in Hdup as [Hk Hdup]. simpl in Hk.
    assert (∃ acc1, convert f acc (k, o) = Return acc1 ∧
              (∀ k', k' ≠ k → acc1 !! k' = acc !! k') ∧
              (acc !! k = Some o → acc1 !! k = Some (converted g k o)))
      as (acc1 & -> & Hother & Hthis).
    { unfold convert, converted.
      destruct (str_contains "image" k) eqn:Hc; [|by eexists].
      destruct o as [image|]; [|by eexists].
      rewrite (Hf k image) by (done || left). simpl. eexists. split_and!; [done| |].
      - intros k' Hk'. by rewrite lookup_insert_ne.
      - intros _. by rewrite lookup_insert_eq. }
    simpl. destruct (IH acc1 Hdup) as (acc' & Hrun & Hout & Hin).
    { intros k' image Hin. apply Hf. by right. }
    exists acc'. split; [done|]. split.
    + intros k' Hk'. apply not_elem_of_cons in Hk' as [Hne Hk'].
      rewrite Hout by done. by apply Hother.
    + intros k' o' [[= -> ->]|Hin']%elem_of_cons Hacc.
      * rewrite Hout by done. by apply Hthis.
      * apply Hin; [done|]. rewrite Hother; [done|].
        intros ->. apply Hk. apply list_elem_of_fmap. by exists (k, o').
Qed.

(** The loop raises at the first image that [f] rejects. *)
Lemma convert_loop_Raise (f : tarray → result tarray) (e : exn)
    (l : list (string * option tarray)) :
  ∀ acc : gmap string (option tarray),
    (∀ image, f image = Raise e ∨ ∃ image', f image = Return image') →
    (∃ k image, (k, Some image) ∈ l ∧ str_contains "image" k = true ∧
                f image = Raise e) →
    foldM (convert f) acc l = Raise e.
Proof.
  induction l as [|[k o] l IH]; intros acc Hf (k' & image & Hin & Hc & Hraise);
    cbn [foldM].
  - by apply elem_of_nil in Hin.
  - apply elem_of_cons in Hin as [[= <- <-]|Hin].
    + unfold convert. by rewrite Hc, Hraise.
    + assert (convert f acc (k, o) = Raise e ∨ ∃ acc1, convert f acc (k, o) = Return acc1)
        as [->|[acc1 ->]]; [|done|].
      { unfold convert. destruct (str_contains "image" k); [|by eauto].
        destruct o as [image0|]; [|by eauto].
        destruct (Hf image0) as [->|[image' ->]]; simpl; eauto. }
      simpl. apply IH; [done|]. by exists k', image.
Qed.

Lemma convert_dict_Return (f : tarray → result tarray) (g : tarray → tarray)
    (d : gmap string (option tarray)) :
  (∀ k image, d !! k = Some (Some image) → str_contains "image" k = true →
              f image = Return (g image)) →
  ∃ d', foldM (convert f) d (map_to_list d) = Return d' ∧
    ∀ k, d' !! k = converted g k <$> d !! k.
Proof.
  intros Hf.
  destruct (convert_loop_Return f g (map_to_list d) d) as (d' & Hrun & Hout & Hin).
  { apply NoDup_fst_map_to_list. }
  { intros k image Hk. apply Hf. by apply elem_of_map_to_list. }
  exists d'. split; [done|]. intros k.
  destruct (d !! k) as [o|] eqn:Hk; simpl.
  - apply Hin; [by apply elem_of_map_to_list|done].
  - rewrite Hout, Hk; [done|].
    intros [[k' o] [-> Hin']]%list_elem_of_fmap.
    apply elem_of_map_to_list in Hin'. simpl in Hk. congruence.
Qed.

Lemma convert_dict_Raise (f : tarray → result tarray) (e : exn)
    (d : gmap string (option tarray)) :
  (∀ image, f image = Raise e ∨ ∃ image', f image = Return image') →
  (∃ k image, d !! k = Some (Some image) ∧ str_contains "image" k = true ∧
              f image = Raise e) →
  foldM (convert f) d (map_to_list d) = Raise e.
Proof.
  intros Hf (k & image & Hk & Hc & Hraise).
  apply convert_loop_Raise; [done|].
  exists k, image. split; [by apply elem_of_map_to_list|done].
Qed.

(** X11. [preprocess_obs_dict] and [postprocess_obs_dict] either convert
    every image of the dict, that is every entry whose key contains
    ['image'] and whose value is not [None], and leave the other entries
    as they are, or raise [AssertionError]: [preprocess_obs_dict] raises
    when an image is of bytes already, [postprocess_obs_dict] when an
    image is not of bytes. *)
Theorem obs_dict_conversions (d : gmap string (option tarray)) :
  (has_image (λ t, t = uint8) d →
   preprocess_obs_dict rnd32 d = Raise (AssertionError "image.dtype != np.uint8")) ∧
  (¬ has_image (λ t, t = uint8) d →
   ∃ d', preprocess_obs_dict rnd32 d = Return d' ∧
     ∀ k, d' !! k = converted (bytes_of rnd32) k <$> d !! k) ∧
  (has_image (λ t, t ≠ uint8) d →
   postprocess_obs_dict d = Raise (AssertionError "image.dtype == np.uint8")) ∧
  (¬ has_image (λ t, t ≠ uint8) d →
   ∃ d', postprocess_obs_dict d = Return d' ∧
     ∀ k, d' !! k = converted floats_of k <$> d !! k).
Proof.
  unfold preprocess_obs_dict, postprocess_obs_dict. split_and!.
  - intros (k & image & Hk & Hc & Ht). apply convert_dict_Raise.
    + intros image0. rewrite unnormalize_image_outcome.
      destruct (decide _); eauto.
    + exists k, image. split_and!; [done..|].
      rewrite unnormalize_image_outcome. by rewrite decide_True.
  - intros Hno. apply convert_dict_Return. intros k image Hk Hc.
    rewrite unnormalize_image_outcome. rewrite decide_False; [done|].
    intros Ht. apply Hno. by exists k, image.
  - intros (k & image & Hk & Hc & Ht). apply convert_dict_Raise.
    + intros image0. rewrite normalize_image_outcome.
      destruct (decide _); eauto.
    + exists k, image. split_and!; [done..|].
      rewrite normalize_image_outcome. by rewrite decide_False.
  - intros Hno. apply convert_dict_Return. intros k image Hk Hc.
    rewrite normalize_image_outcome.
    destruct (decide (dtype_of image = uint8)) as [Ht|Ht]; [done|].
    destruct Hno. by exists k, image.
Qed.

(** X12. After [preprocess_obs_dict] has returned, [postprocess_obs_dict]
    of its result returns: every image is now the floats of its bytes, the
    other entries are those of the first dict.  Neither conversion can be
    applied twice in a row to a dict with an image: the second
    [preprocess_obs_dict] and the second [postprocess_obs_dict] raise
    [AssertionError]. *)
Theorem preprocess_then_postprocess (d d' : gmap string (option tarray)) :
  preprocess_obs_dict rnd32 d = Return d' →
  (has_image (λ _, True) d →
   preprocess_obs_dict rnd32 d' = Raise (AssertionError "image.dtype != np.uint8")) ∧
  ∃ d'', postprocess_obs_dict d' = Return d'' ∧
    (∀ k, d'' !! k = converted (floats_of ∘ bytes_of rnd32) k <$> d !! k) ∧
    (has_image (λ _, True) d →
     postprocess_obs_dict d'' = Raise (AssertionError "image.dtype == np.uint8")).
Proof.
  unfold preprocess_obs_dict, postprocess_obs_dict. intros Hpre.
  assert (∀ image, unnormalize_image rnd32 image
                   = Raise (AssertionError "image.dtype != np.uint8") ∨
                   ∃ image', unnormalize_image rnd32 image = Return image') as Hun.
  { intros image. rewrite unnormalize_image_outcome. destruct (decide _); eauto. }
  assert (∀ image, normalize_image image
                   = Raise (AssertionError "image.dtype == np.uint8") ∨
                   ∃ image', normalize_image image = Return image') as Hno.
  { intros image. rewrite normalize_image_outcome. destruct (decide _); eauto. }
  assert (∀ k image, d !! k = Some (Some image) → str_contains "image" k = true →
            unnormalize_image rnd32 image = Return (bytes_of rnd32 image)) as Hd.
  { intros k image Hk Hc. rewrite unnormalize_image_outcome.
    destruct (decide (dtype_of image = uint8)) as [Ht|Ht]; [|done].
    rewrite (convert_dict_Raise _ (AssertionError "image.dtype != np.uint8")) in Hpre;
      [done|done|].
    exists k, image. split_and!; [done..|].
    rewrite unnormalize_image_outcome. by rewrite decide_True. }
  destruct (convert_dict_Return _ _ d Hd) as (d1 & Hrun & Hd1).
  rewrite Hrun in Hpre. injection Hpre as ->.
  assert (∀ k image, d' !! k = Some (Some image) → str_contains "image" k = true →
            dtype_of image = uint8) as Hbytes.
  { intros k image Hk Hc. rewrite Hd1 in Hk. unfold converted in Hk.
    rewrite Hc in Hk. destruct (d !! k) as [[image0|]|]; simplify_eq/=. done. }
  destruct (convert_dict_Return normalize_image floats_of d') as (d'' & Hpost & Hd'').
  { intros k image Hk Hc. rewrite normalize_image_outcome.
    by rewrite decide_True by by eapply Hbytes. }
  split.
  - intros (k & image & Hk & Hc & _).
    apply convert_dict_Raise; [done|].
    exists k, (bytes_of rnd32 image). split_and!; [|done|].
    + rewrite Hd1, Hk. unfold converted. by rewrite Hc.
    + rewrite unnormalize_image_outcome. by rewrite decide_True.
  - exists d''. split_and!; [done| |].
    + intros k. rewrite Hd'', Hd1. unfold converted.
      destruct (str_contains "image" k); by destruct (d !! k) as [[?|]|].
    + intros (k & image & Hk & Hc & _).
      apply convert_dict_Raise; [done|].
      exists k, (floats_of (bytes_of rnd32 image)). split_and!; [|done|].
      * rewrite Hd'', Hd1, Hk. unfold converted. by rewrite Hc.
      * rewrite normalize_image_outcome. by rewrite decide_False.
Qed.

(** X14. The arrays of the buffer have the type that [__init__] gives
    them: bytes for a key that starts with ['image'], [float32] for any
    other key, whereas [postprocess_obs_dict] takes every key that
    contains ['image'] for an image of bytes.  So on a dict of rows of
    these arrays, as [random_batch] makes it, [postprocess_obs_dict]
    returns exactly when every key that contains ['image'] starts with it,
    and raises [AssertionError] otherwise. *)
Theorem postprocess_needs_image_prefix (d : gmap string (option tarray)) :
  (∀ k o, d !! k = Some o → ∃ rows, o = Some rows ∧ dtype_of rows = obs_dtype k) →
  ((∃ d', postprocess_obs_dict d = Return d') ↔
   (∀ k, is_Some (d !! k) → str_contains "image" k = true →
         String.prefix "image" k = true)) ∧
  ((∃ k, is_Some (d !! k) ∧ str_contains "image" k = true ∧
         String.prefix "image" k = false) →
   postprocess_obs_dict d = Raise (AssertionError "image.dtype == np.uint8")).
Proof.
  intros Hd. unfold postprocess_obs_dict.
  assert ((∃ k, is_Some (d !! k) ∧ str_contains "image" k = true ∧
                String.prefix "image" k = false) →
          foldM (convert normalize_image) d (map_to_list d)
          = Raise (AssertionError "image.dtype == np.uint8")) as Hraise.
  { intros (k & [o Hk] & Hc & Hp). destruct (Hd k o Hk) as (rows & -> & Ht).
    apply convert_dict_Raise.
    - intros image. rewrite normalize_image_outcome. destruct (decide _); eauto.
    - exists k, rows. split_and!; [done..|].
      rewrite normalize_image_outcome, decide_False; [done|].
      rewrite Ht. unfold obs_dtype. by rewrite Hp. }
  split; [split|done].
  - intros [d' Hrun] k Hk Hc.
    destruct (String.prefix "image" k) eqn:Hp; [done|].
    rewrite Hraise in Hrun; [done|]. by exists k.
  - intros Hkeys.
    destruct (convert_dict_Return normalize_image floats_of d) as (d' & Hrun & _);
      [|by exists d'].
    intros k image Hk Hc. rewrite normalize_image_outcome.
    destruct (Hd k _ Hk) as (rows & [= <-] & Ht).
    rewrite decide_True; [done|]. rewrite Ht. unfold obs_dtype.
    by rewrite Hkeys.
Qed.
End ImageLemmas.

Section Bytes.
Import Images ImagesSpec.
#[local] Existing Instance Binary64.binary64.
Context (rnd32 : Q → Q).

(** A byte divided by 255 and multiplied by 255 in binary64 arithmetic is
    the byte again, once truncated. *)
Lemma byte_round_trip (x : Q) :
  is_byte x → cast_uint8 (scale rnd32 float64 (rnd (x / 255))) = x.
Proof.
  intros (b & Hb & ->).
  assert (forallb
            (λ b, Z.eqb (int_of_float
                           (Binary64.round64 (Binary64.round64 (inject_Z b / 255) * 255))
                         `mod` 256) b)
            (seqZ 0 256) = true) as Hall by (by vm_compute).
  rewrite forallb_forall in Hall.
  specialize (Hall b). unfold cast_uint8, scale, rnd, Binary64.binary64.
  f_equal. apply Z.eqb_eq, Hall. apply list_elem_of_In, elem_of_seqZ. lia.
Qed.

(** X13. In binary64 arithmetic, an image of bytes survives
    [normalize_image] followed by [unnormalize_image] unchanged, and so
    does a dict whose images are of bytes through [postprocess_obs_dict]
    followed by [preprocess_obs_dict]: what a batch returns can be stored
    again without loss. *)
Theorem bytes_survive_normalization :
  (∀ image, dtype_of image = uint8 → Forall (Forall is_byte) (entries image) →
     ∃ floats, normalize_image image = Return floats ∧
       dtype_of floats = float64 ∧
       unnormalize_image rnd32 floats = Return image) ∧
  (∀ d : gmap string (option tarray),
     (∀ k image, d !! k = Some (Some image) → str_contains "image" k = true →
        dtype_of image = uint8 ∧ Forall (Forall is_byte) (entries image)) →
     ∃ d', postprocess_obs_dict d = Return d' ∧
       preprocess_obs_dict rnd32 d' = Return d).
Proof.
  assert (∀ image, dtype_of image = uint8 → Forall (Forall is_byte) (entries image) →
            bytes_of rnd32 (floats_of image) = image) as Hback.
  { intros [t rows] Ht Hrows. simpl in *. subst t.
    unfold bytes_of, floats_of. simpl. f_equal.
    rewrite map_map. rewrite <- (map_id rows) at 2.
    apply map_ext_in. intros row Hrow%list_elem_of_In.
    rewrite Forall_forall in Hrows. specialize (Hrows row Hrow).
    rewrite map_map. rewrite <- (map_id row) at 2.
    apply map_ext_in. intros v Hv%list_elem_of_In.
    rewrite Forall_forall in Hrows. by apply byte_round_trip, Hrows. }
  split.
  - intros image Ht Hrows. exists (floats_of image).
    rewrite normalize_image_outcome, decide_True by done.
    split_and!; [done..|].
    rewrite unnormalize_image_outcome, decide_False by done.
    by rewrite Hback.
  - intros d Hd. unfold postprocess_obs_dict, preprocess_obs_dict.
    destruct (convert_dict_Return normalize_image floats_of d) as (d' & Hrun & Hd').
    { intros k image Hk Hc. rewrite normalize_image_outcome.
      by rewrite decide_True by by eapply Hd. }
    exists d'. split; [done|].
    destruct (convert_dict_Return (unnormalize_image rnd32) (bytes_of rnd32) d')
      as (d'' & Hrun' & Hd'').
    { intros k image Hk Hc. rewrite unnormalize_image_outcome.
      rewrite decide_False; [done|].
      rewrite Hd' in Hk. unfold converted in Hk. rewrite Hc in Hk.
      by destruct (d !! k) as [[image0|]|]; simplify_eq/=. }
    rewrite Hrun'. f_equal. apply map_eq. intros k.
    rewrite Hd'', Hd'. unfold converted.
    destruct (str_contains "image" k) eqn:Hc; [|by destruct (d !! k) as [[?|]|]].
    destruct (d !! k) as [[image|]|] eqn:Hk; simpl; [|done..].
    destruct (Hd k image Hk Hc) as [Ht Hrows]. by rewrite Hback.
Qed.
End Bytes.

Section ImageExamples.
Import Images ImagesSpec Examples MoreExamples.

Lemma image_dict_bytes (k : string) (image : tarray) :
  image_dict !! k = Some (Some image) → str_contains "image" k = true →
  image = byte_image.
Proof.
  unfold image_dict. intros Hk Hc.
  apply lookup_insert_Some in Hk as [[<- [= <-]]|[_ Hk]]; [done|].
  apply lookup_insert_Some in Hk as [[<- _]|[_ Hk]]; [done|].
  by apply lookup_singleton_Some in Hk as [_ [=]].
Qed.

Lemma byte_image_bytes : Forall (Forall is_byte) (entries byte_image).
Proof.
  repeat constructor; [exists 0|exists 128|exists 255]; (split; [lia|done]).
Qed.

Lemma obs_dict_conversions_witness :
  has_image (λ t, t = uint8) image_dict ∧
  ¬ has_image (λ t, t ≠ uint8) image_dict ∧
  preprocess_obs_dict (H:=exact) (λ x, x) image_dict
  = Raise (AssertionError "image.dtype != np.uint8") ∧
  ∃ d', postprocess_obs_dict (H:=exact) image_dict = Return d' ∧
    ∀ k, d' !! k = converted (floats_of (H:=exact)) k <$> image_dict !! k.
Proof.
  assert (has_image (λ t, t = uint8) image_dict) as Hhas.
  { by exists "image_observation", byte_image. }
  assert (¬ has_image (λ t, t ≠ uint8) image_dict) as Hnot.
  { intros (k & image & Hk & Hc & Ht). by rewrite (image_dict_bytes k image) in Ht. }
  split; [exact Hhas|]. split; [exact Hnot|].
  destruct (obs_dict_conversions (H:=exact) (λ x, x) image_dict)
    as (Hpre & _ & _ & Hpost).
  split; [exact (Hpre Hhas)|exact (Hpost Hnot)].
Defined.

Lemma preprocess_then_postprocess_witness :
  preprocess_obs_dict (H:=exact) (λ x, x) latent_dict = Return latent_bytes ∧
  has_image (λ _, True) latent_dict ∧
  preprocess_obs_dict (H:=exact) (λ x, x) latent_bytes
  = Raise (AssertionError "image.dtype != np.uint8") ∧
  ∃ d'', postprocess_obs_dict (H:=exact) latent_bytes = Return d''.
Proof.
  assert (preprocess_obs_dict (H:=exact) (λ x, x) latent_dict = Return latent_bytes)
    as Hrun by (vm_compute; reflexivity).
  assert (has_image (λ _, True) latent_dict) as Hhas.
  { exists "latent_image", (TArray float32 [[0; 0]%Q]). by split_and!. }
  split; [exact Hrun|]. split; [exact Hhas|].
  destruct (preprocess_then_postprocess (H:=exact) (λ x, x) latent_dict latent_bytes
              Hrun)
    as (Htwice & d'' & Hpost & _).
  split; [exact (Htwice Hhas)|]. exists d''. exact Hpost.
Defined.

Lemma bytes_survive_normalization_witness :
  dtype_of byte_image = uint8 ∧ Forall (Forall is_byte) (entries byte_image) ∧
  (∃ floats, normalize_image (H:=Binary64.binary64) byte_image = Return floats ∧
     dtype_of floats = float64 ∧
     unnormalize_image (H:=Binary64.binary64) (λ x, x) floats = Return byte_image) ∧
  ∃ d', postprocess_obs_dict (H:=Binary64.binary64) image_dict = Return d' ∧
    preprocess_obs_dict (H:=Binary64.binary64) (λ x, x) d' = Return image_dict.
Proof.
  split; [done|]. split; [exact byte_image_bytes|].
  destruct (bytes_survive_normalization (λ x, x)) as [Himage Hdict].
  split; [exact (Himage byte_image eq_refl byte_image_bytes)|].
  apply Hdict. intros k image Hk Hc. rewrite (image_dict_bytes k image Hk Hc).
  split; [done|exact byte_image_bytes].
Defined.

Lemma postprocess_needs_image_prefix_witness :
  (∀ k o, latent_dict !! k = Some o →
     ∃ rows, o = Some rows ∧ dtype_of rows = obs_dtype k) ∧
  (∃ k, is_Some (latent_dict !! k) ∧ str_contains "image" k = true ∧
        String.prefix "image" k = false) ∧
  postprocess_obs_dict (H:=exact) latent_dict
  = Raise (AssertionError "image.dtype == np.uint8").
Proof.
  assert (∀ k o, latent_dict !! k = Some o →
            ∃ rows, o = Some rows ∧ dtype_of rows = obs_dtype k) as Htypes.
  { unfold latent_dict. intros k o [<- <-]%lookup_singleton_Some. by eexists. }
  assert (∃ k, is_Some (latent_dict !! k) ∧ str_contains "image" k = true ∧
               String.prefix "image" k = false) as Hkey.
  { exists "latent_image". by split_and!. }
  split; [exact Htypes|]. split; [exact Hkey|].
  exact (proj2 (postprocess_needs_image_prefix (H:=exact) latent_dict Htypes) Hkey).
Defined.
End ImageExamples.

(** * The paths that do not fit, and the encodings of [add_path] *)

Section TooLong.
Context {V : Type} `{Scalar V} `{FloatRounding}.
Import ObsDict ObsDictSpec.

(** More rows than the array has cannot be assigned to a slice of it. *)
Lemma setitem_slice_too_many (a : ndarray V) (hi : Z) (vals : list (Row V)) :
  Z.of_nat (length (rows a)) < hi →
  (length (rows a) < length vals)%nat → (2 ≤ length vals)%nat →
  Forall (λ r, length r = ncols a) vals →
  setitem_slice a 0 hi vals = Raise ValueError.
Proof.
  intros Hhi Hlen Htwo Hw. unfold setitem_slice, slice_indices, slice_bound.
  rewrite !bool_decide_eq_false_2 by lia.
  rewrite mapM_broadcast_same by done. simpl.
  rewrite bool_decide_eq_false_2 by lia.
  by destruct vals as [|r [|r' vals]]; simpl in *; [lia..|].
Qed.

(** X15. [add_path] of [ObsDictRelabelingBuffer] with a path of more than
    [2 * max_size - _top] steps raises [ValueError]: after the rows up to
    the end of the arrays, the steps left are more than the arrays have
    rows, and the assignment of the second slice fails. *)
Theorem add_path_too_long (b : Buffer V) (path : Path V) (n : nat)
    (acts : list (Row V)) :
  shaped b → fits b path n acts →
  2 * max_size b - _top b < Z.of_nat n →
  add_path b path = Raise ValueError.
Proof.
  intros Hb Hp Hlong. pose proof (shaped_top b Hb) as Htop.
  destruct (path_columns b path n acts Hb Hp) as (om & nom & Hom & Hnom & _ & Hkeys).
  unfold add_path.
  rewrite (fits_encode _ _ _ _ Hp), Hom, Hnom, (fits_rewards _ _ _ _ Hp).
  cbn [mbind result_bind]. cbv zeta.
  rewrite (bool_decide_eq_true_2 (max_size b ≤ _top b + Z.of_nat n)) by lia.
  cbn [foldM].
  set (m := max_size b) in *. set (top := _top b) in *.
  set (st0 := {| s_actions := _actions b |}).
  assert (Hpre1 : ∀ vals : list (Row V), length vals = n →
            cut_path (Some (0, m - top)) vals = take (Z.to_nat (m - top)) vals).
  { intros vals Hv. apply cut_path_pre. lia. }
  assert (Hpre2 : ∀ vals : list (Row V), length vals = n →
            cut_path (Some (m - top, Z.of_nat n)) vals
            = drop (Z.to_nat (m - top)) vals).
  { intros vals Hv. rewrite <- Hv. apply cut_path_post. lia. }
  destruct (store_slice_Return (preprocess_obs_dict om) (preprocess_obs_dict nom)
              top (top + (m - top)) (Some (0, m - top)) st0 ltac:(lia)
              (saved_keys b) acts (terminals path))
    as (st1 & Hrun1 & Ha1 & _).
  1-2: simpl; rewrite ?(shaped_actions b Hb), ?(shaped_terminals b Hb); lia.
  1-2: rewrite Hpre1 by apply Hp; rewrite length_take;
       rewrite ?(fits_actions _ _ _ _ Hp), ?(fits_terminals _ _ _ _ Hp); lia.
  1-2: rewrite Hpre1 by apply Hp; apply Forall_take; apply Hp.
  { intros key Hkey.
    destruct (Hkeys key Hkey)
      as (vals & a & nvals & na & ? & ? & ? & ? & ? & ? & ? & ? & ? & ?).
    exists vals, a, nvals, na.
    rewrite !Hpre1 by done. rewrite !length_take.
    split_and!; try done; try lia; by apply Forall_take. }
  rewrite Hrun1. cbn [mbind result_bind].
  unfold store_slice. cbn [fst snd].
  rewrite (setitem_slice_too_many (s_actions st1)); [done|..].
  - rewrite Ha1, length_patch. simpl. rewrite (shaped_actions b Hb). lia.
  - rewrite Ha1, length_patch, Hpre2 by apply Hp. simpl.
    rewrite (shaped_actions b Hb), length_drop, (fits_actions _ _ _ _ Hp). lia.
  - rewrite Hpre2 by apply Hp. rewrite length_drop, (fits_actions _ _ _ _ Hp). lia.
  - rewrite Hpre2 by apply Hp. rewrite Ha1. apply Forall_drop. apply Hp.
Qed.
End TooLong.

Section NewStateSlots.
Context {V : Type} `{Scalar V}.
Import NewStateObsDict NewStateSpec.

(** The write pointer and the size after a sequence of calls of
    [add_sample]. *)
Lemma add_samples_pointers (l : list (Sample V)) :
  ∀ b b' : Buffer V,
    shaped b → add_samples b l = Return b' →
    shaped b' ∧ max_size b' = max_size b ∧
    _top b' = (_top b + Z.of_nat (length l)) `mod` max_size b ∧
    _size b' = Z.max (_size b) (Z.min (_size b + Z.of_nat (length l)) (max_size b)).
Proof.
  induction l as [|[[[[o a] r] t] o'] l IH]; intros b b' Hb; simpl.
  - intros [= <-]. pose proof (shaped_top b Hb).
    rewrite Z.add_0_r, Z.mod_small by lia. split_and!; [done..|lia].
  - intros (b1 & H1 & Hrest)%bind_Return.
    destruct (add_sample_Return _ _ _ _ _ _ _ Hb H1)
      as (Hb1 & Hm1 & Htop1 & Hsize1 & _).
    destruct (IH b1 b' Hb1 Hrest) as (Hb' & Hm' & Htop' & Hsize').
    rewrite Hm1 in *. split_and!; [done..| |].
    + rewrite Htop', Htop1, Zplus_mod_idemp_l. f_equal. lia.
    + rewrite Hsize', Hsize1. case_bool_decide; lia.
Qed.

(** X16. [add_path] of the buffer with states takes [n + k * (n - 1)]
    slots for a path of [n] steps: the write pointer moves on by that
    number modulo [max_size], and the size grows by it up to [max_size].
    So a path with [max_size < n + k * (n - 1)] overwrites samples of its
    own. *)
Theorem newstate_add_path_slots (b b' : Buffer V) (path : Path V) (n : nat)
    (g g' : Rng) :
  shaped b → path_ok path n → (1 ≤ n)%nat → 0 ≤ k b →
  add_path b path g = Return (b', g') →
  let slots := Z.of_nat n + k b * (Z.of_nat n - 1) in
  max_size b' = max_size b ∧
  _top b' = (_top b + slots) `mod` max_size b ∧
  _size b' = Z.max (_size b) (Z.min (_size b + slots) (max_size b)).
Proof.
  intros Hb Hok Hn Hk Hrun slots.
  destruct (add_path_samples b path n g Hok Hn Hk)
    as (sels & g'' & Hlen & Hlater & Heq).
  rewrite Hrun in Heq. symmetry in Heq.
  apply bind_Return in Heq as (b'' & Hsamples & [= <- _]).
  destruct (add_samples_pointers _ b b'' Hb Hsamples) as (_ & Hm & Htop & Hsize).
  assert (Z.of_nat (length (hindsight_samples (env b) path sels)) = slots) as Hslots.
  { unfold hindsight_samples. rewrite (ok_rewards _ _ Hok).
    rewrite (length_samples_from (env b) path (k b) n n 0 sels Hlater Hlen).
    unfold slots.
    rewrite Nat2Z.inj_add, Nat2Z.inj_mul, Z2Nat.id, Nat2Z.inj_sub by lia. lia. }
  rewrite Hslots in Htop, Hsize. done.
Qed.
End NewStateSlots.

Section EmptyPath.
Context {V : Type} `{Scalar V}.

(** X17. A path without steps: [add_path] of the buffer with states
    returns without a change to the buffer and without a draw, while
    [add_path] of the image buffer raises [IndexError], at
    [len(actions[0])], and leaves the buffer as it was. *)
Theorem add_path_empty :
  (∀ (b : NewStateObsDict.Buffer V) (path : Path V) (g : Rng),
     rewards path = [] → NewStateObsDict.add_path b path g = Return (b, g)) ∧
  (∀ (w : ImgObsDict.World V) (path : Path V),
     rewards path = [] → actions path = [] →
     ImgObsDict.add_path path w = (Raise IndexError, w)).
Proof.
  split.
  - intros b path g Hr. unfold NewStateObsDict.add_path. by rewrite Hr.
  - intros w path Hr Ha. unfold ImgObsDict.add_path. rewrite Hr, Ha. done.
Qed.
End EmptyPath.

Section Encodings.
Context {V : Type} `{Scalar V}.

Lemma eye_row_outcome (n : nat) (a : Z) :
  eye_row n a
  = if decide (- Z.of_nat n ≤ a < Z.of_nat n)
    then Return (<[Z.to_nat (a `mod` Z.of_nat n) := one]> (replicate n zero))
    else Raise IndexError.
Proof.
  unfold eye_row, py_index. destruct (decide _) as [Ha|Ha].
  - destruct (decide (0 ≤ a)) as [Hpos|Hneg].
    + rewrite bool_decide_eq_true_2 by lia. simpl.
      by rewrite Z.mod_small by lia.
    + rewrite bool_decide_eq_false_2, bool_decide_eq_true_2 by lia. simpl.
      do 3 f_equal. apply Z.mod_unique with (q := -1); lia.
  - by rewrite !bool_decide_eq_false_2 by lia.
Qed.

Lemma mapM_eye_row_Return (n : nat) (l : list V) :
  Forall (λ a, - Z.of_nat n ≤ as_int a < Z.of_nat n) l →
  mapM (λ a, eye_row n (as_int a)) l
  = Return ((λ a, <[Z.to_nat (as_int a `mod` Z.of_nat n) := one]>
                    (replicate n zero)) <$> l).
Proof.
  intros Hall. apply mapM_ext_Return.
  eapply Forall_impl; [exact Hall|]. intros a Ha. simpl.
  by rewrite eye_row_outcome, decide_True.
Qed.

Lemma mapM_eye_row_Raise (n : nat) (l : list V) :
  ¬ Forall (λ a, - Z.of_nat n ≤ as_int a < Z.of_nat n) l →
  mapM (λ a, eye_row n (as_int a)) l = Raise IndexError.
Proof.
  induction l as [|a l IH]; intros Hno; simpl.
  - destruct Hno. constructor.
  - rewrite eye_row_outcome.
    destruct (decide (- Z.of_nat n ≤ as_int a < Z.of_nat n)) as [Ha|Ha]; [|done].
    simpl. rewrite IH; [done|]. intros Hall. apply Hno. by constructor.
Qed.

(** X18. The one-hot encoding of discrete actions,
    [np.eye(n)[actions].reshape((-1, n))]: one row of width [n] for each
    entry of the actions, with a one in the column of the entry, counted
    from the end when the entry is negative, and zeros elsewhere.  An
    entry outside [-n, n) raises [IndexError]. *)
Theorem one_hot_rows (n : nat) (actions : list (Row V)) :
  let in_range (a : V) := - Z.of_nat n ≤ as_int a < Z.of_nat n in
  (Forall in_range (concat actions) →
   ∃ rs, one_hot n actions = Return rs ∧
     length rs = length (concat actions) ∧
     ∀ p a, concat actions !! p = Some a →
       ∃ r, rs !! p = Some r ∧ length r = n ∧
         ∀ c, (c < n)%nat →
           r !! c = Some (if decide (Z.of_nat c = as_int a `mod` Z.of_nat n)
                          then one else zero)) ∧
  (¬ Forall in_range (concat actions) → one_hot n actions = Raise IndexError).
Proof.
  intros in_range. unfold one_hot.
  split; intros Hall.
  - eexists. split; [by apply mapM_eye_row_Return|].
    split; [by rewrite length_fmap|].
    intros p a Hp. eexists. rewrite list_lookup_fmap, Hp. split; [done|].
    rewrite length_insert, length_replicate. split; [done|].
    intros c Hc. rewrite Forall_forall in Hall.
    assert (in_range a) as Ha.
    { apply Hall. by eapply list_elem_of_lookup_2. }
    unfold in_range in Ha.
    assert (0 ≤ as_int a `mod` Z.of_nat n < Z.of_nat n) by (apply Z.mod_pos_bound; lia).
    destruct (decide (Z.of_nat c = as_int a `mod` Z.of_nat n)) as [Heq|Hne].
    + rewrite <- Heq, Nat2Z.id. rewrite list_lookup_insert_eq; [done|].
      by rewrite length_replicate.
    + rewrite list_lookup_insert_ne by lia. by apply lookup_replicate_2.
  - by apply mapM_eye_row_Raise.
Qed.

Lemma mapM_dict_getitem_Raise (key : string) (dicts : list (Obs V)) :
  ¬ Forall (λ d : Obs V, is_Some (d !! key)) dicts →
  mapM (λ d, dict_getitem d key) dicts = Raise (KeyError key).
Proof.
  induction dicts as [|d dicts IH]; intros Hno; cbn [mapM].
  - destruct Hno. constructor.
  - destruct (d !! key) as [r|] eqn:Hd.
    + assert (dict_getitem d key = Return r) as ->
        by (unfold dict_getitem; by rewrite Hd).
      simpl. rewrite IH; [done|]. intros Hall. apply Hno. by constructor.
    + assert (dict_getitem d key = Raise (KeyError key)) as ->
        by (unfold dict_getitem; by rewrite Hd).
      done.
Qed.

(** The loop of [flatten_dict] over keys that every dict has. *)
Lemma flatten_loop_Return (dicts : list (Obs V)) (keys : list string) :
  (∀ key, key ∈ keys → Forall (λ d : Obs V, is_Some (d !! key)) dicts) →
  ∀ acc : gmap string (list (Row V)),
    ∃ m, foldM (λ acc key,
                  column ← mapM (λ d, dict_getitem d key) dicts;
                  Return (<[key := flatten_n column]> acc)) acc keys
         = Return m ∧
         ∀ key, m !! key = if decide (key ∈ keys) then Some (column key dicts)
                           else acc !! key.
Proof.
  induction keys as [|k keys IH]; intros Hkeys acc; cbn [foldM].
  - exists acc. split; [done|]. intros key.
    destruct (decide (key ∈ [])) as [Hin|]; [by apply elem_of_nil in Hin|done].
  - rewrite mapM_dict_getitem by (apply Hkeys; left). cbn [mbind result_bind].
    destruct (IH (λ key Hk, Hkeys key (list_elem_of_further _ _ _ Hk))
                (<[k := flatten_n (column k dicts)]> acc)) as (m & Hrun & Hm).
    exists m. split; [done|]. intros key. rewrite Hm.
    destruct (decide (key ∈ keys)) as [Hin|Hout].
    + by rewrite decide_True by set_solver.
    + destruct (decide (key = k)) as [->|Hne].
      * rewrite decide_True by set_solver. by rewrite lookup_insert_eq.
      * rewrite decide_False by set_solver. by rewrite lookup_insert_ne.
Qed.

(** X19. [flatten_dict] turns a list of dicts into a dict of arrays: for
    dicts that all have the keys asked for, with rows of one width under
    each key, it returns a dict with exactly these keys, whose array
    under a key has the row of dict [j] under that key as its row [j].
    When a dict lacks a key, it raises [KeyError] for the first such
    key. *)
Theorem flatten_dict_transposes (dicts : list (Obs V)) (keys : list string) :
  (dicts ≠ [] →
   (∀ key, key ∈ keys → ∃ width,
      Forall (λ d : Obs V, ∃ r, d !! key = Some r ∧ length r = width) dicts) →
   ∃ m, flatten_dict dicts keys = Return m ∧
     (∀ key, is_Some (m !! key) ↔ key ∈ keys) ∧
     ∀ key array, m !! key = Some array →
       length array = length dicts ∧
       ∀ j d, dicts !! j = Some d → Some <$> array !! j = Some (d !! key)) ∧
  (∀ pre key post, keys = pre ++ key :: post →
     (∀ key', key' ∈ pre → Forall (λ d : Obs V, is_Some (d !! key')) dicts) →
     ¬ Forall (λ d : Obs V, is_Some (d !! key)) dicts →
     flatten_dict dicts keys = Raise (KeyError key)).
Proof.
  split.
  - intros _ Hkeys.
    assert (∀ key, key ∈ keys → Forall (λ d : Obs V, is_Some (d !! key)) dicts)
      as Hhas.
    { intros key Hkey. destruct (Hkeys key Hkey) as [width Hall].
      eapply Forall_impl; [exact Hall|]. intros d (r & Hr & _). by eexists. }
    destruct (flatten_loop_Return dicts keys Hhas ∅) as (m & Hrun & Hm).
    exists m. split; [exact Hrun|]. split.
    + intros key. rewrite Hm. destruct (decide (key ∈ keys)); [done|].
      rewrite lookup_empty. split; [by intros [? [=]]|done].
    + intros key array. rewrite Hm.
      destruct (decide (key ∈ keys)) as [Hkey|Hkey]; [|by rewrite lookup_empty].
      intros [= <-]. split; [apply length_column|].
      intros j d Hd. rewrite (column_lookup key dicts j d Hd). simpl.
      specialize (Hhas key Hkey). rewrite Forall_forall in Hhas.
      destruct (Hhas d) as [r ->]; [by eapply list_elem_of_lookup_2|done].
  - intros pre key post -> Hpre Hno. unfold flatten_dict.
    rewrite foldM_app.
    destruct (flatten_loop_Return dicts pre Hpre ∅) as (m & -> & _).
    simpl. by rewrite mapM_dict_getitem_Raise.
Qed.
End Encodings.

Section MoreBufferExamples.
Import Examples MoreExamples.
#[local] Existing Instance exact.

Lemma path6_fits : ObsDictSpec.fits (fresh_at 3 3) path6 6 (actions path6).
Proof.
  constructor; simpl; try done.
  - repeat constructor.
  - repeat constructor.
  - intros key arr Hkey. unfold ObsDict.saved_keys in Hkey. simpl in Hkey.
    repeat (apply elem_of_cons in Hkey as [->|Hkey]);
      [intros [= <-]; repeat constructor; eexists; split; reflexivity..|].
    by apply not_elem_of_nil in Hkey.
  - intros key arr Hkey. unfold ObsDict.saved_keys in Hkey. simpl in Hkey.
    repeat (apply elem_of_cons in Hkey as [->|Hkey]);
      [intros [= <-]; repeat constructor; eexists; split; reflexivity..|].
    by apply not_elem_of_nil in Hkey.
Qed.

Lemma add_path_too_long_witness :
  ObsDictSpec.shaped (fresh_at 3 3) ∧
  ObsDictSpec.fits (fresh_at 3 3) path6 6 (actions path6) ∧
  2 * ObsDict.max_size (fresh_at 3 3) - ObsDict._top (fresh_at 3 3) < Z.of_nat 6 ∧
  ObsDict.add_path (fresh_at 3 3) path6 = Raise ValueError.
Proof.
  assert (ObsDictSpec.shaped (fresh_at 3 3)) as Hb by (apply fresh_at_shaped; lia).
  split; [exact Hb|]. split; [exact path6_fits|]. split; [simpl; lia|].
  apply (add_path_too_long (fresh_at 3 3) path6 6 (actions path6) Hb path6_fits).
  simpl. lia.
Defined.

Lemma newstate_add_path_slots_witness :
  NewStateSpec.shaped fresh_newstate ∧ NewStateSpec.path_ok (path3 10) 3 ∧
  NewStateObsDict.add_path fresh_newstate (path3 10) sevens
  = Return (newstate_filled, newstate_rng) ∧
  NewStateObsDict.max_size newstate_filled = 4 ∧
  NewStateObsDict._top newstate_filled = (0 + (3 + 2 * (3 - 1))) `mod` 4 ∧
  NewStateObsDict._size newstate_filled
  = Z.max 0 (Z.min (0 + (3 + 2 * (3 - 1))) 4).
Proof.
  assert (NewStateObsDict.add_path fresh_newstate (path3 10) sevens
          = Return (newstate_filled, newstate_rng)) as Hrun
    by (vm_compute; reflexivity).
  split; [exact fresh_newstate_shaped|]. split; [exact (path3_ok 10)|].
  split; [exact Hrun|].
  apply (newstate_add_path_slots fresh_newstate newstate_filled (path3 10) 3
           sevens newstate_rng fresh_newstate_shaped (path3_ok 10));
    [lia|simpl; lia|exact Hrun].
Defined.

Lemma add_path_empty_witness :
  rewards no_steps = [] ∧ actions no_steps = [] ∧
  NewStateObsDict.add_path fresh_newstate no_steps sevens
  = Return (fresh_newstate, sevens) ∧
  ImgObsDict.add_path no_steps img_world = (Raise IndexError, img_world).
Proof.
  split; [reflexivity|]. split; [reflexivity|]. split.
  - exact (proj1 (add_path_empty (V:=Z)) fresh_newstate no_steps sevens eq_refl).
  - exact (proj2 (add_path_empty (V:=Z)) img_world no_steps eq_refl eq_refl).
Defined.

Lemma one_hot_rows_witness :
  Forall (λ a : Z, - Z.of_nat 3 ≤ as_int a < Z.of_nat 3) (concat [[0]; [2]; [-1]]) ∧
  ∃ rs, one_hot 3 [[0]; [2]; [-1]] = Return rs ∧
    length rs = length (concat [[0]; [2]; [-1]]) ∧
    ∀ p a, concat [[0]; [2]; [-1]] !! p = Some a →
      ∃ r, rs !! p = Some r ∧ length r = 3%nat ∧
        ∀ c, (c < 3)%nat →
          r !! c = Some (if decide (Z.of_nat c = as_int a `mod` Z.of_nat 3)
                         then one else zero).
Proof.
  assert (Forall (λ a : Z, - Z.of_nat 3 ≤ as_int a < Z.of_nat 3)
            (concat [[0]; [2]; [-1]])) as Hall.
  { repeat constructor; simpl; lia. }
  split; [exact Hall|].
  exact (proj1 (one_hot_rows (V:=Z) 3 [[0]; [2]; [-1]]) Hall).
Defined.

Lemma flatten_dict_transposes_witness :
  observations (path3 10) ≠ [] ∧
  (∀ key, key ∈ ["observation"; "desired_goal"] → ∃ width,
     Forall (λ d : Obs Z, ∃ r, d !! key = Some r ∧ length r = width)
       (observations (path3 10))) ∧
  (∃ m, flatten_dict (observations (path3 10)) ["observation"; "desired_goal"]
        = Return m ∧
     (∀ key, is_Some (m !! key) ↔ key ∈ ["observation"; "desired_goal"]) ∧
     ∀ key array, m !! key = Some array →
       length array = length (observations (path3 10)) ∧
       ∀ j d, observations (path3 10) !! j = Some d →
              Some <$> array !! j = Some (d !! key)) ∧
  flatten_dict (observations (path3 10)) ["observation"; "state"]
  = Raise (KeyError "state").
Proof.
  assert (∀ key, key ∈ ["observation"; "desired_goal"] → ∃ width,
            Forall (λ d : Obs Z, ∃ r, d !! key = Some r ∧ length r = width)
              (observations (path3 10))) as Hkeys.
  { intros key Hkey.
    repeat (apply elem_of_cons in Hkey as [->|Hkey]);
      [eexists; repeat constructor; eexists; split; reflexivity..|].
    by apply not_elem_of_nil in Hkey. }
  split; [done|]. split; [exact Hkeys|]. split.
  - exact (proj1 (flatten_dict_transposes (V:=Z) (observations (path3 10))
                    ["observation"; "desired_goal"]) ltac:(done) Hkeys).
  - apply (proj2 (flatten_dict_transposes (V:=Z) (observations (path3 10))
                    ["observation"; "state"]) ["observation"] "state" [] eq_refl).
    + intros key [->|Hkey]%elem_of_cons; [|by apply not_elem_of_nil in Hkey].
      repeat constructor; by eexists.
    + intros [[r Hr] _]%Forall_cons. by vm_compute in Hr.
Defined.
End MoreBufferExamples.
